(* ===== verification/_CoqProject ===== *)
-Q . S2P
Prelude.v
Chars.v
Sha256.v
Uuid.v
Float64.v
Json.v
JsonFacts.v
Time.v
Protocol.v
Http.v
Identity.v
Model.v
Messages.v
Fits.v
StateCheck.v
Store.v
StoreFacts.v
OutboxFacts.v
StoreSpec.v
Observation.v
Service.v
ServiceFacts.v
ServiceSpec.v
ResetSpec.v
Ledger.v
LedgerSpec.v
FactsSpec.v
Session.v
Bootstrap.v
QueueSpec.v
Analytics.v
Texts.v
Delivery.v
Subscription.v
MainLoop.v
Contexts.v
Demo.v
Transport.v
Files.v
Tokens.v
Faults.v
Directories.v
Process.v
