(* ===== verification/Prelude.v ===== *)
(** * Tire Health Service: a verification development

    The service scores the condition of a vehicle's tires.  It runs as two processes: a bootstrap
    process that exchanges a secret for a token and keeps the token file within its lease,
    and an analytics process that subscribes to fifteen signals of a data broker, cuts exercises
    out of them, assesses them, records assessments and advisories durably, sends them to a
    backend through an outbox and to the vehicle's gateway through the broker, and accepts resets
    for demonstrations.  This development models the C++ sources under src/ (file names below are
    relative to it) and proves what makes them correct.  Names are the source's where possible.

    ** Conventions

    Fallible code returns [res] (an exception is a value of [exn]); code over state returns the
    state it leaves also when it throws, so what was changed before a throw stays changed.  The
    durable store and the handlers over it may also be stopped ([Stopped] of [outcome]): the
    machine carries the number of steps it still makes and what an interrupted write leaves.
    Integers are [Z]; where the C++ type wraps or truncates the model does ([mod], [to_int]).
    Doubles are [spec_float] of binary64 with the operations of IEEE 754 (Float64).  Maps of
    strings are ordered association lists where the order is visible in a text ([Object]) and
    stdpp's finite maps elsewhere (directories, header fields, the log).

    ** Files, parts and sources

    - Prelude: exceptions, the monad of fallible code, tactics.  Chars: characters and strings.
    - Sha256 (src/runtime/sha256.cpp), Uuid (src/runtime/uuid.cpp, random_uuid and is_uuid),
      Float64 (the double operations the sources use).
    - Json (include/tire_health/runtime/json.hpp, src/runtime/json.cpp and canonical of
      src/runtime/protocol.cpp), JsonFacts: the parser's and the canonical form's theorems.
    - Time (date_time, utc_timestamp), Protocol (the rest of src/runtime/protocol.cpp), Http
      (parse_http_response, post_backend, post_demo_control of src/runtime/posix.cpp), Transport
      (wait, exchange and exchange_credential there), Files (its readers and writers of files).
    - Identity (include/tire_health/service_identity.hpp, src/runtime/application.cpp).
    - Model (first half of src/model.cpp: assess, extract_features, EpisodeEngine), Messages (its
      second half), Fits: the nesting of what is stored.
    - StateCheck (validate_state of src/state.cpp), Store (StateStore as a machine of directory
      operations), StoreFacts and OutboxFacts (its lemmas), StoreSpec (its contract), Faults (its
      writes, removals, replay and commit call by call, where any call may fail, those of the
      catch clauses too).
    - Observation and Ledger (include/aosedge/function_observation.hpp: content, FunctionFacts,
      FunctionObservation), LedgerSpec and FactsSpec (their contracts), Directories (how the
      constructor makes its directory).
    - Service (src/runtime.cpp, one definition per handler of Runtime), ServiceFacts (a weakest
      precondition calculus and what every handler keeps), ServiceSpec (the runtime as a system
      of steps: [Event], [handle], [System], [step]), ResetSpec (advisories and demo resets),
      QueueSpec (what happens to queued messages).
    - Session (include/tire_health/runtime/session_reconnect.hpp, readiness_publication.hpp and
      the names of src/runtime/token_session.cpp), Tokens (the rest of that file over a tree of
      nodes, and read_private_token of src/runtime/application.cpp), Bootstrap (the credential
      loop of src/runtime/bootstrap_main.cpp), Process (main and stop_child there).
    - Analytics, Delivery, Subscription, MainLoop (src/runtime/grpc_main.cpp: log and shared
      state; deliver; the pieces of subscribe; subscribe, the session loop and main).  Each
      thread's code is a computation over the shared runtime and its own variables; [others] says
      which handlers the other threads run between two of its own, so every theorem there holds of
      every interleaving of handlers ([renewal_keeps_work] asks that only the delivery thread's
      run once [subscribe] has ended, as the joins of its destructors see to).
    - Contexts (the threads of one subscribe there: the contexts of their calls, the mutex and the
      flags they share, cancellation, start, unwinding and joins), as one step function over three
      program counters.  Texts (what Log::state writes, and the request for a token of
      src/runtime/protocol.cpp).
    - Demo (include/tire_health/runtime/demo_mock.hpp and demo_no_telemetry.hpp).

    ** How the parts interact

    The store promises ([StoreSpec]): a commit happens entirely or not at all and recovery can be
    restarted.  On it the runtime's handlers keep [served]: a store at rest whose state passes
    validate_state; [steps] is what each of them does to the durable state, and [service_history]
    follows for any sequence of events, stops and starts.  The threads of the analytics process
    are proved against that system: the delivery thread and the main thread are histories
    ([deliver_history], [analytics_main_history]), so they discharge what the histories ask of
    their caller (accept is called only for a message that is not blocked, metadata is of a
    checked index).  The observation stream is the second durable object; its contract is
    [stream_safe] with the operations' own theorems.  Between the two processes stand the token
    file and the child's start: [token_handover] says that the token one process accepts from the
    exchange is the one the other reads, [child_accepts] that the start-up checks of the analytics
    process ([analytics_start]) accept what the bootstrap process ([bootstrap_main]) gives it.
    A session's threads meet twice: in the handlers they call, where MainLoop and Delivery let the
    others run, and in the contexts of their calls, where Contexts does; there a handler is one
    step whose result is a [Choice], and a call is a place where a thread may stay until its
    context is cancelled or its deadline has come.
    [exchange_with] is the exchange of bytes the requests of Http take as an argument, and
    [reading_atomic] lets the rest of the development speak of the bytes of a file.

    ** What the theorems show

    - Durability: [commit_atomic], [recovery_restartable], [durable_write_refines],
      [failed_commit], [acknowledge_exact], [pending_least], [messages_kept],
      [backend_unreachable], [stream_safe], [stream_reopens], [observe_keeps_attempted],
      [accept_first], [atomic_private_file_atomic], [directory_prepared].
    - The service and its threads: [service_history], [next_advisory_durable],
      [gateway_status_guarded], [reset_command_once], [reset_memory], [deliver_history],
      [analytics_main_history], [renewal_keeps_work] (what the end of a session keeps and what it
      drops), [advisory_turn_durable], [demo_history].
    - A session's threads: [interruption_cancels] (no call of an interrupted session is left
      uncancelled), [session_ends] and [unwinding_ends] (no deadlock, and a bound on the steps),
      [unavailable_sticky].
    - Processes, sessions and tokens: [bootstrap_leaves_nothing], [child_accepts],
      [token_sessions], [token_directory_exact], [token_handover], [token_within_lease],
      [parse_credential_ok], [readiness_due].
    - The model: [engine_reports_exercises], [exercise_ends], [band_hysteresis], [assess_score],
      [extract_features_defined].
    - Inputs and formats: [exchange_exact], [post_backend_total], [reading_atomic],
      [parse_http_response_total], [verify_metadata_exact], [update_collects],
      [complete_frame_spec], [canonical_roundtrip], [parse_json_total], [facts_typed],
      [uuid_text_roundtrip], [metadata_binding_roundtrip], [utc_timestamp_order], [log_bounded],
      [log_output_read], [credential_request_read].
    - What the modelling found: [torn_journal_refused], [failed_cleanup_refused],
      [failed_commit_splits], [reset_memory], [busy_renewal_reported] and [delivery_misreported] state behaviours the sources' comments or
      names do not promise.

    ** Bounds and fuel

    The JSON parser's fuel is the length of its text plus its depth bound of 24; [parse_json_total]
    shows that it never runs out.  The chunk loop's fuel is the length of the body.  An opening
    makes at most [open_steps] = 29 steps.  Loops over system calls recurse on the list of the
    calls' answers; [exchange_ends], [post_backend_total], [reading_atomic] and
    [write_loop_ends] say when a list is long enough.  Contexts has no fuel: [exec] runs a list of
    steps, and 54 and 50 bound how long such lists are.  The outbox holds at most 256 messages of 16384 bytes
    and two MiB, the ledger 64 messages and 700000 bytes, a state 131072 bytes.

    ** Not modelled

    The system calls themselves: what sockets, files, directories, clocks, fork, exec and signals
    answer is in the arguments ([connection], [read_answer], [write_answer], [Calls], [Host],
    [World]), and sleeping has no effect.  The directories of StateStore (the function directory
    of src/state.cpp) follow links, which the tree of Tokens does not resolve.  The generated gRPC
    client is third-party code: what its calls yield in a session is [SessionScript], and that a
    call whose context is cancelled or has a deadline ends is what [blocked] of Contexts uses.  In
    Contexts the time a sleep or a deadline takes is not measured, and std::thread's own failures
    are those of its start.  In Faults the calls that only look (lstat, the reading of the queue's
    files) do not fail by themselves.  In Process the destructor's removal of the session's empty
    directory succeeds; [destroy_calls] of Tokens has its failure.  The build files, tests and tools are no part of the service. *)
From Stdlib Require Import ZArith Lia Bool Ascii String.
From stdpp Require Import gmap strings list.
Local Open Scope Z_scope.

(** ** Exceptions and fallible computations *)

(** What a C++ function of the program may throw.  The two standard classes the code
    constructs carry their [what()] text; [std::get] on the wrong alternative and
    [std::map::at] on a missing key throw the library's own exceptions.  [FuelExhausted] is no
    exception of the program: a fuelled definition returns it when its fuel runs out, and each
    such definition has a theorem that this does not happen. *)
Inductive exn :=
  | InvalidArgument (what : string)
  | RuntimeError (what : string)
  | BadVariantAccess
  | OutOfRange
  | FuelExhausted.

#[export] Instance exn_eq_dec : EqDecision exn.
Proof. solve_decision. Defined.

Inductive res (A : Type) :=
  | Ok (a : A)
  | Err (e : exn).
Arguments Ok {A} _.
Arguments Err {A} _.

#[export] Instance res_eq_dec {A} `{EqDecision A} : EqDecision (res A).
Proof. solve_decision. Defined.
#[export] Instance res_mret : MRet res := @Ok.
#[export] Instance res_mbind : MBind res := fun A B f m =>
  match m with Ok a => f a | Err e => Err e end.
#[export] Instance res_fmap : FMap res := fun A B f m =>
  match m with Ok a => Ok (f a) | Err e => Err e end.

(** [if (!b) throw e;] *)
Definition require (b : bool) (e : exn) : res unit := if b then Ok tt else Err e.
(** [if (b) throw e;] *)
Definition throw_if (b : bool) (e : exn) : res unit := if b then Err e else Ok tt.
Definition of_option {A} (e : exn) (o : option A) : res A :=
  match o with Some a => Ok a | None => Err e end.
(** [try { return m; } catch (...) { return d; }] *)
Definition catch_all {A} (m : res A) (d : A) : A := match m with Ok a => a | Err _ => d end.
Definition is_ok {A} (m : res A) : bool := match m with Ok _ => true | Err _ => false end.

Section ResLemmas.
Context {A B : Type}.
Implicit Types (m : res A) (k : A -> res B).

Lemma bind_Ok m k b : (m ≫= k) = Ok b <-> exists a, m = Ok a /\ k a = Ok b.
Proof. destruct m; cbn; naive_solver. Qed.
Lemma bind_Err m k e :
  (m ≫= k) = Err e <-> m = Err e \/ exists a, m = Ok a /\ k a = Err e.
Proof. destruct m; cbn; naive_solver. Qed.
Lemma of_option_Ok e (o : option A) a : of_option e o = Ok a <-> o = Some a.
Proof. destruct o; cbn; naive_solver. Qed.
Lemma is_ok_iff m : is_ok m = true <-> exists a, m = Ok a.
Proof. destruct m; cbn; naive_solver. Qed.
End ResLemmas.

(** Injectivity that keeps the terms folded, unlike [injection]. *)
Lemma Ok_inj {A} (a b : A) : Ok a = Ok b -> a = b.
Proof. congruence. Qed.
Lemma require_Ok b e u : require b e = Ok u <-> b = true.
Proof. destruct b, u; cbn; naive_solver. Qed.
Lemma throw_if_Ok b e u : throw_if b e = Ok u <-> b = false.
Proof. destruct b, u; cbn; naive_solver. Qed.

(** Splits hypotheses that say a monadic computation returned. *)
Ltac inv_res :=
  repeat match goal with
  | H : mbind _ _ = Ok _ |- _ => apply bind_Ok in H; destruct H as (? & ? & ?)
  | H : require _ _ = Ok _ |- _ => apply require_Ok in H
  | H : throw_if _ _ = Ok _ |- _ => apply throw_if_Ok in H
  | H : of_option _ _ = Ok _ |- _ => apply of_option_Ok in H
  | H : Ok _ = Ok _ |- _ => injection H as H; try subst
  | H : Err _ = Ok _ |- _ => discriminate H
  | H : mret _ = Ok _ |- _ => unfold mret, res_mret in H
  | H : prod _ _ |- _ => destruct H
  | H : unit |- _ => destruct H
  end.

(** Case analysis on the booleans of the code: one step of [if]/[match]. *)
Ltac case_code :=
  match goal with
  | |- context [if ?b then _ else _] => let E := fresh "E" in destruct b eqn:E
  | |- context [match ?x with _ => _ end] => let E := fresh "E" in destruct x eqn:E
  end.

(** Case analysis on a conjunction of tests in the goal. *)
Ltac case_and :=
  match goal with
  | |- context [?a && ?b] => let E := fresh "E" in destruct (a && b) eqn:E
  end.

(** Turns boolean tests in hypotheses into propositions [lia] understands. *)
Ltac b2p :=
  repeat match goal with
  | H : (_ && _) = true |- _ => apply andb_true_iff in H; destruct H
  | H : (_ || _) = false |- _ => apply orb_false_iff in H; destruct H
  | H : negb _ = true |- _ => apply negb_true_iff in H
  | H : negb _ = false |- _ => apply negb_false_iff in H
  | H : (_ <? _) = true |- _ => apply Z.ltb_lt in H
  | H : (_ <? _) = false |- _ => apply Z.ltb_ge in H
  | H : (_ <=? _) = true |- _ => apply Z.leb_le in H
  | H : (_ <=? _) = false |- _ => apply Z.leb_gt in H
  | H : (_ =? _) = true |- _ => apply Z.eqb_eq in H
  | H : (_ =? _) = false |- _ => apply Z.eqb_neq in H
  end.
