(* ===== verification/Chars.v ===== *)
(** * Characters, std::string and decimal numerals

    [std::string] is [String.string], a sequence of bytes; [char] is [ascii].  The file holds
    the byte values, the character classes the code tests, [std::to_string] on integers, the
    zero-padded fields of [std::setw], the digit accumulation of [std::from_chars], and the
    byte-wise order of [std::string::operator<]. *)
From Stdlib Require Import ZArith Lia Bool Ascii String.
From stdpp Require Import gmap strings list.
From S2P Require Import Prelude.
Local Open Scope Z_scope.

(** ** Bytes *)

(** [static_cast<unsigned char>(c)] *)
Definition code (c : ascii) : Z := Z.of_N (N_of_ascii c).
(** [static_cast<char>(n)] for a byte value. *)
Definition chr (n : Z) : ascii := ascii_of_N (Z.to_N n).
Abbreviation chars := list_ascii_of_string.
Abbreviation str := string_of_list_ascii.
(** [s.size()] *)
Definition ssize (s : string) : Z := Z.of_nat (String.length s).

Lemma code_range c : 0 <= code c < 256.
Proof.
  unfold code. pose proof (N_ascii_bounded c). lia.
Qed.
Lemma code_chr n : 0 <= n < 256 -> code (chr n) = n.
Proof.
  intros H. unfold code, chr. rewrite N_ascii_embedding by lia. lia.
Qed.
Lemma chr_code c : chr (code c) = c.
Proof. unfold code, chr. rewrite N2Z.id. apply ascii_N_embedding. Qed.
Lemma code_inj c d : code c = code d -> c = d.
Proof. intros H. rewrite <- (chr_code c), <- (chr_code d). by rewrite H. Qed.

Lemma chars_str l : chars (str l) = l.
Proof. apply list_ascii_of_string_of_list_ascii. Qed.
Lemma str_chars s : str (chars s) = s.
Proof. apply string_of_list_ascii_of_string. Qed.
Lemma chars_inj s t : chars s = chars t -> s = t.
Proof. intros H. by rewrite <- (str_chars s), <- (str_chars t), H. Qed.
Lemma length_chars s : List.length (chars s) = String.length s.
Proof. induction s as [|c s IH]; [done|]. cbn. by rewrite IH. Qed.
Lemma chars_app s t : chars (s +:+ t) = chars s ++ chars t.
Proof.
  induction s as [|c s IH]; [done|].
  change (String c s +:+ t) with (String c (s +:+ t)). cbn. by rewrite IH.
Qed.
Lemma str_app l k : str (l ++ k) = str l +:+ str k.
Proof. apply chars_inj. by rewrite chars_app, !chars_str. Qed.
Lemma ssize_chars s : ssize s = Z.of_nat (List.length (chars s)).
Proof. unfold ssize. by rewrite length_chars. Qed.
Lemma ssize_app s t : ssize (s +:+ t) = ssize s + ssize t.
Proof. rewrite !ssize_chars, chars_app, length_app. lia. Qed.
Lemma ssize_nonneg s : 0 <= ssize s.
Proof. unfold ssize. lia. Qed.

(** ** Character classes, as the code writes them: [c >= lo && c <= hi] *)

Definition between (lo hi c : ascii) : bool := (code lo <=? code c) && (code c <=? code hi).
Definition is_digit : ascii -> bool := between "0" "9".
Definition is_lower : ascii -> bool := between "a" "z".
Definition is_upper : ascii -> bool := between "A" "Z".
Definition alnum (c : ascii) : bool := is_upper c || is_lower c || is_digit c.
Definition is_hex_lower (c : ascii) : bool := is_digit c || between "a" "f" c.
Definition is_hex (c : ascii) : bool := is_digit c || between "a" "f" c || between "A" "F" c.
(** [std::all_of] over a string. *)
Definition all_of (p : ascii -> bool) (s : string) : bool := forallb p (chars s).
(** [s.front()], [s.back()] *)
Definition front (s : string) : option ascii := head (chars s).
Definition back (s : string) : option ascii := last (chars s).
(** [s[i]] *)
Definition char_at (s : string) (i : nat) : option ascii := chars s !! i.
(** [s.substr(pos, n)] *)
Definition substr (pos n : nat) (s : string) : string := str (take n (drop pos (chars s))).
(** [s.find_first_of(set) != npos] *)
Definition contains_any (set : list ascii) (s : string) : bool :=
  existsb (fun c => existsb (Ascii.eqb c) set) (chars s).
(** [std::count(s.begin(), s.end(), c)] *)
Definition count_char (c : ascii) (s : string) : Z :=
  Z.of_nat (List.length (List.filter (Ascii.eqb c) (chars s))).

Definition is_prefix (p s : list ascii) : bool := bool_decide (take (List.length p) s = p).
(** [s.find(p)]: the position of the first occurrence. *)
Fixpoint find_sub (p s : list ascii) : option nat :=
  if is_prefix p s then Some 0%nat
  else match s with
       | [] => None
       | _ :: s' => S <$> find_sub p s'
       end.

Lemma is_prefix_app p s : is_prefix p (p ++ s) = true.
Proof. unfold is_prefix. apply bool_decide_eq_true. by rewrite take_app_length. Qed.
Lemma is_prefix_true p s : is_prefix p s = true -> exists t, s = p ++ t.
Proof.
  unfold is_prefix. rewrite bool_decide_eq_true. intros H.
  exists (drop (List.length p) s). rewrite <- H at 1. by rewrite take_drop.
Qed.

(** ** The order of [std::string] ([char_traits<char>::compare]): bytes, lexicographic *)

Fixpoint chars_ltb (s t : list ascii) : bool :=
  match s, t with
  | _, [] => false
  | [], _ :: _ => true
  | c :: s', d :: t' =>
    (code c <? code d) || ((code c =? code d) && chars_ltb s' t')
  end.
Definition str_ltb (s t : string) : bool := chars_ltb (chars s) (chars t).
Definition str_leb (s t : string) : bool := negb (str_ltb t s).

Arguments str_ltb : simpl never.
Arguments code : simpl never.
Arguments between : simpl never.

Lemma chars_ltb_irrefl s : chars_ltb s s = false.
Proof. induction s as [|c s IH]; [done|]. cbn. rewrite Z.ltb_irrefl, IH. by rewrite andb_false_r. Qed.
Lemma chars_ltb_trans s t u : chars_ltb s t = true -> chars_ltb t u = true -> chars_ltb s u = true.
Proof.
  revert t u. induction s as [|c s IH]; intros [|d t] [|e u]; cbn; try done.
  rewrite !orb_true_iff, !andb_true_iff, !Z.ltb_lt, !Z.eqb_eq.
  intros [?|[? H1]] [?|[? H2]]; try (left; lia).
  right. split; [lia|]. eauto.
Qed.
Lemma chars_ltb_total s t : chars_ltb s t = false -> chars_ltb t s = false -> s = t.
Proof.
  revert t. induction s as [|c s IH]; intros [|d t]; cbn; try done.
  rewrite !orb_false_iff, !andb_false_iff, !Z.ltb_ge, !Z.eqb_neq.
  intros [H1 H2] [H3 H4].
  assert (code c = code d) by lia. f_equal; [by apply code_inj|].
  apply IH; [destruct H2|destruct H4]; auto; lia.
Qed.
Lemma chars_ltb_asym s t : chars_ltb s t = true -> chars_ltb t s = false.
Proof.
  intros H. destruct (chars_ltb t s) eqn:E; [|done].
  pose proof (chars_ltb_trans _ _ _ H E). by rewrite chars_ltb_irrefl in *.
Qed.
Lemma chars_ltb_app p s t : chars_ltb (p ++ s) (p ++ t) = chars_ltb s t.
Proof. induction p as [|c p IH]; [done|]. cbn. by rewrite Z.ltb_irrefl, Z.eqb_refl, IH. Qed.

Lemma str_ltb_irrefl s : str_ltb s s = false.
Proof. apply chars_ltb_irrefl. Qed.
Lemma str_ltb_trans s t u : str_ltb s t = true -> str_ltb t u = true -> str_ltb s u = true.
Proof. apply chars_ltb_trans. Qed.
Lemma str_ltb_total s t : str_ltb s t = false -> str_ltb t s = false -> s = t.
Proof. intros. apply chars_inj. by apply chars_ltb_total. Qed.
Lemma str_ltb_neq s t : str_ltb s t = true -> s <> t.
Proof. intros H ->. by rewrite str_ltb_irrefl in H. Qed.
Lemma str_ltb_asym s t : str_ltb s t = true -> str_ltb t s = false.
Proof. apply chars_ltb_asym. Qed.

(** ** Decimal numerals *)

Definition digit_char (d : Z) : ascii := chr (48 + d).
Definition digit_value (c : ascii) : Z := code c - 48.
(** The accumulation of a digit run, [v = v * 10 + d]. *)
Definition dec_value (l : list ascii) : Z :=
  fold_left (fun v c => v * 10 + digit_value c) l 0.

Fixpoint dec_digits (fuel : nat) (n : Z) (acc : list ascii) : list ascii :=
  match fuel with
  | O => acc
  | S f =>
    let acc' := digit_char (n mod 10) :: acc in
    if n <? 10 then acc' else dec_digits f (n / 10) acc'
  end.
(** Decimal digits of [n >= 0]; a number has at most [log2 n + 1] digits. *)
Definition dec (n : Z) : list ascii := dec_digits (S (Z.to_nat (Z.log2 n))) n [].
(** [std::to_string] *)
Definition to_chars (n : Z) : list ascii := if n <? 0 then "-"%char :: dec (- n) else dec n.
Definition to_string (n : Z) : string := str (to_chars n).
(** [std::setfill('0') << std::setw(w) << n] for [n >= 0]. *)
Definition padded (w : nat) (n : Z) : list ascii :=
  replicate (w - List.length (dec n)) "0"%char ++ dec n.

Lemma digit_char_is_digit d : 0 <= d < 10 -> is_digit (digit_char d) = true.
Proof.
  intros H. unfold is_digit, between, digit_char. rewrite code_chr by lia.
  change (code "0") with 48. change (code "9") with 57. lia.
Qed.
Lemma digit_value_char d : 0 <= d < 10 -> digit_value (digit_char d) = d.
Proof. intros H. unfold digit_value, digit_char. rewrite code_chr; lia. Qed.
Lemma is_digit_code c : is_digit c = true <-> 48 <= code c <= 57.
Proof.
  unfold is_digit, between. change (code "0") with 48. change (code "9") with 57. lia.
Qed.
Lemma digit_char_value c : is_digit c = true -> digit_char (digit_value c) = c.
Proof.
  intros _. unfold digit_char, digit_value. replace (48 + (code c - 48)) with (code c) by lia.
  apply chr_code.
Qed.

Lemma dec_value_app l k :
  dec_value (l ++ k) = fold_left (fun v c => v * 10 + digit_value c) k (dec_value l).
Proof. unfold dec_value. apply fold_left_app. Qed.
Lemma dec_value_snoc l c : dec_value (l ++ [c]) = dec_value l * 10 + digit_value c.
Proof. by rewrite dec_value_app. Qed.

Lemma dec_digits_acc f n acc : dec_digits f n acc = dec_digits f n [] ++ acc.
Proof.
  revert n acc. induction f as [|f IH]; intros n acc; [done|]. cbn.
  destruct (n <? 10); [done|]. rewrite IH, (IH _ [_]). by rewrite <- app_assoc.
Qed.

(** The fuel bound carried through the recursion: [n < 2 ^ fuel]. *)
Lemma dec_fuel_step f n : 10 <= n -> n < 2 ^ Z.of_nat (S f) -> n / 10 < 2 ^ Z.of_nat f.
Proof.
  intros H1 H2. rewrite Nat2Z.inj_succ, Z.pow_succ_r in H2 by lia.
  apply Z.div_lt_upper_bound; lia.
Qed.
Lemma dec_digits_spec f n :
  0 <= n < 2 ^ Z.of_nat f -> (0 < f)%nat ->
  Forall (fun c => is_digit c = true) (dec_digits f n []) /\ dec_value (dec_digits f n []) = n.
Proof.
  revert n. induction f as [|f IH]; intros n Hn Hf; [lia|]. cbn [dec_digits].
  assert (0 <= n mod 10 < 10) by (apply Z.mod_pos_bound; lia).
  destruct (n <? 10) eqn:E; b2p.
  - rewrite Z.mod_small by lia. split; [constructor; [|done]|].
    + apply digit_char_is_digit. lia.
    + unfold dec_value. cbn [fold_left]. rewrite digit_value_char; lia.
  - pose proof (dec_fuel_step f n ltac:(lia) ltac:(lia)) as Hs.
    assert (0 <= n / 10) by (apply Z.div_pos; lia).
    assert (0 < f)%nat. { destruct f; [|lia]. cbn in Hn. lia. }
    rewrite dec_digits_acc. destruct (IH (n / 10)) as [HA HV]; [lia|lia|].
    split.
    + apply Forall_app. split; [done|]. constructor; [|done]. by apply digit_char_is_digit.
    + rewrite dec_value_snoc, HV, digit_value_char by lia.
      pose proof (Z.div_mod n 10). lia.
Qed.
Lemma dec_fuel n : 0 <= n -> 0 <= n < 2 ^ Z.of_nat (S (Z.to_nat (Z.log2 n))).
Proof.
  intros H. split; [done|]. rewrite Nat2Z.inj_succ, Z2Nat.id by apply Z.log2_nonneg.
  destruct (Z.eq_dec n 0) as [->|]; [done|]. apply Z.log2_spec. lia.
Qed.
Lemma dec_is_digits n : 0 <= n -> Forall (fun c => is_digit c = true) (dec n).
Proof. intros H. apply dec_digits_spec; [by apply dec_fuel|lia]. Qed.
Lemma dec_value_dec n : 0 <= n -> dec_value (dec n) = n.
Proof. intros H. apply dec_digits_spec; [by apply dec_fuel|lia]. Qed.

Lemma dec_small d : 0 <= d < 10 -> dec d = [digit_char d].
Proof.
  intros H. unfold dec. cbn [dec_digits]. rewrite Z.mod_small by lia.
  replace (d <? 10) with true by lia. done.
Qed.
(** Fuel does not matter once there is enough. *)
Lemma dec_digits_fuel f g n :
  0 <= n < 2 ^ Z.of_nat f -> 0 <= n < 2 ^ Z.of_nat g -> (0 < f)%nat -> (0 < g)%nat ->
  dec_digits f n [] = dec_digits g n [].
Proof.
  revert g n. induction f as [|f IH]; intros g n Hf Hg Hf0 Hg0; [lia|].
  destruct g as [|g]; [lia|]. cbn [dec_digits]. destruct (n <? 10) eqn:E; [done|]. b2p.
  pose proof (dec_fuel_step f n ltac:(lia) ltac:(lia)).
  pose proof (dec_fuel_step g n ltac:(lia) ltac:(lia)).
  assert (0 <= n / 10) by (apply Z.div_pos; lia).
  rewrite dec_digits_acc, (dec_digits_acc g). f_equal.
  apply IH; try lia; [destruct f|destruct g]; cbn in *; lia.
Qed.
Lemma dec_step n : 10 <= n -> dec n = dec (n / 10) ++ [digit_char (n mod 10)].
Proof.
  intros H. unfold dec at 1. cbn [dec_digits]. replace (n <? 10) with false by lia.
  rewrite dec_digits_acc. f_equal.
  assert (1 <= n / 10) by (apply Z.div_le_lower_bound; lia).
  assert (0 < Z.log2 n). { apply Z.log2_pos. lia. }
  apply dec_digits_fuel; try (apply dec_fuel; lia); try lia.
  pose proof (dec_fuel n ltac:(lia)). pose proof (dec_fuel_step (Z.to_nat (Z.log2 n)) n). lia.
Qed.
(** No leading zero. *)
Lemma dec_head n : 0 < n -> exists c l, dec n = c :: l /\ is_digit c = true /\ c <> "0"%char.
Proof.
  intros H. remember (Z.to_nat n) as k eqn:Hk. revert n H Hk.
  induction k as [k IH] using lt_wf_ind. intros n H ->.
  destruct (Z.lt_ge_cases n 10).
  - rewrite dec_small by lia. exists (digit_char n), []. split; [done|].
    split; [apply digit_char_is_digit; lia|]. intros E. apply (f_equal digit_value) in E.
    rewrite digit_value_char in E by lia. change (digit_value "0") with 0 in E. lia.
  - rewrite dec_step by lia.
    assert (0 < n / 10 < n) by (split; [apply Z.div_str_pos; lia | apply Z.div_lt; lia]).
    destruct (IH (Z.to_nat (n / 10)) ltac:(lia) (n / 10)) as (c & l & -> & ?); [lia|done|].
    by exists c, (l ++ [digit_char (n mod 10)]).
Qed.
Lemma dec_inj m n : 0 <= m -> 0 <= n -> dec m = dec n -> m = n.
Proof. intros Hm Hn E. apply (f_equal dec_value) in E. by rewrite !dec_value_dec in E. Qed.
Lemma to_chars_inj m n : to_chars m = to_chars n -> m = n.
Proof.
  unfold to_chars. intros E.
  assert (Hne : forall k l, 0 <= k -> dec k <> "-"%char :: l).
  { intros k l Hk Ek. pose proof (dec_is_digits k Hk) as F. rewrite Ek in F.
    by inversion F. }
  destruct (m <? 0) eqn:Em, (n <? 0) eqn:En; b2p.
  - injection E as E. apply dec_inj in E; lia.
  - symmetry in E. by apply Hne in E.
  - by apply Hne in E.
  - apply dec_inj; lia || done.
Qed.
Lemma to_string_inj m n : to_string m = to_string n -> m = n.
Proof.
  intros E. apply to_chars_inj. unfold to_string in E. apply (f_equal chars) in E. by rewrite !chars_str in E.
Qed.
