(* ===== verification/Sha256.v ===== *)
(** * SHA-256 and hexadecimal digests (src/runtime/sha256.cpp)

    Words are [Z] in [0, 2^32); every addition, shift and complement is cut to 32 bits as the
    [std::uint32_t] arithmetic does.  Bytes are [Z] in [0, 256). *)
From Stdlib Require Import ZArith Lia Bool Ascii String.
From stdpp Require Import gmap strings list.
From S2P Require Import Prelude Chars.
Local Open Scope Z_scope.

(** ** 32-bit words *)

Definition ones32 : Z := 4294967295.
Definition wrap32 (x : Z) : Z := Z.land x ones32.
Definition add32 (x y : Z) : Z := wrap32 (x + y).
Definition not32 (x : Z) : Z := Z.lxor x ones32.
Definition rotate_right (value count : Z) : Z :=
  Z.lor (Z.shiftr value count) (wrap32 (Z.shiftl value (32 - count))).
Definition word32 (x : Z) : Prop := 0 <= x < 2 ^ 32.
Definition byte8 (x : Z) : Prop := 0 <= x < 256.

(** ** Constants *)

Definition hex_value (value : ascii) : Z :=
  if between "0" "9" value then code value - code "0"
  else if between "a" "f" value then code value - code "a" + 10
  else -1.

(** Reads the eight-digit words of a table written as text. *)
Fixpoint hex_words (l : list ascii) (n : nat) (v : Z) : list Z :=
  match l with
  | [] => []
  | c :: l' =>
    if Ascii.eqb c " " then hex_words l' n v
    else match n with
         | S (S n') => hex_words l' (S n') (v * 16 + hex_value c)
         | _ => (v * 16 + hex_value c) :: hex_words l' 8 0
         end
  end.

Definition round_constants : list Z := Eval vm_compute in hex_words (chars (
  "428a2f98 71374491 b5c0fbcf e9b5dba5 3956c25b 59f111f1 " +:+
  "923f82a4 ab1c5ed5 d807aa98 12835b01 243185be 550c7dc3 " +:+
  "72be5d74 80deb1fe 9bdc06a7 c19bf174 e49b69c1 efbe4786 " +:+
  "0fc19dc6 240ca1cc 2de92c6f 4a7484aa 5cb0a9dc 76f988da " +:+
  "983e5152 a831c66d b00327c8 bf597fc7 c6e00bf3 d5a79147 " +:+
  "06ca6351 14292967 27b70a85 2e1b2138 4d2c6dfc 53380d13 " +:+
  "650a7354 766a0abb 81c2c92e 92722c85 a2bfe8a1 a81a664b " +:+
  "c24b8b70 c76c51a3 d192e819 d6990624 f40e3585 106aa070 " +:+
  "19a4c116 1e376c08 2748774c 34b0bcb5 391c0cb3 4ed8aa4a " +:+
  "5b9cca4f 682e6ff3 748f82ee 78a5636f 84c87814 8cc70208 " +:+
  "90befffa a4506ceb bef9a3f7 c67178f2"))%string 8 0.

Definition initial_state : list Z := Eval vm_compute in hex_words (chars (
  "6a09e667 bb67ae85 3c6ef372 a54ff53a " +:+
  "510e527f 9b05688c 1f83d9ab 5be0cd19"))%string 8 0.

(** ** Padding *)

(** [while (message.size() % 64U != 56U) message.push_back(0U);] *)
Fixpoint pad_zeros (fuel : nat) (message : list Z) : list Z :=
  if Z.of_nat (length message) mod 64 =? 56 then message
  else match fuel with
       | O => message
       | S f => pad_zeros f (message ++ [0])
       end.
(** [for (int shift = 56; shift >= 0; shift -= 8) push_back((bit_length >> shift) & 0xff);] *)
Definition be_bytes (shifts : list Z) (v : Z) : list Z :=
  map (fun shift => Z.land (Z.shiftr v shift) 255) shifts.
Definition length_bytes (bit_length : Z) : list Z :=
  be_bytes [56; 48; 40; 32; 24; 16; 8; 0] bit_length.
Definition bytes_of (s : string) : list Z := map code (chars s).
Definition pad_message (input : list Z) : list Z :=
  let bit_length := (Z.of_nat (length input) * 8) mod 2 ^ 64 in
  pad_zeros 64 (input ++ [128]) ++ length_bytes bit_length.

(** ** The message schedule and the rounds *)

Fixpoint be_words (message : list Z) : list Z :=
  match message with
  | b0 :: b1 :: b2 :: b3 :: rest =>
    Z.lor (Z.lor (Z.lor (Z.shiftl b0 24) (Z.shiftl b1 16)) (Z.shiftl b2 8)) b3 :: be_words rest
  | _ => []
  end.

Definition at_ (words : list Z) (i : nat) : Z := nth i words 0.
Definition small_sigma0 (x : Z) : Z :=
  Z.lxor (Z.lxor (rotate_right x 7) (rotate_right x 18)) (Z.shiftr x 3).
Definition small_sigma1 (x : Z) : Z :=
  Z.lxor (Z.lxor (rotate_right x 17) (rotate_right x 19)) (Z.shiftr x 10).
(** The body of the loop over [index] 16..63, [words] holding the indices below. *)
Definition extend_schedule (words : list Z) (index : nat) : list Z :=
  let s0 := small_sigma0 (at_ words (index - 15)) in
  let s1 := small_sigma1 (at_ words (index - 2)) in
  words ++ [add32 (add32 (add32 (at_ words (index - 16)) s0) (at_ words (index - 7))) s1].
Definition schedule (block : list Z) : list Z :=
  fold_left extend_schedule (seq 16 48) block.

Record regs := Regs { ra : Z; rb : Z; rc : Z; rd : Z; re : Z; rf : Z; rg : Z; rh : Z }.

Definition round (words : list Z) (r : regs) (index : nat) : regs :=
  let '(Regs a b c d e f g h) := r in
  let s1 := Z.lxor (Z.lxor (rotate_right e 6) (rotate_right e 11)) (rotate_right e 25) in
  let choice := Z.lxor (Z.land e f) (Z.land (not32 e) g) in
  let temporary1 :=
    add32 (add32 (add32 (add32 h s1) choice) (at_ round_constants index)) (at_ words index) in
  let s0 := Z.lxor (Z.lxor (rotate_right a 2) (rotate_right a 13)) (rotate_right a 22) in
  let majority := Z.lxor (Z.lxor (Z.land a b) (Z.land a c)) (Z.land b c) in
  let temporary2 := add32 s0 majority in
  Regs (add32 temporary1 temporary2) a b c (add32 d temporary1) e f g.

Definition regs_of (state : list Z) : regs :=
  Regs (at_ state 0) (at_ state 1) (at_ state 2) (at_ state 3)
       (at_ state 4) (at_ state 5) (at_ state 6) (at_ state 7).
Definition regs_list (r : regs) : list Z :=
  [ra r; rb r; rc r; rd r; re r; rf r; rg r; rh r].
Definition compress (state block : list Z) : list Z :=
  zip_with add32 state
    (regs_list (fold_left (round (schedule block)) (seq 0 64) (regs_of state))).

(** [for (offset = 0; offset < message.size(); offset += 64)], on the word list. *)
Fixpoint blocks (fuel : nat) (state words : list Z) : list Z :=
  match fuel, words with
  | S f, _ :: _ => blocks f (compress state (take 16 words)) (drop 16 words)
  | _, _ => state
  end.

Definition word_bytes (w : Z) : list Z := be_bytes [24; 16; 8; 0] w.
Definition sha256 (input : string) : list Z :=
  let words := be_words (pad_message (bytes_of input)) in
  flat_map word_bytes (blocks (length words) initial_state words).

(** ** Hexadecimal *)

Definition alphabet : list ascii := chars "0123456789abcdef".
Definition hex_digit (n : Z) : ascii := nth (Z.to_nat n) alphabet "0"%char.
Definition hex_byte (b : Z) : list ascii := [hex_digit (Z.shiftr b 4); hex_digit (Z.land b 15)].
Definition hex_encode (digest : list Z) : string := str (flat_map hex_byte digest).
Definition sha256_hex (input : string) : string := hex_encode (sha256 input).

Fixpoint hex_decode_pairs (l : list ascii) : res (list Z) :=
  match l with
  | c :: d :: l' =>
    let high := hex_value c in
    let low := hex_value d in
    if (high <? 0) || (low <? 0)
    then Err (InvalidArgument "SHA-256 hex value must be lowercase hexadecimal")
    else rest ← hex_decode_pairs l'; Ok (Z.lor (Z.shiftl high 4) low :: rest)
  | _ => Ok []
  end.
Definition hex_decode_sha256 (value : string) : res (list Z) :=
  if negb (ssize value =? 64)
  then Err (InvalidArgument "SHA-256 hex value must contain 64 characters")
  else hex_decode_pairs (chars value).

(** [is_sha256] of src/runtime/json.cpp. *)
Definition is_sha256 (text : string) : bool :=
  (ssize text =? 64) && all_of is_hex_lower text.

Example sha256_abc :
  sha256_hex "abc" = "ba7816bf8f01cfea414140de5dae2223b00361a396177a9cb410ff61f20015ad".
Proof. vm_compute. reflexivity. Qed.

Arguments sha256 : simpl never.
Arguments sha256_hex : simpl never.
Arguments compress : simpl never.

(** ** Words stay words *)

Lemma wrap32_mod x : wrap32 x = x mod 2 ^ 32.
Proof. unfold wrap32. change ones32 with (Z.ones 32). by rewrite Z.land_ones. Qed.
Lemma wrap32_word x : word32 (wrap32 x).
Proof. rewrite wrap32_mod. by apply Z.mod_pos_bound. Qed.
Lemma wrap32_id x : word32 x -> wrap32 x = x.
Proof. intros H. rewrite wrap32_mod. by apply Z.mod_small. Qed.
Lemma add32_word x y : word32 (add32 x y).
Proof. apply wrap32_word. Qed.
Lemma testbit_word x i : word32 x -> 32 <= i -> Z.testbit x i = false.
Proof.
  intros Hx Hi. rewrite <- (Z.mod_small x (2 ^ 32)) by apply Hx.
  by apply Z.mod_pow2_bits_high.
Qed.

(** [rotate_right] by [count] moves bit [(i + count) mod 32] to bit [i]. *)
Lemma rotate_right_testbit x count i :
  word32 x -> 0 < count < 32 -> 0 <= i < 32 ->
  Z.testbit (rotate_right x count) i = Z.testbit x ((i + count) mod 32).
Proof.
  intros Hx Hc Hi. unfold rotate_right. rewrite wrap32_mod, Z.lor_spec, Z.shiftr_spec by lia.
  rewrite Z.mod_pow2_bits_low, Z.shiftl_spec by lia.
  destruct (Z.lt_ge_cases (i + count) 32).
  - rewrite (Z.testbit_neg_r x (i - (32 - count))) by lia. rewrite orb_false_r.
    by rewrite Z.mod_small by lia.
  - rewrite (testbit_word x (i + count)) by (done || lia). cbn [orb].
    f_equal. Z.div_mod_to_equations. lia.
Qed.

(** ** Padding *)

Lemma pad_zeros_spec fuel m :
  (Z.to_nat ((56 - Z.of_nat (length m)) mod 64) <= fuel)%nat ->
  pad_zeros fuel m = m ++ replicate (Z.to_nat ((56 - Z.of_nat (length m)) mod 64)) 0.
Proof.
  revert m. induction fuel as [|f IH]; intros m Hf.
  - cbn. set (n := Z.of_nat (length m)) in *.
    pose proof (Z.mod_pos_bound (56 - n) 64 eq_refl).
    replace (Z.to_nat ((56 - n) mod 64)) with 0%nat by lia. rewrite app_nil_r.
    by destruct (_ =? 56).
  - cbn [pad_zeros]. set (n := Z.of_nat (length m)) in *.
    pose proof (Z.mod_pos_bound n 64 eq_refl). pose proof (Z.mod_pos_bound (56 - n) 64 eq_refl).
    destruct (n mod 64 =? 56) eqn:E; b2p.
    + replace ((56 - n) mod 64) with 0 by (Z.div_mod_to_equations; lia). by rewrite app_nil_r.
    + assert (Hn : Z.of_nat (length (m ++ [0])) = n + 1) by (rewrite length_app; cbn; lia).
      assert (Hm : (56 - (n + 1)) mod 64 = (56 - n) mod 64 - 1)
        by (Z.div_mod_to_equations; lia).
      rewrite IH by (rewrite Hn, Hm; lia). rewrite Hn, Hm, <- app_assoc. f_equal.
      replace (Z.to_nat ((56 - n) mod 64)) with (S (Z.to_nat ((56 - n) mod 64 - 1))); [done|].
      pose proof (Z.mod_pos_bound (56 - (n + 1)) 64 eq_refl). lia.
Qed.

(** The number of zero bytes between the marker byte and the length. *)
Definition zero_count (n : Z) : nat := Z.to_nat ((55 - n) mod 64).

Lemma pad_message_eq m :
  pad_message m =
  m ++ [128] ++ replicate (zero_count (Z.of_nat (length m))) 0 ++
  length_bytes ((Z.of_nat (length m) * 8) mod 2 ^ 64).
Proof.
  unfold pad_message, zero_count. set (n := Z.of_nat (length m)).
  assert (Hl : Z.of_nat (length (m ++ [128])) = n + 1) by (rewrite length_app; cbn; lia).
  assert (E : 56 - (n + 1) = 55 - n) by lia.
  rewrite pad_zeros_spec; rewrite Hl, E.
  - by rewrite <- !app_assoc.
  - pose proof (Z.mod_pos_bound (55 - n) 64 eq_refl). lia.
Qed.
Lemma length_length_bytes v : length (length_bytes v) = 8%nat.
Proof. done. Qed.
Lemma pad_message_length m :
  exists k, length (pad_message m) = (64 * k)%nat /\ (length m < 64 * k)%nat.
Proof.
  rewrite pad_message_eq, !length_app, length_replicate, length_length_bytes. cbn [length].
  unfold zero_count. set (n := Z.of_nat (length m)).
  exists (Z.to_nat ((n + 9 + (55 - n) mod 64) / 64)).
  Z.div_mod_to_equations. lia.
Qed.

(** Recovering the bit length from its eight bytes. *)
Lemma be_bytes_byte8 shifts v : Forall byte8 (be_bytes shifts v).
Proof.
  apply Forall_map, Forall_forall. intros s _. cbn. unfold byte8.
  change 255 with (Z.ones 8). rewrite Z.land_ones by lia. by apply Z.mod_pos_bound.
Qed.
Lemma length_bytes_inj u v :
  0 <= u < 2 ^ 64 -> 0 <= v < 2 ^ 64 -> length_bytes u = length_bytes v -> u = v.
Proof.
  intros Hu Hv E. apply Z.bits_inj'. intros i Hi.
  destruct (Z.lt_ge_cases i 64) as [Hlt|Hge].
  2: { rewrite <- (Z.mod_small u (2 ^ 64)), <- (Z.mod_small v (2 ^ 64)) by done.
       by rewrite !Z.mod_pow2_bits_high. }
  assert (Hb : forall k, In k [56; 48; 40; 32; 24; 16; 8; 0] ->
    Z.land (Z.shiftr u k) 255 = Z.land (Z.shiftr v k) 255).
  { unfold length_bytes, be_bytes in E. cbn [map] in E. injection E as ????????.
    cbn [In]. intros k Hk. repeat destruct Hk as [<-|Hk]; done. }
  assert (Hin : In (8 * (i / 8)) [56; 48; 40; 32; 24; 16; 8; 0]).
  { assert (Hd : 0 <= i / 8 < 8) by (Z.div_mod_to_equations; lia).
    cbn [In]. lia. }
  specialize (Hb _ Hin). apply (f_equal (fun w => Z.testbit w (i mod 8))) in Hb.
  assert (0 <= i mod 8 < 8) by (by apply Z.mod_pos_bound).
  change 255 with (Z.ones 8) in Hb.
  rewrite !Z.land_spec, !Z.shiftr_spec, Z.ones_spec_low, !andb_true_r in Hb by lia.
  replace (i mod 8 + 8 * (i / 8)) with i in Hb; [done|].
  pose proof (Z.div_mod i 8). lia.
Qed.

(** Two messages with the same padding are the same: the padding loses nothing, for every
    input whose bit length fits the 64-bit length field. *)
Lemma pad_message_inj m1 m2 :
  Z.of_nat (length m1) * 8 < 2 ^ 64 -> Z.of_nat (length m2) * 8 < 2 ^ 64 ->
  pad_message m1 = pad_message m2 -> m1 = m2.
Proof.
  intros H1 H2 E. rewrite !pad_message_eq in E. rewrite !Z.mod_small in E by lia.
  rewrite (app_assoc [128]), (app_assoc [128]), (app_assoc m1), (app_assoc m2) in E.
  apply app_inj_2 in E as [E El]; [|done].
  apply length_bytes_inj in El; [|lia..].
  assert (length m1 = length m2) by lia.
  by apply app_inj_1 in E as [? _].
Qed.

(** ** The schedule and the digest *)

Lemma extend_schedule_fold idxs block :
  exists t, fold_left extend_schedule idxs block = block ++ t /\ length t = length idxs.
Proof.
  revert block. induction idxs as [|i idxs IH]; intros block; cbn [fold_left].
  - exists []. by rewrite app_nil_r.
  - destruct (IH (extend_schedule block i)) as (t & -> & Ht).
    eexists (_ :: t). unfold extend_schedule. rewrite <- app_assoc. split; [done|]. cbn. lia.
Qed.
Lemma at_app_l l k i : (i < length l)%nat -> at_ (l ++ k) i = at_ l i.
Proof. intros H. unfold at_. by apply app_nth1. Qed.
Lemma at_app_mid l x k i : length l = i -> at_ (l ++ x :: k) i = x.
Proof. intros <-. unfold at_. rewrite app_nth2 by lia. by rewrite Nat.sub_diag. Qed.

Lemma schedule_prefix n block :
  schedule block =
  fold_left extend_schedule (seq (16 + n) (48 - n)) (fold_left extend_schedule (seq 16 n) block)
  \/ (48 < n)%nat.
Proof.
  destruct (Nat.le_gt_cases n 48) as [H|H]; [left|by right].
  unfold schedule. rewrite <- fold_left_app, <- seq_app. do 2 f_equal. lia.
Qed.

Lemma schedule_length block : length block = 16%nat -> length (schedule block) = 64%nat.
Proof.
  intros H. unfold schedule. destruct (extend_schedule_fold (seq 16 48) block) as (t & -> & Ht).
  rewrite length_app, Ht, length_seq. lia.
Qed.
Lemma schedule_block block t :
  length block = 16%nat -> (t < 16)%nat -> at_ (schedule block) t = at_ block t.
Proof.
  intros H Ht. unfold schedule. destruct (extend_schedule_fold (seq 16 48) block) as (u & -> & Hu).
  apply at_app_l. lia.
Qed.
(** The words from 16 on satisfy the recurrence of FIPS 180-4, section 6.2.2. *)
Lemma schedule_recurrence block t :
  length block = 16%nat -> (16 <= t < 64)%nat ->
  let W := at_ (schedule block) in
  W t = add32 (add32 (add32 (W (t - 16)%nat) (small_sigma0 (W (t - 15)%nat))) (W (t - 7)%nat))
              (small_sigma1 (W (t - 2)%nat)).
Proof.
  intros H Ht W. unfold W.
  destruct (schedule_prefix (t - 16) block) as [->|]; [|lia].
  destruct (extend_schedule_fold (seq 16 (t - 16)) block) as (u & -> & Hu).
  rewrite length_seq in Hu.
  assert (Hl : length (block ++ u) = t) by (rewrite length_app; lia).
  replace (48 - (t - 16))%nat with (S (63 - t)) by lia.
  replace (16 + (t - 16))%nat with t by lia. cbn [seq fold_left].
  set (prev := block ++ u) in *.
  destruct (extend_schedule_fold (seq (S t) (63 - t)) (extend_schedule prev t)) as (v & -> & _).
  assert (Hat : forall i, (i < t)%nat -> at_ (extend_schedule prev t ++ v) i = at_ prev i).
  { intros i Hi. unfold extend_schedule. rewrite <- app_assoc. apply at_app_l. lia. }
  rewrite (Hat (t - 16)%nat), (Hat (t - 15)%nat), (Hat (t - 7)%nat), (Hat (t - 2)%nat) by lia.
  unfold extend_schedule. rewrite <- app_assoc. cbn [app].
  by rewrite at_app_mid.
Qed.

Lemma compress_length state block : length state = 8%nat -> length (compress state block) = 8%nat.
Proof. intros H. unfold compress. rewrite length_zip_with, H. done. Qed.
Lemma blocks_length fuel state words :
  length state = 8%nat -> length (blocks fuel state words) = 8%nat.
Proof.
  revert state words. induction fuel as [|f IH]; intros state [|w words] H; cbn [blocks]; [done..|].
  apply IH. by apply compress_length.
Qed.
Lemma length_flat_map_const {A B} (f : A -> list B) n l :
  (forall x, length (f x) = n) -> length (flat_map f l) = (n * length l)%nat.
Proof.
  intros H. induction l as [|x l IH]; cbn; [lia|]. rewrite length_app, H, IH. lia.
Qed.
Lemma sha256_length input : length (sha256 input) = 32%nat.
Proof.
  unfold sha256. rewrite (length_flat_map_const _ 4) by done. rewrite blocks_length by done. lia.
Qed.
Lemma flat_map_Forall {A B} (P : B -> Prop) (f : A -> list B) l :
  (forall x, Forall P (f x)) -> Forall P (flat_map f l).
Proof. intros H. induction l; cbn; [done|]. by apply Forall_app. Qed.
Lemma sha256_bytes input : Forall byte8 (sha256 input).
Proof. apply flat_map_Forall. intros w. apply be_bytes_byte8. Qed.
(** [blocks] has fuel for every block: it consumes all the words. *)
Lemma blocks_fuel f g state words :
  (length words <= f)%nat -> (length words <= g)%nat -> blocks f state words = blocks g state words.
Proof.
  revert g state words. induction f as [|f IH]; intros g state words Hf Hg.
  - destruct words; [|cbn in Hf; lia]. by destruct g.
  - destruct words as [|w words]; [by destruct g|]. destruct g as [|g]; [cbn in Hg; lia|].
    cbn [blocks]. apply IH; rewrite length_drop; cbn in *; lia.
Qed.

(** ** Hexadecimal *)

Lemma hex_nibble_forall (P : Z -> Prop) :
  Forall P [0; 1; 2; 3; 4; 5; 6; 7; 8; 9; 10; 11; 12; 13; 14; 15] -> forall n, 0 <= n < 16 -> P n.
Proof.
  intros H n Hn. rewrite List.Forall_forall in H. apply H. cbn. lia.
Qed.
Lemma hex_value_digit n : 0 <= n < 16 -> hex_value (hex_digit n) = n.
Proof. revert n. apply hex_nibble_forall. by repeat constructor. Qed.
Lemma is_hex_lower_digit n : 0 <= n < 16 -> is_hex_lower (hex_digit n) = true.
Proof. revert n. apply hex_nibble_forall. by repeat constructor. Qed.
Lemma is_hex_lower_value c : is_hex_lower c = (0 <=? hex_value c).
Proof.
  unfold is_hex_lower, is_digit, hex_value. pose proof (code_range c).
  unfold between in *. change (code "0") with 48. change (code "9") with 57.
  change (code "a") with 97. change (code "f") with 102.
  case_and; [lia|]. case_and; lia.
Qed.
Lemma hex_value_range c : 0 <= hex_value c -> 0 <= hex_value c < 16.
Proof.
  unfold hex_value, between. change (code "0") with 48. change (code "9") with 57.
  change (code "a") with 97. change (code "f") with 102.
  case_and; [lia|]. case_and; lia.
Qed.
Lemma hex_digit_value c : 0 <= hex_value c -> hex_digit (hex_value c) = c.
Proof.
  intros H. pose proof (hex_value_range c H) as Hr. apply code_inj.
  assert (Hd : forall n, 0 <= n < 16 -> code (hex_digit n) = if n <? 10 then 48 + n else 87 + n)
    by (apply hex_nibble_forall; by repeat constructor).
  rewrite Hd by done. clear Hd. revert Hr. unfold hex_value, between.
  change (code "0") with 48. change (code "9") with 57.
  change (code "a") with 97. change (code "f") with 102.
  case_and; [|case_and]; intros Hr; b2p;
    destruct (_ <? 10) eqn:Ed; lia.
Qed.

Lemma byte_split b : byte8 b -> 0 <= Z.shiftr b 4 < 16 /\ 0 <= Z.land b 15 < 16.
Proof.
  intros H. unfold byte8 in H. change 15 with (Z.ones 4). rewrite Z.land_ones, Z.shiftr_div_pow2 by lia.
  split; [|by apply Z.mod_pos_bound]. Z.div_mod_to_equations. lia.
Qed.
Lemma nibbles_disjoint h l : 0 <= l < 16 -> Z.land (Z.shiftl h 4) l = 0.
Proof.
  intros Hl. apply Z.bits_inj'. intros i Hi. rewrite Z.land_spec, Z.bits_0, Z.shiftl_spec by lia.
  destruct (Z.lt_ge_cases i 4).
  - by rewrite Z.testbit_neg_r by lia.
  - rewrite <- (Z.mod_small l (2 ^ 4)), Z.mod_pow2_bits_high by lia. apply andb_false_r.
Qed.
Lemma byte_join h l : 0 <= l < 16 -> Z.lor (Z.shiftl h 4) l = 16 * h + l.
Proof.
  intros Hl. pose proof (Z.add_lor_land (Z.shiftl h 4) l) as E.
  rewrite nibbles_disjoint in E by lia. rewrite Z.shiftl_mul_pow2 in * by lia.
  change (2 ^ 4) with 16 in *. lia.
Qed.
Lemma byte_join_split b : byte8 b -> 16 * Z.shiftr b 4 + Z.land b 15 = b.
Proof.
  intros H. change 15 with (Z.ones 4). rewrite Z.land_ones, Z.shiftr_div_pow2 by lia.
  change (2 ^ 4) with 16. pose proof (Z.div_mod b 16). lia.
Qed.
Lemma byte_split_join h l : 0 <= l < 16 ->
  Z.shiftr (16 * h + l) 4 = h /\ Z.land (16 * h + l) 15 = l.
Proof.
  intros Hl. change 15 with (Z.ones 4). rewrite Z.land_ones, Z.shiftr_div_pow2 by lia.
  change (2 ^ 4) with 16. Z.div_mod_to_equations. lia.
Qed.

Lemma hex_decode_encode_pairs digest :
  Forall byte8 digest -> hex_decode_pairs (flat_map hex_byte digest) = Ok digest.
Proof.
  induction 1 as [|b digest Hb _ IH]; [done|]. cbn [flat_map hex_byte app hex_decode_pairs].
  destruct (byte_split b Hb) as [H1 H2]. rewrite !hex_value_digit by done.
  replace ((_ <? 0) || (_ <? 0)) with false by lia. rewrite IH. cbn.
  by rewrite byte_join, byte_join_split.
Qed.
Lemma hex_encode_length digest : ssize (hex_encode digest) = 2 * Z.of_nat (length digest).
Proof.
  unfold hex_encode. rewrite ssize_chars, chars_str, (length_flat_map_const _ 2) by done. lia.
Qed.
Lemma hex_encode_lower digest : Forall byte8 digest -> all_of is_hex_lower (hex_encode digest) = true.
Proof.
  intros H. unfold all_of, hex_encode. rewrite chars_str.
  rewrite forallb_forall. intros c Hc. apply in_flat_map in Hc as (b & Hb & Hc).
  rewrite List.Forall_forall in H. apply H in Hb. apply byte_split in Hb as [? ?].
  cbn in Hc. destruct Hc as [<-|[<-|[]]]; by apply is_hex_lower_digit.
Qed.
Lemma sha256_hex_is_sha256 input : is_sha256 (sha256_hex input) = true.
Proof.
  unfold is_sha256, sha256_hex. rewrite hex_encode_length, sha256_length, hex_encode_lower; [done|].
  apply sha256_bytes.
Qed.

Lemma hex_decode_pairs_encode k l digest :
  length l = (2 * k)%nat -> hex_decode_pairs l = Ok digest ->
  flat_map hex_byte digest = l /\ Forall byte8 digest /\ forallb is_hex_lower l = true.
Proof.
  revert l digest. induction k as [|k IH]; intros l digest Hl Hd.
  - destruct l; [|done]. cbn in Hd. by inv_res.
  - destruct l as [|c [|d l]]; try (cbn in Hl; lia). cbn [hex_decode_pairs] in Hd.
    destruct ((hex_value c <? 0) || (hex_value d <? 0)) eqn:E; [done|]. b2p. inv_res.
    destruct (IH l x) as (HA & HB & HC); [cbn in Hl; lia|done|].
    pose proof (hex_value_range c) as Hc. pose proof (hex_value_range d) as Hd'.
    rewrite byte_join by lia.
    destruct (byte_split_join (hex_value c) (hex_value d)) as [E1 E2]; [lia|].
    split_and!.
    + cbn [flat_map hex_byte app]. by rewrite E1, E2, !hex_digit_value, HA by lia.
    + constructor; [unfold byte8; lia|done].
    + cbn [forallb]. rewrite !is_hex_lower_value, HC. lia.
Qed.
Lemma hex_decode_pairs_total k l :
  length l = (2 * k)%nat -> forallb is_hex_lower l = true -> exists d, hex_decode_pairs l = Ok d.
Proof.
  revert l. induction k as [|k IH]; intros l Hl Hf.
  - destruct l; [|done]. by exists [].
  - destruct l as [|c [|d l]]; try (cbn in Hl; lia). cbn [forallb] in Hf. b2p.
    rewrite is_hex_lower_value in *. b2p. destruct (IH l) as [r Hr]; [cbn in Hl; lia|done|].
    cbn [hex_decode_pairs]. replace ((_ <? 0) || (_ <? 0)) with false by lia. rewrite Hr. by eexists.
Qed.

(** ** Properties *)

(** The digest text of any input is 64 lower-case hexadecimal digits that decode to the 32
    bytes of the digest. *)
Theorem sha256_hex_decodes input :
  is_sha256 (sha256_hex input) = true /\
  hex_decode_sha256 (sha256_hex input) = Ok (sha256 input) /\
  length (sha256 input) = 32%nat /\ Forall byte8 (sha256 input).
Proof.
  split_and!; [apply sha256_hex_is_sha256| |apply sha256_length|apply sha256_bytes].
  unfold hex_decode_sha256, sha256_hex. rewrite hex_encode_length, sha256_length. cbn [negb].
  unfold hex_encode. rewrite chars_str. apply hex_decode_encode_pairs, sha256_bytes.
Qed.

(** Decoding accepts exactly the texts [is_sha256] accepts, and encoding the decoded bytes
    gives the text back. *)
Theorem hex_decode_sha256_spec value :
  (is_sha256 value = true <-> exists d, hex_decode_sha256 value = Ok d) /\
  (forall d, hex_decode_sha256 value = Ok d -> hex_encode d = value).
Proof.
  assert (Hd : forall d, hex_decode_sha256 value = Ok d -> is_sha256 value = true /\ hex_encode d = value).
  { unfold hex_decode_sha256, is_sha256. intros d. destruct (ssize value =? 64) eqn:E; [|done].
    cbn [negb]. intros H. b2p. rewrite ssize_chars in *.
    apply (hex_decode_pairs_encode 32) in H as (H1 & _ & H2); [|lia].
    split; [apply H2|]. unfold hex_encode. by rewrite H1, str_chars. }
  split; [split|]; [|intros [d H]; by apply (Hd d)|intros d H; by apply Hd].
  unfold is_sha256, hex_decode_sha256. intros H. b2p. rewrite ssize_chars in *.
  replace (Z.of_nat (length (chars value)) =? 64) with true by lia. cbn [negb].
  apply (hex_decode_pairs_total 32); [lia|done].
Qed.

(** The padding of the hash keeps messages apart: two byte strings of less than 2^61 bytes
    with the same padded form are equal, and the padded form is whole 64-byte blocks. *)
Theorem pad_message_injective m1 m2 :
  Z.of_nat (length m1) < 2 ^ 61 -> Z.of_nat (length m2) < 2 ^ 61 ->
  pad_message m1 = pad_message m2 ->
  m1 = m2 /\ (64 | Z.of_nat (length (pad_message m1))).
Proof.
  intros H1 H2 E. split; [apply pad_message_inj; lia || done|].
  destruct (pad_message_length m1) as (k & -> & _). exists (Z.of_nat k). lia.
Qed.
Lemma pad_message_injective_witness :
  pad_message [1; 2] = pad_message [1; 2] /\ [1; 2] = [1; 2] /\ (64 | Z.of_nat (length (pad_message [1; 2]))).
Proof. split; [reflexivity|]. apply (pad_message_injective [1; 2] [1; 2]); [cbn; lia..|reflexivity]. Defined.
