(* ===== verification/Uuid.v ===== *)
(** * SHA-1 and UUIDs (src/runtime/uuid.cpp, random_uuid of src/runtime/posix.cpp)

    [uuid.cpp] has its own copy of the padding of SHA-256 and of [hex_value]; both copies are
    textually the same code, so the definitions of [Sha256] are used. *)
From Stdlib Require Import ZArith Lia Bool Ascii String.
From stdpp Require Import gmap strings list.
From S2P Require Import Prelude Chars Sha256.
Local Open Scope Z_scope.

(** ** SHA-1 *)

Definition rotate_left (value count : Z) : Z :=
  Z.lor (wrap32 (Z.shiftl value count)) (Z.shiftr value (32 - count)).

Definition sha1_extend (words : list Z) (index : nat) : list Z :=
  words ++ [rotate_left
    (Z.lxor (Z.lxor (Z.lxor (at_ words (index - 3)) (at_ words (index - 8)))
      (at_ words (index - 14))) (at_ words (index - 16))) 1].
Definition sha1_schedule (block : list Z) : list Z := fold_left sha1_extend (seq 16 64) block.

Record regs5 := Regs5 { va : Z; vb : Z; vc : Z; vd : Z; ve : Z }.

(** The function and the constant chosen by the round index. *)
Definition sha1_select (index : nat) (b c d : Z) : Z * Z :=
  if (index <? 20)%nat then (Z.lor (Z.land b c) (Z.land (not32 b) d), 1518500249 (* 5a827999 *))
  else if (index <? 40)%nat then (Z.lxor (Z.lxor b c) d, 1859775393 (* 6ed9eba1 *))
  else if (index <? 60)%nat
       then (Z.lor (Z.lor (Z.land b c) (Z.land b d)) (Z.land c d), 2400959708 (* 8f1bbcdc *))
  else (Z.lxor (Z.lxor b c) d, 3395469782 (* ca62c1d6 *)).
Definition sha1_round (words : list Z) (r : regs5) (index : nat) : regs5 :=
  let '(Regs5 a b c d e) := r in
  let '(function, constant) := sha1_select index b c d in
  let temporary :=
    add32 (add32 (add32 (add32 (rotate_left a 5) function) e) constant) (at_ words index) in
  Regs5 temporary a (rotate_left b 30) c d.
Definition sha1_compress (state block : list Z) : list Z :=
  let r0 := Regs5 (at_ state 0) (at_ state 1) (at_ state 2) (at_ state 3) (at_ state 4) in
  let '(Regs5 a b c d e) := fold_left (sha1_round (sha1_schedule block)) (seq 0 80) r0 in
  zip_with add32 state [a; b; c; d; e].
Fixpoint sha1_blocks (fuel : nat) (state words : list Z) : list Z :=
  match fuel, words with
  | S f, _ :: _ => sha1_blocks f (sha1_compress state (take 16 words)) (drop 16 words)
  | _, _ => state
  end.
Definition sha1_initial : list Z := Eval vm_compute in
  hex_words (chars "67452301 efcdab89 98badcfe 10325476 c3d2e1f0") 8 0.
Definition sha1 (input : list Z) : list Z :=
  let words := be_words (pad_message input) in
  flat_map word_bytes (sha1_blocks (length words) sha1_initial words).

(** ** The text form *)

Fixpoint decode_nibbles (l : list ascii) (high : Z) (bytes : list Z) : res (list Z) :=
  match l with
  | [] =>
    if (Z.of_nat (length bytes) =? 16) && (high <? 0) then Ok bytes
    else Err (InvalidArgument "invalid UUID byte count")
  | character :: l' =>
    if Ascii.eqb character "-" then decode_nibbles l' high bytes
    else
      let nibble := hex_value character in
      if nibble <? 0 then Err (InvalidArgument "UUID must use lowercase hexadecimal digits")
      else if high <? 0 then decode_nibbles l' nibble bytes
      (* bytes.at(at++) throws past the sixteenth byte *)
      else if Z.of_nat (length bytes) <? 16
           then decode_nibbles l' (-1) (bytes ++ [Z.lor (Z.shiftl high 4) nibble])
           else Err OutOfRange
  end.
Definition dash_at (value : string) (i : nat) : bool := bool_decide (char_at value i = Some "-"%char).
Definition decode_uuid (value : string) : res (list Z) :=
  if negb (ssize value =? 36) || negb (dash_at value 8) || negb (dash_at value 13) ||
     negb (dash_at value 18) || negb (dash_at value 23)
  then Err (InvalidArgument "UUID must use lowercase RFC 4122 text form")
  else decode_nibbles (chars value) (-1) [].

(** The dash the loop pushes before bytes 4, 6, 8 and 10. *)
Definition dash_before (index : nat) : list ascii :=
  if existsb (Nat.eqb index) [4; 6; 8; 10]%nat then ["-"%char] else [].
Fixpoint encode_from (index : nat) (bytes : list Z) : list ascii :=
  match bytes with
  | [] => []
  | b :: bytes' => dash_before index ++ hex_byte b ++ encode_from (S index) bytes'
  end.
Definition encode_uuid (bytes : list Z) : string := str (encode_from 0 bytes).

(** ** Name-based and random UUIDs *)

(** The version nibble and the variant bits. *)
Definition stamp (version : Z) (uuid : list Z) : list Z :=
  let u6 := Z.lor (Z.land (at_ uuid 6) 15) version in
  let u8 := Z.lor (Z.land (at_ uuid 8) 63) 128 in
  <[8%nat := u8]> (<[6%nat := u6]> uuid).

Definition forbidden : list ascii := [chr 0; chr 10; chr 13].
(** The bytes hashed: the namespace, then the fields separated by newlines. *)
Fixpoint join_fields (index : nat) (fields : list string) : res (list Z) :=
  match fields with
  | [] => Ok []
  | field :: fields' =>
    if contains_any forbidden field
    then Err (InvalidArgument "UUIDv5 field contains a forbidden delimiter byte")
    else rest ← join_fields (S index) fields';
         Ok ((if Nat.eqb index 0 then [] else [10]) ++ bytes_of field ++ rest)
  end.
Definition uuid_v5 (namespace_uuid : string) (fields : list string) : res string :=
  namespace_bytes ← decode_uuid namespace_uuid;
  bytes ← join_fields 0 fields;
  Ok (encode_uuid (stamp 80 (take 16 (sha1 (namespace_bytes ++ bytes))))).
(** The sixteen bytes read from /dev/urandom are the argument. *)
Definition random_uuid (random : list Z) : string := encode_uuid (stamp 64 random).

(** [is_uuid] of src/runtime/json.cpp. *)
Definition uuid_char_ok (i : nat) (c : ascii) : bool :=
  if existsb (Nat.eqb i) [8; 13; 18; 23]%nat then Ascii.eqb c "-" else is_hex c.
Fixpoint uuid_chars_ok (i : nat) (l : list ascii) : bool :=
  match l with
  | [] => true
  | c :: l' => uuid_char_ok i c && uuid_chars_ok (S i) l'
  end.
Definition is_uuid (text : string) : bool := (ssize text =? 36) && uuid_chars_ok 0 (chars text).

Example uuid_v5_dns :
  uuid_v5 "6ba7b810-9dad-11d1-80b4-00c04fd430c8" ["www.widgets.com"%string]
  = Ok "21f7f8de-8051-5b89-8680-0195ef798b6a"%string.
Proof. vm_compute. reflexivity. Qed.

Arguments sha1 : simpl never.
Arguments sha1_compress : simpl never.
Arguments uuid_v5 : simpl never.

(** ** Lengths and bytes *)

Lemma sha1_compress_length state block :
  length state = 5%nat -> length (sha1_compress state block) = 5%nat.
Proof.
  intros H. unfold sha1_compress. destruct (fold_left _ _ _). by rewrite length_zip_with, H.
Qed.
Lemma sha1_blocks_length fuel state words :
  length state = 5%nat -> length (sha1_blocks fuel state words) = 5%nat.
Proof.
  revert state words. induction fuel as [|f IH]; intros state [|w words] H; cbn [sha1_blocks]; [done..|].
  apply IH. by apply sha1_compress_length.
Qed.
Lemma sha1_length input : length (sha1 input) = 20%nat.
Proof.
  unfold sha1. rewrite (length_flat_map_const _ 4), sha1_blocks_length by done. lia.
Qed.
Lemma sha1_bytes input : Forall byte8 (sha1 input).
Proof. apply flat_map_Forall. intros w. apply be_bytes_byte8. Qed.

Lemma land_lor_byte8 x m v : 0 <= m < 256 -> 0 <= v < 256 -> byte8 (Z.lor (Z.land x m) v).
Proof.
  intros Hm Hv. unfold byte8.
  assert (E : Z.lor (Z.land x m) v = Z.lor (Z.land x m) v mod 2 ^ 8).
  { rewrite <- Z.land_ones, Z.land_lor_distr_l, <- Z.land_assoc, !Z.land_ones by lia.
    by rewrite !Z.mod_small by lia. }
  rewrite E. by apply Z.mod_pos_bound.
Qed.
Lemma stamp_length version uuid : length (stamp version uuid) = length uuid.
Proof. unfold stamp. by rewrite !length_insert. Qed.
Lemma stamp_bytes version uuid :
  0 <= version < 256 -> Forall byte8 uuid -> Forall byte8 (stamp version uuid).
Proof.
  intros Hv H. unfold stamp. apply Forall_insert; [apply Forall_insert; [done|]|];
    by apply land_lor_byte8.
Qed.

(** ** The text form *)

(** A list of sixteen bytes, spelled out. *)
Lemma length_16 {A} (l : list A) : length l = 16%nat ->
  exists a0 a1 a2 a3 a4 a5 a6 a7 a8 a9 a10 a11 a12 a13 a14 a15,
    l = [a0; a1; a2; a3; a4; a5; a6; a7; a8; a9; a10; a11; a12; a13; a14; a15].
Proof.
  intros H. do 16 (destruct l as [|? l]; [discriminate H|]).
  destruct l; [|discriminate H]. by do 16 eexists.
Qed.
Lemma hex_byte_ok b : byte8 b -> forallb is_hex_lower (hex_byte b) = true.
Proof.
  intros H. apply byte_split in H as [H1 H2]. cbn [hex_byte forallb].
  by rewrite !is_hex_lower_digit.
Qed.
Lemma is_hex_lower_hex c : is_hex_lower c = true -> is_hex c = true.
Proof. unfold is_hex_lower, is_hex. intros ->. done. Qed.
Lemma is_hex_lower_not_dash c : is_hex_lower c = true -> Ascii.eqb c "-" = false.
Proof. intros H. apply Ascii.eqb_neq. by intros ->. Qed.

Lemma uuid_chars_hex i b l :
  byte8 b -> existsb (Nat.eqb i) [8; 13; 18; 23]%nat = false ->
  existsb (Nat.eqb (S i)) [8; 13; 18; 23]%nat = false ->
  uuid_chars_ok i (hex_byte b ++ l) = uuid_chars_ok (S (S i)) l.
Proof.
  intros Hb H1 H2. apply byte_split in Hb as [??].
  cbn [hex_byte app uuid_chars_ok]. unfold uuid_char_ok. rewrite H1, H2.
  by rewrite !is_hex_lower_hex by (by apply is_hex_lower_digit).
Qed.
Lemma uuid_chars_dash i l :
  existsb (Nat.eqb i) [8; 13; 18; 23]%nat = true ->
  uuid_chars_ok i ("-"%char :: l) = uuid_chars_ok (S i) l.
Proof. intros H. cbn [uuid_chars_ok]. unfold uuid_char_ok. by rewrite H. Qed.

(** The text form of sixteen bytes, dashes in place. *)
Lemma encode_from_16 a0 a1 a2 a3 a4 a5 a6 a7 a8 a9 a10 a11 a12 a13 a14 a15 :
  encode_from 0 [a0; a1; a2; a3; a4; a5; a6; a7; a8; a9; a10; a11; a12; a13; a14; a15] =
  flat_map hex_byte [a0; a1; a2; a3] ++ "-"%char :: flat_map hex_byte [a4; a5] ++
  "-"%char :: flat_map hex_byte [a6; a7] ++ "-"%char :: flat_map hex_byte [a8; a9] ++
  "-"%char :: flat_map hex_byte [a10; a11; a12; a13; a14; a15].
Proof. reflexivity. Qed.

Lemma encode_uuid_ok bytes :
  length bytes = 16%nat -> Forall byte8 bytes -> is_uuid (encode_uuid bytes) = true.
Proof.
  intros Hl Hb. unfold is_uuid, encode_uuid. rewrite ssize_chars, chars_str.
  destruct (length_16 bytes Hl) as (a0&a1&a2&a3&a4&a5&a6&a7&a8&a9&a10&a11&a12&a13&a14&a15&->).
  repeat match goal with
  | H : Forall byte8 (_ :: _) |- _ => apply Forall_cons in H as [? H]
  end.
  apply andb_true_iff. split; [reflexivity|].
  rewrite encode_from_16. cbn [flat_map]. rewrite <- ?app_assoc. cbn [app].
  repeat first [rewrite uuid_chars_hex by done | rewrite uuid_chars_dash by done]. done.
Qed.

(** The digits the decoder keeps. *)
Definition is_dash (c : ascii) : bool := Ascii.eqb c "-".
Definition digits_of (l : list ascii) : list ascii := List.filter (fun c => negb (is_dash c)) l.

Lemma decode_nibbles_inv l high bytes r :
  high < 16 -> Forall byte8 bytes -> decode_nibbles l high bytes = Ok r ->
  Forall byte8 r /\ length r = 16%nat /\
  flat_map hex_byte r =
  flat_map hex_byte bytes ++ (if high <? 0 then [] else [hex_digit high]) ++ digits_of l.
Proof.
  revert high bytes. induction l as [|c l IH]; intros high bytes Hh Hb H.
  - cbn [decode_nibbles] in H. destruct (_ && _) eqn:E; [|done]. inv_res. b2p.
    replace (high <? 0) with true by lia. cbn. rewrite app_nil_r. split_and!; [done|lia|done].
  - cbn [decode_nibbles] in H. unfold digits_of. cbn [List.filter]. unfold is_dash at 1.
    destruct (Ascii.eqb c "-") eqn:Ec; cbn [negb]; [by apply IH|].
    destruct (hex_value c <? 0) eqn:En; [done|]. b2p.
    pose proof (hex_value_range c En). destruct (high <? 0) eqn:Eh; b2p.
    + apply IH in H as (H1 & H2 & H3); [|lia|done]. split_and!; [done..|]. rewrite H3.
      replace (hex_value c <? 0) with false by lia. by rewrite hex_digit_value.
    + destruct (_ <? 16) eqn:E; [|done].
      destruct (byte_split_join high (hex_value c)) as [E1 E2]; [lia|].
      rewrite byte_join in H by lia.
      apply IH in H as (H1 & H2 & H3); [|lia|].
      2: { apply Forall_app. split; [done|]. constructor; [|done]. unfold byte8. lia. }
      split_and!; [done..|]. rewrite H3. change (-1 <? 0) with true. cbn [app].
      rewrite flat_map_app, <- app_assoc. f_equal. cbn [flat_map hex_byte app].
      by rewrite E1, E2, hex_digit_value.
Qed.
Lemma decode_nibbles_encode bytes tail pre :
  Forall byte8 bytes -> Z.of_nat (length pre + length bytes) <= 16 ->
  decode_nibbles (flat_map hex_byte bytes ++ tail) (-1) pre =
  decode_nibbles tail (-1) (pre ++ bytes).
Proof.
  revert pre. induction bytes as [|b bytes IH]; intros pre Hb Hl; [by rewrite app_nil_r|].
  apply Forall_cons in Hb as [Hb Hbs]. destruct (byte_split b Hb) as [H1 H2]. cbn [length] in Hl.
  cbn [flat_map hex_byte app decode_nibbles].
  rewrite !is_hex_lower_not_dash, !hex_value_digit by (done || by apply is_hex_lower_digit).
  replace (Z.shiftr b 4 <? 0) with false by lia. replace (Z.land b 15 <? 0) with false by lia.
  change (-1 <? 0) with true. cbn iota. replace (_ <? 16) with true by lia.
  rewrite byte_join, byte_join_split by done.
  rewrite IH; [|done|rewrite length_app; cbn; lia]. by rewrite <- app_assoc.
Qed.

Ltac solve_bytes := repeat (constructor; [assumption|]); constructor.
Lemma decode_dash l high bytes :
  decode_nibbles ("-"%char :: l) high bytes = decode_nibbles l high bytes.
Proof. reflexivity. Qed.
Lemma encode_uuid_dashes bytes i :
  length bytes = 16%nat -> In i [8; 13; 18; 23]%nat -> dash_at (encode_uuid bytes) i = true.
Proof.
  intros Hl Hi. destruct (length_16 bytes Hl) as (a0&a1&a2&a3&a4&a5&a6&a7&a8&a9&a10&a11&a12&a13&a14&a15&->).
  unfold dash_at, char_at, encode_uuid. rewrite chars_str, encode_from_16.
  repeat destruct Hi as [<-|Hi]; done.
Qed.
Lemma decode_encode_uuid bytes :
  length bytes = 16%nat -> Forall byte8 bytes -> decode_uuid (encode_uuid bytes) = Ok bytes.
Proof.
  intros Hl Hb. unfold decode_uuid. rewrite !encode_uuid_dashes by (done || cbn; tauto).
  unfold encode_uuid. rewrite ssize_chars, chars_str.
  destruct (length_16 bytes Hl) as (a0&a1&a2&a3&a4&a5&a6&a7&a8&a9&a10&a11&a12&a13&a14&a15&->).
  rewrite encode_from_16.
  set (t := flat_map hex_byte [a0; a1; a2; a3] ++ _).
  replace (negb (Z.of_nat (length t) =? 36) || _ || _ || _ || _) with false by reflexivity.
  unfold t. clear t.
  repeat match goal with H : Forall byte8 (_ :: _) |- _ => apply Forall_cons in H as [? H] end.
  repeat first [rewrite decode_nibbles_encode by first [solve_bytes | cbn; lia] | rewrite decode_dash].
  rewrite <- (app_nil_r (flat_map hex_byte _)).
  rewrite decode_nibbles_encode by first [solve_bytes | cbn; lia]. reflexivity.
Qed.

(** The decoder accepts only the text form of the bytes it returns. *)
Lemma digits_of_app l k : digits_of (l ++ k) = digits_of l ++ digits_of k.
Proof. unfold digits_of. apply List.filter_app. Qed.
Lemma digits_of_length l : (length (digits_of l) <= length l)%nat.
Proof. unfold digits_of. apply List.filter_length_le. Qed.
Lemma digits_of_full l : length (digits_of l) = length l -> digits_of l = l.
Proof.
  induction l as [|c l IH]; [done|]. unfold digits_of. cbn [List.filter].
  destruct (is_dash c); cbn [negb length]; intros H.
  - pose proof (digits_of_length l) as Hle. unfold digits_of in Hle. lia.
  - f_equal. apply IH. unfold digits_of. lia.
Qed.
Lemma dash_split (l : list ascii) i :
  l !! i = Some "-"%char -> exists p s, l = p ++ "-"%char :: s /\ length p = i.
Proof.
  intros H. exists (take i l), (drop (S i) l). split; [by rewrite take_drop_middle|].
  apply lookup_lt_Some in H. rewrite length_take. lia.
Qed.
Lemma dash_at_lookup s i : dash_at s i = true -> chars s !! i = Some "-"%char.
Proof. unfold dash_at, char_at. by rewrite bool_decide_eq_true. Qed.

(** A text of the UUID shape: five groups between its four dashes. *)
Lemma uuid_groups l :
  length l = 36%nat -> l !! 8%nat = Some "-"%char -> l !! 13%nat = Some "-"%char ->
  l !! 18%nat = Some "-"%char -> l !! 23%nat = Some "-"%char ->
  exists g1 g2 g3 g4 g5, l = g1 ++ "-"%char :: g2 ++ "-"%char :: g3 ++ "-"%char :: g4 ++ "-"%char :: g5
    /\ length g1 = 8%nat /\ length g2 = 4%nat /\ length g3 = 4%nat /\ length g4 = 4%nat
    /\ length g5 = 12%nat.
Proof.
  intros Hl H8 H13 H18 H23.
  do 36 (destruct l as [|? l]; [discriminate Hl|]). destruct l; [|discriminate Hl].
  cbn in H8, H13, H18, H23. simplify_eq.
  eexists [_; _; _; _; _; _; _; _], [_; _; _; _], [_; _; _; _], [_; _; _; _],
    [_; _; _; _; _; _; _; _; _; _; _; _]. by split_and!.
Qed.

Lemma decode_uuid_encode value bytes :
  decode_uuid value = Ok bytes ->
  encode_uuid bytes = value /\ length bytes = 16%nat /\ Forall byte8 bytes.
Proof.
  unfold decode_uuid. destruct (_ || _) eqn:E; [done|]. intros H. b2p.
  rewrite ssize_chars in *.
  apply decode_nibbles_inv in H as (Hb & Hl & Hd); [|lia|constructor].
  destruct (uuid_groups (chars value)) as (g1&g2&g3&g4&g5&Hg&L1&L2&L3&L4&L5);
    [lia|by apply dash_at_lookup..|].
  rewrite Hg in Hd. cbn [app flat_map] in Hd. change (-1 <? 0) with true in Hd.
  assert (Hdash : forall l, digits_of ("-"%char :: l) = digits_of l) by done.
  rewrite !digits_of_app, !Hdash, !digits_of_app, !Hdash, !digits_of_app, !Hdash,
    !digits_of_app, !Hdash in Hd.
  pose proof (f_equal length Hd) as Hn. cbn [app length] in Hn.
  rewrite (length_flat_map_const _ 2), !length_app in Hn by done.
  pose proof (digits_of_length g1). pose proof (digits_of_length g2).
  pose proof (digits_of_length g3). pose proof (digits_of_length g4).
  pose proof (digits_of_length g5).
  rewrite !digits_of_full in Hd by lia.
  split_and!; [|done..]. apply chars_inj. unfold encode_uuid. rewrite chars_str, Hg.
  destruct (length_16 bytes Hl) as (a0&a1&a2&a3&a4&a5&a6&a7&a8&a9&a10&a11&a12&a13&a14&a15&->).
  rewrite encode_from_16.
  change (flat_map hex_byte [a0; a1; a2; a3; a4; a5; a6; a7; a8; a9; a10; a11; a12; a13; a14; a15])
    with (flat_map hex_byte [a0; a1; a2; a3] ++ flat_map hex_byte [a4; a5] ++
          flat_map hex_byte [a6; a7] ++ flat_map hex_byte [a8; a9] ++
          flat_map hex_byte [a10; a11; a12; a13; a14; a15]) in Hd.
  cbn [app] in Hd.
  apply app_inj_1 in Hd as [-> Hd]; [|cbn; lia].
  apply app_inj_1 in Hd as [-> Hd]; [|cbn; lia].
  apply app_inj_1 in Hd as [-> Hd]; [|cbn; lia].
  by apply app_inj_1 in Hd as [-> ->]; [|cbn; lia].
Qed.

(** ** Name-based UUIDs *)

Lemma join_fields_ok i fields bytes :
  join_fields i fields = Ok bytes ->
  Forall (fun f => contains_any forbidden f = false) fields.
Proof.
  revert i bytes. induction fields as [|f fields IH]; intros i bytes H; [done|].
  cbn [join_fields] in H. destruct (contains_any forbidden f) eqn:E; [done|]. inv_res. eauto.
Qed.
Lemma uuid_v5_Ok ns fields u :
  uuid_v5 ns fields = Ok u ->
  exists nsb bytes, decode_uuid ns = Ok nsb /\ join_fields 0 fields = Ok bytes /\
    u = encode_uuid (stamp 80 (take 16 (sha1 (nsb ++ bytes)))).
Proof. unfold uuid_v5. intros H. inv_res. by eexists _, _. Qed.
Lemma stamped_sha1 v input :
  0 <= v < 256 ->
  length (stamp v (take 16 (sha1 input))) = 16%nat /\ Forall byte8 (stamp v (take 16 (sha1 input))).
Proof.
  intros Hv. split.
  - by rewrite stamp_length, length_take, sha1_length.
  - apply stamp_bytes; [done|]. apply Forall_take, sha1_bytes.
Qed.
Lemma uuid_v5_is_uuid ns fields u : uuid_v5 ns fields = Ok u -> is_uuid u = true.
Proof.
  intros H. apply uuid_v5_Ok in H as (nsb & b & _ & _ & ->).
  destruct (stamped_sha1 80 (nsb ++ b)) as [H1 H2]; [lia|]. by apply encode_uuid_ok.
Qed.
Lemma random_uuid_is_uuid random :
  length random = 16%nat -> Forall byte8 random -> is_uuid (random_uuid random) = true.
Proof.
  intros Hl Hb. apply encode_uuid_ok; [by rewrite stamp_length|]. by apply stamp_bytes.
Qed.

(** No byte of an accepted field is the separator. *)
Lemma field_no_newline f : contains_any forbidden f = false -> ~ In 10 (bytes_of f).
Proof.
  unfold contains_any, bytes_of. intros H Hin. apply in_map_iff in Hin as (c & Hc & Hin).
  assert (existsb (fun c => existsb (Ascii.eqb c) forbidden) (chars f) = true); [|congruence].
  apply existsb_exists. exists c. split; [done|].
  assert (c = chr 10) as -> by (by apply code_inj). reflexivity.
Qed.
Lemma split_at_newline p q s t :
  ~ In 10 p -> ~ In 10 q -> p ++ 10 :: s = q ++ 10 :: t -> p = q /\ s = t.
Proof.
  revert q. induction p as [|x p IH]; intros [|y q] Hp Hq E; cbn in *; simplify_eq; try tauto.
  destruct (IH q) as [-> ->]; tauto.
Qed.
Lemma bytes_of_inj f g : bytes_of f = bytes_of g -> f = g.
Proof.
  intros E. apply chars_inj. unfold bytes_of in E. revert E. generalize (chars g).
  induction (chars f) as [|c l IH]; intros [|d k] E; cbn in E; try done.
  injection E as E1 E2. f_equal; [by apply code_inj|by apply IH].
Qed.
Lemma join_fields_index i j fields : join_fields (S i) fields = join_fields (S j) fields.
Proof.
  revert i j. induction fields as [|f fields IH]; intros i j; [done|]. cbn [join_fields].
  by rewrite (IH (S i) (S j)).
Qed.
Lemma join_fields_S i f fields :
  join_fields (S i) (f :: fields) = (b ← join_fields 0 (f :: fields); Ok (10 :: b)).
Proof.
  cbn [join_fields Nat.eqb]. destruct (contains_any _ _); [done|].
  rewrite (join_fields_index (S i) 0). by destruct (join_fields 1 _).
Qed.
Lemma join_fields_0 f fields :
  join_fields 0 (f :: fields) =
  if contains_any forbidden f
  then Err (InvalidArgument "UUIDv5 field contains a forbidden delimiter byte")
  else rest ← join_fields 1 fields; Ok (bytes_of f ++ rest).
Proof. reflexivity. Qed.
Lemma join_fields_inj f fields g fields' bytes :
  join_fields 0 (f :: fields) = Ok bytes -> join_fields 0 (g :: fields') = Ok bytes ->
  f :: fields = g :: fields'.
Proof.
  revert f g fields' bytes.
  induction fields as [|f2 fields IH]; intros f g [|g2 fields'] bytes Hf Hg;
    pose proof (join_fields_ok _ _ _ Hf) as Ff; pose proof (join_fields_ok _ _ _ Hg) as Fg;
    apply Forall_cons in Ff as [Nf%field_no_newline Ff];
    apply Forall_cons in Fg as [Ng%field_no_newline Fg];
    rewrite join_fields_0 in Hf, Hg; destruct (contains_any forbidden f); try done;
    destruct (contains_any forbidden g); try done;
    rewrite ?(join_fields_S 0) in Hf; rewrite ?(join_fields_S 0) in Hg;
    apply bind_Ok in Hf as (b1 & E1 & [= Hf]); apply bind_Ok in Hg as (b2 & E2 & [= Hg]).
  - injection E1 as <-. injection E2 as <-. rewrite app_nil_r in *. subst bytes.
    f_equal. by apply bytes_of_inj.
  - injection E1 as <-. inv_res. exfalso. apply Nf. rewrite app_nil_r in Hg. rewrite <- Hg.
    apply in_app_iff. cbn. tauto.
  - injection E2 as <-. inv_res. exfalso. apply Ng. rewrite app_nil_r in Hg. rewrite Hg.
    apply in_app_iff. cbn. tauto.
  - inv_res. apply split_at_newline in Hg as [E1%bytes_of_inj E2]; [|done..]. subst.
    f_equal. by eapply IH.
Qed.

(** ** Properties *)

(** The text form of 16 bytes is a UUID that decodes to them, and a text that decodes is
    the text form of what it decodes to. *)
Theorem uuid_text_roundtrip bytes value :
  (length bytes = 16%nat -> Forall byte8 bytes ->
   is_uuid (encode_uuid bytes) = true /\ decode_uuid (encode_uuid bytes) = Ok bytes) /\
  (decode_uuid value = Ok bytes -> encode_uuid bytes = value).
Proof.
  split.
  - intros Hl Hb. split; [by apply encode_uuid_ok|by apply decode_encode_uuid].
  - intros H. by apply decode_uuid_encode.
Qed.
Lemma uuid_text_roundtrip_witness :
  is_uuid (encode_uuid (repeat 171 16)) = true /\ decode_uuid (encode_uuid (repeat 171 16)) = Ok (repeat 171 16).
Proof.
  apply (uuid_text_roundtrip (repeat 171 16) ""); [reflexivity|].
  repeat constructor; unfold byte8; lia.
Defined.

(** A version-5 identifier is a UUID, and the bytes it hashes determine its fields: two
    field lists that are hashed the same in a name space are the same list. *)
Theorem uuid_v5_hashes_fields ns f fields g fields' u v nsb bytes :
  uuid_v5 ns (f :: fields) = Ok u -> uuid_v5 ns (g :: fields') = Ok v ->
  decode_uuid ns = Ok nsb ->
  join_fields 0 (f :: fields) = Ok bytes -> join_fields 0 (g :: fields') = Ok bytes ->
  is_uuid u = true /\ u = v /\ f :: fields = g :: fields'.
Proof.
  intros Hu Hv Hn Hf Hg. split; [by eapply uuid_v5_is_uuid|]. split; [|by eapply join_fields_inj].
  apply uuid_v5_Ok in Hu as (? & ? & ? & ? & ->). apply uuid_v5_Ok in Hv as (? & ? & ? & ? & ->).
  congruence.
Qed.
Lemma uuid_v5_hashes_fields_witness :
  let u := catch_all (uuid_v5 (encode_uuid (repeat 7 16)) ["ab"; "c"]%string) ""%string in
  is_uuid u = true /\ u = u /\ ["ab"; "c"]%string = ["ab"; "c"]%string.
Proof.
  apply (uuid_v5_hashes_fields (encode_uuid (repeat 7 16)) "ab" ["c"%string] "ab" ["c"%string] _ _
    (repeat 7 16) [97; 98; 10; 99]); vm_compute; reflexivity.
Defined.
