(* ===== verification/Float64.v ===== *)
(** * double: IEEE 754 binary64

    A C++ [double] of the program is a [spec_float] with 53 bits of precision, the operations
    are those of the Standard Library's reference semantics ([SpecFloat]), rounding to nearest,
    ties to even.  Only the operations the program uses are here.  Comparisons with a NaN are
    false, as in C++. *)
From Stdlib Require Import ZArith Lia Bool SpecFloat.
From stdpp Require Import gmap strings list.
From S2P Require Import Prelude.
Local Open Scope Z_scope.

Definition double : Type := spec_float.
Definition prec : Z := 53.
Definition emax : Z := 1024.

#[export] Instance spec_float_eq_dec : EqDecision spec_float.
Proof. solve_decision. Defined.

Definition fadd (x y : double) : double := SFadd prec emax x y.
Definition fsub (x y : double) : double := SFsub prec emax x y.
Definition fmul (x y : double) : double := SFmul prec emax x y.
Definition fdiv (x y : double) : double := SFdiv prec emax x y.
Definition fabs (x : double) : double := SFabs x.
Definition flt (x y : double) : bool := SFltb x y.
Definition fle (x y : double) : bool := SFleb x y.
(** [std::max(a, b)] is [a < b ? b : a]; [std::min(a, b)] is [b < a ? b : a]. *)
Definition fmax (a b : double) : double := if flt a b then b else a.
Definition fmin (a b : double) : double := if flt b a then b else a.
(** [std::isfinite] *)
Definition isfinite (x : double) : bool :=
  match x with S754_zero _ | S754_finite _ _ _ => true | _ => false end.
(** The value of an integer. *)
Definition of_int (n : Z) : double := binary_normalize prec emax n 0 false.
(** The double nearest to [(-1)^neg * m * 10^e], as a literal or [std::from_chars] gives it. *)
Definition of_decimal (neg : bool) (m e : Z) : double :=
  match m with
  | Zpos p =>
    if 0 <=? e then binary_normalize prec emax (cond_Zopp neg (m * 10 ^ e)) 0 neg
    else match 10 ^ (- e) with
         | Zpos q => fdiv (S754_finite neg p 0) (S754_finite false q 0)
         | _ => S754_nan
         end
  | _ => S754_zero neg
  end.
(** [static_cast<int>(std::floor(x))] for a finite [x]: the exact floor of its value. *)
Definition floor_int (x : double) : Z :=
  match x with
  | S754_finite s m e =>
    let v := cond_Zopp s (Zpos m) in
    if 0 <=? e then Z.shiftl v e else Z.shiftr v (- e)
  | _ => 0
  end.
(** [static_cast<int>(std::ceil(x))] *)
Definition ceil_int (x : double) : Z := - floor_int (SFopp x).

Example decimal_tenth : of_decimal false 1 (-1) = S754_finite false 7205759403792794 (-56).
Proof. vm_compute. reflexivity. Qed.
Example decimal_overflow : of_decimal false 2 308 = S754_infinity false.
Proof. vm_compute. reflexivity. Qed.
Example decimal_exact : of_decimal true 25 (-1) = fdiv (of_int (-5)) (of_int 2).
Proof. vm_compute. reflexivity. Qed.
Example floor_negative : floor_int (of_decimal true 25 (-1)) = -3 /\ ceil_int (of_decimal false 25 (-1)) = 3.
Proof. vm_compute. done. Qed.

Lemma flt_finite_nan x y : flt x y = true -> x <> S754_nan /\ y <> S754_nan.
Proof. unfold flt, SFltb. split; intros ->; by destruct x || destruct y. Qed.
