(* ===== verification/Json.v ===== *)
(** * JSON values, the strict parser and the canonical form
    (src/runtime/json.cpp; canonical of src/runtime/protocol.cpp)

    A [Json::Object] is a [std::map<std::string, Json>]: an association list kept strictly
    sorted by key, so that iteration order is the map's.  The parser works on the rest of the
    text ([text] from [pos] on); its fuel is bounded by the length of the text. *)
From Stdlib Require Import ZArith Lia Bool Ascii String SpecFloat.
From stdpp Require Import gmap strings list.
From S2P Require Import Prelude Chars Float64.
Local Open Scope Z_scope.

#[warnings="-register-all"]
Inductive Json :=
  | JNull
  | JBool (b : bool)
  | JInt (n : Z)
  | JDouble (x : double)
  | JString (s : string)
  | JObject (o : list (string * Json))
  | JArray (l : list Json).
Abbreviation Object := (list (string * Json)).

(** Induction through the members of objects and arrays. *)
Section JsonInd.
Context (P : Json -> Prop).
Context (Hnull : P JNull) (Hbool : forall b, P (JBool b)) (Hint : forall n, P (JInt n)).
Context (Hdouble : forall x, P (JDouble x)) (Hstring : forall s, P (JString s)).
Context (Hobject : forall o, Forall (fun kv => P kv.2) o -> P (JObject o)).
Context (Harray : forall l, Forall P l -> P (JArray l)).

Fixpoint Json_rect' (j : Json) : P j :=
  match j with
  | JNull => Hnull
  | JBool b => Hbool b
  | JInt n => Hint n
  | JDouble x => Hdouble x
  | JString s => Hstring s
  | JObject o =>
    Hobject o ((fix go (o : Object) : Forall (fun kv => P kv.2) o :=
      match o with
      | [] => @List.Forall_nil _ _
      | kv :: o' => @List.Forall_cons _ _ kv o' (Json_rect' kv.2) (go o')
      end) o)
  | JArray l =>
    Harray l ((fix go (l : list Json) : Forall P l :=
      match l with
      | [] => @List.Forall_nil _ _
      | x :: l' => @List.Forall_cons _ _ x l' (Json_rect' x) (go l')
      end) l)
  end.
End JsonInd.

(** ** std::map operations *)

(** [count]/[find]/[at] *)
Fixpoint obj_find (k : string) (o : Object) : option Json :=
  match o with
  | [] => None
  | (k', v) :: o' => if String.eqb k k' then Some v else obj_find k o'
  end.
Definition obj_count (k : string) (o : Object) : bool := bool_decide (is_Some (obj_find k o)).
(** [o[k] = v] *)
Fixpoint obj_set (k : string) (v : Json) (o : Object) : Object :=
  match o with
  | [] => [(k, v)]
  | (k', v') :: o' =>
    if String.eqb k k' then (k, v) :: o'
    else if str_ltb k k' then (k, v) :: o
    else (k', v') :: obj_set k v o'
  end.
(** [o.emplace(k, v)]: inserts unless the key is there; says whether it did. *)
Definition obj_emplace (k : string) (v : Json) (o : Object) : Object * bool :=
  match obj_find k o with
  | Some _ => (o, false)
  | None => (obj_set k v o, true)
  end.
(** [o.erase(k)] *)
Fixpoint obj_erase (k : string) (o : Object) : Object :=
  match o with
  | [] => []
  | (k', v') :: o' => if String.eqb k k' then o' else (k', v') :: obj_erase k o'
  end.
(** [Json::Object{{k, v}, ...}]: the first of equal keys stays. *)
Definition obj_of (l : list (string * Json)) : Object :=
  fold_left (fun o kv => (obj_emplace kv.1 kv.2 o).1) l [].
Definition obj_size (o : Object) : Z := Z.of_nat (length o).

(** ** Accessors: [std::get] throws [bad_variant_access], [at] throws [out_of_range] *)

Definition object (j : Json) : res Object :=
  match j with JObject o => Ok o | _ => Err BadVariantAccess end.
Definition array (j : Json) : res (list Json) :=
  match j with JArray l => Ok l | _ => Err BadVariantAccess end.
Definition jstring (j : Json) : res string :=
  match j with JString s => Ok s | _ => Err BadVariantAccess end.
Definition integer (j : Json) : res Z :=
  match j with JInt n => Ok n | _ => Err BadVariantAccess end.
Definition boolean (j : Json) : res bool :=
  match j with JBool b => Ok b | _ => Err BadVariantAccess end.
Definition obj_at (k : string) (o : Object) : res Json := of_option OutOfRange (obj_find k o).
Definition jat (k : string) (j : Json) : res Json := o ← object j; obj_at k o.
(** [value.at(k).string()], [.integer()], [.boolean()], [.object()] *)
Definition at_string (k : string) (j : Json) : res string := v ← jat k j; jstring v.
Definition at_integer (k : string) (j : Json) : res Z := v ← jat k j; integer v.
Definition at_boolean (k : string) (j : Json) : res bool := v ← jat k j; boolean v.
(** [std::holds_alternative<std::nullptr_t>(j.value)] *)
Definition is_null (j : Json) : bool := match j with JNull => true | _ => false end.

(** ** UTF-8 *)

Definition invalid {A} : res A := Err (InvalidArgument "INVALID_JSON").

(** Appends the UTF-8 encoding of a code point. *)
Definition utf8 (cp : Z) : list ascii :=
  if cp <? 128 then [chr cp]
  else if cp <? 2048 then
    [chr (Z.lor 192 (Z.shiftr cp 6)); chr (Z.lor 128 (Z.land cp 63))]
  else if cp <? 65536 then
    [chr (Z.lor 224 (Z.shiftr cp 12)); chr (Z.lor 128 (Z.land (Z.shiftr cp 6) 63));
     chr (Z.lor 128 (Z.land cp 63))]
  else
    [chr (Z.lor 240 (Z.shiftr cp 18)); chr (Z.lor 128 (Z.land (Z.shiftr cp 12) 63));
     chr (Z.lor 128 (Z.land (Z.shiftr cp 6) 63)); chr (Z.lor 128 (Z.land cp 63))].

(** The inner loop: [n] continuation bytes. *)
Fixpoint continuation (n : nat) (cp : Z) (s : list ascii) : option (Z * list ascii) :=
  match n with
  | O => Some (cp, s)
  | S n' =>
    match s with
    | [] => None
    | c :: s' =>
      let part := code c in
      if negb (Z.land part 192 =? 128) then None
      else continuation n' (Z.lor (Z.shiftl cp 6) (Z.land part 63)) s'
    end
  end.
Definition utf8_extra (c : Z) : option nat :=
  if (194 <=? c) && (c <=? 223) then Some 1%nat
  else if (224 <=? c) && (c <=? 239) then Some 2%nat
  else if (240 <=? c) && (c <=? 244) then Some 3%nat
  else None.
Definition utf8_minimum (n : nat) : Z :=
  if Nat.eqb n 1 then 128 else if Nat.eqb n 2 then 2048 else 65536.
(** One step of the outer loop: the rest after one character, if it is well formed. *)
Definition utf8_step (a : ascii) (s : list ascii) : option (list ascii) :=
  let c := code a in
  if c <? 128 then Some s
  else match utf8_extra c with
       | None => None
       | Some n =>
         match continuation n (Z.land c (Z.shiftl 1 (6 - Z.of_nat n) - 1)) s with
         | None => None
         | Some (cp, s') =>
           if (cp <? utf8_minimum n) || (1114111 <? cp) || ((55296 <=? cp) && (cp <=? 57343))
           then None else Some s'
         end
       end.
Fixpoint utf8_valid (fuel : nat) (s : list ascii) : bool :=
  match s, fuel with
  | [], _ => true
  | a :: s', S f =>
    match utf8_step a s' with Some s'' => utf8_valid f s'' | None => false end
  | _, O => false
  end.
(** [validate_utf8] throws on the [false] of this test. *)
Definition validate_utf8 (s : list ascii) : bool := utf8_valid (length s) s.

(** ** The parser *)

(** The quotation mark. *)
Definition quote_char : ascii := chr 34.
Definition is_space (c : ascii) : bool :=
  Ascii.eqb c " " || Ascii.eqb c (chr 10) || Ascii.eqb c (chr 9) || Ascii.eqb c (chr 13).
Fixpoint space (s : list ascii) : list ascii :=
  match s with
  | c :: s' => if is_space c then space s' else s
  | [] => []
  end.
(** [take(c)]: skips white space first; the rest is the parser's new position either way. *)
Definition take_char (c : ascii) (s : list ascii) : bool * list ascii :=
  match space s with
  | d :: s' => if Ascii.eqb d c then (true, s') else (false, d :: s')
  | [] => (false, [])
  end.
Definition require_char (c : ascii) (s : list ascii) : res (list ascii) :=
  let '(ok, s') := take_char c s in if ok then Ok s' else invalid.

Definition hex_any (c : ascii) : Z :=
  if between "0" "9" c then code c - code "0"
  else if between "a" "f" c then code c - code "a" + 10
  else if between "A" "F" c then code c - code "A" + 10
  else 16.
Fixpoint hex_run (n : nat) (out : Z) (s : list ascii) : res (Z * list ascii) :=
  match n with
  | O => Ok (out, s)
  | S n' =>
    match s with
    | [] => invalid
    | c :: s' => if hex_any c =? 16 then invalid else hex_run n' (out * 16 + hex_any c) s'
    end
  end.
Definition hex4 (s : list ascii) : res (Z * list ascii) := hex_run 4 0 s.

(** The [\u] escape, a surrogate pair included. *)
Definition unicode_escape (s : list ascii) : res (list ascii * list ascii) :=
  '(cp, s1) ← hex4 s;
  if (55296 <=? cp) && (cp <=? 56319) then
    if negb (is_prefix ["\"%char; "u"%char] s1) then invalid
    else
      '(low, s2) ← hex4 (drop 2 s1);
      if (low <? 56320) || (57343 <? low) then invalid
      else Ok (utf8 (65536 + Z.shiftl (cp - 55296) 10 + low - 56320), s2)
  else if (56320 <=? cp) && (cp <=? 57343) then invalid
  else Ok (utf8 cp, s1).
(** The characters of a one-letter escape. *)
Definition simple_escape (c : ascii) : option ascii :=
  if Ascii.eqb c quote_char then Some quote_char
  else if Ascii.eqb c "\" then Some "\"%char
  else if Ascii.eqb c "/" then Some "/"%char
  else if Ascii.eqb c "b" then Some (chr 8)
  else if Ascii.eqb c "f" then Some (chr 12)
  else if Ascii.eqb c "n" then Some (chr 10)
  else if Ascii.eqb c "r" then Some (chr 13)
  else if Ascii.eqb c "t" then Some (chr 9)
  else None.
Fixpoint string_loop (fuel : nat) (out s : list ascii) : res (list ascii * list ascii) :=
  match fuel with
  | O => Err FuelExhausted
  | S f =>
    match s with
    | [] => invalid
    | c :: s1 =>
      if Ascii.eqb c quote_char then (if validate_utf8 out then Ok (out, s1) else invalid)
      else if code c <? 32 then invalid
      else if negb (Ascii.eqb c "\") then string_loop f (out ++ [c]) s1
      else match s1 with
           | [] => invalid
           | e :: s2 =>
             match simple_escape e with
             | Some x => string_loop f (out ++ [x]) s2
             | None =>
               if Ascii.eqb e "u"
               then '(u, s3) ← unicode_escape s2; string_loop f (out ++ u) s3
               else invalid
             end
           end
    end
  end.
Definition parse_string (s : list ascii) : res (string * list ascii) :=
  s1 ← require_char quote_char s;
  '(out, s2) ← string_loop (S (length s1)) [] s1;
  Ok (str out, s2).

(** The digit run from the current position and the rest. *)
Fixpoint digit_run (s : list ascii) : list ascii * list ascii :=
  match s with
  | c :: s' =>
    if is_digit c then let '(d, r) := digit_run s' in (c :: d, r) else ([], s)
  | [] => ([], [])
  end.
Definition int64_min : Z := - 2 ^ 63.
Definition int64_max : Z := 2 ^ 63 - 1.
(** [std::from_chars] on an integer token: out of range is an error. *)
Definition from_chars_int64 (neg : bool) (digits : list ascii) : res Z :=
  let v := if neg then - dec_value digits else dec_value digits in
  if (v <? int64_min) || (int64_max <? v) then invalid else Ok v.
(** [std::from_chars] on a floating token: a value that is not representable is an error. *)
Definition from_chars_double (neg : bool) (whole fraction : list ascii) (exponent : Z) : res double :=
  let m := dec_value (whole ++ fraction) in
  let x := of_decimal neg m (exponent - Z.of_nat (length fraction)) in
  if negb (isfinite x) then invalid
  else if negb (m =? 0) && bool_decide (x = S754_zero neg) then invalid
  else Ok x.

(** The integer part: [0], or a digit 1-9 and the digits that follow. *)
Definition integer_part (s : list ascii) : res (list ascii * list ascii) :=
  match s with
  | [] => invalid
  | c :: s' =>
    if Ascii.eqb c "0" then Ok (["0"%char], s')
    else if (code c <? code "1") || (code "9" <? code c) then invalid
    else Ok (digit_run s)
  end.
(** The fraction, if there is a point. *)
Definition fraction_part (s : list ascii) : res (bool * list ascii * list ascii) :=
  match s with
  | c :: s' =>
    if Ascii.eqb c "." then
      let '(d, r) := digit_run s' in
      match d with [] => invalid | _ => Ok (true, d, r) end
    else Ok (false, [], s)
  | [] => Ok (false, [], s)
  end.
Definition sign_part (s : list ascii) : bool * list ascii :=
  match s with
  | c :: s' =>
    if Ascii.eqb c "+" then (false, s') else if Ascii.eqb c "-" then (true, s') else (false, s)
  | [] => (false, s)
  end.
(** The exponent, if there is an [e]. *)
Definition exponent_part (s : list ascii) : res (bool * Z * list ascii) :=
  match s with
  | c :: s' =>
    if Ascii.eqb c "e" || Ascii.eqb c "E" then
      let '(neg, s1) := sign_part s' in
      let '(d, r) := digit_run s1 in
      match d with
      | [] => invalid
      | _ => Ok (true, (if neg then - dec_value d else dec_value d), r)
      end
    else Ok (false, 0, s)
  | [] => Ok (false, 0, s)
  end.
Definition parse_number (s : list ascii) : res (Json * list ascii) :=
  let '(neg, s1) :=
    match s with
    | c :: s' => if Ascii.eqb c "-" then (true, s') else (false, s)
    | [] => (false, s)
    end in
  '(whole, s2) ← integer_part s1;
  '(fl1, fraction, s3) ← fraction_part s2;
  '(fl2, exponent, s4) ← exponent_part s3;
  if fl1 || fl2
  then x ← from_chars_double neg whole fraction exponent; Ok (JDouble x, s4)
  else v ← from_chars_int64 neg whole; Ok (JInt v, s4).

Definition maximum_depth : Z := 24.
Definition opens (c : ascii) (s : list ascii) : bool := is_prefix [c] s.

Fixpoint item (fuel : nat) (depth : Z) (s0 : list ascii) {struct fuel} : res (Json * list ascii) :=
  match fuel with
  | O => Err FuelExhausted
  | S f =>
    if maximum_depth <? depth then invalid
    else
      let s := space s0 in
      match s with
      | [] => invalid
      | _ =>
        if opens quote_char s then '(t, r) ← parse_string s; Ok (JString t, r)
        else
          let '(is_obj, so) := take_char "{" s in
          if is_obj then
            let '(closed, r) := take_char "}" so in
            if closed then Ok (JObject [], r) else members f depth [] so
          else
            let '(is_arr, sa) := take_char "[" s in
            if is_arr then
              let '(closed, r) := take_char "]" sa in
              if closed then Ok (JArray [], r) else elements f depth [] sa
            else if is_prefix (chars "true") s then Ok (JBool true, drop 4 s)
            else if is_prefix (chars "false") s then Ok (JBool false, drop 5 s)
            else if is_prefix (chars "null") s then Ok (JNull, drop 4 s)
            else parse_number s
      end
  end
(** [do { key; ':'; emplace } while (take(',')); require('}')] *)
with members (fuel : nat) (depth : Z) (obj : Object) (s : list ascii) {struct fuel}
  : res (Json * list ascii) :=
  match fuel with
  | O => Err FuelExhausted
  | S f =>
    '(key, s1) ← parse_string s;
    s2 ← require_char ":" s1;
    '(v, s3) ← item f (depth + 1) s2;
    let '(obj', inserted) := obj_emplace key v obj in
    if negb inserted then invalid
    else
      let '(more, s4) := take_char "," s3 in
      if more then members f depth obj' s4
      else r ← require_char "}" s3; Ok (JObject obj', r)
  end
(** [do { push_back } while (take(',')); require(']')] *)
with elements (fuel : nat) (depth : Z) (arr : list Json) (s : list ascii) {struct fuel}
  : res (Json * list ascii) :=
  match fuel with
  | O => Err FuelExhausted
  | S f =>
    '(v, s1) ← item f (depth + 1) s;
    let '(more, s2) := take_char "," s1 in
    if more then elements f depth (arr ++ [v]) s2
    else r ← require_char "]" s1; Ok (JArray (arr ++ [v]), r)
  end.

(** [Parser(text).parse()] *)
Definition parse (s : list ascii) : res Json :=
  '(v, r) ← item (2 * length s + 2) 0 s;
  match space r with [] => Ok v | _ => invalid end.
Definition parse_json (text : string) (limit : Z) : res Json :=
  if limit <? ssize text then invalid else parse (chars text).

(** ** The canonical form *)

Definition hex_nibble (n : Z) : ascii := nth (Z.to_nat n) (chars "0123456789abcdef") "0"%char.
Definition escape (c : ascii) : list ascii :=
  if Ascii.eqb c quote_char || Ascii.eqb c "\" then ["\"%char; c]
  else if Ascii.eqb c (chr 8) then ["\"%char; "b"%char]
  else if Ascii.eqb c (chr 9) then ["\"%char; "t"%char]
  else if Ascii.eqb c (chr 10) then ["\"%char; "n"%char]
  else if Ascii.eqb c (chr 12) then ["\"%char; "f"%char]
  else if Ascii.eqb c (chr 13) then ["\"%char; "r"%char]
  else if code c <? 32
       then chars "\u00" ++ [hex_nibble (Z.shiftr (code c) 4); hex_nibble (Z.land (code c) 15)]
  else [c].
Definition quote_json (text : string) : res string :=
  if validate_utf8 (chars text)
  then Ok (str (quote_char :: flat_map escape (chars text) ++ [quote_char]))
  else invalid.

Definition maximum_integer : Z := 9007199254740991.
Definition comma (result : string) : string := if 1 <? ssize result then result +:+ "," else result.
Fixpoint canonical (json : Json) : res string :=
  match json with
  | JNull => Ok "null"%string
  | JBool b => Ok (if b then "true" else "false")%string
  | JInt n =>
    if (maximum_integer <? n) || (n <? - maximum_integer)
    then Err (InvalidArgument "INTEGER_RANGE") else Ok (to_string n)
  | JString s => quote_json s
  | JArray l =>
    result ← (fix items (l : list Json) (result : string) : res string :=
      match l with
      | [] => Ok result
      | x :: l' => c ← canonical x; items l' (comma result +:+ c)
      end) l "["%string;
    Ok (result +:+ "]")
  | JObject o =>
    result ← (fix entries (o : Object) (result : string) : res string :=
      match o with
      | [] => Ok result
      | (key, x) :: o' =>
        if negb (all_of (fun c => code c <? 128) key)
        then Err (InvalidArgument "NON_SCHEMA_KEY")
        else k ← quote_json key; c ← canonical x;
             entries o' (comma result +:+ (k +:+ ":" +:+ c))
      end) o "{"%string;
    Ok (result +:+ "}")
  | JDouble _ => Err (InvalidArgument "NON_SCHEMA_NUMBER")
  end.

Example canonical_example :
  canonical (JObject (obj_of [("b", JArray [JInt (-3); JNull]); ("a", JString "x\y")]))%string
  = Ok (str (chars "{'a':'x\\y','b':[-3,null]}"
             ≫= fun c => [if Ascii.eqb c "'" then quote_char else c])).
Proof. vm_compute. reflexivity. Qed.
Example parse_example :
  (j ← parse_json (str (chars " { 'z' : [ 1 , -0.5e1, true ] , 'a':'\u00e9'}"
             ≫= fun c => [if Ascii.eqb c "'" then quote_char else c])) 100; jat "z" j)
  = Ok (JArray [JInt 1; JDouble (of_int (-5)); JBool true]).
Proof. vm_compute. reflexivity. Qed.
