(* ===== verification/JsonFacts.v ===== *)
(** * Facts about JSON values: map operations, the parser's totality and the round trip

    [canonical] followed by [parse_json] is the identity on the values the program builds
    (objects sorted as a [std::map] keeps them), so the canonical text determines the value. *)
From Stdlib Require Import ZArith Lia Bool Ascii String Sorted.
From stdpp Require Import gmap strings list.
From S2P Require Import Prelude Chars Float64 Json.
Local Open Scope Z_scope.

(** ** std::map *)

Definition key_lt (a b : string * Json) : Prop := str_ltb a.1 b.1 = true.
Definition obj_sorted (o : Object) : Prop := StronglySorted key_lt o.

Section Objects.
Implicit Types (o : Object) (k : string) (v : Json).

Lemma find_set_eq k v o : obj_find k (obj_set k v o) = Some v.
Proof.
  induction o as [|[k' v'] o IH]; cbn [obj_set obj_find]; [by rewrite String.eqb_refl|].
  destruct (String.eqb k k') eqn:E; cbn [obj_find]; [by rewrite String.eqb_refl|].
  destruct (str_ltb k k'); cbn [obj_find]; [by rewrite String.eqb_refl|by rewrite E].
Qed.
Lemma find_set_ne k k' v o : k <> k' -> obj_find k (obj_set k' v o) = obj_find k o.
Proof.
  intros H. assert (String.eqb k k' = false) as Hk by (by apply String.eqb_neq).
  induction o as [|[k2 v2] o IH]; cbn [obj_set obj_find]; [by rewrite Hk|].
  destruct (String.eqb k' k2) eqn:E.
  - apply String.eqb_eq in E as ->. cbn [obj_find]. by rewrite Hk.
  - destruct (str_ltb k' k2); cbn [obj_find]; [by rewrite Hk|]. by rewrite IH.
Qed.
Lemma find_erase_ne k k' o : k <> k' -> obj_find k (obj_erase k' o) = obj_find k o.
Proof.
  intros H. induction o as [|[k2 v2] o IH]; cbn [obj_erase obj_find]; [done|].
  destruct (String.eqb k' k2) eqn:E.
  - apply String.eqb_eq in E as ->. by apply String.eqb_neq in H as ->.
  - cbn [obj_find]. by rewrite IH.
Qed.

Lemma key_lt_Forall_find k o :
  Forall (key_lt (k, JNull)) o -> obj_find k o = None.
Proof.
  induction 1 as [|[k' v'] o H _ IH]; [done|]. cbn [obj_find]. unfold key_lt in H. cbn in H.
  apply str_ltb_neq, String.eqb_neq in H as ->. done.
Qed.
Lemma key_lt_any k v v' o : Forall (key_lt (k, v)) o -> Forall (key_lt (k, v')) o.
Proof. intros H. eapply Forall_impl; [exact H|]. intros [??]. by unfold key_lt. Qed.
Lemma find_erase_eq k o : obj_sorted o -> obj_find k (obj_erase k o) = None.
Proof.
  induction 1 as [|[k' v'] o Hs IH Hf]; [done|]. cbn [obj_erase].
  destruct (String.eqb k k') eqn:E; cbn [obj_find]; [|by rewrite E].
  apply String.eqb_eq in E as ->. apply key_lt_Forall_find. by eapply key_lt_any.
Qed.

Lemma set_sorted k v o : obj_sorted o -> obj_sorted (obj_set k v o).
Proof.
  induction 1 as [|[k' v'] o Hs IH Hf]; cbn [obj_set]; [by repeat constructor|].
  destruct (String.eqb k k') eqn:E.
  { apply String.eqb_eq in E as ->. constructor; [done|by eapply key_lt_any]. }
  destruct (str_ltb k k') eqn:El.
  - constructor; [by constructor|]. constructor; [done|].
    eapply Forall_impl; [exact Hf|]. intros [k2 v2]. unfold key_lt. cbn.
    by apply str_ltb_trans.
  - constructor; [done|]. clear IH Hs. apply Forall_forall. intros x Hx.
    assert (x = (k, v) \/ x ∈ o) as [->|Hin].
    { clear -Hx. induction o as [|[k2 v2] o IH]; cbn [obj_set] in Hx; [set_solver|].
      destruct (String.eqb k k2); [set_solver|]. destruct (str_ltb k k2); set_solver. }
    + unfold key_lt. cbn. destruct (str_ltb k' k) eqn:E2; [done|].
      exfalso. apply String.eqb_neq in E. apply E. by apply str_ltb_total.
    + rewrite Forall_forall in Hf. by apply Hf.
Qed.
Lemma erase_subset k o x : x ∈ obj_erase k o -> x ∈ o.
Proof.
  induction o as [|[k' v'] o IH]; cbn [obj_erase]; [done|].
  destruct (String.eqb k k'); set_solver.
Qed.
Lemma erase_sorted k o : obj_sorted o -> obj_sorted (obj_erase k o).
Proof.
  induction 1 as [|[k' v'] o Hs IH Hf]; cbn [obj_erase]; [by constructor|].
  destruct (String.eqb k k'); [done|]. constructor; [done|].
  rewrite Forall_forall in *. intros x Hx. by apply Hf, (erase_subset k).
Qed.
Lemma emplace_sorted k v o : obj_sorted o -> obj_sorted (obj_emplace k v o).1.
Proof. intros H. unfold obj_emplace. destruct (obj_find k o); [done|]. by apply set_sorted. Qed.

(** Insertion past the last key appends. *)
Lemma set_last k v o :
  Forall (fun kv => str_ltb kv.1 k = true) o -> obj_set k v o = o ++ [(k, v)].
Proof.
  induction 1 as [|[k' v'] o H _ IH]; [done|]. cbn [obj_set app]. cbn in H.
  assert (String.eqb k k' = false) as ->.
  { apply String.eqb_neq. intros ->. by rewrite str_ltb_irrefl in H. }
  by rewrite (str_ltb_asym _ _ H), IH.
Qed.
Lemma find_none_last k o :
  Forall (fun kv => str_ltb kv.1 k = true) o -> obj_find k o = None.
Proof.
  induction 1 as [|[k' v'] o H _ IH]; [done|]. cbn [obj_find]. cbn in H.
  apply str_ltb_neq in H. assert (String.eqb k k' = false) as ->; [|done].
  apply String.eqb_neq. congruence.
Qed.

(** [obj_of] looks up the first occurrence. *)
Lemma find_emplace k k' v o :
  obj_find k (obj_emplace k' v o).1 =
  match obj_find k o with
  | Some w => Some w
  | None => if String.eqb k k' then Some v else None
  end.
Proof.
  unfold obj_emplace. destruct (String.eqb k k') eqn:E.
  - apply String.eqb_eq in E as ->. destruct (obj_find k' o) eqn:F; cbn [fst]; [by rewrite F|].
    apply find_set_eq.
  - apply String.eqb_neq in E. destruct (obj_find k' o) eqn:F; cbn [fst];
      [|rewrite find_set_ne by done]; by destruct (obj_find k o).
Qed.
Lemma find_obj_of k l : obj_find k (obj_of l) = obj_find k l.
Proof.
  unfold obj_of.
  assert (H : forall o, obj_find k (fold_left (fun o kv => (obj_emplace kv.1 kv.2 o).1) l o) =
    match obj_find k o with Some w => Some w | None => obj_find k l end); [|by rewrite H].
  induction l as [|[k' v'] l IH]; intros o; cbn [fold_left obj_find fst snd].
  - by destruct (obj_find k o).
  - rewrite IH, find_emplace. destruct (obj_find k o); [done|]. by destruct (String.eqb k k').
Qed.
Lemma obj_of_sorted l : obj_sorted (obj_of l).
Proof.
  unfold obj_of. assert (H : forall o, obj_sorted o ->
    obj_sorted (fold_left (fun o kv => (obj_emplace kv.1 kv.2 o).1) l o));
    [|apply H; constructor].
  induction l as [|kv l IH]; intros o Ho; [done|]. cbn [fold_left].
  apply IH. by apply emplace_sorted.
Qed.
End Objects.

(** ** Well-formed values *)

Fixpoint wf (j : Json) : Prop :=
  match j with
  | JObject o =>
    obj_sorted o /\
    (fix go (o : Object) : Prop := match o with [] => True | kv :: o' => wf kv.2 /\ go o' end) o
  | JArray l =>
    (fix go (l : list Json) : Prop := match l with [] => True | x :: l' => wf x /\ go l' end) l
  | _ => True
  end.
Fixpoint depth (j : Json) : Z :=
  match j with
  | JObject o =>
    (fix go (o : Object) : Z :=
       match o with [] => 0 | kv :: o' => Z.max (1 + depth kv.2) (go o') end) o
  | JArray l =>
    (fix go (l : list Json) : Z :=
       match l with [] => 0 | x :: l' => Z.max (1 + depth x) (go l') end) l
  | _ => 0
  end.

Lemma wf_object o : wf (JObject o) <-> obj_sorted o /\ Forall (fun kv => wf kv.2) o.
Proof.
  cbn [wf]. apply and_iff_compat_l. induction o as [|kv o IH]; [by split|].
  rewrite Forall_cons. by rewrite IH.
Qed.
Lemma wf_array l : wf (JArray l) <-> Forall wf l.
Proof. cbn [wf]. induction l as [|x l IH]; [by split|]. rewrite Forall_cons. by rewrite IH. Qed.
Lemma depth_nonneg j : 0 <= depth j.
Proof.
  induction j as [| | | | |o IH|l IH] using Json_rect'; cbn [depth]; try lia.
  - induction IH as [|kv o Hkv _ IHo]; lia.
  - induction IH as [|x l Hx _ IHl]; lia.
Qed.
Lemma depth_object o m : depth (JObject o) <= m -> Forall (fun kv => 1 + depth kv.2 <= m) o.
Proof.
  cbn [depth]. induction o as [|kv o IH]; intros H; constructor; [lia|]. apply IH. lia.
Qed.
Lemma depth_array l m : depth (JArray l) <= m -> Forall (fun x => 1 + depth x <= m) l.
Proof.
  cbn [depth]. induction l as [|x l IH]; intros H; constructor; [lia|]. apply IH. lia.
Qed.

(** ** The parser consumes its input, and its fuel is enough *)

(** [m] returned a rest at least [k] characters shorter than [n], or failed with an exception
    of the program. *)
Definition shrinks {A} (k n : nat) (m : res (A * list ascii)) : Prop :=
  match m with
  | Ok (_, r) => (length r + k <= n)%nat
  | Err e => e <> FuelExhausted
  end.

Lemma shrinks_bind {A B} k k' n n' (m : res (A * list ascii)) (f : A * list ascii -> res (B * list ascii)) :
  shrinks k n m -> (forall a r, (length r + k <= n)%nat -> shrinks k' n' (f (a, r))) ->
  shrinks k' n' (m ≫= f).
Proof. destruct m as [[a r]|e]; cbn; auto. Qed.
Lemma shrinks_weaken {A} k k' n n' (m : res (A * list ascii)) :
  shrinks k n m -> (n + k' <= n' + k)%nat -> shrinks k' n' m.
Proof. destruct m as [[a r]|e]; cbn; [lia|done]. Qed.
Lemma shrinks_invalid {A} k n : shrinks (A:=A) k n invalid.
Proof. done. Qed.

Lemma space_length s : (length (space s) <= length s)%nat.
Proof. induction s as [|c s IH]; cbn; [lia|]. destruct (is_space c); cbn; lia. Qed.
Lemma take_char_length c s : match take_char c s with
  | (true, r) => (length r + 1 <= length s)%nat
  | (false, r) => (length r <= length s)%nat
  end.
Proof.
  unfold take_char. pose proof (space_length s). destruct (space s) as [|d s']; cbn in *; [lia|].
  destruct (Ascii.eqb d c); cbn; lia.
Qed.
Lemma require_char_shrinks c s : match require_char c s with
  | Ok r => (length r + 1 <= length s)%nat
  | Err e => e <> FuelExhausted
  end.
Proof.
  unfold require_char. pose proof (take_char_length c s). destruct (take_char c s) as [[|] r]; done.
Qed.
Lemma hex_run_shrinks n out s : shrinks n (length s) (hex_run n out s).
Proof.
  revert out s. induction n as [|n IH]; intros out s; cbn [hex_run]; [cbn; lia|].
  destruct s as [|c s]; [done|]. destruct (hex_any c =? 16); [done|].
  eapply shrinks_weaken; [apply IH|]. cbn. lia.
Qed.
Lemma unicode_escape_shrinks s : shrinks 4 (length s) (unicode_escape s).
Proof.
  unfold unicode_escape. eapply shrinks_bind; [apply hex_run_shrinks|]. intros cp r Hr.
  destruct (_ && _).
  - destruct (negb _); [done|]. eapply shrinks_bind; [apply hex_run_shrinks|]. intros low r2 Hr2.
    rewrite length_drop in Hr2. destruct (_ || _); cbn; [done|lia].
  - destruct (_ && _); cbn; [done|lia].
Qed.
Lemma string_loop_shrinks f out s :
  (length s < f)%nat -> shrinks 1 (length s) (string_loop f out s).
Proof.
  revert out s. induction f as [|f IH]; intros out s Hf; [lia|]. cbn [string_loop].
  destruct s as [|c s]; [done|]. cbn in Hf.
  destruct (Ascii.eqb c quote_char). { destruct (validate_utf8 out); cbn; [lia|done]. }
  destruct (code c <? 32); [done|].
  destruct (negb _). { eapply shrinks_weaken; [apply IH; lia|]. cbn. lia. }
  destruct s as [|e s]; [done|]. cbn in Hf. destruct (simple_escape e).
  { eapply shrinks_weaken; [apply IH; lia|]. cbn. lia. }
  destruct (Ascii.eqb e "u"); [|done].
  eapply shrinks_bind; [apply unicode_escape_shrinks|]. intros u r Hr.
  eapply shrinks_weaken; [apply IH; lia|]. cbn. lia.
Qed.
Lemma parse_string_shrinks s : shrinks 2 (length s) (parse_string s).
Proof.
  unfold parse_string. pose proof (require_char_shrinks quote_char s).
  destruct (require_char quote_char s) as [r|e]; [|done]. cbn [mbind res_mbind].
  eapply shrinks_bind; [apply string_loop_shrinks; lia|]. intros out r2 Hr. cbn. lia.
Qed.
Lemma digit_run_length s : (length (digit_run s).2 <= length s)%nat.
Proof.
  induction s as [|c s IH]; cbn; [lia|]. destruct (is_digit c); [|cbn; lia].
  destruct (digit_run s). cbn in *. lia.
Qed.
Lemma integer_part_shrinks s : shrinks 1 (length s) (integer_part s).
Proof.
  unfold integer_part. destruct s as [|c s]; [done|]. destruct (Ascii.eqb c "0"); [cbn; lia|].
  destruct (_ || _) eqn:E; [done|]. b2p. cbn [digit_run].
  replace (is_digit c) with true.
  2: { symmetry. apply is_digit_code. change (code "1") with 49 in *. change (code "9") with 57 in *. lia. }
  pose proof (digit_run_length s). destruct (digit_run s). cbn in *. lia.
Qed.
Lemma fraction_part_shrinks s : shrinks 0 (length s) (fraction_part s).
Proof.
  unfold fraction_part. destruct s as [|c s]; [cbn; lia|]. destruct (Ascii.eqb c "."); [|cbn; lia].
  pose proof (digit_run_length s). destruct (digit_run s) as [[|d ds] r]; cbn in *; [done|lia].
Qed.
Lemma exponent_part_shrinks s : shrinks 0 (length s) (exponent_part s).
Proof.
  unfold exponent_part. destruct s as [|c s]; [cbn; lia|]. destruct (_ || _); [|cbn; lia].
  assert (H : (length (sign_part s).2 <= length s)%nat).
  { unfold sign_part. destruct s as [|d s]; [cbn; lia|].
    destruct (Ascii.eqb d "+"); [cbn; lia|]. destruct (Ascii.eqb d "-"); cbn; lia. }
  destruct (sign_part s) as [neg s1]. cbn in H. pose proof (digit_run_length s1).
  destruct (digit_run s1) as [[|d ds] r]; cbn in *; [done|lia].
Qed.
Lemma from_chars_fuel neg w : from_chars_int64 neg w <> Err FuelExhausted.
Proof. unfold from_chars_int64. by destruct (_ || _). Qed.
Lemma from_chars_double_fuel neg w fr e : from_chars_double neg w fr e <> Err FuelExhausted.
Proof. unfold from_chars_double. destruct (negb _); [done|]. by destruct (_ && _). Qed.
Lemma parse_number_shrinks s : shrinks 1 (length s) (parse_number s).
Proof.
  unfold parse_number.
  set (p := match s with [] => _ | c :: s' => _ end).
  assert (Hp : (length p.2 <= length s)%nat).
  { unfold p. destruct s as [|c s]; [done|]. destruct (Ascii.eqb c "-"); cbn; lia. }
  destruct p as [neg s1]. cbn in Hp.
  eapply shrinks_bind; [apply integer_part_shrinks|]. intros w s2 H2.
  eapply shrinks_bind; [apply fraction_part_shrinks|]. intros [fl1 fr] s3 H3.
  eapply shrinks_bind; [apply exponent_part_shrinks|]. intros [fl2 e] s4 H4.
  destruct (fl1 || fl2).
  - pose proof (from_chars_double_fuel neg w fr e) as H. destruct (from_chars_double neg w fr e); cbn; [lia|].
    by intros ->.
  - pose proof (from_chars_fuel neg w) as H. destruct (from_chars_int64 neg w); cbn; [lia|]. by intros ->.
Qed.

Lemma is_prefix_length p s : is_prefix p s = true -> (length p <= length s)%nat.
Proof. intros (t & ->)%is_prefix_true. rewrite length_app. lia. Qed.

Lemma item_shrinks f :
  (forall d s, (2 * length s < f)%nat -> shrinks 1 (length s) (item f d s)) /\
  (forall d o s, (2 * length s + 1 < f)%nat -> shrinks 1 (length s) (members f d o s)) /\
  (forall d l s, (2 * length s + 1 < f)%nat -> shrinks 1 (length s) (elements f d l s)).
Proof.
  induction f as [|f (IHi & IHm & IHe)]; [split_and!; intros; lia|]. split_and!.
  - intros d s0 Hf. cbn [item]. destruct (maximum_depth <? d); [done|].
    pose proof (space_length s0). destruct (space s0) as [|c s] eqn:Es; [done|]. rewrite <- Es in *.
    set (t := space s0) in *. assert (1 <= length t)%nat by (rewrite Es; cbn; lia).
    destruct (opens quote_char t).
    { eapply shrinks_bind; [apply parse_string_shrinks|]. intros a r Hr. cbn. lia. }
    pose proof (take_char_length "{" t). destruct (take_char "{" t) as [[|] so].
    { pose proof (take_char_length "}" so). destruct (take_char "}" so) as [[|] r]; [cbn; lia|].
      eapply shrinks_weaken; [apply IHm; lia|]. lia. }
    pose proof (take_char_length "[" t). destruct (take_char "[" t) as [[|] sa].
    { pose proof (take_char_length "]" sa). destruct (take_char "]" sa) as [[|] r]; [cbn; lia|].
      eapply shrinks_weaken; [apply IHe; lia|]. lia. }
    destruct (is_prefix (chars "true") t) eqn:E1.
    { apply is_prefix_length in E1. cbn in E1. unfold shrinks. rewrite length_drop. lia. }
    destruct (is_prefix (chars "false") t) eqn:E2.
    { apply is_prefix_length in E2. cbn in E2. unfold shrinks. rewrite length_drop. lia. }
    destruct (is_prefix (chars "null") t) eqn:E3.
    { apply is_prefix_length in E3. cbn in E3. unfold shrinks. rewrite length_drop. lia. }
    eapply shrinks_weaken; [apply parse_number_shrinks|]. lia.
  - intros d o s Hf. cbn [members].
    eapply shrinks_bind; [apply parse_string_shrinks|]. intros key s1 H1.
    pose proof (require_char_shrinks ":" s1). destruct (require_char ":" s1) as [s2|e]; [|done].
    cbn [mbind res_mbind].
    eapply shrinks_bind; [apply IHi; lia|]. intros v s3 H3.
    destruct (obj_emplace key v o) as [o' [|]]; cbn [negb]; [|done].
    pose proof (take_char_length "," s3). destruct (take_char "," s3) as [[|] s4].
    { eapply shrinks_weaken; [apply IHm; lia|]. lia. }
    pose proof (require_char_shrinks "}" s3). destruct (require_char "}" s3); cbn; [lia|done].
  - intros d l s Hf. cbn [elements].
    eapply shrinks_bind; [apply IHi; lia|]. intros v s1 H1.
    pose proof (take_char_length "," s1). destruct (take_char "," s1) as [[|] s2].
    { eapply shrinks_weaken; [apply IHe; lia|]. lia. }
    pose proof (require_char_shrinks "]" s1). destruct (require_char "]" s1); cbn; [lia|done].
Qed.
Lemma parse_fuel s : parse s <> Err FuelExhausted.
Proof.
  unfold parse. destruct (item_shrinks (2 * length s + 2)) as (H & _). specialize (H 0 s ltac:(lia)).
  destruct (item _ 0 s) as [[v r]|e]; cbn in *; [|congruence]. by destruct (space r).
Qed.

(** ** Round trip: scalars *)

(** What may follow a number token without being read as part of it. *)
Definition num_end (rest : list ascii) : Prop :=
  match rest with
  | [] => True
  | c :: _ => is_digit c = false /\ c <> "."%char /\ c <> "e"%char /\ c <> "E"%char
  end.

Lemma digit_run_app ds rest :
  Forall (fun c => is_digit c = true) ds -> num_end rest -> digit_run (ds ++ rest) = (ds, rest).
Proof.
  intros Hd Hr. induction Hd as [|c ds Hc _ IH]; cbn [app digit_run].
  - destruct rest as [|c rest]; [done|]. cbn. by destruct Hr as [-> _].
  - by rewrite Hc, IH.
Qed.
Lemma fraction_part_end rest : num_end rest -> fraction_part rest = Ok (false, [], rest).
Proof.
  destruct rest as [|c rest]; [done|]. intros (_ & H & _). cbn.
  by apply Ascii.eqb_neq in H as ->.
Qed.
Lemma exponent_part_end rest : num_end rest -> exponent_part rest = Ok (false, 0, rest).
Proof.
  destruct rest as [|c rest]; [done|]. intros (_ & _ & H1 & H2). cbn.
  apply Ascii.eqb_neq in H1 as ->. by apply Ascii.eqb_neq in H2 as ->.
Qed.
Lemma integer_part_dec n rest :
  0 <= n -> num_end rest -> integer_part (dec n ++ rest) = Ok (dec n, rest).
Proof.
  intros Hn Hr. destruct (Z.eq_dec n 0) as [->|Hne].
  { change (dec 0) with ["0"%char]. reflexivity. }
  destruct (dec_head n) as (c & l & E & Hc & H0); [lia|].
  pose proof (dec_is_digits n Hn) as HF. rewrite E in *. cbn [app integer_part].
  apply Ascii.eqb_neq in H0 as H0'. rewrite H0'.
  assert (code c <> 48) by (intros Ec; apply H0; by apply code_inj).
  pose proof (proj1 (is_digit_code c) Hc).
  change (code "1") with 49. change (code "9") with 57.
  replace ((code c <? 49) || (57 <? code c)) with false by lia.
  change (c :: l ++ rest) with ((c :: l) ++ rest). by rewrite digit_run_app.
Qed.
Lemma to_chars_head n : exists c l, to_chars n = c :: l /\ (c = "-"%char \/ is_digit c = true).
Proof.
  unfold to_chars. destruct (n <? 0) eqn:E; b2p; [by eexists _, _; split; [|left]|].
  destruct (Z.eq_dec n 0) as [->|]; [by eexists _, _; split; [|right]|].
  destruct (dec_head n) as (c & l & -> & Hc & _); [lia|]. eexists _, _. split; [done|by right].
Qed.
Lemma parse_number_to_chars n rest :
  - maximum_integer <= n <= maximum_integer -> num_end rest ->
  parse_number (to_chars n ++ rest) = Ok (JInt n, rest).
Proof.
  intros Hn Hr. unfold parse_number, to_chars. unfold maximum_integer in Hn.
  assert (Hi : forall neg m, 0 <= m -> (if neg : bool then - m else m) = n ->
    from_chars_int64 neg (dec m) = Ok n).
  { intros neg m Hm E. unfold from_chars_int64. rewrite dec_value_dec, E by done.
    unfold int64_min, int64_max. by replace ((n <? _) || _) with false by lia. }
  destruct (n <? 0) eqn:E; b2p.
  - cbn [app]. rewrite Ascii.eqb_refl.
    rewrite integer_part_dec by (done || lia). cbn [mbind res_mbind].
    rewrite fraction_part_end by done. cbn [mbind res_mbind].
    rewrite exponent_part_end by done. cbn [mbind res_mbind orb].
    by rewrite (Hi true (- n)) by lia.
  - set (p := match dec n ++ rest with [] => _ | c :: s' => _ end).
    assert (p = (false, dec n ++ rest)) as ->.
    { unfold p. destruct (to_chars_head n) as (c & l & El & Hc). unfold to_chars in El.
      replace (n <? 0) with false in El by lia. rewrite El. cbn [app].
      pose proof (dec_is_digits n E) as HF. rewrite El in HF. apply Forall_cons in HF as [HF _].
      assert (c <> "-"%char) as Hm by (by intros ->). by apply Ascii.eqb_neq in Hm as ->. }
    rewrite integer_part_dec by (done || lia). cbn [mbind res_mbind].
    rewrite fraction_part_end by done. cbn [mbind res_mbind].
    rewrite exponent_part_end by done. cbn [mbind res_mbind orb].
    by rewrite (Hi false n) by lia.
Qed.

Lemma string_loop_escape f out c rest :
  string_loop (S f) out (escape c ++ rest) = string_loop f (out ++ [c]) rest.
Proof. destruct c as [[] [] [] [] [] [] [] []]; reflexivity. Qed.
Lemma escape_length c : (1 <= length (escape c))%nat.
Proof. unfold escape. repeat case_match; cbn; lia. Qed.
Lemma string_loop_quoted f out l rest :
  (length l < f)%nat -> validate_utf8 (out ++ l) = true ->
  string_loop f out (flat_map escape l ++ quote_char :: rest) = Ok (out ++ l, rest).
Proof.
  revert f out. induction l as [|c l IH]; intros f out Hf Hv; destruct f as [|f]; try (cbn in Hf; lia).
  - rewrite app_nil_r in *. cbn [flat_map app string_loop]. by rewrite Ascii.eqb_refl, Hv.
  - cbn [flat_map]. rewrite <- app_assoc, string_loop_escape, IH.
    + by rewrite <- app_assoc.
    + cbn in Hf. lia.
    + by rewrite <- app_assoc.
Qed.
Lemma quote_json_chars t s :
  quote_json t = Ok s ->
  chars s = quote_char :: flat_map escape (chars t) ++ [quote_char] /\ validate_utf8 (chars t) = true.
Proof.
  unfold quote_json. destruct (validate_utf8 (chars t)) eqn:E; [|done]. intros H. split; [|done].
  assert (s = str (quote_char :: flat_map escape (chars t) ++ [quote_char])) as -> by congruence.
  by rewrite chars_str.
Qed.
Lemma take_char_here c rest : is_space c = false -> take_char c (c :: rest) = (true, rest).
Proof. intros H. unfold take_char. cbn [space]. by rewrite H, Ascii.eqb_refl. Qed.
Lemma take_char_other c d rest :
  is_space d = false -> d <> c -> take_char c (d :: rest) = (false, d :: rest).
Proof. intros H Hn. unfold take_char. cbn [space]. rewrite H. by apply Ascii.eqb_neq in Hn as ->. Qed.
Lemma require_char_here c rest : is_space c = false -> require_char c (c :: rest) = Ok rest.
Proof. intros H. unfold require_char. by rewrite take_char_here. Qed.
Lemma parse_string_quoted t s rest :
  quote_json t = Ok s -> parse_string (chars s ++ rest) = Ok (t, rest).
Proof.
  intros (E & Hv)%quote_json_chars. rewrite E. unfold parse_string. cbn [app].
  rewrite require_char_here by done. cbn [mbind res_mbind]. rewrite <- app_assoc. cbn [app].
  rewrite string_loop_quoted; [cbn; by rewrite str_chars| |done].
  assert (forall l, (length l <= length (flat_map escape l))%nat).
  { induction l as [|c l IH]; cbn; [lia|]. rewrite length_app. pose proof (escape_length c). lia. }
  rewrite length_app. specialize (H (chars t)). cbn. lia.
Qed.

(** Lengths of concatenations. *)
Ltac solve_len :=
  rewrite ?length_app in *; cbn [length app] in *; rewrite ?length_app in *; cbn [length app] in *; lia.

(** ** Round trip: arrays and objects *)

(** The first character of a value's canonical text. *)
Definition value_head (c : ascii) : Prop :=
  In c [quote_char; "{"; "["; "t"; "f"; "n"; "-"]%char \/ is_digit c = true.
Lemma value_head_spec c :
  value_head c -> is_space c = false /\ c <> "}"%char /\ c <> "]"%char /\ c <> ","%char /\ c <> ":"%char.
Proof.
  intros [H|H].
  - repeat destruct H as [<-|H]; try done; by split_and!.
  - assert (Hne : forall d, is_digit d = false -> c <> d) by (intros d Hd ->; congruence).
    split_and!; try by apply Hne. unfold is_space.
    by rewrite !(proj2 (Ascii.eqb_neq _ _)) by (by apply Hne).
Qed.

Definition comma_texts (ps : list string) : list ascii := flat_map (fun p => ","%char :: chars p) ps.

(** The loop over an array's items once the text is longer than the bracket. *)
Fixpoint items (l : list Json) (result : string) : res string :=
  match l with
  | [] => Ok result
  | x :: l' => c ← canonical x; items l' (comma result +:+ c)
  end.
Definition entry_text (key : string) (x : Json) : res string :=
  if negb (all_of (fun c => code c <? 128) key) then Err (InvalidArgument "NON_SCHEMA_KEY")
  else k ← quote_json key; c ← canonical x; Ok (k +:+ ":" +:+ c).
Fixpoint entries (o : Object) (result : string) : res string :=
  match o with
  | [] => Ok result
  | (key, x) :: o' => e ← entry_text key x; entries o' (comma result +:+ e)
  end.
Lemma canonical_array l :
  canonical (JArray l) = (result ← items l "["%string; Ok (result +:+ "]")).
Proof. reflexivity. Qed.
Lemma canonical_object o :
  canonical (JObject o) = (result ← entries o "{"%string; Ok (result +:+ "}")).
Proof.
  cbn [canonical]. f_equal. generalize "{"%string.
  induction o as [|[k x] o IH]; intros r; [done|]. cbn [entries]. unfold entry_text.
  destruct (negb _); [done|]. destruct (quote_json k) as [q|]; [|done]. cbn.
  destruct (canonical x); [|done]. cbn. by rewrite <- IH.
Qed.

Lemma items_long l result s :
  1 < ssize result -> items l result = Ok s ->
  exists ps, Forall2 (fun x p => canonical x = Ok p) l ps /\
    chars s = chars result ++ comma_texts ps.
Proof.
  revert result. induction l as [|x l IH]; intros result Hr H; cbn [items] in H.
  - inv_res. exists []. by rewrite app_nil_r.
  - inv_res. unfold comma in *. replace (1 <? ssize result) with true in * by lia.
    apply IH in H0 as (ps & Hps & E).
    2: { rewrite !ssize_app. pose proof (ssize_nonneg x0). change (ssize ",") with 1. lia. }
    exists (x0 :: ps). split; [by constructor|]. rewrite E, !chars_app.
    cbn [comma_texts flat_map]. by rewrite <- !app_assoc.
Qed.
Lemma entries_long o result s :
  1 < ssize result -> entries o result = Ok s ->
  exists ps, Forall2 (fun kv p => entry_text kv.1 kv.2 = Ok p) o ps /\
    chars s = chars result ++ comma_texts ps.
Proof.
  revert result. induction o as [|[k x] o IH]; intros result Hr H; cbn [entries] in H.
  - inv_res. exists []. by rewrite app_nil_r.
  - apply bind_Ok in H as (p & Hp & H).
    unfold comma in *. replace (1 <? ssize result) with true in * by lia.
    apply IH in H as (ps & Hps & E).
    2: { rewrite !ssize_app. pose proof (ssize_nonneg p). change (ssize ",") with 1. lia. }
    exists (p :: ps). split; [by constructor|]. rewrite E, !chars_app.
    cbn [comma_texts flat_map]. by rewrite <- !app_assoc.
Qed.

Lemma entry_text_inv k x p :
  entry_text k x = Ok p -> exists q c, quote_json k = Ok q /\ canonical x = Ok c /\
    chars p = chars q ++ ":"%char :: chars c.
Proof.
  unfold entry_text. destruct (negb _); [done|]. intros H. inv_res.
  eexists _, _. split_and!; [done..|]. by rewrite !chars_app.
Qed.

(** The text of a value starts with one of [value_head]. *)
Lemma comma_prefix r : exists t, chars (comma r) = chars r ++ t.
Proof.
  unfold comma. destruct (1 <? ssize r); [|by exists []; rewrite app_nil_r].
  rewrite chars_app. by eexists.
Qed.
Lemma items_prefix l r s : items l r = Ok s -> exists t, chars s = chars r ++ t.
Proof.
  revert r. induction l as [|x l IH]; intros r H; cbn [items] in H.
  - inv_res. exists []. by rewrite app_nil_r.
  - apply bind_Ok in H as (p & _ & H). apply IH in H as (t & ->).
    destruct (comma_prefix r) as (u & Hu). rewrite chars_app, Hu, <- !app_assoc. by eexists.
Qed.
Lemma entries_prefix o r s : entries o r = Ok s -> exists t, chars s = chars r ++ t.
Proof.
  revert r. induction o as [|[k x] o IH]; intros r H; cbn [entries] in H.
  - inv_res. exists []. by rewrite app_nil_r.
  - apply bind_Ok in H as (p & _ & H). apply IH in H as (t & ->).
    destruct (comma_prefix r) as (u & Hu). rewrite chars_app, Hu, <- !app_assoc. by eexists.
Qed.
Lemma canonical_head j s : canonical j = Ok s -> exists c l, chars s = c :: l /\ value_head c.
Proof.
  destruct j as [|b|n|x|t|o|l].
  - intros [= <-]. eexists _, _. split; [done|]. left. cbn. tauto.
  - destruct b; intros [= <-]; (eexists _, _; split; [done|]); left; cbn; tauto.
  - cbn. destruct (_ || _); [done|]. intros [= <-]. unfold to_string. rewrite chars_str.
    destruct (to_chars_head n) as (c & l & -> & Hc). eexists _, _. split; [done|].
    destruct Hc as [->|]; [left; cbn; tauto|by right].
  - done.
  - intros (-> & _)%quote_json_chars. eexists _, _. split; [done|]. left. cbn. tauto.
  - rewrite canonical_object. intros H. apply bind_Ok in H as (r & (t & E)%entries_prefix & [= <-]).
    rewrite chars_app, E. eexists _, _. split; [done|]. left. cbn. tauto.
  - rewrite canonical_array. intros H. apply bind_Ok in H as (r & (t & E)%items_prefix & [= <-]).
    rewrite chars_app, E. eexists _, _. split; [done|]. left. cbn. tauto.
Qed.
Lemma canonical_nonempty j s : canonical j = Ok s -> 0 < ssize s.
Proof. intros (c & l & E & _)%canonical_head. rewrite ssize_chars, E. cbn. lia. Qed.

Lemma canonical_array_inv l s :
  canonical (JArray l) = Ok s ->
  exists ps, Forall2 (fun x p => canonical x = Ok p) l ps /\
    chars s = "["%char :: match ps with [] => [] | p :: ps' => chars p ++ comma_texts ps' end ++ ["]"%char].
Proof.
  rewrite canonical_array. intros H. apply bind_Ok in H as (r & H & [= <-]).
  destruct l as [|x l]; cbn [items] in H; [inv_res; by exists []|].
  apply bind_Ok in H as (p & Hp & H). apply items_long in H as (ps & Hps & E).
  - exists (p :: ps). split; [by constructor|]. rewrite chars_app, E.
    change (comma "[") with "["%string. rewrite chars_app. cbn. by rewrite <- app_assoc.
  - change (comma "[") with "["%string. rewrite ssize_app. apply canonical_nonempty in Hp.
    change (ssize "[") with 1. lia.
Qed.
Lemma canonical_object_inv o s :
  canonical (JObject o) = Ok s ->
  exists ps, Forall2 (fun kv p => entry_text kv.1 kv.2 = Ok p) o ps /\
    chars s = "{"%char :: match ps with [] => [] | p :: ps' => chars p ++ comma_texts ps' end ++ ["}"%char].
Proof.
  rewrite canonical_object. intros H. apply bind_Ok in H as (r & H & [= <-]).
  destruct o as [|[k x] o]; cbn [entries] in H; [inv_res; by exists []|].
  apply bind_Ok in H as (p & Hp & H). apply entries_long in H as (ps & Hps & E).
  - exists (p :: ps). split; [by constructor|]. rewrite chars_app, E.
    change (comma "{") with "{"%string. rewrite chars_app. cbn. by rewrite <- app_assoc.
  - change (comma "{") with "{"%string. rewrite ssize_app.
    apply entry_text_inv in Hp as (q & c & _ & Hc%canonical_nonempty & Hp).
    rewrite (ssize_chars p), Hp, length_app. change (ssize "{") with 1. cbn. lia.
Qed.

(** What the induction provides for each member: its text is read back in any context. *)
Definition reads_back (j : Json) : Prop :=
  forall s rest d f, wf j -> canonical j = Ok s -> num_end rest -> 0 <= d ->
    d + depth j <= maximum_depth -> (2 * length (chars s ++ rest) < f)%nat ->
    item f d (chars s ++ rest) = Ok (j, rest).

Lemma num_end_comma ps c rest : num_end (c :: rest) -> num_end (comma_texts ps ++ c :: rest).
Proof. destruct ps as [|p ps]; [done|]. intros _. by cbn. Qed.

Lemma elements_read l ps x p arr d f rest :
  Forall reads_back (x :: l) -> Forall wf (x :: l) ->
  Forall (fun y => d + 1 + depth y <= maximum_depth) (x :: l) -> 0 <= d ->
  canonical x = Ok p -> Forall2 (fun x p => canonical x = Ok p) l ps ->
  (2 * length (chars p ++ comma_texts ps ++ "]"%char :: rest) + 1 < f)%nat ->
  elements f d arr (chars p ++ comma_texts ps ++ "]"%char :: rest) = Ok (JArray (arr ++ x :: l), rest).
Proof.
  intros HR HW HD Hd Hp Hps Hf. revert x p arr f HR HW HD Hp Hf.
  induction Hps as [|y q l ps Hq _ IH]; intros x p arr f HR HW HD Hp Hf;
    apply Forall_cons in HR as [HRx HR]; apply Forall_cons in HW as [HWx HW];
    apply Forall_cons in HD as [HDx HD]; (destruct f as [|f]; [lia|]); cbn [elements].
  - cbn [comma_texts flat_map app] in *.
    rewrite (HRx p) by (done || lia || (cbn; split_and!; done)).
    cbn [mbind res_mbind]. rewrite take_char_other by done. by rewrite require_char_here by done.
  - rewrite (HRx p) by (done || lia || (by apply num_end_comma; cbn; split_and!)).
    cbn [mbind res_mbind comma_texts flat_map app]. rewrite <- app_assoc.
    rewrite take_char_here by done.
    change (flat_map _ ps) with (comma_texts ps). rewrite (IH y q); try done.
    + by rewrite <- app_assoc.
    + cbn [comma_texts flat_map] in Hf. change (flat_map _ ps) with (comma_texts ps) in Hf.
      solve_len.
Qed.

(** The object a list of members makes, one after the other; a repeated key is none. *)
Fixpoint adds (l : list (string * Json)) (obj : Object) : option Object :=
  match l with
  | [] => Some obj
  | (k, v) :: l' => let '(obj', inserted) := obj_emplace k v obj in if inserted then adds l' obj' else None
  end.
Lemma adds_sorted o obj :
  obj_sorted o -> (forall k v, (k, v) ∈ o -> Forall (fun kv => str_ltb kv.1 k = true) obj) -> adds o obj = Some (obj ++ o).
Proof.
  intros Hs. revert obj. induction Hs as [|[k v] o _ IH Hlt]; intros obj Hobj; cbn [adds]; [by rewrite app_nil_r|].
  pose proof (Hobj k v ltac:(by left)) as Hk. unfold obj_emplace. rewrite find_none_last, set_last by done.
  rewrite IH; [by rewrite <- app_assoc|]. intros k' v' Hin. apply Forall_app. split; [by apply (Hobj k' v'); right|].
  rewrite Forall_forall in Hlt. constructor; [|done]. exact (Hlt (k', v') Hin).
Qed.

Lemma members_read o ps k x p obj out d f rest :
  Forall (fun kv => reads_back kv.2) ((k, x) :: o) -> Forall (fun kv => wf kv.2) ((k, x) :: o) ->
  Forall (fun kv => d + 1 + depth kv.2 <= maximum_depth) ((k, x) :: o) -> 0 <= d ->
  adds ((k, x) :: o) obj = Some out ->
  entry_text k x = Ok p -> Forall2 (fun kv p => entry_text kv.1 kv.2 = Ok p) o ps ->
  (2 * length (chars p ++ comma_texts ps ++ "}"%char :: rest) + 1 < f)%nat ->
  members f d obj (chars p ++ comma_texts ps ++ "}"%char :: rest) = Ok (JObject out, rest).
Proof.
  intros HR HW HD Hd Hs Hp Hps Hf. revert k x p obj f HR HW HD Hs Hp Hf.
  induction Hps as [|[k2 y] q2 o ps Hq _ IH]; intros k x p obj f HR HW HD Hs Hp Hf;
    apply Forall_cons in HR as [HRx HR]; apply Forall_cons in HW as [HWx HW];
    apply Forall_cons in HD as [HDx HD]; (destruct f as [|f]; [lia|]); cbn [members]; cbn [adds] in Hs;
    destruct (entry_text_inv _ _ _ Hp) as (q & c & Hk & Hc & E); rewrite E in *;
    rewrite <- app_assoc; rewrite (parse_string_quoted k q) by done; cbn [mbind res_mbind app];
    rewrite require_char_here by done; cbn [mbind res_mbind]; cbn [fst snd] in *;
    rewrite !length_app in Hf; cbn [length] in Hf; destruct (obj_emplace k x obj) as [obj' [|]] eqn:Ee; try done.
  - cbn [comma_texts flat_map app] in *. injection Hs as <-.
    rewrite (HRx c) by (done || lia || solve_len || (cbn; split_and!; done)).
    cbn [mbind res_mbind]. rewrite Ee. cbn [negb]. rewrite take_char_other by done. by rewrite require_char_here by done.
  - rewrite (HRx c) by (done || lia || solve_len
      || (by apply num_end_comma; cbn; split_and!)).
    cbn [mbind res_mbind]. rewrite Ee. cbn [negb comma_texts flat_map app]. rewrite <- app_assoc. rewrite take_char_here by done.
    change (flat_map _ ps) with (comma_texts ps).
    apply (IH k2 y q2 obj'); try done.
    cbn [comma_texts flat_map] in Hf. change (flat_map _ ps) with (comma_texts ps) in Hf. solve_len.
Qed.

Lemma item_head f d c l :
  value_head c -> (0 < f)%nat -> d <= maximum_depth ->
  item f d (c :: l) =
  match f with
  | O => Err FuelExhausted
  | S f =>
    if Ascii.eqb c quote_char then '(t, r) ← parse_string (c :: l); Ok (JString t, r)
    else if Ascii.eqb c "{" then
      let '(closed, r) := take_char "}" l in if closed then Ok (JObject [], r) else members f d [] l
    else if Ascii.eqb c "[" then
      let '(closed, r) := take_char "]" l in if closed then Ok (JArray [], r) else elements f d [] l
    else if is_prefix (chars "true") (c :: l) then Ok (JBool true, drop 4 (c :: l))
    else if is_prefix (chars "false") (c :: l) then Ok (JBool false, drop 5 (c :: l))
    else if is_prefix (chars "null") (c :: l) then Ok (JNull, drop 4 (c :: l))
    else parse_number (c :: l)
  end.
Proof.
  intros Hc Hf Hd. destruct f as [|f]; [lia|]. cbn [item].
  replace (maximum_depth <? d) with false by lia.
  apply value_head_spec in Hc as (Hsp & _). cbn [space]. rewrite Hsp. cbn [space].
  assert (Ho : opens quote_char (c :: l) = Ascii.eqb c quote_char).
  { unfold opens, is_prefix. cbn [length take].
    destruct (Ascii.eqb c quote_char) eqn:E.
    - apply Ascii.eqb_eq in E as ->. by rewrite bool_decide_eq_true_2.
    - apply Ascii.eqb_neq in E. apply bool_decide_eq_false. congruence. }
  rewrite Ho. destruct (Ascii.eqb c quote_char); [done|].
  unfold take_char at 1. cbn [space]. rewrite Hsp. destruct (Ascii.eqb c "{"); [done|].
  unfold take_char at 1. cbn [space]. rewrite Hsp. by destruct (Ascii.eqb c "[").
Qed.

Lemma literal_read f d w rest v :
  (0 < f)%nat -> d <= maximum_depth -> In (w, v) [(chars "true", JBool true); (chars "false", JBool false); (chars "null", JNull)] ->
  item f d (w ++ rest) = Ok (v, rest).
Proof.
  intros Hf Hd H. destruct f as [|f]; [lia|].
  repeat destruct H as [[= <- <-]|H]; [..|done];
    (cbn [app list_ascii_of_string]; rewrite item_head by first [left; cbn; tauto | lia]; reflexivity).
Qed.

Lemma number_not_literal n rest w :
  In w [chars "true"; chars "false"; chars "null"] -> is_prefix w (to_chars n ++ rest) = false.
Proof.
  intros H. destruct (to_chars_head n) as (c & l & -> & Hc). apply not_true_is_false.
  intros (t & E)%is_prefix_true. cbn [app] in E.
  repeat destruct H as [<-|H]; try done; injection E as -> _; by destruct Hc.
Qed.

Lemma integer_read n : reads_back (JInt n).
Proof.
  intros s rest d f Hwf Hc Hr Hd0 Hd Hf; pose proof (depth_nonneg) as Hdn; unfold maximum_depth in Hd.
  cbn [canonical] in Hc. destruct (_ || _) eqn:E; [done|]. injection Hc as <-. b2p.
  unfold to_string. rewrite chars_str.
  destruct (to_chars_head n) as (c & l & El & Hh). rewrite El. cbn [app].
  rewrite item_head; [|destruct Hh as [->|]; [left; cbn; tauto|by right]|lia|unfold maximum_depth; cbn in Hd; lia].
  destruct f as [|f]; [lia|].
  assert (Hne : forall k, is_digit k = false -> k <> "-"%char -> Ascii.eqb c k = false).
  { intros k Hk1 Hk2. apply Ascii.eqb_neq. intros ->. destruct Hh; congruence. }
  rewrite !Hne by done. change (c :: l ++ rest) with ((c :: l) ++ rest). rewrite <- El.
  rewrite !number_not_literal by (cbn; tauto). apply parse_number_to_chars; [|done].
  unfold maximum_integer in *. lia.
Qed.
(** The text of an object: its members' texts between braces. *)
Definition braced (ps : list string) : list ascii :=
  "{"%char :: match ps with [] => [] | p :: ps' => chars p ++ comma_texts ps' end ++ ["}"%char].
(** A text of members in any order is read as the object they make. *)
Lemma braced_read o ps out rest d f :
  Forall (fun kv => reads_back kv.2) o -> Forall (fun kv => wf kv.2) o ->
  Forall (fun kv => d + 1 + depth kv.2 <= maximum_depth) o -> 0 <= d <= maximum_depth ->
  Forall2 (fun kv p => entry_text kv.1 kv.2 = Ok p) o ps -> adds o [] = Some out ->
  (2 * length (braced ps ++ rest) < f)%nat ->
  item f d (braced ps ++ rest) = Ok (JObject out, rest).
Proof.
  intros IH Hwf HD Hd Hps Ho Hf. unfold braced in *. cbn [app] in *.
  rewrite item_head; [|left; cbn; tauto|lia|lia].
  destruct f as [|f]; [lia|]. change (Ascii.eqb "{" quote_char) with false. rewrite Ascii.eqb_refl.
  destruct Hps as [|[k x] p o ps Hp Hps]; cbn [app].
  - injection Ho as <-. by rewrite take_char_here.
  - apply Forall_cons in IH as [IHx IH]. apply Forall_cons in Hwf as [Hwx Hwf].
    apply Forall_cons in HD as [HDx HD].
    assert (exists tl, chars p = quote_char :: tl) as [tl Etl].
    { destruct (entry_text_inv _ _ _ Hp) as (q & c & (-> & _)%quote_json_chars & _ & ->). by eexists. }
    rewrite <- !app_assoc.
    assert (forall k, take_char "}" (chars p ++ k) = (false, chars p ++ k)) as ->.
    { intros k'. rewrite Etl. cbn [app]. by rewrite take_char_other. }
    cbn [app]. rewrite (members_read o ps k x p [] out); try done; try by constructor.
    + lia.
    + cbn [app]. solve_len.
Qed.
Lemma object_read o : Forall (fun kv => reads_back kv.2) o -> reads_back (JObject o).
Proof.
  intros IH s rest d f Hwf Hc Hr Hd0 Hd Hf. pose proof (depth_nonneg (JObject o)).
  apply wf_object in Hwf as [Hs Hwf].
  apply canonical_object_inv in Hc as (ps & Hps & E). rewrite E in *.
  apply (braced_read o ps o); try done; [|lia|].
  - eapply Forall_impl; [apply (depth_object o (maximum_depth - d)); lia|]. cbn. intros. lia.
  - rewrite adds_sorted; [done|done|]. intros. constructor.
Qed.
Lemma array_read l : Forall reads_back l -> reads_back (JArray l).
Proof.
  intros IH s rest d f Hwf Hc Hr Hd0 Hd Hf; pose proof (depth_nonneg) as Hdn; unfold maximum_depth in Hd.
  apply wf_array in Hwf.
  assert (HD : Forall (fun x => d + 1 + depth x <= maximum_depth) l).
  { eapply Forall_impl; [apply (depth_array l (maximum_depth - d))|]; unfold maximum_depth; [lia|].
    cbn. intros. lia. }
  apply canonical_array_inv in Hc as (ps & Hps & E). rewrite E in *. cbn [app] in *.
  rewrite item_head; [|left; cbn; tauto|lia|unfold maximum_depth; pose proof (Hdn (JArray l)); lia].
  destruct f as [|f]; [lia|]. change (Ascii.eqb "[" quote_char) with false.
  change (Ascii.eqb "[" "{") with false. rewrite Ascii.eqb_refl.
  destruct Hps as [|x p l ps Hp Hps]; cbn [app].
  + by rewrite take_char_here.
  + destruct (canonical_head _ _ Hp) as (c & tl & Etl & Hh).
    apply value_head_spec in Hh as (Hsp & _ & Hb & _).
    rewrite <- !app_assoc.
    assert (forall k, take_char "]" (chars p ++ k) = (false, chars p ++ k)) as ->.
    { intros k'. rewrite Etl. cbn [app]. by rewrite take_char_other. }
    cbn [app]. rewrite (elements_read l ps x p); try done.
    cbn [app]. solve_len.
Qed.
Lemma reads_back_all j : reads_back j.
Proof.
  induction j as [|b|n|x|t|o IH|l IH] using Json_rect'; [| |apply integer_read| | |by apply object_read|by apply array_read];
    intros s rest d f Hwf Hc Hr Hd0 Hd Hf; pose proof (depth_nonneg) as Hdn; unfold maximum_depth in Hd.
  - injection Hc as <-. apply literal_read; [lia|unfold maximum_depth; cbn in Hd; lia|cbn; tauto].
  - injection Hc as <-. destruct b; (apply literal_read; [lia|unfold maximum_depth; cbn in Hd; lia|cbn; tauto]).
  - done.
  - cbn [canonical] in Hc. destruct (quote_json_chars _ _ Hc) as [E _].
    pose proof (parse_string_quoted _ _ rest Hc) as Hp. rewrite E in *. cbn [app] in *.
    rewrite item_head; [|left; cbn; tauto|lia|unfold maximum_depth; cbn in Hd; lia].
    destruct f as [|f]; [lia|]. rewrite Ascii.eqb_refl, Hp. done.
Qed.

(** The canonical text of a value is read back as the value, whatever its size, if the value is
    a map-ordered one no deeper than the parser accepts. *)
Lemma parse_canonical j s :
  wf j -> depth j <= maximum_depth -> canonical j = Ok s -> parse (chars s) = Ok j.
Proof.
  intros Hwf Hd Hc. unfold parse.
  pose proof (reads_back_all j s [] 0 (2 * length (chars s) + 2)%nat Hwf Hc I) as H.
  rewrite app_nil_r in H. rewrite H by lia. done.
Qed.
Lemma canonical_inj i j s :
  wf i -> wf j -> depth i <= maximum_depth -> depth j <= maximum_depth ->
  canonical i = Ok s -> canonical j = Ok s -> i = j.
Proof.
  intros ???? Hi Hj. apply parse_canonical in Hi; [|done..]. apply parse_canonical in Hj; [|done..].
  congruence.
Qed.

(** ** What the parser returns is well formed *)

Lemma item_wf f :
  (forall d s j r, item f d s = Ok (j, r) -> wf j) /\
  (forall d o s j r, obj_sorted o -> Forall (fun kv => wf kv.2) o ->
    members f d o s = Ok (j, r) -> wf j) /\
  (forall d l s j r, Forall wf l -> elements f d l s = Ok (j, r) -> wf j).
Proof.
  induction f as [|f (IHi & IHm & IHe)]; [by split_and!|]. split_and!.
  - intros d s0 j r H. cbn [item] in H. destruct (_ <? d); [done|].
    destruct (space s0) as [|c s] eqn:Es; [done|]. rewrite <- Es in H.
    destruct (opens _ _). { apply bind_Ok in H as ([t r1] & _ & [= <- <-]). done. }
    destruct (take_char "{" _) as [[|] so].
    { destruct (take_char "}" so) as [[|] r1]; [injection H as <- <-; apply wf_object; by repeat constructor|].
      eapply IHm; [constructor|constructor|exact H]. }
    destruct (take_char "[" _) as [[|] sa].
    { destruct (take_char "]" sa) as [[|] r1]; [by injection H as <- <-|].
      eapply IHe; [constructor|exact H]. }
    repeat (destruct (is_prefix _ _); [by injection H as <- <-|]).
    unfold parse_number in H. destruct (match space s0 with [] => _ | _ :: _ => _ end).
    apply bind_Ok in H as ([w s2] & _ & H). apply bind_Ok in H as ([[fl1 fr] s3] & _ & H).
    apply bind_Ok in H as ([[fl2 e] s4] & _ & H).
    destruct (fl1 || fl2); by apply bind_Ok in H as (v & _ & [= <- <-]).
  - intros d o s j r Ho HF H. cbn [members] in H.
    apply bind_Ok in H as ([key s1] & _ & H). apply bind_Ok in H as (s2 & _ & H).
    apply bind_Ok in H as ([v s3] & Hv & H). apply IHi in Hv.
    assert (Hs : obj_sorted (obj_emplace key v o).1) by (by apply emplace_sorted).
    assert (HF' : Forall (fun kv => wf kv.2) (obj_emplace key v o).1).
    { unfold obj_emplace. destruct (obj_find key o); [done|]. cbn [fst]. clear Ho H Hs.
      induction HF as [|[k' v'] o Hkv HF IH]; cbn [obj_set]; [by repeat constructor|].
      destruct (String.eqb key k'); [by constructor|]. destruct (str_ltb key k'); by repeat constructor. }
    destruct (obj_emplace key v o) as [o' [|]]; cbn [negb fst] in *; [|done].
    destruct (take_char "," s3) as [[|] s4]; [by eapply IHm; [..|exact H]|].
    apply bind_Ok in H as (r1 & _ & [= <- <-]). by apply wf_object.
  - intros d l s j r HF H. cbn [elements] in H.
    apply bind_Ok in H as ([v s1] & Hv & H). apply IHi in Hv.
    assert (Forall wf (l ++ [v])) by (apply Forall_app; split; [done|by constructor]).
    destruct (take_char "," s1) as [[|] s2]; [by eapply IHe; [|exact H]|].
    apply bind_Ok in H as (r1 & _ & [= <- <-]). by apply wf_array.
Qed.
Lemma parse_wf s j : parse s = Ok j -> wf j.
Proof.
  unfold parse. intros H. apply bind_Ok in H as ([v r] & Hv & H).
  apply item_wf in Hv. destruct (space r); [by injection H as <-|done].
Qed.

(** Nor is it nested deeper than the parser's limit. *)
Lemma item_depth f :
  (forall d s j r, item f d s = Ok (j, r) -> d + depth j <= maximum_depth) /\
  (forall d o s j r, d <= maximum_depth -> Forall (fun kv => d + 1 + depth kv.2 <= maximum_depth) o ->
    members f d o s = Ok (j, r) -> d + depth j <= maximum_depth) /\
  (forall d l s j r, d <= maximum_depth -> Forall (fun x => d + 1 + depth x <= maximum_depth) l ->
    elements f d l s = Ok (j, r) -> d + depth j <= maximum_depth).
Proof.
  assert (Hobj : forall d o, d <= maximum_depth -> Forall (fun kv => d + 1 + depth kv.2 <= maximum_depth) o ->
    d + depth (JObject o) <= maximum_depth).
  { intros d o Hd HF. induction HF as [|kv o Hk _ IH]; cbn [depth] in *; lia. }
  assert (Harr : forall d l, d <= maximum_depth -> Forall (fun x => d + 1 + depth x <= maximum_depth) l ->
    d + depth (JArray l) <= maximum_depth).
  { intros d l Hd HF. induction HF as [|x l Hx _ IH]; cbn [depth] in *; lia. }
  induction f as [|f (IHi & IHm & IHe)]; [by split_and!|]. split_and!.
  - intros d s0 j r H. cbn [item] in H. destruct (maximum_depth <? d) eqn:Ed; [done|]. apply Z.ltb_ge in Ed.
    destruct (space s0) as [|c s] eqn:Es; [done|]. rewrite <- Es in H.
    destruct (opens _ _). { apply bind_Ok in H as ([t r1] & _ & [= <- <-]). cbn. lia. }
    destruct (take_char "{" _) as [[|] so].
    { destruct (take_char "}" so) as [[|] r1]; [injection H as <- <-; cbn; lia|].
      by eapply IHm; [| |exact H]. }
    destruct (take_char "[" _) as [[|] sa].
    { destruct (take_char "]" sa) as [[|] r1]; [injection H as <- <-; cbn; lia|].
      by eapply IHe; [| |exact H]. }
    repeat (destruct (is_prefix _ _); [injection H as <- <-; cbn; lia|]).
    unfold parse_number in H. destruct (match space s0 with [] => _ | _ :: _ => _ end).
    apply bind_Ok in H as ([w s2] & _ & H). apply bind_Ok in H as ([[fl1 fr] s3] & _ & H).
    apply bind_Ok in H as ([[fl2 e] s4] & _ & H).
    destruct (fl1 || fl2); apply bind_Ok in H as (v & _ & [= <- <-]); cbn; lia.
  - intros d o s j r Hd HF H. cbn [members] in H.
    apply bind_Ok in H as ([key s1] & _ & H). apply bind_Ok in H as (s2 & _ & H).
    apply bind_Ok in H as ([v s3] & Hv & H). apply IHi in Hv.
    assert (HF' : Forall (fun kv => d + 1 + depth kv.2 <= maximum_depth) (obj_emplace key v o).1).
    { unfold obj_emplace. destruct (obj_find key o); [done|]. cbn [fst]. clear H.
      induction HF as [|[k' v'] o Hkv HF IH]; cbn [obj_set]; [by repeat constructor|].
      destruct (String.eqb key k'); [by constructor|]. destruct (str_ltb key k'); by repeat constructor. }
    destruct (obj_emplace key v o) as [o' [|]]; cbn [negb fst] in *; [|done].
    destruct (take_char "," s3) as [[|] s4]; [by eapply IHm; [| |exact H]|].
    apply bind_Ok in H as (r1 & _ & [= <- <-]). by apply Hobj.
  - intros d l s j r Hd HF H. cbn [elements] in H.
    apply bind_Ok in H as ([v s1] & Hv & H). apply IHi in Hv.
    assert (Forall (fun x => d + 1 + depth x <= maximum_depth) (l ++ [v])) by (apply Forall_app; split; [done|by constructor]).
    destruct (take_char "," s1) as [[|] s2]; [by eapply IHe; [| |exact H]|].
    apply bind_Ok in H as (r1 & _ & [= <- <-]). by apply Harr.
Qed.
Lemma parse_depth s j : parse s = Ok j -> depth j <= maximum_depth.
Proof.
  unfold parse. intros H. apply bind_Ok in H as ([v r] & Hv & H).
  apply item_depth in Hv. destruct (space r); [by injection H as <-|done].
Qed.

(** ** Properties *)

(** C36: the parser returns a value or throws [INVALID_JSON] on every text: its recursion ends,
    and what it returns is a well-formed value (the keys of each object strictly sorted, as a
    [std::map] keeps them) that is nested at most [maximum_depth] deep. *)
Theorem parse_json_total text limit :
  parse_json text limit <> Err FuelExhausted /\
  forall j, parse_json text limit = Ok j -> ssize text <= limit /\ wf j /\ depth j <= maximum_depth.
Proof.
  unfold parse_json. destruct (limit <? ssize text) eqn:E; [done|]. b2p.
  split; [apply parse_fuel|]. intros j H. split_and!; [done|by eapply parse_wf|by eapply parse_depth].
Qed.

(** C35: parsing the canonical text of a value gives the value back, for any value the parser
    could have returned. *)
Theorem canonical_roundtrip j s limit :
  wf j -> depth j <= maximum_depth -> canonical j = Ok s -> ssize s <= limit ->
  parse_json s limit = Ok j.
Proof.
  intros Hw Hd Hc Hl. unfold parse_json. replace (limit <? ssize s) with false by lia.
  by apply parse_canonical.
Qed.
Definition sample_value : Json :=
  JObject (obj_of [("b", JArray [JInt (-3); JNull; JString (str [chr 10; chr 34])]); ("a", JBool true)]%string).
Lemma canonical_roundtrip_witness :
  parse_json (catch_all (canonical sample_value) "") 100 = Ok sample_value.
Proof.
  apply canonical_roundtrip; [|vm_compute; discriminate|vm_compute; reflexivity|vm_compute; discriminate].
  apply wf_object. split; [repeat constructor; vm_compute; reflexivity|]. by repeat constructor.
Defined.

(** The canonical text determines the value, so equal content hashes stand for equal
    content up to a collision of the hash. *)
Theorem canonical_injective i j s :
  wf i -> wf j -> depth i <= maximum_depth -> depth j <= maximum_depth ->
  canonical i = Ok s -> canonical j = Ok s -> i = j.
Proof. apply canonical_inj. Qed.
Lemma canonical_injective_witness : sample_value = sample_value.
Proof.
  assert (wf sample_value).
  { apply wf_object. split; [repeat constructor; vm_compute; reflexivity|]. by repeat constructor. }
  apply (canonical_injective sample_value sample_value (catch_all (canonical sample_value) "")); try done;
    vm_compute; try discriminate; reflexivity.
Defined.
