(* ===== verification/Time.v ===== *)
(** * Timestamps (date_time and utc_timestamp of src/runtime/protocol.cpp)

    [date_time] is the RFC 3339 check of the acknowledgement schema; [utc_timestamp] is the
    millisecond UTC profile the service writes, with the civil calendar of [gmtime_r] and
    [strftime] modelled.  The facts: what [utc_timestamp] writes passes [date_time], and the
    byte order of two such strings is the order of the instants, which the code relies on
    where it compares [expiresAt] fields as strings. *)
From Stdlib Require Import ZArith Lia Bool Ascii String.
From stdpp Require Import gmap strings list.
From S2P Require Import Prelude Chars.
Local Open Scope Z_scope.

(** ** date_time *)

(** [text[i]] where the code has checked the size. *)
Definition sat (t : list ascii) (i : nat) : ascii := nth i t (chr 0).
(** The lambda [number]: the value of a digit run, or -1. *)
Fixpoint number_from (t : list ascii) (length : nat) (n : Z) : Z :=
  match length with
  | O => n
  | S k => if is_digit (sat t 0) then number_from (tail t) k (n * 10 + digit_value (sat t 0)) else -1
  end.
Definition number (t : list ascii) (start length : nat) : Z := number_from (drop start t) length 0.
Definition leap (year : Z) : bool :=
  (year mod 4 =? 0) && (negb (year mod 100 =? 0) || (year mod 400 =? 0)).
Definition days : list Z := [0; 31; 28; 31; 30; 31; 30; 31; 31; 30; 31; 30; 31].
Definition days_in (year month : Z) : Z :=
  nth (Z.to_nat month) days 0 + (if (month =? 2) && leap year then 1 else 0).
Fixpoint skip_digits (t : list ascii) : list ascii :=
  match t with
  | c :: t' => if is_digit c then skip_digits t' else t
  | [] => []
  end.
(** The checks from position [p] on: [t] is the text from [p]. *)
Definition zone (t : list ascii) : bool :=
  if Ascii.eqb (sat t 0) "Z" || Ascii.eqb (sat t 0) "z" then Nat.eqb (length t) 1
  else if (negb (Ascii.eqb (sat t 0) "+") && negb (Ascii.eqb (sat t 0) "-"))
       || negb (Nat.eqb (length t) 6) || negb (Ascii.eqb (sat t 3) ":") then false
  else let zone_hour := number t 1 2 in let zone_minute := number t 4 2 in
       (0 <=? zone_hour) && (zone_hour <=? 23) && (0 <=? zone_minute) && (zone_minute <=? 59).
Definition date_time (text : string) : bool :=
  let t := chars text in
  if (ssize text <? 20) || (128 <? ssize text) || negb (Ascii.eqb (sat t 4) "-")
     || negb (Ascii.eqb (sat t 7) "-")
     || (negb (Ascii.eqb (sat t 10) "T") && negb (Ascii.eqb (sat t 10) "t"))
     || negb (Ascii.eqb (sat t 13) ":") || negb (Ascii.eqb (sat t 16) ":") then false
  else
    let year := number t 0 4 in let month := number t 5 2 in let day := number t 8 2 in
    let hour := number t 11 2 in let minute := number t 14 2 in let second := number t 17 2 in
    if (year <? 0) || (month <? 1) || (12 <? month) || (day <? 1) || (hour <? 0) || (23 <? hour)
       || (minute <? 0) || (59 <? minute) || (second <? 0) || (60 <? second) then false
    else if days_in year month <? day then false
    else
      let rest := drop 19 t in
      if Ascii.eqb (sat rest 0) "." then
        let after := skip_digits (tail rest) in
        if Nat.eqb (length after) (length (tail rest)) || Nat.eqb (length after) 0 then false
        else zone after
      else zone rest.

(** ** The civil calendar of [gmtime_r] *)

Definition year_days (year : Z) : Z := if leap year then 366 else 365.
(** Whole years off a number of days. *)
Fixpoint civil_year (fuel : nat) (year day : Z) : Z * Z :=
  match fuel with
  | O => (year, day)
  | S f => if day <? year_days year then (year, day) else civil_year f (year + 1) (day - year_days year)
  end.
(** Whole months off a day of the year. *)
Fixpoint civil_month (fuel : nat) (year month day : Z) : Z * Z :=
  match fuel with
  | O => (month, day)
  | S f => if day <? days_in year month then (month, day)
           else civil_month f year (month + 1) (day - days_in year month)
  end.
Record tm := Tm { tm_year : Z; tm_mon : Z; tm_mday : Z; tm_hour : Z; tm_min : Z; tm_sec : Z }.
(** Seconds since 1970 to civil time; a year has at least 365 days, which bounds the loop. *)
Definition gmtime (epoch : Z) : tm :=
  let day := epoch / 86400 in let rest := epoch mod 86400 in
  let '(year, yday) := civil_year (S (Z.to_nat (day / 365))) 1970 day in
  let '(month, mday) := civil_month 11 year 1 yday in
  Tm year month (mday + 1) (rest / 3600) (rest / 60 mod 60) (rest mod 60).
(** [%Y-%m-%dT%H:%M:%S]; the 31 characters of the buffer hold any year of 64-bit milliseconds. *)
Definition strftime (t : tm) : list ascii :=
  dec (tm_year t) ++ "-"%char :: padded 2 (tm_mon t) ++ "-"%char :: padded 2 (tm_mday t)
  ++ "T"%char :: padded 2 (tm_hour t) ++ ":"%char :: padded 2 (tm_min t)
  ++ ":"%char :: padded 2 (tm_sec t).
Definition utc_timestamp (epoch_ms : Z) : res string :=
  if epoch_ms <? 0 then Err (InvalidArgument "TIME_INVALID")
  else Ok (str (strftime (gmtime (epoch_ms / 1000)) ++ "."%char :: padded 3 (epoch_ms mod 1000)
                ++ ["Z"%char])).

Example utc_timestamp_example :
  utc_timestamp 1709210096789 = Ok "2024-02-29T12:34:56.789Z"%string.
Proof. vm_compute. reflexivity. Qed.

(** ** Fixed-width numerals *)

Fixpoint pad (w : nat) (n : Z) : list ascii :=
  match w with
  | O => []
  | S w' => pad w' (n / 10) ++ [digit_char (n mod 10)]
  end.

Lemma dec_length n w : 0 <= n < 10 ^ Z.of_nat w -> (0 < w)%nat -> (length (dec n) <= w)%nat.
Proof.
  revert n. induction w as [|w IH]; intros n Hn Hw; [lia|].
  destruct (Z.lt_ge_cases n 10). { rewrite dec_small by lia. cbn. lia. }
  rewrite dec_step, length_app by lia. cbn [length].
  rewrite Nat2Z.inj_succ, Z.pow_succ_r in Hn by lia.
  assert (0 <= n / 10 < 10 ^ Z.of_nat w).
  { split; [apply Z.div_pos; lia|apply Z.div_lt_upper_bound; lia]. }
  destruct w as [|w]; [cbn in Hn; lia|]. specialize (IH (n / 10) ltac:(done) ltac:(lia)). lia.
Qed.
Lemma pad_zero w : pad w 0 = replicate w "0"%char.
Proof.
  induction w as [|w IH]; [done|]. cbn [pad]. change (0 / 10) with 0. rewrite IH.
  change (digit_char (0 mod 10)) with "0"%char. clear IH. induction w as [|w IH]; [done|]. cbn. by rewrite IH.
Qed.
Lemma padded_pad w n : 0 <= n < 10 ^ Z.of_nat w -> (0 < w)%nat -> padded w n = pad w n.
Proof.
  unfold padded. revert n. induction w as [|w IH]; intros n Hn Hw; [lia|]. cbn [pad].
  destruct (Z.lt_ge_cases n 10) as [Hs|Hs].
  - rewrite dec_small, Z.div_small, Z.mod_small, pad_zero by lia. cbn [length].
    by rewrite Nat.sub_1_r.
  - rewrite dec_step, length_app by lia. cbn [length]. rewrite app_assoc. f_equal.
    rewrite Nat2Z.inj_succ, Z.pow_succ_r in Hn by lia.
    assert (0 <= n / 10 < 10 ^ Z.of_nat w).
    { split; [apply Z.div_pos; lia|apply Z.div_lt_upper_bound; lia]. }
    destruct w as [|w]; [cbn in Hn; lia|]. rewrite <- IH by lia. do 2 f_equal. lia.
Qed.

Lemma chars_ltb_snoc_eq l c d s t :
  chars_ltb ((l ++ [c]) ++ s) ((l ++ [d]) ++ t) = chars_ltb (c :: s) (d :: t).
Proof. rewrite <- !app_assoc. apply chars_ltb_app. Qed.
Lemma code_digit d : 0 <= d < 10 -> code (digit_char d) = 48 + d.
Proof. intros H. unfold digit_char. apply code_chr. lia. Qed.
Lemma pad_lt w a b s t :
  0 <= a -> a < b < 10 ^ Z.of_nat w -> chars_ltb (pad w a ++ s) (pad w b ++ t) = true.
Proof.
  revert a b s t. induction w as [|w IH]; intros a b s t Ha Hb; [cbn in Hb; lia|]. cbn [pad].
  rewrite Nat2Z.inj_succ, Z.pow_succ_r in Hb by lia.
  assert (b / 10 < 10 ^ Z.of_nat w) by (apply Z.div_lt_upper_bound; lia).
  assert (0 <= a / 10) by (apply Z.div_pos; lia).
  destruct (Z.eq_dec (a / 10) (b / 10)) as [E|E].
  - rewrite E, chars_ltb_snoc_eq. cbn [chars_ltb].
    rewrite !code_digit by (apply Z.mod_pos_bound; lia).
    apply orb_true_iff. left. apply Z.ltb_lt. Z.div_mod_to_equations; lia.
  - rewrite <- !app_assoc. apply IH; [done|]. split; [|done]. Z.div_mod_to_equations; lia.
Qed.

(** ** The calendar is monotone *)

Lemma year_days_range y : 365 <= year_days y <= 366.
Proof. unfold year_days. destruct (leap y); lia. Qed.
Lemma civil_year_spec f y d :
  0 <= d < 365 * Z.of_nat f -> let r := civil_year f y d in y <= r.1 /\ 0 <= r.2 < year_days r.1.
Proof.
  revert y d. induction f as [|f IH]; intros y d Hd; [lia|]. cbn [civil_year].
  pose proof (year_days_range y). destruct (d <? year_days y) eqn:E; b2p; cbn [fst snd]; [lia|].
  specialize (IH (y + 1) (d - year_days y) ltac:(lia)). cbn zeta in IH. lia.
Qed.
Lemma civil_year_lt f g y c d :
  0 <= c < d -> c < 365 * Z.of_nat f -> d < 365 * Z.of_nat g ->
  let r := civil_year f y c in let q := civil_year g y d in
  r.1 < q.1 \/ r.1 = q.1 /\ r.2 < q.2.
Proof.
  revert g y c d. induction f as [|f IH]; intros g y c d Hc Hf Hg; [lia|].
  destruct g as [|g]; [lia|]. cbn [civil_year]. pose proof (year_days_range y).
  destruct (d <? year_days y) eqn:Ed, (c <? year_days y) eqn:Ec; b2p; cbn [fst snd]; try lia.
  - pose proof (civil_year_spec g (y + 1) (d - year_days y) ltac:(lia)) as Hs. cbn zeta in Hs. lia.
  - apply IH; lia.
Qed.
Lemma civil_month_spec f y m d :
  0 <= d -> let r := civil_month f y m d in m <= r.1 <= m + Z.of_nat f /\ 0 <= r.2 <= d.
Proof.
  revert m d. induction f as [|f IH]; intros m d Hd; cbn [civil_month]; [cbn; lia|].
  destruct (d <? days_in y m) eqn:E; b2p; cbn [fst snd]; [lia|].
  assert (0 <= days_in y m).
  { unfold days_in. enough (0 <= nth (Z.to_nat m) days 0) by (destruct (_ && _); lia).
    destruct (nth_in_or_default (Z.to_nat m) days 0) as [Hin| ->]; [|done].
    assert (HF : Forall (Z.le 0) days) by (repeat constructor; lia).
    rewrite List.Forall_forall in HF. by apply HF. }
  specialize (IH (m + 1) (d - days_in y m) ltac:(lia)). cbn zeta in IH. lia.
Qed.

Lemma civil_month_lt f y m c d :
  0 <= c < d -> let r := civil_month f y m c in let q := civil_month f y m d in
  r.1 < q.1 \/ r.1 = q.1 /\ r.2 < q.2.
Proof.
  revert m c d. induction f as [|f IH]; intros m c d Hc; cbn [civil_month]; [cbn; lia|].
  destruct (d <? days_in y m) eqn:Ed, (c <? days_in y m) eqn:Ec; b2p; cbn [fst snd]; try lia.
  - destruct (civil_month_spec f y (m + 1) (d - days_in y m) ltac:(lia)). lia.
  - apply IH. lia.
Qed.
(** Days of [f + 1] months from [m] on. *)
Fixpoint month_days (f : nat) (y m : Z) : Z :=
  match f with O => days_in y m | S f' => days_in y m + month_days f' y (m + 1) end.
Lemma civil_month_day f y m d :
  d < month_days f y m -> let r := civil_month f y m d in r.2 < days_in y r.1.
Proof.
  revert m d. induction f as [|f IH]; intros m d Hd; cbn [civil_month month_days] in *; [done|].
  destruct (d <? days_in y m) eqn:Ed; b2p; [done|]. apply IH. lia.
Qed.
Lemma month_days_year y : month_days 11 y 1 = year_days y.
Proof. unfold month_days, days_in, year_days. destruct (leap y); reflexivity. Qed.
(** The month and day of a day of the year are those of the calendar. *)
Lemma civil_month_ok y d :
  0 <= d < year_days y ->
  let r := civil_month 11 y 1 d in 1 <= r.1 <= 12 /\ 0 <= r.2 < days_in y r.1.
Proof.
  intros Hd. cbn zeta. pose proof (civil_month_spec 11 y 1 d ltac:(lia)) as Hs.
  pose proof (civil_month_day 11 y 1 d) as Hm. rewrite month_days_year in Hm. cbn zeta in *. lia.
Qed.

(** ** What [utc_timestamp] writes *)

(** The first instant of the year 10000. *)
Definition year_10000_ms : Z := 253402300800000.

Lemma civil_year_fuel day : 0 <= day -> 0 <= day < 365 * Z.of_nat (S (Z.to_nat (day / 365))).
Proof. intros H. rewrite Nat2Z.inj_succ, Z2Nat.id by (apply Z.div_pos; lia). Z.div_mod_to_equations; lia. Qed.

Definition tm_ok (t : tm) : Prop :=
  1970 <= tm_year t <= 9999 /\ 1 <= tm_mon t <= 12 /\
  1 <= tm_mday t <= days_in (tm_year t) (tm_mon t) /\
  0 <= tm_hour t <= 23 /\ 0 <= tm_min t <= 59 /\ 0 <= tm_sec t <= 59.
Lemma days_in_le y m : days_in y m <= 31.
Proof.
  unfold days_in. destruct (nth_in_or_default (Z.to_nat m) days 0) as [Hin| ->];
    [|destruct (_ && _); lia].
  destruct ((m =? 2) && leap y) eqn:E.
  - apply andb_true_iff in E as [->%Z.eqb_eq _]. done.
  - assert (HF : Forall (fun v => v <= 31) days) by (repeat constructor; lia).
    rewrite List.Forall_forall in HF. specialize (HF _ Hin). lia.
Qed.
Lemma gmtime_ok epoch : 0 <= epoch < 253402300800 -> tm_ok (gmtime epoch).
Proof.
  intros H. unfold gmtime.
  assert (Hd : 0 <= epoch / 86400 < 2932897).
  { split; [apply Z.div_pos; lia|apply Z.div_lt_upper_bound; lia]. }
  pose proof (Z.mod_pos_bound epoch 86400 ltac:(lia)) as Hr.
  revert Hd Hr. generalize (epoch / 86400) (epoch mod 86400). intros day rest Hd Hr.
  pose proof (civil_year_spec _ 1970 _ (civil_year_fuel day ltac:(lia))) as Hy.
  assert (Hmax : (civil_year (S (Z.to_nat (day / 365))) 1970 day).1 <= 9999).
  { assert (E : civil_year (S (Z.to_nat (2932896 / 365))) 1970 2932896 = (9999, 364))
      by (vm_compute; reflexivity).
    destruct (Z.eq_dec day 2932896) as [->|]; [by rewrite E|].
    pose proof (civil_year_lt _ _ 1970 day 2932896 ltac:(lia) (proj2 (civil_year_fuel day ltac:(lia)))
      (proj2 (civil_year_fuel 2932896 ltac:(lia)))) as Hl.
    rewrite E in Hl. cbn zeta in Hl. cbn [fst snd] in Hl. lia. }
  destruct (civil_year _ 1970 day) as [y yd]. cbn [fst snd] in *.
  pose proof (civil_month_ok y yd ltac:(lia)) as Hm. cbn zeta in Hm.
  destruct (civil_month 11 y 1 yd) as [m md]. cbn [fst snd] in Hm.
  unfold tm_ok. cbn [tm_year tm_mon tm_mday tm_hour tm_min tm_sec].
  repeat split; try lia; Z.div_mod_to_equations; lia.
Qed.

Lemma dec_pad4 y : 1000 <= y <= 9999 -> dec y = pad 4 y.
Proof.
  intros H. rewrite <- padded_pad by lia. unfold padded.
  rewrite (dec_step y), (dec_step (y / 10)), (dec_step (y / 10 / 10)), (dec_small (y / 10 / 10 / 10))
    by (Z.div_mod_to_equations; lia).
  done.
Qed.
Definition timestamp_text (t : tm) (ms : Z) : list ascii :=
  pad 4 (tm_year t) ++ "-"%char :: pad 2 (tm_mon t) ++ "-"%char :: pad 2 (tm_mday t)
  ++ "T"%char :: pad 2 (tm_hour t) ++ ":"%char :: pad 2 (tm_min t)
  ++ ":"%char :: pad 2 (tm_sec t) ++ "."%char :: pad 3 ms ++ ["Z"%char].
Lemma utc_timestamp_text ms :
  0 <= ms < year_10000_ms ->
  tm_ok (gmtime (ms / 1000)) /\
  utc_timestamp ms = Ok (str (timestamp_text (gmtime (ms / 1000)) (ms mod 1000))).
Proof.
  unfold year_10000_ms. intros H. assert (Hok : tm_ok (gmtime (ms / 1000))).
  { apply gmtime_ok. Z.div_mod_to_equations; lia. }
  split; [done|]. unfold utc_timestamp. replace (ms <? 0) with false by lia.
  destruct Hok as (Hy & Hm & Hd & Hh & Hi & Hs).
  pose proof (days_in_le (tm_year (gmtime (ms / 1000))) (tm_mon (gmtime (ms / 1000)))).
  unfold strftime, timestamp_text.
  rewrite dec_pad4, !padded_pad by (cbn; try (Z.div_mod_to_equations; lia)).
  reflexivity.
Qed.

(** ** Order *)

Lemma pad_lex w a b s t :
  0 <= a -> b < 10 ^ Z.of_nat w -> a < b \/ a = b /\ chars_ltb s t = true ->
  chars_ltb (pad w a ++ s) (pad w b ++ t) = true.
Proof.
  intros Ha Hb [H|[-> H]]; [by apply pad_lt|]. by rewrite chars_ltb_app.
Qed.
Lemma chars_ltb_cons c s t : chars_ltb (c :: s) (c :: t) = chars_ltb s t.
Proof. cbn. by rewrite Z.ltb_irrefl, Z.eqb_refl. Qed.
(** Civil times compare field by field. *)
Definition tm_lt (a b : tm) (m n : Z) : Prop :=
  tm_year a < tm_year b \/ tm_year a = tm_year b /\
  (tm_mon a < tm_mon b \/ tm_mon a = tm_mon b /\
  (tm_mday a < tm_mday b \/ tm_mday a = tm_mday b /\
  (tm_hour a < tm_hour b \/ tm_hour a = tm_hour b /\
  (tm_min a < tm_min b \/ tm_min a = tm_min b /\
  (tm_sec a < tm_sec b \/ tm_sec a = tm_sec b /\ m < n))))).
Lemma gmtime_lt a b m n :
  0 <= a -> a < b \/ a = b /\ m < n -> tm_lt (gmtime a) (gmtime b) m n.
Proof.
  intros Ha [Hl|[-> H]]; [|unfold tm_lt; lia]. unfold gmtime.
  assert (Hc : a / 86400 < b / 86400 \/ a / 86400 = b / 86400 /\ a mod 86400 < b mod 86400)
    by (Z.div_mod_to_equations; lia).
  pose proof (Z.mod_pos_bound a 86400 ltac:(lia)) as Hra.
  pose proof (Z.mod_pos_bound b 86400 ltac:(lia)) as Hrb.
  assert (Hda : 0 <= a / 86400) by (apply Z.div_pos; lia).
  revert Hc Hra Hrb Hda. generalize (a / 86400) (a mod 86400) (b / 86400) (b mod 86400).
  intros d r e q [Hc|[-> Hc]] Hr Hq Hd.
  - pose proof (civil_year_lt _ _ 1970 d e ltac:(lia) (proj2 (civil_year_fuel d ltac:(lia)))
      (proj2 (civil_year_fuel e ltac:(lia)))) as Hy. cbn zeta in Hy.
    pose proof (civil_year_spec _ 1970 _ (civil_year_fuel d ltac:(lia))) as Hs. cbn zeta in Hs.
    destruct (civil_year _ 1970 d) as [y yd], (civil_year _ 1970 e) as [z zd]. cbn [fst snd] in Hy, Hs.
    destruct Hy as [Hy|[<- Hy]].
    + destruct (civil_month 11 y 1 yd), (civil_month 11 z 1 zd). unfold tm_lt. cbn [tm_year]. lia.
    + pose proof (civil_month_lt 11 y 1 yd zd ltac:(lia)) as Hm. cbn zeta in Hm.
      destruct (civil_month 11 y 1 yd), (civil_month 11 y 1 zd). unfold tm_lt.
      cbn [fst snd tm_year tm_mon tm_mday] in *. lia.
  - destruct (civil_year _ 1970 e) as [y yd], (civil_month 11 y 1 yd) as [m' md]. unfold tm_lt.
    cbn [tm_year tm_mon tm_mday tm_hour tm_min tm_sec].
    do 3 (right; split; [done|]). Z.div_mod_to_equations; lia.
Qed.
Lemma timestamp_text_lt a b m n :
  tm_ok a -> tm_ok b -> 0 <= m -> n < 1000 -> tm_lt a b m n ->
  chars_ltb (timestamp_text a m) (timestamp_text b n) = true.
Proof.
  intros (? & ? & ? & ? & ? & ?) (? & ? & ? & ? & ? & ?) Hm Hn Hl.
  pose proof (days_in_le (tm_year b) (tm_mon b)). unfold timestamp_text, tm_lt in *.
  repeat (apply pad_lex; [lia|cbn; lia|]; rewrite ?chars_ltb_cons;
    match goal with H : _ < _ \/ _ |- _ => destruct H as [H|[? H]]; [by left|right; split; [done|]] end).
  apply pad_lex; [lia|cbn; lia|]. by left.
Qed.
Lemma utc_timestamp_lt a b s t :
  0 <= a < b -> b < year_10000_ms -> utc_timestamp a = Ok s -> utc_timestamp b = Ok t ->
  str_ltb s t = true.
Proof.
  intros Ha Hb Hs Ht.
  destruct (utc_timestamp_text a) as [Hoka Ea]; [lia|].
  destruct (utc_timestamp_text b) as [Hokb Eb]; [lia|].
  assert (s = str (timestamp_text (gmtime (a / 1000)) (a mod 1000))) as -> by congruence.
  assert (t = str (timestamp_text (gmtime (b / 1000)) (b mod 1000))) as -> by congruence.
  unfold str_ltb. rewrite !chars_str. apply timestamp_text_lt; try done.
  - apply Z.mod_pos_bound. lia.
  - apply Z.mod_pos_bound. lia.
  - apply gmtime_lt; Z.div_mod_to_equations; lia.
Qed.

(** ** date_time accepts it *)

Lemma is_digit_char d : is_digit (digit_char (d mod 10)) = true.
Proof. apply digit_char_is_digit, Z.mod_pos_bound. lia. Qed.
Lemma digit_value_mod d : digit_value (digit_char (d mod 10)) = d mod 10.
Proof. apply digit_value_char, Z.mod_pos_bound. lia. Qed.
Lemma number_from_digits l rest n :
  Forall (fun c => is_digit c = true) l ->
  number_from (l ++ rest) (length l) n = fold_left (fun v c => v * 10 + digit_value c) l n.
Proof.
  intros H. revert n. induction H as [|c l Hc _ IH]; intros n; [done|].
  cbn [app length number_from fold_left]. change (sat (c :: l ++ rest) 0) with c. by rewrite Hc, IH.
Qed.
Lemma pad_length w n : length (pad w n) = w.
Proof. revert n. induction w as [|w IH]; intros n; [done|]. cbn [pad]. rewrite length_app, IH. cbn. lia. Qed.
Lemma pad_digits w n : Forall (fun c => is_digit c = true) (pad w n).
Proof.
  revert n. induction w as [|w IH]; intros n; [by constructor|]. cbn [pad].
  apply Forall_app. split; [done|]. constructor; [apply is_digit_char|done].
Qed.
Lemma pad_value w n :
  0 <= n < 10 ^ Z.of_nat w -> fold_left (fun v c => v * 10 + digit_value c) (pad w n) 0 = n.
Proof.
  revert n. induction w as [|w IH]; intros n Hn; [cbn in *; lia|]. cbn [pad].
  rewrite fold_left_app, IH; [|rewrite Nat2Z.inj_succ, Z.pow_succ_r in Hn by lia;
    split; [apply Z.div_pos; lia|apply Z.div_lt_upper_bound; lia]].
  cbn [fold_left]. rewrite digit_value_mod. Z.div_mod_to_equations; lia.
Qed.
Lemma number_pad pre w n rest start :
  0 <= n < 10 ^ Z.of_nat w -> start = length pre -> number (pre ++ pad w n ++ rest) start w = n.
Proof.
  intros Hn ->. unfold number. rewrite drop_app_length.
  rewrite <- (pad_length w n) at 2. rewrite number_from_digits by apply pad_digits.
  by apply pad_value.
Qed.
Lemma skip_digits_app l c rest :
  Forall (fun c => is_digit c = true) l -> is_digit c = false -> skip_digits (l ++ c :: rest) = c :: rest.
Proof. intros H Hc. induction H as [|d l Hd _ IH]; cbn; [by rewrite Hc|by rewrite Hd]. Qed.
Lemma number_at t pre w n rest start :
  t = pre ++ pad w n ++ rest -> 0 <= n < 10 ^ Z.of_nat w -> start = length pre ->
  number t start w = n.
Proof. intros -> Hn Hs. by apply number_pad. Qed.
Lemma date_time_text t ms :
  tm_ok t -> 0 <= ms < 1000 -> date_time (str (timestamp_text t ms)) = true.
Proof.
  intros (Hy & Hm & Hd & Hh & Hi & Hs) Hms. unfold date_time.
  rewrite chars_str, ssize_chars, chars_str.
  pose proof (days_in_le (tm_year t) (tm_mon t)).
  set (T := timestamp_text t ms).
  assert (Ey : number T 0 4 = tm_year t).
  { eapply (number_at _ [] 4); [reflexivity|cbn; lia|done]. }
  assert (Em : number T 5 2 = tm_mon t).
  { eapply (number_at _ (take 5 T) 2); [reflexivity|cbn; lia|done]. }
  assert (Ed : number T 8 2 = tm_mday t).
  { eapply (number_at _ (take 8 T) 2); [reflexivity|cbn; lia|done]. }
  assert (Eh : number T 11 2 = tm_hour t).
  { eapply (number_at _ (take 11 T) 2); [reflexivity|cbn; lia|done]. }
  assert (Ei : number T 14 2 = tm_min t).
  { eapply (number_at _ (take 14 T) 2); [reflexivity|cbn; lia|done]. }
  assert (Es : number T 17 2 = tm_sec t).
  { eapply (number_at _ (take 17 T) 2); [reflexivity|cbn; lia|done]. }
  rewrite Ey, Em, Ed, Eh, Ei, Es.
  replace (length T) with 24%nat by reflexivity.
  change (sat T 4) with "-"%char. change (sat T 7) with "-"%char. change (sat T 10) with "T"%char.
  change (sat T 13) with ":"%char. change (sat T 16) with ":"%char.
  change (drop 19 T) with ("."%char :: pad 3 ms ++ ["Z"%char]). cbn [tail].
  rewrite skip_digits_app by (apply pad_digits || done). rewrite length_app, pad_length.
  cbn -[Z.ltb days_in].
  clear Ey Em Ed Eh Ei Es T.
  change (_ || false) with false. cbn match.
  destruct (_ || _) eqn:E in |- *; [lia|]. clear E.
  destruct (_ <? _) eqn:E in |- *; [lia|done].
Qed.

(** ** Properties *)

(** A timestamp the service writes for an instant before the year 10000 is accepted by the
    acknowledgement schema's [date_time]. *)
Theorem utc_timestamp_date_time ms :
  0 <= ms < year_10000_ms -> exists s, utc_timestamp ms = Ok s /\ ssize s = 24 /\ date_time s = true.
Proof.
  intros H. destruct (utc_timestamp_text ms H) as [Hok E].
  eexists. split; [exact E|]. split; [rewrite ssize_chars, chars_str; reflexivity|].
  apply date_time_text; [done|]. apply Z.mod_pos_bound. lia.
Qed.

(** The byte order of written timestamps is the order of the instants: the code may compare
    [expiresAt] texts with [<=]. *)
Theorem utc_timestamp_order a b s t :
  0 <= a < year_10000_ms -> 0 <= b < year_10000_ms ->
  utc_timestamp a = Ok s -> utc_timestamp b = Ok t -> str_ltb s t = (a <? b).
Proof.
  intros Ha Hb Hs Ht. destruct (Z.lt_trichotomy a b) as [H|[<-|H]].
  - rewrite (utc_timestamp_lt a b s t); [|lia|lia|done|done]. lia.
  - rewrite Hs in Ht. injection Ht as <-. rewrite str_ltb_irrefl. lia.
  - rewrite (str_ltb_asym t s); [lia|]. by apply (utc_timestamp_lt b a t s); [lia|lia|..].
Qed.
Lemma utc_timestamp_date_time_witness :
  exists s, utc_timestamp 1709210096789 = Ok s /\ ssize s = 24 /\ date_time s = true.
Proof. apply (utc_timestamp_date_time 1709210096789). vm_compute. split; [discriminate|reflexivity]. Defined.
Lemma utc_timestamp_order_witness :
  str_ltb "2024-02-29T12:34:56.789Z" "2024-03-01T00:00:00.000Z" = (1709210096789 <? 1709251200000).
Proof.
  apply utc_timestamp_order; [vm_compute; split; [discriminate|reflexivity]..| |]; vm_compute; reflexivity.
Defined.
