(* ===== verification/Protocol.v ===== *)
(** * The wire protocols (src/runtime/protocol.cpp, src/runtime/posix.cpp)

    The credential exchange with the platform's token issuer, the acknowledgement check and the
    retry rules of the backend and the completeness check of a telemetry frame. *)
From Stdlib Require Import ZArith Lia Bool Ascii String.
From stdpp Require Import gmap strings list.
From S2P Require Import Prelude Chars Sha256 Uuid Float64 Json JsonFacts Time.
Local Open Scope Z_scope.

(** ** The token issuer *)

Record Credential := MkCredential {
  token : string; expires : Z; renew_after : Z; cred_code : string; retryable : bool }.
Definition newline : string := str [chr 10].
(** A string literal in which the quotation marks of the C++ source are written ['']. *)
Definition quoted (s : string) : string :=
  str (map (fun c => if Ascii.eqb c "'" then quote_char else c) (chars s)).

Definition credential_request (secret : string) : res string :=
  if ssize secret =? 0 then Err (InvalidArgument "AOS_SECRET_UNAVAILABLE")
  else
    q ← quote_json secret;
    let request := quoted "{'protocol':'aos-kuksa-auth-compat/v1','operation':'issue','aosSecret':"
                   +:+ q +:+ "}" +:+ newline in
    if 16384 <? ssize request then Err (InvalidArgument "AOS_SECRET_INVALID") else Ok request.

Definition kac_invalid : exn := InvalidArgument "KAC_RESPONSE_INVALID".
Definition token_char (c : ascii) : bool :=
  is_lower c || is_upper c || is_digit c || Ascii.eqb c "." || Ascii.eqb c "_" || Ascii.eqb c "-".
(** The text of a token: three non-empty parts separated by full stops. *)
Definition token_text_bad (t : string) : bool :=
  (ssize t =? 0) || (16384 <? ssize t) || bool_decide (front t = Some "."%char)
  || bool_decide (back t = Some "."%char)
  || bool_decide (is_Some (find_sub (chars "..") (chars t))).
Definition retryable_codes : list string :=
  ["IAM_UNAVAILABLE"; "SIGNER_UNAVAILABLE"; "TIME_UNTRUSTED"; "BUSY"]%string.
Definition terminal_codes : list string :=
  ["INVALID_REQUEST"; "DENIED"; "POLICY_UNSUPPORTED"; "INTERNAL_ERROR"]%string.
Definition find_string (s : string) (l : list string) : bool := existsb (String.eqb s) l.

Definition parse_rejected (json : Json) : res Credential :=
  o ← object json;
  if negb (obj_size o =? 5) then Err kac_invalid
  else
    c ← at_string "code" json;
    r ← at_boolean "retryable" json;
    let retry := find_string c retryable_codes in
    if negb (Bool.eqb r retry) || (negb retry && negb (find_string c terminal_codes))
    then Err kac_invalid
    else Ok (MkCredential "" 0 0 c r).
Definition parse_issued (json : Json) (now : Z) : res Credential :=
  t ← at_string "token" json;
  e ← at_integer "expiresAtUnixSeconds" json;
  r ← at_integer "renewAfterUnixSeconds" json;
  if token_text_bad t || (e <=? now) || (now + 300 <? e) || negb (e - r =? 120) || (r <=? now)
     || negb (count_char "." t =? 2) || negb (all_of token_char t)
  then Err kac_invalid
  else Ok (MkCredential t e r "" false).
Definition parse_credential (response : string) (now : Z) : res Credential :=
  if (ssize response =? 0) || negb (bool_decide (back response = Some (chr 10)))
     || (32768 <? ssize response)
  then Err kac_invalid
  else
    json ← parse_json response 32768;
    p ← at_string "protocol" json;
    bad ← (if negb (String.eqb p "aos-kuksa-auth-compat/v1") then Ok true
           else c ← at_string "correlationId" json; Ok (ssize c =? 0));
    if (bad : bool) then Err kac_invalid
    else
      s ← at_string "status" json;
      if String.eqb s "rejected" then parse_rejected json
      else
        s' ← at_string "status" json;
        o ← object json;
        if negb (String.eqb s' "issued") || negb (obj_size o =? 6) then Err kac_invalid
        else parse_issued json now.

(** ** The backend *)

Record HttpResponse := MkHttpResponse { status : Z; body : string; retry_after : Z }.

Definition retryable_http (status : Z) : bool :=
  (status =? 0) || (status =? 408) || (status =? 425) || (status =? 429) || (status =? 500)
  || (status =? 502) || (status =? 503) || (status =? 504).

(** [std::clamp] *)
Definition clamp (v lo hi : Z) : Z := if v <? lo then lo else if hi <? v then hi else v.
Definition fifth : double := of_decimal false 2 (-1).
Definition retry_delay (attempt : Z) (jitter : double) (retry_after : Z) : res Z :=
  if negb (isfinite jitter) || flt jitter (of_decimal true 2 (-1)) || flt fifth jitter
     || (retry_after <? 0)
  then Err (InvalidArgument "RETRY_INVALID")
  else
    let base := Z.min 30 (Z.shiftl 1 (Z.min attempt 5)) in
    Ok (Z.max retry_after
          (clamp (ceil_int (fmul (of_int base) (fadd (of_int 1) jitter))) 1 30)).

Definition key_field (kind : string) : option string :=
  if String.eqb kind "TIRE_HEALTH_ASSESSMENT" then Some "assessmentId"%string
  else if String.eqb kind "TIRE_CONDITION_BAND_CHANGED" then Some "eventId"%string
  else if String.eqb kind "TIRE_ADVISORY_FACT" then Some "requestId"%string
  else if String.eqb kind "TIRE_FUNCTION_STATUS" then Some "statusId"%string
  else None.
(** The identity of a message: unit, kind, the kind's identifier and, for an advisory fact, the
    gateway state. *)
Definition message_key_json (msg : Json) : res Json :=
  kind ← at_string "messageType" msg;
  field ← of_option (InvalidArgument "MESSAGE_KIND_INVALID") (key_field kind);
  unit ← jat "unitSystemUid" msg;
  id ← jat field msg;
  if String.eqb kind "TIRE_ADVISORY_FACT" then
    g ← jat "gatewayState" msg; Ok (JArray [unit; JString kind; id; g])
  else Ok (JArray [unit; JString kind; id]).
Definition message_key (msg : Json) : res string :=
  k ← message_key_json msg; c ← canonical k; Ok (sha256_hex c).

Definition ack_fields_match (msg ack : Json) : res bool :=
  o ← object ack;
  if negb (obj_size o =? 7) then Ok false else
  sv ← at_integer "schemaVersion" ack;
  if negb (sv =? 1) then Ok false else
  cv ← at_string "contractVersion" ack;
  if negb (String.eqb cv "1.0.0") then Ok false else
  rid ← at_string "receiptId" ack;
  if negb (is_uuid rid) then Ok false else
  rat ← at_string "receivedAt" ack;
  if negb (date_time rat) then Ok false else
  st ← at_string "state" ack;
  if negb (String.eqb st "DURABLE_ACCEPTED" || String.eqb st "DUPLICATE_ACCEPTED") then Ok false else
  mk ← at_string "messageKeySha256" ack;
  k ← message_key msg;
  if negb (String.eqb mk k) then Ok false else
  ac ← at_string "contentSha256" ack;
  mc ← at_string "contentSha256" msg;
  Ok (String.eqb ac mc).
Definition matches_ack (bytes : string) (response : HttpResponse) : bool :=
  if negb (status response =? 200) && negb (status response =? 201) then false
  else catch_all (msg ← parse_json bytes 16384;
                  ack ← parse_json (body response) 8192;
                  ack_fields_match msg ack) false.

(** ** A complete telemetry frame *)

Record Signal := MkSignal { sig_value : double; sig_epoch : Z; sig_valid : bool }.
Record Frame := MkFrame { frame_values : list double; frame_epoch : Z }.
Definition signal_bad (epoch wall_ms : Z) (s : Signal) : bool :=
  negb (sig_valid s) || negb (isfinite (sig_value s)) || negb (sig_epoch s =? epoch)
  || (wall_ms <? epoch) || (250 <? wall_ms - epoch).
Definition zero : double := SpecFloat.S754_zero false.
(** [values] are the fifteen signals of the array. *)
Definition complete_frame (values : list Signal) (wall_ms : Z) : option Frame :=
  match values with
  | [] => None
  | s0 :: _ =>
    if existsb (signal_bad (sig_epoch s0) wall_ms) values then None
    else
      let v := map sig_value values in
      if flt (sig_value s0) zero || existsb (fun x => flt x zero) (take 4 (drop 3 v)) then None
      else Some (MkFrame v (sig_epoch s0))
  end.

(** ** Lemmas *)

Lemma at_string_Ok k j s :
  at_string k j = Ok s <-> exists o, j = JObject o /\ obj_find k o = Some (JString s).
Proof.
  unfold at_string, jat. split.
  - intros H. apply bind_Ok in H as (v & Hv & Hs). apply bind_Ok in Hv as (o & Ho & Hv).
    apply of_option_Ok in Hv. destruct j; try done. injection Ho as ->.
    destruct v; try done. injection Hs as ->. eauto.
  - intros (o & -> & H). unfold obj_at. cbn [object mbind res_mbind]. by rewrite H.
Qed.
Lemma clamp_range v lo hi : lo <= hi -> lo <= clamp v lo hi <= hi.
Proof. unfold clamp. intros H. repeat case_code; b2p; lia. Qed.
Lemma find_string_In s l : find_string s l = true <-> s ∈ l.
Proof.
  unfold find_string. rewrite existsb_exists. split.
  - intros (x & Hx & ->%String.eqb_eq). by apply list_elem_of_In.
  - intros H. exists s. split; [by apply list_elem_of_In|apply String.eqb_refl].
Qed.

Definition issued_ok (c : Credential) (now : Z) : Prop :=
  1 <= ssize (token c) <= 16384 /\ all_of token_char (token c) = true /\
  count_char "." (token c) = 2 /\ front (token c) <> Some "."%char /\
  back (token c) <> Some "."%char /\ find_sub (chars "..") (chars (token c)) = None /\
  now < renew_after c /\ renew_after c + 120 = expires c /\ expires c <= now + 300.
Definition rejected_ok (c : Credential) : Prop :=
  token c = ""%string /\ cred_code c ∈ retryable_codes ++ terminal_codes /\
  (retryable c = true <-> cred_code c ∈ retryable_codes).

Lemma parse_issued_ok json now c : parse_issued json now = Ok c -> issued_ok c now.
Proof.
  unfold parse_issued. intros H. inv_res. rename x into t, x0 into e, x1 into r.
  destruct (_ || _) eqn:E in H2; [done|]. injection H2 as <-.
  unfold token_text_bad in E. pose proof (ssize_nonneg t). b2p.
  repeat match goal with H : bool_decide _ = false |- _ => apply bool_decide_eq_false in H end.
  unfold issued_ok. cbn [token expires renew_after]. split_and!; try done; try lia.
  by apply eq_None_not_Some.
Qed.
Lemma parse_rejected_ok json c : parse_rejected json = Ok c -> rejected_ok c.
Proof.
  unfold parse_rejected. intros H. apply bind_Ok in H as (o & _ & H).
  destruct (negb _); [done|]. inv_res. rename x into s, x0 into r.
  destruct (_ || _) eqn:E in H1; [done|]. injection H1 as <-. b2p. apply eqb_prop in H1.
  unfold rejected_ok. cbn [token cred_code retryable]. split_and!; [done| |].
  - apply elem_of_app. rewrite <- !find_string_In.
    destruct (find_string s retryable_codes); [by left|right]. by apply negb_false_iff in H2.
  - by rewrite H1, find_string_In.
Qed.

Lemma signal_bad_false epoch wall s :
  signal_bad epoch wall s = false <->
  sig_valid s = true /\ isfinite (sig_value s) = true /\ sig_epoch s = epoch /\
  0 <= wall - epoch <= 250.
Proof.
  unfold signal_bad. rewrite !orb_false_iff, !negb_false_iff, Z.eqb_eq, !Z.ltb_ge.
  intuition lia.
Qed.
Lemma existsb_false {A} (p : A -> bool) l : existsb p l = false <-> Forall (fun x => p x = false) l.
Proof.
  induction l as [|x l IH]; cbn; [by split|]. rewrite orb_false_iff, IH, Forall_cons. done.
Qed.

(** ** Properties *)

(** A credential the parser returns is either an issued one, whose token has the shape of a
    three-part token, which is renewed in the future and lives at most 300 seconds, or a
    rejection with a known code and the retry flag that goes with the code. *)
Theorem parse_credential_ok response now c :
  parse_credential response now = Ok c -> issued_ok c now \/ rejected_ok c.
Proof.
  unfold parse_credential. destruct (_ || _); [done|]. intros H.
  apply bind_Ok in H as (json & _ & H). apply bind_Ok in H as (p & _ & H).
  apply bind_Ok in H as ([|] & _ & H); [done|]. apply bind_Ok in H as (s & _ & H).
  destruct (String.eqb s "rejected"); [right; by eapply parse_rejected_ok|].
  apply bind_Ok in H as (s' & _ & H). apply bind_Ok in H as (o & _ & H).
  destruct (_ || _); [done|]. left. by eapply parse_issued_ok.
Qed.
Definition sample_issued : string :=
  quoted "{'protocol':'aos-kuksa-auth-compat/v1','correlationId':'c','status':'issued','token':'a.b.c','expiresAtUnixSeconds':1300,'renewAfterUnixSeconds':1180}"
  +:+ newline.
Lemma parse_credential_ok_witness :
  let c := MkCredential "a.b.c" 1300 1180 "" false in issued_ok c 1000 \/ rejected_ok c.
Proof. cbn zeta. apply (parse_credential_ok sample_issued 1000). vm_compute. reflexivity. Defined.

(** A retry delay is at least the server's [Retry-After] and at least a second, and beyond
    [Retry-After] never more than thirty seconds. *)
Theorem retry_delay_range attempt jitter after d :
  retry_delay attempt jitter after = Ok d -> after <= d /\ 1 <= d <= Z.max 30 after.
Proof.
  unfold retry_delay. destruct (_ || _); [done|]. cbn zeta. generalize (ceil_int (fmul
    (of_int (Z.min 30 (Z.shiftl 1 (Z.min attempt 5)))) (fadd (of_int 1) jitter))).
  intros v H. pose proof (clamp_range v 1 30 ltac:(lia)). revert H H0. generalize (clamp v 1 30).
  intros w [= <-] ?. lia.
Qed.
Lemma retry_delay_range_witness : retry_delay 3 fifth 4 = Ok 10 /\ 4 <= 10 /\ 1 <= 10 <= Z.max 30 4.
Proof. split; [vm_compute; reflexivity|]. apply (retry_delay_range 3 fifth 4 10). vm_compute. reflexivity. Defined.

(** An acknowledgement is accepted only with status 200 or 201 and only if it names the
    message: the hash of the message's identity and the message's content hash. *)
Theorem matches_ack_names_message bytes r :
  matches_ack bytes r = true ->
  (status r = 200 \/ status r = 201) /\
  exists msg ack k c,
    parse_json bytes 16384 = Ok msg /\ parse_json (body r) 8192 = Ok ack /\
    message_key msg = Ok k /\ at_string "messageKeySha256" ack = Ok k /\
    at_string "contentSha256" msg = Ok c /\ at_string "contentSha256" ack = Ok c.
Proof.
  unfold matches_ack. destruct (_ && _) eqn:Es; [done|]. intros H. split.
  { apply andb_false_iff in Es. rewrite !negb_false_iff, !Z.eqb_eq in Es. tauto. }
  destruct (parse_json bytes 16384) as [msg|] eqn:Em; [|done].
  destruct (parse_json (body r) 8192) as [ack|] eqn:Ea; [|done]. cbn [mbind res_mbind] in H.
  destruct (ack_fields_match msg ack) as [b|] eqn:E; [|done]. cbn in H. subst b.
  unfold ack_fields_match in E.
  repeat (apply bind_Ok in E as (? & ? & E);
    try match type of E with (if negb ?b then _ else _) = _ => destruct b eqn:?; [cbn [negb] in E|done] end).
  injection E as E. repeat match goal with H : String.eqb _ _ = true |- _ => apply String.eqb_eq in H end.
  subst. by repeat eexists.
Qed.

(** A frame is complete exactly when all fifteen signals are valid, finite, of one epoch
    that is at most 250 ms old and not in the future, and no speed is negative; the frame
    carries their values in order. *)
Theorem complete_frame_spec s0 values wall f :
  complete_frame (s0 :: values) wall = Some f <->
  Forall (fun s => sig_valid s = true /\ isfinite (sig_value s) = true /\
                   sig_epoch s = sig_epoch s0 /\ 0 <= wall - sig_epoch s0 <= 250) (s0 :: values) /\
  flt (sig_value s0) zero = false /\
  Forall (fun s => flt (sig_value s) zero = false) (take 4 (drop 2 values)) /\
  f = MkFrame (map sig_value (s0 :: values)) (sig_epoch s0).
Proof.
  unfold complete_frame.
  assert (Hb : Forall (fun s => sig_valid s = true /\ isfinite (sig_value s) = true /\
     sig_epoch s = sig_epoch s0 /\ 0 <= wall - sig_epoch s0 <= 250) (s0 :: values) <->
     existsb (signal_bad (sig_epoch s0) wall) (s0 :: values) = false).
  { rewrite existsb_false. apply Forall_iff. intros s. by rewrite signal_bad_false. }
  rewrite Hb. destruct (existsb _ (s0 :: values)); [naive_solver|].
  cbn zeta. rewrite map_cons. cbn [drop].
  assert (Hs : Forall (fun s => flt (sig_value s) zero = false) (take 4 (drop 2 values)) <->
    existsb (fun x => flt x zero) (take 4 (drop 2 (map sig_value values))) = false).
  { rewrite skipn_map, firstn_map, existsb_false, List.Forall_map. done. }
  rewrite Hs. destruct (flt (sig_value s0) zero); [naive_solver|].
  destruct (existsb _ _); naive_solver.
Qed.
Definition sample_message : string :=
  quoted "{'messageType':'TIRE_HEALTH_ASSESSMENT','unitSystemUid':'u','assessmentId':'a','contentSha256':'c'}".
Definition sample_ack : string :=
  quoted "{'schemaVersion':1,'contractVersion':'1.0.0','receiptId':'6ba7b810-9dad-11d1-80b4-00c04fd430c8','receivedAt':'2024-02-29T12:34:56+01:00','state':'DURABLE_ACCEPTED','contentSha256':'c','messageKeySha256':'"
  +:+ catch_all (m ← parse_json sample_message 16384; message_key m) "" +:+ quoted "'}".
Lemma matches_ack_names_message_witness :
  (200 = 200 \/ 200 = 201) /\
  exists msg ack k c,
    parse_json sample_message 16384 = Ok msg /\ parse_json sample_ack 8192 = Ok ack /\
    message_key msg = Ok k /\ at_string "messageKeySha256" ack = Ok k /\
    at_string "contentSha256" msg = Ok c /\ at_string "contentSha256" ack = Ok c.
Proof.
  apply (matches_ack_names_message sample_message (MkHttpResponse 200 sample_ack 0)).
  vm_compute. reflexivity.
Defined.
