(* ===== verification/Http.v ===== *)
(** * HTTP/1.1 responses and requests (src/runtime/posix.cpp)

    [parse_http_response] works on bytes the peer chose: the facts are that it always returns,
    that it fails only with the transport error, and that what it returns is bounded, whatever
    the bytes; and that a chunked body is reassembled.  The requests take the exchange of bytes
    as an argument, which Transport instantiates. *)
From Stdlib Require Import ZArith Lia Bool Ascii String.
From stdpp Require Import gmap strings list.
From S2P Require Import Prelude Chars Sha256 Float64 Json Protocol.
Local Open Scope Z_scope.

Definition fail {A} : res A := Err (RuntimeError "TRANSPORT_UNAVAILABLE").

(** ** number: [std::from_chars] on a [std::size_t] *)

Definition base_digit (base : Z) (c : ascii) : option Z :=
  let v := if is_digit c then code c - 48
           else if is_lower c then code c - 87
           else if is_upper c then code c - 55 else 99 in
  if v <? base then Some v else None.
Fixpoint digits_value (base : Z) (l : list ascii) (n : Z) : option Z :=
  match l with
  | [] => Some n
  | c :: l' => d ← base_digit base c; digits_value base l' (n * base + d)
  end.
Definition number (text : list ascii) (base : Z) : res Z :=
  match text with
  | [] => fail
  | _ => match digits_value base text 0 with
         | Some n => if 2 ^ 64 <=? n then fail else Ok n
         | None => fail
         end
  end.

(** ** Lines and header fields *)

(** [std::getline] repeated: pieces between line feeds; no piece after a final line feed. *)
Fixpoint split_lines (l cur : list ascii) : list (list ascii) :=
  match l with
  | [] => match cur with [] => [] | _ => [rev cur] end
  | c :: l' => if Ascii.eqb c (chr 10) then rev cur :: split_lines l' []
               else split_lines l' (c :: cur)
  end.
Definition getlines (l : list ascii) : list (list ascii) := split_lines l [].
Definition tolower (c : ascii) : ascii := if is_upper c then chr (code c + 32) else c.
Fixpoint drop_spaces (l : list ascii) : list ascii :=
  match l with c :: l' => if Ascii.eqb c " " then drop_spaces l' else l | [] => [] end.
Definition pop_cr (line : list ascii) : list ascii :=
  if bool_decide (last line = Some (chr 13)) then removelast line else line.
(** The header loop; [fields] is the [std::map] of the fields seen. *)
Fixpoint header_fields (lines : list (list ascii)) (fields : gmap string (list ascii))
    : res (gmap string (list ascii)) :=
  match lines with
  | [] => Ok fields
  | l :: lines' =>
    let line := pop_cr l in
    match find_sub [":"%char] line with
    | None => fail
    | Some colon =>
      let name := str (map tolower (take colon line)) in
      let value := drop_spaces (drop (S colon) line) in
      match fields !! name with
      | Some _ => fail
      | None => header_fields lines' (<[name := value]> fields)
      end
    end
  end.

(** ** The body *)

Definition crlf : list ascii := [chr 13; chr 10].
(** [body.substr(n, 2) == crlf]: the first two characters of [l] are. *)
Definition starts_crlf (l : list ascii) : bool := bool_decide (take 2 l = crlf).
(** The chunk loop: [body] is what is left, [out] the body of the response so far. *)
Fixpoint dechunk (fuel : nat) (body out : list ascii) : res (list ascii) :=
  match fuel with
  | O => Err FuelExhausted
  | S f =>
    match find_sub crlf body with
    | None => fail
    | Some e =>
      n ← number (take e body) 16;
      let body := drop (e + 2) body in
      let size := Z.of_nat (length body) in
      if (8192 <? n) || (size <? n) || (size - n <? 2) || negb (starts_crlf (drop (Z.to_nat n) body))
      then fail
      else if n =? 0 then (if bool_decide (body = crlf) then Ok out else fail)
      else
        let out := out ++ take (Z.to_nat n) body in
        if 8192 <? Z.of_nat (length out) then fail
        else dechunk f (drop (Z.to_nat n + 2) body) out
    end
  end.

(** The body by the framing the fields declare. *)
Definition read_body (fields : gmap string (list ascii)) (body : list ascii) : res (list ascii) :=
  match fields !! "transfer-encoding"%string, fields !! "content-length"%string with
  | Some _, Some _ => fail
  | Some encoding, None =>
    if bool_decide (encoding = chars "chunked") then dechunk (S (length body)) body [] else fail
  | None, Some declared =>
    n ← number declared 10;
    if n =? Z.of_nat (length body) then Ok body else fail
  | None, None => Ok body
  end.
Definition read_retry_after (fields : gmap string (list ascii)) : res Z :=
  match fields !! "retry-after"%string with
  | None => Ok 0
  | Some text => v ← number text 10; if 86400 <? v then fail else Ok v
  end.
Definition parse_http_response (bytes : string) : res HttpResponse :=
  if 24576 <? ssize bytes then fail
  else
    match find_sub (crlf ++ crlf) (chars bytes) with
    | None => fail
    | Some split =>
      if 16384 <? Z.of_nat split then fail
      else
        match getlines (take split (chars bytes)) with
        | [] => fail
        | line :: lines =>
          if (length line <? 13)%nat || negb (bool_decide (take 9 line = chars "HTTP/1.1 "))
             || negb (bool_decide (line !! 12%nat = Some " "%char))
          then fail
          else
            st ← number (take 3 (drop 9 line)) 10;
            fields ← header_fields lines ∅;
            out ← read_body fields (drop (split + 4) (chars bytes));
            if 8192 <? Z.of_nat (length out) then fail
            else retry ← read_retry_after fields; Ok (MkHttpResponse st (str out) retry)
        end
    end.

(** ** Requests; [exchange] sends the request to the address and port and returns what came
    back, at most [maximum] bytes within [seconds]. *)
Section Requests.
Context (exchange : string -> Z -> string -> Z -> Z -> res string).
Definition line_end : string := str crlf.
Definition http_request (path marker bytes : string) : string :=
  "POST " +:+ path +:+ " HTTP/1.1" +:+ line_end +:+ "Host: 10.0.0.1:18092" +:+ line_end
  +:+ "Content-Type: application/json" +:+ line_end +:+ marker +:+ "Connection: close" +:+ line_end
  +:+ "Content-Length: " +:+ to_string (ssize bytes) +:+ line_end +:+ line_end +:+ bytes.
Definition size_invalid : exn := InvalidArgument "MESSAGE_SIZE_INVALID".
Definition post_backend (bytes : string) (demo_mock : bool) : res HttpResponse :=
  if (ssize bytes =? 0) || (16384 <? ssize bytes) then Err size_invalid
  else
    let path := if demo_mock then "/api/v1/tire/demo-mock/messages"%string
                else "/api/v1/tire/messages"%string in
    let marker := if demo_mock then "X-Aos-Demo-Source: MOCK" +:+ line_end else ""%string in
    reply ← exchange "10.0.0.1"%string 18092 (http_request path marker bytes) 24576 10;
    parse_http_response reply.
Definition post_demo_control (bytes : string) (acknowledgement : bool) : res HttpResponse :=
  if (ssize bytes =? 0) || (4096 <? ssize bytes) then Err size_invalid
  else
    let path := if acknowledgement then "/api/v1/tire/demo-control/ack"%string
                else "/api/v1/tire/demo-control/poll"%string in
    reply ← exchange "10.0.0.1"%string 18092 (http_request path "" bytes) 24576 2;
    parse_http_response reply.
End Requests.

(** A response text with ['/'] in place of each line end. *)
Definition http_text (s : string) : string :=
  str (chars s ≫= fun c => if Ascii.eqb c "/" then crlf else if Ascii.eqb c "!" then ["/"%char] else [c]).
Example chunked_example :
  parse_http_response (http_text "HTTP!1.1 200 OK/Transfer-Encoding: chunked/Retry-After: 7//3/abc/2/de/0//")
  = Ok (MkHttpResponse 200 "abcde" 7).
Proof. vm_compute. reflexivity. Qed.

(** ** Lemmas *)

Lemma find_sub_length p s e : find_sub p s = Some e -> (e + length p <= length s)%nat.
Proof.
  revert e. induction s as [|c s IH]; intros e; cbn [find_sub].
  - destruct (is_prefix p []) eqn:E; [|done]. intros [= <-].
    apply is_prefix_true in E as (t & E). destruct p; [done|discriminate].
  - destruct (is_prefix p (c :: s)) eqn:E.
    + intros [= <-]. apply is_prefix_true in E as (t & E). rewrite E, length_app. lia.
    + intros (k & Hk & ->)%fmap_Some. apply IH in Hk. cbn. lia.
Qed.
(** Text without the first character of the pattern is skipped. *)
Lemma find_sub_first a p l rest :
  a ∉ l -> find_sub (a :: p) (l ++ (a :: p) ++ rest) = Some (length l).
Proof.
  induction l as [|c l IH]; intros H.
  - cbn [app find_sub length]. change (a :: p ++ rest) with ((a :: p) ++ rest). by rewrite is_prefix_app.
  - cbn [app find_sub length]. destruct (is_prefix _ _) eqn:E.
    { apply is_prefix_true in E as (t & E). injection E as -> _. set_solver. }
    change (l ++ a :: p ++ rest) with (l ++ (a :: p) ++ rest). rewrite IH by set_solver. done.
Qed.

(** A computation whose only exception is the transport's. *)
Definition transport_only {A} (m : res A) : Prop :=
  forall e, m = Err e -> e = RuntimeError "TRANSPORT_UNAVAILABLE".
Lemma transport_fail {A} : transport_only (A:=A) fail.
Proof. by intros e [= <-]. Qed.
Lemma transport_Ok {A} (a : A) : transport_only (Ok a).
Proof. done. Qed.
Lemma transport_bind {A B} (m : res A) (k : A -> res B) :
  transport_only m -> (forall a, transport_only (k a)) -> transport_only (m ≫= k).
Proof. intros Hm Hk e [H|(a & _ & H)]%bind_Err; [by apply Hm|by apply (Hk a)]. Qed.
Lemma number_transport text base : transport_only (number text base).
Proof.
  unfold number. repeat case_code; first [apply transport_fail|apply transport_Ok].
Qed.
Lemma header_fields_transport lines fields : transport_only (header_fields lines fields).
Proof.
  revert fields. induction lines as [|l lines IH]; intros fields; cbn [header_fields]; cbn zeta.
  - apply transport_Ok.
  - destruct (find_sub _ _); [|apply transport_fail]. destruct (_ !! _); [apply transport_fail|apply IH].
Qed.
Lemma dechunk_transport f body out : (length body < f)%nat -> transport_only (dechunk f body out).
Proof.
  revert body out. induction f as [|f IH]; intros body out Hf; [lia|]. cbn [dechunk].
  destruct (find_sub crlf body) as [e|] eqn:E; [|apply transport_fail].
  apply find_sub_length in E. cbn [length crlf] in E.
  apply transport_bind; [apply number_transport|]. intros n. cbn zeta.
  destruct (_ || _); [apply transport_fail|].
  destruct (n =? 0); [case_bool_decide; [apply transport_Ok|apply transport_fail]|].
  destruct (8192 <? _); [apply transport_fail|]. apply IH. rewrite !length_drop. lia.
Qed.
Lemma read_body_transport fields body : transport_only (read_body fields body).
Proof.
  unfold read_body. destruct (_ !! "transfer-encoding"%string), (_ !! "content-length"%string);
    try apply transport_fail; try apply transport_Ok.
  - case_bool_decide; [apply dechunk_transport; lia|apply transport_fail].
  - apply transport_bind; [apply number_transport|]. intros n.
    destruct (_ =? _); [apply transport_Ok|apply transport_fail].
Qed.
Lemma read_retry_after_transport fields : transport_only (read_retry_after fields).
Proof.
  unfold read_retry_after. destruct (_ !! _); [|apply transport_Ok].
  apply transport_bind; [apply number_transport|]. intros n. destruct (_ <? _); [apply transport_fail|apply transport_Ok].
Qed.
Lemma base_digit_range base c d : base_digit base c = Some d -> d < base.
Proof. unfold base_digit. cbn zeta. destruct (_ <? base) eqn:E; [|done]. intros [= <-]. b2p. done. Qed.
Lemma base_digit_nonneg base c d : base_digit base c = Some d -> 0 <= d.
Proof.
  unfold base_digit, is_digit, is_lower, is_upper, between.
  change (code "0") with 48. change (code "9") with 57. change (code "a") with 97.
  change (code "z") with 122. change (code "A") with 65. change (code "Z") with 90.
  repeat case_and; b2p; cbn zeta; destruct (_ <? base); intros [= <-]; lia.
Qed.
Lemma digits_value_bound base l n v :
  0 < base -> 0 <= n -> digits_value base l n = Some v ->
  0 <= v < (n + 1) * base ^ Z.of_nat (length l).
Proof.
  intros Hb. revert n. induction l as [|c l IH]; intros n Hn; cbn [digits_value length].
  - intros [= <-]. cbn. lia.
  - intros (d & Hd & Hv)%bind_Some. pose proof (base_digit_nonneg _ _ _ Hd).
    apply base_digit_range in Hd. apply IH in Hv; [|lia].
    rewrite Nat2Z.inj_succ, Z.pow_succ_r by lia.
    pose proof (Z.pow_pos_nonneg base (Z.of_nat (length l))). nia.
Qed.
Lemma number_range text base n :
  0 < base -> number text base = Ok n -> 0 <= n < base ^ Z.of_nat (length text) /\ n < 2 ^ 64.
Proof.
  unfold number. destruct text as [|c l]; [done|]. intros Hb H.
  destruct (digits_value _ _ _) eqn:E; [|done]. apply digits_value_bound in E; [|lia..].
  destruct (2 ^ 64 <=? z) eqn:Ez; [done|]. injection H as ->. b2p. lia.
Qed.

Lemma dechunk_length f body out r : dechunk f body out = Ok r -> Z.of_nat (length out) <= 8192 -> Z.of_nat (length r) <= 8192.
Proof.
  revert body out. induction f as [|f IH]; intros body out H Ho; [done|]. cbn [dechunk] in H.
  destruct (find_sub crlf body) as [e|]; [|done]. apply bind_Ok in H as (n & _ & H). cbn zeta in H.
  destruct (_ || _); [done|]. destruct (n =? 0); [case_bool_decide; [by injection H as ->|done]|].
  destruct (8192 <? _) eqn:E; [done|]. b2p. apply IH in H; lia.
Qed.

(** ** The chunked coding *)

(** A chunk: its size line and its data. *)
Definition chunk_text (c : list ascii * list ascii) : list ascii := c.1 ++ crlf ++ c.2 ++ crlf.
Definition chunk_ok (c : list ascii * list ascii) : Prop :=
  (chr 13 ∉ c.1) /\ number c.1 16 = Ok (Z.of_nat (length c.2)) /\ (0 < length c.2)%nat.
(** The body as sent: the chunks, then a chunk of size zero. *)
Definition chunked (chunks : list (list ascii * list ascii)) : list ascii :=
  flat_map chunk_text chunks ++ ["0"%char] ++ crlf ++ crlf.

Lemma starts_crlf_app l : starts_crlf (crlf ++ l) = true.
Proof. unfold starts_crlf. by apply bool_decide_eq_true. Qed.
Lemma dechunk_chunk f c rest out :
  chunk_ok c -> Z.of_nat (length out + length c.2) <= 8192 ->
  dechunk (S f) (chunk_text c ++ rest) out = dechunk f rest (out ++ c.2).
Proof.
  intros (Hcr & Hn & Hpos) Hlen. destruct c as [size data]. cbn [fst snd] in *.
  unfold chunk_text. cbn [fst snd dechunk].
  replace ((size ++ crlf ++ data ++ crlf) ++ rest) with (size ++ crlf ++ data ++ crlf ++ rest)
    by (by rewrite <- !app_assoc).
  unfold crlf at 1 2. rewrite find_sub_first by done. fold crlf. rewrite take_app_length, Hn.
  cbn [mbind res_mbind]. rewrite <- drop_drop, drop_app_length.
  change (drop 2 (crlf ++ data ++ crlf ++ rest)) with (data ++ crlf ++ rest). cbn zeta.
  rewrite !Nat2Z.id, drop_app_length, starts_crlf_app, take_app_length, !length_app.
  change (length crlf) with 2%nat.
  cbn [negb]. rewrite orb_false_r. destruct (_ || _) eqn:E; [exfalso|clear E].
  { apply orb_true_iff in E as [[E|E]%orb_true_iff|E]; apply Z.ltb_lt in E; lia. }
  replace (Z.of_nat (length data) =? 0) with false by lia.
  rewrite (proj2 (Z.ltb_ge 8192 _) Hlen).
  by rewrite <- drop_drop, drop_app_length.
Qed.
Lemma dechunk_last f out : dechunk (S f) (["0"%char] ++ crlf ++ crlf) out = Ok out.
Proof. reflexivity. Qed.
Lemma dechunk_chunks chunks f out :
  Forall chunk_ok chunks -> (length chunks < f)%nat ->
  Z.of_nat (length out + length (flat_map snd chunks)) <= 8192 ->
  dechunk f (chunked chunks) out = Ok (out ++ flat_map snd chunks).
Proof.
  intros H. revert f out. induction H as [|c chunks Hc _ IH]; intros f out Hf Hlen.
  - destruct f as [|f]; [lia|]. cbn [flat_map]. rewrite app_nil_r. apply dechunk_last.
  - destruct f as [|f]; [lia|]. cbn [flat_map length] in *. rewrite length_app in Hlen.
    unfold chunked. cbn [flat_map]. rewrite <- app_assoc, dechunk_chunk by (done || lia).
    fold (chunked chunks). rewrite IH; [by rewrite <- app_assoc|lia|]. rewrite length_app. lia.
Qed.

(** ** Properties *)

(** The parser returns on every input, and its only exception is the transport's. *)
Theorem parse_http_response_total bytes :
  (exists r, parse_http_response bytes = Ok r) \/
  parse_http_response bytes = Err (RuntimeError "TRANSPORT_UNAVAILABLE").
Proof.
  assert (H : transport_only (parse_http_response bytes)).
  { unfold parse_http_response. destruct (_ <? _); [apply transport_fail|].
    destruct (find_sub _ _) as [split|]; [|apply transport_fail].
    destruct (_ <? _); [apply transport_fail|].
    destruct (getlines _) as [|line lines]; [apply transport_fail|].
    destruct (_ || _); [apply transport_fail|].
    apply transport_bind; [apply number_transport|]. intros st.
    apply transport_bind; [apply header_fields_transport|]. intros fields.
    apply transport_bind; [apply read_body_transport|]. intros out.
    destruct (_ <? _); [apply transport_fail|].
    apply transport_bind; [apply read_retry_after_transport|]. intros r. apply transport_Ok. }
  destruct (parse_http_response bytes) as [r|e] eqn:E; [left; eauto|right]. by rewrite (H e).
Qed.

(** Whatever the peer sends, a parsed response has a three-digit status, a body of at most
    8192 bytes and a retry delay of at most a day. *)
Theorem parse_http_response_bounds bytes r :
  parse_http_response bytes = Ok r ->
  0 <= status r <= 999 /\ ssize (body r) <= 8192 /\ 0 <= retry_after r <= 86400.
Proof.
  unfold parse_http_response. destruct (_ <? _); [done|].
  destruct (find_sub _ _) as [split|]; [|done]. destruct (_ <? _); [done|].
  destruct (getlines _) as [|line lines]; [done|]. destruct (_ || _); [done|]. intros H.
  apply bind_Ok in H as (st & Hst & H). apply bind_Ok in H as (fields & _ & H).
  apply bind_Ok in H as (out & _ & H). destruct (_ <? _) eqn:El; [done|].
  apply bind_Ok in H as (retry & Hr & H). injection H as <-. cbn [status body retry_after].
  apply number_range in Hst as [Hst _]; [|lia].
  assert (length (take 3 (drop 9 line)) <= 3)%nat as Hlen by (rewrite length_take; lia).
  assert (10 ^ Z.of_nat (length (take 3 (drop 9 line))) <= 10 ^ 3) by (apply Z.pow_le_mono_r; lia).
  split; [lia|]. split; [rewrite ssize_chars, chars_str; b2p; lia|].
  unfold read_retry_after in Hr. destruct (_ !! _) as [text|]; [|injection Hr as <-; lia].
  apply bind_Ok in Hr as (v & Hv & Hr). apply number_range in Hv as [Hv _]; [|lia].
  destruct (_ <? _) eqn:E in Hr; [done|]. injection Hr as <-. b2p. lia.
Qed.
Definition sample_response : string :=
  http_text "HTTP!1.1 429 Slow down/Content-Length: 2/Retry-After: 60//ok".
Lemma parse_http_response_bounds_witness :
  parse_http_response sample_response = Ok (MkHttpResponse 429 "ok" 60) /\
  0 <= 429 <= 999 /\ ssize "ok" <= 8192 /\ 0 <= 60 <= 86400.
Proof.
  split; [vm_compute; reflexivity|].
  apply (parse_http_response_bounds sample_response (MkHttpResponse 429 "ok" 60)).
  vm_compute. reflexivity.
Defined.

(** A chunked body of at most 8192 bytes is reassembled: the chunks' data in order. *)
Theorem dechunk_roundtrip chunks :
  Forall chunk_ok chunks -> Z.of_nat (length (flat_map snd chunks)) <= 8192 ->
  dechunk (S (length (chunked chunks))) (chunked chunks) [] = Ok (flat_map snd chunks).
Proof.
  intros H Hlen. rewrite dechunk_chunks; [done|done| |done].
  assert (length chunks <= length (flat_map chunk_text chunks))%nat.
  { clear. induction chunks as [|c l IH]; [done|]. cbn [flat_map length].
    unfold chunk_text at 1. rewrite !length_app. change (length crlf) with 2%nat. lia. }
  unfold chunked. rewrite length_app. lia.
Qed.
Lemma dechunk_roundtrip_witness :
  dechunk 24 (chunked [(chars "3", chars "abc"); (chars "0a", chars "0123456789")]) []
  = Ok (chars "abc0123456789").
Proof.
  apply (dechunk_roundtrip [(chars "3", chars "abc"); (chars "0a", chars "0123456789")]).
  - repeat constructor; try (vm_compute; reflexivity); cbn; try lia; set_solver.
  - cbn. lia.
Defined.
