(* ===== verification/Identity.v ===== *)
(** * Service identity and metadata
    (include/tire_health/service_identity.hpp, src/runtime/application.cpp)

    The grammar of native identifiers and package versions, the service instance the native
    runtime reports, the metadata file in its two schemas, and the binding that is stored with
    a pending advisory request and read back after a restart. *)
From Stdlib Require Import ZArith Lia Bool Ascii String.
From stdpp Require Import gmap strings list.
From S2P Require Import Prelude Chars Sha256 Json JsonFacts Protocol.
Local Open Scope Z_scope.

(** ** service_identity.hpp *)

Record ServiceInstance := MkServiceInstance {
  service_id : string; subject_id : string; instance_index : Z; instance_id : string }.
#[export] Instance ServiceInstance_eq_dec : EqDecision ServiceInstance.
Proof. solve_decision. Defined.

Definition identifier_char (c : ascii) : bool :=
  alnum c || Ascii.eqb c "_" || Ascii.eqb c "." || Ascii.eqb c ":" || Ascii.eqb c "-".
Definition native_identifier (value : string) : bool :=
  negb (ssize value =? 0) && (ssize value <=? 128)
  && match front value with Some c => alnum c | None => false end
  && all_of identifier_char value.

(** The pieces between the occurrences of a character. *)
Fixpoint split_on (c : ascii) (l : list ascii) : list (list ascii) :=
  match l with
  | [] => [[]]
  | a :: l' =>
    match split_on c l' with
    | [] => [[a]]
    | p :: ps => if Ascii.eqb a c then [] :: p :: ps else (a :: p) :: ps
    end
  end.
(** The regular expression [0|[1-9][0-9]*]. *)
Definition decimal_match (l : list ascii) : bool :=
  match l with
  | [] => false
  | c :: l' => if Ascii.eqb c "0" then bool_decide (l' = [])
               else between "1" "9" c && forallb is_digit l'
  end.
(** Three of them between full stops: no alternative of the expression holds a full stop, so a
    match is a split at the full stops. *)
Definition version_match (value : string) : bool :=
  match split_on "." (chars value) with
  | [a; b; c] => decimal_match a && decimal_match b && decimal_match c
  | _ => false
  end.
Definition package_version (value : string) : bool := (ssize value <=? 32) && version_match value.
Definition native_instance_valid (value : ServiceInstance) : bool :=
  native_identifier (service_id value) && native_identifier (subject_id value)
  && native_identifier (instance_id value) && (instance_index value <=? 9007199254740991).
Definition native_identity_invalid : exn := InvalidArgument "NATIVE_IDENTITY_INVALID".
Definition service_instance_json (value : ServiceInstance) : res string :=
  if negb (native_instance_valid value) then Err native_identity_invalid
  else Ok (quoted "{'instanceId':'" +:+ instance_id value +:+ quoted "','instanceIndex':"
           +:+ to_string (instance_index value) +:+ quoted ",'serviceId':'" +:+ service_id value
           +:+ quoted "','subjectId':'" +:+ subject_id value +:+ quoted "'}").
Definition native_provenance_valid (instance : option ServiceInstance) (version legacy_digest : string) : bool :=
  match instance with
  | None => false
  | Some i => native_instance_valid i && package_version version && (ssize legacy_digest =? 0)
  end.

(** ** Metadata *)

Record Metadata := MkMetadata {
  unit_system_uid : string; unit_role : string; service_version : string;
  service_artifact_sha256 : string; vdp_contract_version : string; vdp_contract_sha256 : string;
  service_instance : option ServiceInstance }.
Record NativeServiceInputs := MkNative { native_version : string; native_instance : ServiceInstance }.

Definition schema_invalid : exn := InvalidArgument "METADATA_SCHEMA_INVALID".
Definition fields_invalid : exn := InvalidArgument "METADATA_FIELDS_INVALID".
(** [[A-Za-z0-9][A-Za-z0-9_.:-]{0,127}] *)
Definition identifier_match (value : string) : bool :=
  match chars value with
  | c :: l => alnum c && (Z.of_nat (length l) <=? 127) && forallb identifier_char l
  | [] => false
  end.
Definition role_known (role : string) : bool := String.eqb role "validation" || String.eqb role "production".
Definition role_name (role : string) : string :=
  if String.eqb role "validation" then "VALIDATION" else "PRODUCTION".
(** [value.object().size() != n || value.at("schemaVersion").integer() != v] *)
Definition schema_is (json : Json) (size version : Z) : res bool :=
  o ← object json;
  if negb (obj_size o =? size) then Ok false
  else v ← at_integer "schemaVersion" json; Ok (v =? version).

Definition parse_legacy_metadata (bytes : string) : res Metadata :=
  json ← parse_json bytes 8192;
  ok ← schema_is json 7 1;
  if negb ok then Err schema_invalid else
  uid ← at_string "unitSystemUid" json;
  role ← at_string "unitRole" json;
  version ← at_string "serviceVersion" json;
  artifact ← at_string "serviceArtifactSha256" json;
  vdp ← at_string "vdpContractVersion" json;
  digest ← at_string "vdpContractSha256" json;
  if negb (identifier_match uid) || negb (role_known role) || (32 <? ssize version)
     || (32 <? ssize vdp) || negb (version_match version) || negb (version_match vdp)
     || negb (is_sha256 artifact) || negb (is_sha256 digest)
  then Err fields_invalid
  else Ok (MkMetadata uid (role_name role) version artifact vdp digest None).

Definition parse_service_instance (value : Json) : res ServiceInstance :=
  o ← object value;
  if negb (obj_size o =? 4) then Err native_identity_invalid else
  index ← at_integer "instanceIndex" value;
  if index <? 0 then Err native_identity_invalid else
  service ← at_string "serviceId" value;
  subject ← at_string "subjectId" value;
  id ← at_string "instanceId" value;
  let instance := MkServiceInstance service subject index id in
  if native_instance_valid instance then Ok instance else Err native_identity_invalid.

(** The package release and the four variables of the environment. *)
Definition env_at (key : string) (environment : gmap string string) : res string :=
  of_option OutOfRange (environment !! key).
Definition release_invalid : exn := InvalidArgument "PACKAGE_RELEASE_INVALID".
Definition parse_service_inputs (bytes : string) (environment : gmap string string)
    : res NativeServiceInputs :=
  release ← parse_json bytes 1024;
  ok ← schema_is release 2 1;
  if negb ok then Err release_invalid else
  version ← at_string "serviceVersion" release;
  if negb (package_version version) then Err release_invalid else
  if negb (Nat.eqb (size environment) 4) then Err (InvalidArgument "NATIVE_IDENTITY_REQUIRED") else
  index ← env_at "AOS_INSTANCE_INDEX" environment;
  if (ssize index =? 0) || (16 <? ssize index)
     || ((1 <? ssize index) && bool_decide (front index = Some "0"%char))
     || negb (all_of is_digit index)
  then Err native_identity_invalid
  else
    item ← env_at "AOS_ITEM_ID" environment;
    subject ← env_at "AOS_SUBJECT_ID" environment;
    id ← env_at "AOS_INSTANCE_ID" environment;
    let instance := MkServiceInstance item subject (dec_value (chars index)) id in
    if native_instance_valid instance then Ok (MkNative version instance) else Err native_identity_invalid.

Definition parse_metadata (bytes : string) (native : NativeServiceInputs) : res Metadata :=
  json ← parse_json bytes 8192;
  ok ← schema_is json 5 2;
  if negb ok then Err schema_invalid else
  uid ← at_string "unitSystemUid" json;
  role ← at_string "unitRole" json;
  vdp ← at_string "vdpContractVersion" json;
  digest ← at_string "vdpContractSha256" json;
  if negb (native_identifier uid) || negb (role_known role) || negb (package_version vdp)
     || negb (is_sha256 digest) || negb (package_version (native_version native))
     || negb (native_instance_valid (native_instance native))
  then Err fields_invalid
  else Ok (MkMetadata uid (role_name role) (native_version native) "" vdp digest
             (Some (native_instance native))).

(** ** The binding *)

Definition parse_metadata_binding (value : Json) : res Metadata :=
  v ← at_integer "schemaVersion" value;
  if v =? 1 then c ← canonical value; parse_legacy_metadata c
  else
    ok ← schema_is value 7 2;
    if negb ok then Err (InvalidArgument "ADVISORY_PROVENANCE_INVALID") else
    version ← at_string "serviceVersion" value;
    si ← jat "serviceInstance" value;
    instance ← parse_service_instance si;
    o ← object value;
    let public_value := obj_erase "serviceInstance" (obj_erase "serviceVersion" o) in
    c ← canonical (JObject public_value);
    parse_metadata c (MkNative version instance).

Definition binding_fields (m : Metadata) : Object :=
  obj_of [("schemaVersion", JInt (match service_instance m with Some _ => 2 | None => 1 end));
          ("unitSystemUid", JString (unit_system_uid m));
          ("unitRole", JString (if String.eqb (unit_role m) "VALIDATION" then "validation" else "production"));
          ("serviceVersion", JString (service_version m));
          ("vdpContractVersion", JString (vdp_contract_version m));
          ("vdpContractSha256", JString (vdp_contract_sha256 m))]%string.
Definition metadata_binding (m : Metadata) : res Json :=
  if negb (String.eqb (unit_role m) "VALIDATION") && negb (String.eqb (unit_role m) "PRODUCTION")
  then Err fields_invalid
  else
    value ← match service_instance m with
            | Some i =>
              if negb (native_provenance_valid (service_instance m) (service_version m) (service_artifact_sha256 m))
              then Err native_identity_invalid
              else t ← service_instance_json i; j ← parse_json t 65536;
                   Ok (obj_emplace "serviceInstance" j (binding_fields m)).1
            | None => Ok (obj_emplace "serviceArtifactSha256" (JString (service_artifact_sha256 m))
                            (binding_fields m)).1
            end;
    _ ← parse_metadata_binding (JObject value);
    Ok (JObject value).

(** ** Command line and initial metadata *)

Record ApplicationInputs := MkInputs {
  metadata_file : string; ca_file : string; native : option NativeServiceInputs }.
(** [path::is_absolute()]; an empty path is relative. *)
Definition is_absolute (path : string) : bool := bool_decide (front path = Some "/"%char).
Definition arguments_invalid : exn := InvalidArgument "CONFIG_ARGUMENTS_INVALID".
(** The loop over [argv[1]], [argv[2]], ... *)
Fixpoint argument_pairs (argv : list string) (result : ApplicationInputs) : res ApplicationInputs :=
  match argv with
  | [] => Ok result
  | [_] => Err arguments_invalid
  | option :: value :: argv' =>
    if String.eqb option "--metadata-file" then
      if negb (ssize (metadata_file result) =? 0) then Err arguments_invalid
      else if negb (is_absolute value) then Err (InvalidArgument "CONFIG_PATH_INVALID")
      else argument_pairs argv' (MkInputs value (ca_file result) (native result))
    else if String.eqb option "--ca-file" then
      if negb (ssize (ca_file result) =? 0) then Err arguments_invalid
      else if negb (is_absolute value) then Err (InvalidArgument "CONFIG_PATH_INVALID")
      else argument_pairs argv' (MkInputs (metadata_file result) value (native result))
    else Err arguments_invalid
  end.
(** [argv] without the program's name. *)
Definition parse_arguments (argv : list string) : res ApplicationInputs :=
  result ← argument_pairs argv (MkInputs "" "" None);
  if (ssize (metadata_file result) =? 0) || (ssize (ca_file result) =? 0)
  then Err (InvalidArgument "CONFIG_INPUTS_REQUIRED") else Ok result.

Definition native_required : exn := InvalidArgument "NATIVE_IDENTITY_REQUIRED".
Definition runtime_metadata (inputs : ApplicationInputs) (bytes : string) : res Metadata :=
  n ← of_option native_required (native inputs); parse_metadata bytes n.
(** The reader of public files is the operating system's: [None] when the file is absent. *)
Definition initial_runtime_metadata (read_optional_public_file : string -> Z -> res (option string))
    (inputs : ApplicationInputs) : res (option Metadata) :=
  match native inputs with
  | None => Err native_required
  | Some _ =>
    b ← read_optional_public_file (metadata_file inputs) 8192;
    match b with
    | None => Ok None
    | Some bytes =>
      m ← runtime_metadata inputs bytes;
      ca ← read_optional_public_file (ca_file inputs) 65536;
      match ca with None => Ok None | Some _ => Ok (Some m) end
    end
  end.

(** The native identity of the environment; [getenv] is nothing for a variable that is not set,
    [release] what reading the package's release file gives. *)
Definition identity_keys : list string := ["AOS_ITEM_ID"; "AOS_SUBJECT_ID"; "AOS_INSTANCE_INDEX"; "AOS_INSTANCE_ID"]%string.
Fixpoint collect_environment (getenv : string -> option string) (keys : list string) (environment : gmap string string)
    : res (gmap string string) :=
  match keys with
  | [] => Ok environment
  | key :: keys' =>
    match getenv key with
    | None => Err native_required
    | Some value => if ssize value =? 0 then Err native_required
                    else collect_environment getenv keys' (<[key := value]> environment)
    end
  end.
Definition initialize_service_inputs (getenv : string -> option string) (release : res string) (inputs : ApplicationInputs)
    : res ApplicationInputs :=
  environment ← collect_environment getenv identity_keys ∅;
  bytes ← release;
  n ← parse_service_inputs bytes environment;
  Ok (MkInputs (metadata_file inputs) (ca_file inputs) (Some n)).

(** The test of the token's text in [read_private_token], after its file checks. *)
Definition private_token_text (t : string) : res string :=
  if (ssize t =? 0) || bool_decide (front t = Some "."%char) || bool_decide (back t = Some "."%char)
     || bool_decide (is_Some (find_sub (chars "..") (chars t)))
     || negb (count_char "." t =? 2) || negb (all_of token_char t)
  then Err (RuntimeError "KUKSA_AUTH_UNAVAILABLE") else Ok t.

(** ** Clocks *)

(** What clock_gettime gives: seconds and nanoseconds, or nothing. *)
Definition milliseconds (now : option (Z * Z)) : res Z :=
  match now with
  | None => Err (RuntimeError "CLOCK_UNAVAILABLE")
  | Some (tv_sec, tv_nsec) => Ok (tv_sec * 1000 + tv_nsec / 1000000)
  end.

(** ** The lease of a credential: wall seconds and boot milliseconds *)

Record Lease := MkLease { expires_wall : Z; expires_boot : Z; renew_boot : Z }.
Definition no_lease : Lease := MkLease 0 0 0.
Definition issued (c : Credential) (wall boot : Z) : Lease :=
  MkLease (expires c) (boot + (expires c - wall) * 1000) (boot + (renew_after c - wall) * 1000).
Definition expired (l : Lease) (wall boot : Z) : bool :=
  (expires_wall l =? 0) || (expires_wall l <=? wall) || (expires_boot l <=? boot).

(** ** The text of an identifier is its own JSON string *)

Lemma identifier_char_plain c :
  identifier_char c = true -> 45 <= code c <= 122 /\ escape c = [c].
Proof.
  unfold identifier_char, alnum, is_upper, is_lower, is_digit, between. intros H.
  change (code "0") with 48 in H. change (code "9") with 57 in H. change (code "a") with 97 in H.
  change (code "z") with 122 in H. change (code "A") with 65 in H. change (code "Z") with 90 in H.
  assert (Hc : 45 <= code c <= 122 /\ c <> "\"%char).
  { repeat (apply orb_true_iff in H as [H|H]);
      first [apply Ascii.eqb_eq in H as ->; split; [vm_compute; split; discriminate|done]
            |apply andb_true_iff in H as [H1 H2]; apply Z.leb_le in H1; apply Z.leb_le in H2;
             split; [lia|intros ->; change (code "\") with 92 in *; lia]]. }
  destruct Hc as [Hc Hb]. split; [done|]. unfold escape, quote_char.
  assert (Hne : forall n, 0 <= n < 45 -> Ascii.eqb c (chr n) = false).
  { intros n Hn. apply Ascii.eqb_neq. intros ->. rewrite code_chr in Hc; lia. }
  rewrite !Hne by lia. apply Ascii.eqb_neq in Hb. rewrite Hb. cbn [orb].
  by replace (code c <? 32) with false by lia.
Qed.
Lemma utf8_valid_ascii f l :
  (length l <= f)%nat -> Forall (fun c => code c < 128) l -> utf8_valid f l = true.
Proof.
  intros Hf H. revert f Hf. induction H as [|c l Hc _ IH]; intros f Hf; destruct f as [|f]; try done.
  - cbn in Hf. lia.
  - cbn [utf8_valid]. unfold utf8_step. replace (code c <? 128) with true by lia.
    apply IH. cbn in Hf. lia.
Qed.
Lemma quote_identifier s :
  all_of identifier_char s = true -> quote_json s = Ok (str (quote_char :: chars s ++ [quote_char])).
Proof.
  unfold all_of, quote_json, validate_utf8. rewrite forallb_forall. intros H.
  rewrite utf8_valid_ascii; [|done|].
  - do 3 f_equal. f_equal. induction (chars s) as [|c l IH]; [done|]. cbn [flat_map].
    rewrite IH; [|intros x Hx; apply H; by right].
    destruct (identifier_char_plain c) as [_ ->]; [apply H; by left|]. done.
  - apply List.Forall_forall. intros c Hc. destruct (identifier_char_plain c); [by apply H|lia].
Qed.

Definition instance_object (i : ServiceInstance) : Object :=
  [("instanceId", JString (instance_id i)); ("instanceIndex", JInt (instance_index i));
   ("serviceId", JString (service_id i)); ("subjectId", JString (subject_id i))]%string.
Lemma comma_long r : 1 < ssize r -> comma r = r +:+ ",".
Proof. unfold comma. intros H. by replace (1 <? ssize r) with true by lia. Qed.
Lemma all_of_impl (p q : ascii -> bool) s :
  (forall c, p c = true -> q c = true) -> all_of p s = true -> all_of q s = true.
Proof. unfold all_of. rewrite !forallb_forall. auto. Qed.
Lemma entry_plain k x c :
  all_of identifier_char k = true -> canonical x = Ok c ->
  entry_text k x = Ok (str (quote_char :: chars k ++ quote_char :: ":"%char :: chars c)).
Proof.
  intros Hk Hc. unfold entry_text.
  rewrite (all_of_impl identifier_char _ k), quote_identifier, Hc; [|done| |done].
  - cbn [negb mbind res_mbind]. f_equal. apply chars_inj. rewrite !chars_app, !chars_str.
    cbn [app]. by rewrite <- app_assoc.
  - intros a Ha. apply identifier_char_plain in Ha as [Ha _]. lia.
Qed.
Lemma native_identifier_chars s : native_identifier s = true -> all_of identifier_char s = true.
Proof. unfold native_identifier. intros H. b2p. done. Qed.
Lemma native_instance_chars i :
  native_instance_valid i = true ->
  all_of identifier_char (service_id i) = true /\ all_of identifier_char (subject_id i) = true /\
  all_of identifier_char (instance_id i) = true /\ instance_index i <= maximum_integer.
Proof.
  unfold native_instance_valid. intros H. b2p. split_and!; by try apply native_identifier_chars.
Qed.
Lemma ssize_str l : ssize (str l) = Z.of_nat (length l).
Proof. by rewrite ssize_chars, chars_str. Qed.
(** Entries of plain text, after the first. *)
Lemma entries_plain k x c o r :
  all_of identifier_char k = true -> canonical x = Ok c -> 1 < ssize r ->
  entries ((k, x) :: o) r =
  entries o (r +:+ str (","%char :: quote_char :: chars k ++ quote_char :: ":"%char :: chars c)).
Proof.
  intros Hk Hc Hr. cbn [entries]. rewrite (entry_plain _ _ c) by done. cbn [mbind res_mbind].
  rewrite comma_long by done. f_equal. apply chars_inj. by rewrite !chars_app, !chars_str, <- app_assoc.
Qed.
Lemma entries_first k x c o :
  all_of identifier_char k = true -> canonical x = Ok c ->
  entries ((k, x) :: o) "{" =
  entries o ("{" +:+ str (quote_char :: chars k ++ quote_char :: ":"%char :: chars c)).
Proof. intros Hk Hc. cbn [entries]. by rewrite (entry_plain _ _ c). Qed.
Lemma service_instance_json_canonical i :
  native_instance_valid i = true -> 0 <= instance_index i ->
  service_instance_json i = canonical (JObject (instance_object i)).
Proof.
  intros Hv Hn. unfold service_instance_json. rewrite Hv. cbn [negb].
  apply native_instance_chars in Hv as (H1 & H2 & H3 & H4).
  rewrite canonical_object. unfold instance_object.
  rewrite (entries_first _ _ (str (quote_char :: chars (instance_id i) ++ [quote_char])));
    [|reflexivity|by apply quote_identifier].
  rewrite (entries_plain _ (JInt _) (to_string (instance_index i)));
    [|reflexivity| |rewrite !ssize_app, !ssize_str; change (ssize "{") with 1; cbn [length]; lia].
  2: { cbn [canonical]. unfold maximum_integer in *.
       by replace (_ || _) with false by lia. }
  rewrite (entries_plain _ _ (str (quote_char :: chars (service_id i) ++ [quote_char])));
    [|reflexivity|by apply quote_identifier|rewrite !ssize_app, !ssize_str; change (ssize "{") with 1; cbn [length]; lia].
  rewrite (entries_plain _ _ (str (quote_char :: chars (subject_id i) ++ [quote_char])));
    [|reflexivity|by apply quote_identifier|rewrite !ssize_app, !ssize_str; change (ssize "{") with 1; cbn [length]; lia].
  cbn [entries mbind res_mbind]. f_equal. apply chars_inj. unfold quoted.
  rewrite !chars_app, !chars_str. cbn. repeat (rewrite <- ?app_assoc; cbn [app]; f_equal).
Qed.

(** ** The binding *)

Lemma reparsed v c limit j :
  wf v -> depth v <= maximum_depth -> canonical v = Ok c -> parse_json c limit = Ok j -> j = v.
Proof.
  unfold parse_json. intros Hw Hd Hc Hp. destruct (_ <? _); [done|].
  rewrite (parse_canonical v c) in Hp by done. congruence.
Qed.
Lemma wf_flat o :
  obj_sorted o -> Forall (fun kv => match kv.2 with JObject _ | JArray _ => False | _ => True end) o ->
  wf (JObject o).
Proof.
  intros Hs H. apply wf_object. split; [done|]. eapply Forall_impl; [exact H|].
  intros [k []]; done.
Qed.
Ltac sorted_keys := repeat constructor; vm_compute; reflexivity.

Definition role_text (m : Metadata) : string :=
  if String.eqb (unit_role m) "VALIDATION" then "validation" else "production".
Lemma role_text_name m :
  unit_role m = "VALIDATION"%string \/ unit_role m = "PRODUCTION"%string -> role_name (role_text m) = unit_role m.
Proof. unfold role_text. by intros [-> | ->]. Qed.
Definition legacy_object (m : Metadata) : Object :=
  [("schemaVersion", JInt 1); ("serviceArtifactSha256", JString (service_artifact_sha256 m));
   ("serviceVersion", JString (service_version m)); ("unitRole", JString (role_text m));
   ("unitSystemUid", JString (unit_system_uid m));
   ("vdpContractSha256", JString (vdp_contract_sha256 m));
   ("vdpContractVersion", JString (vdp_contract_version m))]%string.
Definition public_object (m : Metadata) : Object :=
  [("schemaVersion", JInt 2); ("unitRole", JString (role_text m));
   ("unitSystemUid", JString (unit_system_uid m));
   ("vdpContractSha256", JString (vdp_contract_sha256 m));
   ("vdpContractVersion", JString (vdp_contract_version m))]%string.
Definition native_object (m : Metadata) (i : ServiceInstance) : Object :=
  [("schemaVersion", JInt 2); ("serviceInstance", JObject (instance_object i));
   ("serviceVersion", JString (service_version m)); ("unitRole", JString (role_text m));
   ("unitSystemUid", JString (unit_system_uid m));
   ("vdpContractSha256", JString (vdp_contract_sha256 m));
   ("vdpContractVersion", JString (vdp_contract_version m))]%string.

Lemma legacy_fields c m m' :
  parse_legacy_metadata c = Ok m' -> canonical (JObject (legacy_object m)) = Ok c ->
  unit_role m = "VALIDATION"%string \/ unit_role m = "PRODUCTION"%string ->
  service_instance m = None -> m' = m.
Proof.
  intros H Hc Hr Hs. unfold parse_legacy_metadata in H.
  apply bind_Ok in H as (json & Hj & H). apply (reparsed (JObject (legacy_object m))) in Hj as ->; [|
    apply wf_flat; [sorted_keys|by repeat constructor]|discriminate|done].
  cbn [schema_is at_string at_integer jat object obj_at obj_find legacy_object of_option mbind
    res_mbind jstring integer obj_size length String.eqb Ascii.eqb Bool.eqb negb] in H.
  cbn in H. destruct (_ || _); [done|]. injection H as <-.
  rewrite role_text_name by done. destruct m. cbn in *. by subst.
Qed.
Lemma native_fields c m m' n :
  parse_metadata c n = Ok m' -> canonical (JObject (public_object m)) = Ok c ->
  unit_role m = "VALIDATION"%string \/ unit_role m = "PRODUCTION"%string ->
  service_instance m = Some (native_instance n) -> service_version m = native_version n ->
  service_artifact_sha256 m = ""%string -> m' = m.
Proof.
  intros H Hc Hr Hs Hv Ha. unfold parse_metadata in H.
  apply bind_Ok in H as (json & Hj & H). apply (reparsed (JObject (public_object m))) in Hj as ->; [|
    apply wf_flat; [sorted_keys|by repeat constructor]|discriminate|done].
  cbn in H. destruct (_ || _); [done|]. injection H as <-.
  rewrite role_text_name by done. destruct m. cbn in *. by subst.
Qed.
Lemma parse_instance_object i :
  native_instance_valid i = true -> 0 <= instance_index i ->
  parse_service_instance (JObject (instance_object i)) = Ok i.
Proof.
  intros Hv Hn. unfold parse_service_instance. cbn -[native_instance_valid Z.ltb].
  replace (instance_index i <? 0) with false by lia. destruct i. cbn [service_id subject_id instance_index instance_id]. by rewrite Hv.
Qed.

(** ** Properties *)

(** The instance index is an unsigned machine integer. *)
Definition index_nonneg (m : Metadata) : Prop :=
  match service_instance m with Some i => 0 <= instance_index i | None => True end.

(** What reading the environment and the metadata gives. *)
Lemma parse_service_inputs_index bytes environment n :
  parse_service_inputs bytes environment = Ok n -> 0 <= instance_index (native_instance n).
Proof.
  unfold parse_service_inputs. intros H. apply bind_Ok in H as (release & _ & H). apply bind_Ok in H as (ok & _ & H).
  destruct (negb ok); [done|]. apply bind_Ok in H as (v & _ & H). destruct (negb _); [done|].
  destruct (negb _); [done|]. apply bind_Ok in H as (index & _ & H). destruct (_ || _) eqn:E; [done|].
  apply orb_false_iff in E as [_ E]. apply negb_false_iff in E. unfold all_of in E. rewrite forallb_forall in E.
  apply bind_Ok in H as (item & _ & H). apply bind_Ok in H as (subject & _ & H). apply bind_Ok in H as (id & _ & H).
  cbv zeta in H. destruct (native_instance_valid _); [|done]. apply Ok_inj in H as <-.
  change (0 <= dec_value (chars index)). revert E. generalize (chars index) as l. clear. intros l.
  induction l as [|c l IH] using rev_ind; intros H; [done|]. rewrite dec_value_snoc.
  assert (0 <= dec_value l) by (apply IH; intros x Hx; apply H, in_or_app; by left).
  assert (Hc : is_digit c = true) by (apply H, in_or_app; right; by left). apply is_digit_code in Hc.
  unfold digit_value. lia.
Qed.
Lemma parse_metadata_instance bytes n m : parse_metadata bytes n = Ok m -> service_instance m = Some (native_instance n).
Proof.
  unfold parse_metadata. intros H. apply bind_Ok in H as (j & _ & H). apply bind_Ok in H as (ok & _ & H). destruct (negb ok); [done|].
  apply bind_Ok in H as (uid & _ & H). apply bind_Ok in H as (role & _ & H). apply bind_Ok in H as (v & _ & H).
  apply bind_Ok in H as (d & _ & H). destruct (_ || _); [done|]. by apply Ok_inj in H as <-.
Qed.
Definition native_nonneg (inputs : ApplicationInputs) : Prop :=
  forall n, native inputs = Some n -> 0 <= instance_index (native_instance n).
Lemma initialized_nonneg getenv release inputs inputs' :
  initialize_service_inputs getenv release inputs = Ok inputs' -> native_nonneg inputs'.
Proof.
  unfold initialize_service_inputs. intros H. apply bind_Ok in H as (e & _ & H). apply bind_Ok in H as (b & _ & H).
  apply bind_Ok in H as (n & Hn & H). apply Ok_inj in H as <-. intros n' [= <-]. by eapply parse_service_inputs_index.
Qed.
Lemma runtime_metadata_nonneg inputs bytes m : native_nonneg inputs -> runtime_metadata inputs bytes = Ok m -> index_nonneg m.
Proof.
  unfold runtime_metadata. intros Hn H. apply bind_Ok in H as (n & H1 & H2). apply of_option_Ok in H1.
  unfold index_nonneg. rewrite (parse_metadata_instance _ _ _ H2). by apply Hn.
Qed.

(** A clock that does not go back does not go back in milliseconds. *)
Lemma milliseconds_monotone s1 n1 s2 n2 a b :
  0 <= n1 < 1000000000 -> 0 <= n2 < 1000000000 -> s1 < s2 \/ (s1 = s2 /\ n1 <= n2) ->
  milliseconds (Some (s1, n1)) = Ok a -> milliseconds (Some (s2, n2)) = Ok b -> a <= b.
Proof.
  intros H1 H2 H [= <-] [= <-]. assert (0 <= n1 / 1000000 < 1000) by (split; [apply Z.div_pos|apply Z.div_lt_upper_bound]; lia).
  assert (0 <= n2 / 1000000) by (apply Z.div_pos; lia). destruct H as [H|[-> H]]; [lia|].
  pose proof (Z.div_le_mono n1 n2 1000000). lia.
Qed.

(** The binding stored with a pending request is lossless: what [metadata_binding] returns
    is read back by [parse_metadata_binding] as the same metadata, in both schemas. *)
Theorem metadata_binding_roundtrip m j :
  index_nonneg m -> metadata_binding m = Ok j -> parse_metadata_binding j = Ok m.
Proof.
  unfold metadata_binding, index_nonneg. intros Hn H.
  destruct (_ && _) eqn:Er; [done|].
  assert (Hr : unit_role m = "VALIDATION"%string \/ unit_role m = "PRODUCTION"%string).
  { apply andb_false_iff in Er. rewrite !negb_false_iff, !String.eqb_eq in Er. done. }
  clear Er. apply bind_Ok in H as (value & Hv & H). apply bind_Ok in H as (m' & Hm & [= <-]).
  rewrite Hm. f_equal. destruct (service_instance m) as [i|] eqn:Hi.
  - unfold native_provenance_valid in Hv. destruct (_ && _) eqn:Ep; [|done]. cbn [negb] in Hv.
    apply andb_true_iff in Ep as [[Hiv Hpv]%andb_true_iff Ha%Z.eqb_eq].
    apply bind_Ok in Hv as (t & Ht & Hv). apply bind_Ok in Hv as (si & Hsi & [= Hv]).
    rewrite service_instance_json_canonical in Ht by done.
    apply (reparsed (JObject (instance_object i))) in Hsi as ->; [|
      apply wf_flat; [sorted_keys|by repeat constructor]|discriminate|done].
    assert (value = native_object m i) as ->.
    { rewrite <- Hv. unfold binding_fields. rewrite Hi. reflexivity. }
    unfold parse_metadata_binding in Hm.
    change (at_integer "schemaVersion" (JObject (native_object m i))) with (Ok 2) in Hm.
    change (schema_is (JObject (native_object m i)) 7 2) with (Ok true) in Hm.
    change (at_string "serviceVersion" (JObject (native_object m i))) with (Ok (service_version m)) in Hm.
    change (jat "serviceInstance" (JObject (native_object m i))) with (Ok (JObject (instance_object i))) in Hm.
    cbn [mbind res_mbind Z.eqb Pos.eqb negb] in Hm. rewrite parse_instance_object in Hm by done.
    cbn [mbind res_mbind object] in Hm. apply bind_Ok in Hm as (c & Hc & Hm).
    eapply native_fields; [exact Hm|exact Hc|done..|].
    destruct (service_artifact_sha256 m); [done|]. by unfold ssize in Ha.
  - injection Hv as Hv. assert (value = legacy_object m) as ->.
    { rewrite <- Hv. unfold binding_fields. rewrite Hi. reflexivity. }
    unfold parse_metadata_binding in Hm.
    change (at_integer "schemaVersion" (JObject (legacy_object m))) with (Ok 1) in Hm.
    cbn [mbind res_mbind Z.eqb Pos.eqb] in Hm. apply bind_Ok in Hm as (c & Hc & Hm).
    eapply legacy_fields; [exact Hm|exact Hc|done..].
Qed.
Definition sample_instance : ServiceInstance := MkServiceInstance "tire" "subject-1" 0 "i:7".
Definition sample_metadata : Metadata :=
  MkMetadata "unit-1" "VALIDATION" "1.2.3" "" "1.0.0" (sha256_hex "contract") (Some sample_instance).
Lemma metadata_binding_roundtrip_witness :
  exists j, metadata_binding sample_metadata = Ok j /\ parse_metadata_binding j = Ok sample_metadata.
Proof.
  destruct (metadata_binding sample_metadata) as [j|] eqn:E; [|exfalso; vm_compute in E; discriminate].
  exists j. split; [done|]. apply metadata_binding_roundtrip; [cbn; lia|exact E].
Defined.

(** A lease ends no later than the boot clock says, whatever the wall clock does after it
    was issued, and it is live at the moment it is issued for a credential the parser accepted. *)
Theorem lease_deadline c wall boot wall' boot' :
  0 <= wall < renew_after c -> renew_after c + 120 = expires c -> expires c <= wall + 300 ->
  let l := issued c wall boot in
  expired l wall boot = false /\ renew_boot l = expires_boot l - 120000 /\
  (boot + 300000 <= boot' -> expired l wall' boot' = true) /\
  (expired l wall' boot' = false -> wall' < expires c /\ boot' - boot < (expires c - wall) * 1000).
Proof.
  intros Hw He Hx. cbn zeta. unfold expired, issued.
  cbn [expires_wall expires_boot renew_boot].
  split_and!; [lia..| |]; intros H; [lia|]. b2p. lia.
Qed.
Lemma lease_deadline_witness :
  let c := MkCredential "a.b.c" 1300 1180 "" false in
  expired (issued c 1000 5000) 1000 5000 = false.
Proof. cbn zeta. apply (lease_deadline (MkCredential "a.b.c" 1300 1180 "" false) 1000 5000 0 0); cbn; lia. Defined.
