(* ===== verification/Model.v ===== *)
(** * The condition model (src/model.cpp, include/tire_health/model.hpp)

    [assess] turns the features of an exercise into a score and moves the condition band with
    hysteresis; [ingest] and [abort] are the engine that cuts the stream of telemetry frames
    into exercises; [extract_features] reduces an exercise to four ratios. *)
From Stdlib Require Import ZArith Lia Bool Ascii String Sorted.
From stdpp Require Import gmap strings list.
From S2P Require Import Prelude Chars Uuid Float64 Protocol.
Local Open Scope Z_scope.

(** ** Bands *)

Inductive Band := NotEvaluated | Good | Inspection | Replacement.
#[export] Instance Band_eq_dec : EqDecision Band.
Proof. solve_decision. Defined.
(** The value of the enumerator; bands compare by it. *)
Definition band_value (b : Band) : Z :=
  match b with NotEvaluated => -1 | Good => 0 | Inspection => 1 | Replacement => 2 end.
Definition band_name (b : Band) : string :=
  match b with
  | NotEvaluated => "NOT_EVALUATED" | Good => "GOOD"
  | Inspection => "INSPECTION_RECOMMENDED" | Replacement => "REPLACEMENT_RECOMMENDED"
  end.
Definition parse_band (name : string) : res Band :=
  of_option (InvalidArgument "BAND_INVALID")
    (List.find (fun b => String.eqb name (band_name b)) [NotEvaluated; Good; Inspection; Replacement]).
Definition band_eqb (a b : Band) : bool := bool_decide (a = b).
Definition band_gtb (a b : Band) : bool := band_value b <? band_value a.

(** ** Assessment *)

Record Features := MkFeatures { longitudinal : Z; lateral : Z; dispersion : Z; persistence : Z }.
Record Assessment := MkAssessment {
  features : Features; samples : Z; load : Z; score : Z; confidence : Z;
  previous_band : Band; current_band : Band; changed : bool }.
Record ModelState := MkModelState {
  band : Band; better : Band; last_score : Z; last_confidence : Z; better_count : Z;
  last_source : string; last_assessment : string; recent : list string }.
Definition initial_model : ModelState := MkModelState NotEvaluated NotEvaluated 0 0 0 "" "" [].

Definition load_of (f : Features) : Z :=
  (30 * longitudinal f + 30 * lateral f + 20 * dispersion f + 20 * persistence f + 50) / 100.
Definition score_of (load : Z) : Z := 100 - (load + 50) / 100.
Definition confidence_of (samples : Z) : Z := Z.min 100 ((samples * 100 + 20) / 40).
Definition raw_band (score : Z) : Band :=
  if 70 <=? score then Good else if 40 <=? score then Inspection else Replacement.
(** The band and the pending better band with its count, after a raw band. *)
Definition next_band (raw : Band) (state : ModelState) : Band * Band * Z :=
  if band_eqb (band state) NotEvaluated || band_gtb raw (band state) then (raw, NotEvaluated, 0)
  else if band_gtb (band state) raw then
    let '(bt, count) := if negb (band_eqb (better state) raw) then (raw, 1)
                        else (better state, better_count state + 1) in
    if 3 <=? count then (raw, NotEvaluated, 0) else (band state, bt, count)
  else (band state, NotEvaluated, 0).
(** [push_back], and the oldest entry goes when there are more than 128. *)
Definition remember (source : string) (recent : list string) : list string :=
  let r := recent ++ [source] in if 128 <? Z.of_nat (length r) then tail r else r.
Definition features_bad (f : Features) : bool :=
  existsb (fun n => (n <? 0) || (10000 <? n)) [longitudinal f; lateral f; dispersion f; persistence f].
Definition assess (state : ModelState) (f : Features) (samples : Z) (source : string)
    : ModelState * option Assessment :=
  if (samples <? 20) || (120 <? samples) || negb (is_uuid source) then (state, None)
  else if features_bad f then (state, None)
  else if find_string source (recent state) then (state, None)
  else
    let load := load_of f in
    let score := score_of load in
    let confidence := confidence_of samples in
    let '(band', better', count') := next_band (raw_band score) state in
    (MkModelState band' better' score confidence count' source (last_assessment state)
       (remember source (recent state)),
     Some (MkAssessment f samples load score confidence (band state) band'
             (negb (band_eqb (band state) band')))).

(** ** Exercises *)

Record Episode := MkEpisode {
  ep_id : string; started : Z; ended : Z; ep_samples : list Frame; terminal : string }.
Record Engine := MkEngine {
  current : option Episode; activation : Z; clear : Z; previous : Z; retained : Z; suppressed : bool }.
Definition initial_engine : Engine := MkEngine None (-1) (-1) (-1) (-1) false.

Definition set_terminal (reason : string) (e : Episode) : Episode :=
  MkEpisode (ep_id e) (started e) (ended e) (ep_samples e) reason.
Definition abort (reason : string) (s : Engine) : Engine * option Episode :=
  (initial_engine, set_terminal reason <$> current s).

(** [f.values[i]] *)
Definition value_at (f : Frame) (i : nat) : double := nth i (frame_values f) zero.
Definition frame_finite (f : Frame) : bool := forallb isfinite (frame_values f).
Definition activating (f : Frame) : bool :=
  fle (of_int 12) (value_at f 0) && fle (of_int 3) (fabs (value_at f 2)).
Definition clearing (f : Frame) : bool :=
  fle (value_at f 0) (of_int 5) || fle (fabs (value_at f 2)) (of_int 1).
(** Whether the vehicle has been clear of the exercise for a second. *)
Definition cleared (clear t : Z) : bool := (0 <=? clear) && (1000 <=? t - clear).

(** The frame joins the open exercise, which may end with it. *)
Definition continue_episode (f : Frame) (e : Episode) (activation clear retained : Z)
    : Engine * option Episode :=
  let t := frame_epoch f in
  let keep := ((retained <? 0) || (100 <=? t - retained)) && (Z.of_nat (length (ep_samples e)) <? 120) in
  let e := MkEpisode (ep_id e) (started e) t (if keep then ep_samples e ++ [f] else ep_samples e) (terminal e) in
  let retained := if keep then t else retained in
  let maximum := 12000 <=? t - started e in
  if maximum || cleared clear t
  then (MkEngine None (-1) clear t retained maximum,
        Some (set_terminal (if maximum then "TRUNCATED_MAX_DURATION" else "COMPLETE") e))
  else (MkEngine (Some e) activation clear t retained false, None).
(** A frame with a new epoch within the gap limit: the part of [ingest] after [previous_] is
    set.  [uuid] is the next value of the identifier source, which may throw. *)
Definition ingest_frame (uuid : res string) (f : Frame) (s : Engine) : Engine * res (option Episode) :=
  let t := frame_epoch f in
  let clear := if clearing f then (if clear s <? 0 then t else clear s) else -1 in
  if suppressed s then
    if cleared clear t then (MkEngine (current s) (-1) clear t (retained s) false, Ok None)
    else (MkEngine (current s) (activation s) clear t (retained s) true, Ok None)
  else
    match current s with
    | Some e =>
      let '(s', out) := continue_episode f e (activation s) clear (retained s) in (s', Ok out)
    | None =>
      if negb (activating f) then (MkEngine None (-1) clear t (retained s) false, Ok None)
      else
        let activation := if activation s <? 0 then t else activation s in
        if t - activation <? 500 then (MkEngine None activation clear t (retained s) false, Ok None)
        else
          match uuid with
          | Err e => (MkEngine None activation clear t (retained s) false, Err e)
          | Ok id =>
            let '(s', out) := continue_episode f (MkEpisode id t t [] "") activation clear (-1) in
            (s', Ok out)
          end
    end.
Definition ingest (uuid : res string) (f : Frame) (s : Engine) : Engine * res (option Episode) :=
  let t := frame_epoch f in
  if negb (frame_finite f) then let '(s', out) := abort "INCOMPLETE_SOURCE_GAP" s in (s', Ok out)
  else if (0 <=? previous s) && (t =? previous s) then (s, Ok None)
  else if (0 <=? previous s) && ((t <? previous s) || (250 <? t - previous s)) then
    let '(s', out) := abort "INCOMPLETE_SOURCE_GAP" s in
    (MkEngine (current s') (activation s') (clear s') t (retained s') (suppressed s'), Ok out)
  else ingest_frame uuid f s.

(** ** Features of an exercise *)

Definition decimal (m e : Z) : double := of_decimal false m e.
(** [*minmax_element(...).first] and [.second] of a non-empty range. *)
Definition min_of (l : list double) : double := fold_left fmin (tail l) (nth 0 l zero).
Definition max_of (l : list double) : double :=
  fold_left (fun a b => if flt b a then a else b) (tail l) (nth 0 l zero).
Record Extraction := MkExtraction {
  x_longitudinal : double; x_lateral : double; x_dispersion : double; x_slipping : Z; x_previous : Z }.
Definition slice (lo n : nat) (f : Frame) : list double := take n (drop lo (frame_values f)).
Definition frame_accepted (e : Episode) (previous : Z) (f : Frame) : bool :=
  (previous <? frame_epoch f) && (started e <=? frame_epoch f) && (frame_epoch f <=? ended e)
  && frame_finite f && negb (flt (value_at f 0) zero) && negb (flt (min_of (slice 3 4 f)) zero).
Definition frame_slips (f : Frame) : bool :=
  existsb (fun v => fle (decimal 8 (-2)) (fabs v)) (slice 7 4 f)
  || existsb (fun v => fle (of_int 4) (fabs v)) (slice 11 4 f).
Definition extract_frame (f : Frame) (x : Extraction) : Extraction :=
  let lo := min_of (slice 3 4 f) in let hi := max_of (slice 3 4 f) in
  MkExtraction
    (fold_left (fun a v => fmax a (fabs v)) (slice 7 4 f) (x_longitudinal x))
    (fold_left (fun a v => fmax a (fabs v)) (slice 11 4 f) (x_lateral x))
    (fmax (x_dispersion x) (fdiv (fsub hi lo) (fmax hi (of_int 5))))
    (x_slipping x + (if frame_slips f then 1 else 0)) (frame_epoch f).
(** The loop over the samples; [None] is its early return. *)
Fixpoint extract_samples (e : Episode) (l : list Frame) (x : Extraction) : option Extraction :=
  match l with
  | [] => Some x
  | f :: l' => if frame_accepted e (x_previous x) f then extract_samples e l' (extract_frame f x) else None
  end.
Definition bps (value normalization : double) : Z :=
  floor_int (fadd (fmul (fmin (of_int 1) (fdiv value normalization)) (of_int 10000)) (decimal 5 (-1))).
Definition extract_features (e : Episode) : option Features :=
  let count := Z.of_nat (length (ep_samples e)) in
  if (negb (String.eqb (terminal e) "COMPLETE") && negb (String.eqb (terminal e) "TRUNCATED_MAX_DURATION"))
     || (count <? 20) || (120 <? count) then None
  else
    match extract_samples e (ep_samples e) (MkExtraction zero zero zero 0 (-1)) with
    | None => None
    | Some x =>
      Some (MkFeatures (bps (x_longitudinal x) (decimal 2 (-1))) (bps (x_lateral x) (of_int 8))
              (bps (x_dispersion x) (decimal 15 (-2)))
              ((x_slipping x * 10000 + count / 2) / count))
    end.

(** ** Assessment: lemmas *)

Lemma band_value_inj a b : band_value a = band_value b -> a = b.
Proof. by destruct a, b. Qed.
Lemma band_eqb_eq a b : band_eqb a b = true <-> a = b.
Proof. unfold band_eqb. apply bool_decide_eq_true. Qed.
Lemma assess_Some st f n src st' a :
  assess st f n src = (st', Some a) ->
  20 <= n <= 120 /\ is_uuid src = true /\ features_bad f = false /\
  find_string src (recent st) = false /\
  features a = f /\ samples a = n /\ load a = load_of f /\ score a = score_of (load_of f) /\
  confidence a = confidence_of n /\ previous_band a = band st /\ current_band a = band st' /\
  changed a = negb (band_eqb (band st) (band st')) /\
  (band st', better st', better_count st') = next_band (raw_band (score a)) st /\
  recent st' = remember src (recent st) /\ last_source st' = src /\
  last_assessment st' = last_assessment st /\ last_score st' = score a /\ last_confidence st' = confidence a.
Proof.
  unfold assess. destruct (_ || _) eqn:E1; [done|]. destruct (features_bad f); [done|].
  destruct (find_string _ _); [done|]. cbn zeta. destruct (next_band _ _) as [[b bt] c] eqn:En.
  intros H. injection H as <- <-. cbn -[raw_band score_of load_of confidence_of next_band remember].
  b2p. split_and!; try done; lia.
Qed.
Lemma features_bad_false f :
  features_bad f = false -> 0 <= longitudinal f <= 10000 /\ 0 <= lateral f <= 10000 /\
    0 <= dispersion f <= 10000 /\ 0 <= persistence f <= 10000.
Proof. unfold features_bad. cbn [existsb]. intros H. b2p. lia. Qed.

(** The state of the pending better band: a count below three of a band better than the current. *)
Definition model_ok (st : ModelState) : Prop :=
  (better st = NotEvaluated /\ better_count st = 0) \/
  (better st <> NotEvaluated /\ band_value (better st) < band_value (band st) /\
   1 <= better_count st <= 2).
(** The raw bands seen end with [n] times [b]. *)
Definition ends_with (b : Band) (n : Z) (h : list Band) : Prop :=
  exists h', h = h' ++ replicate (Z.to_nat n) b.
Lemma ends_with_snoc b n h : 0 <= n -> ends_with b n h -> ends_with b (n + 1) (h ++ [b]).
Proof.
  intros Hn (h' & ->). exists h'. replace (Z.to_nat (n + 1)) with (S (Z.to_nat n)) by lia.
  rewrite <- app_assoc. by rewrite <- (replicate_cons_app (Z.to_nat n) b).
Qed.
(** States of the model a sequence of assessments reaches, with the raw bands it saw. *)
Inductive model_reached : ModelState -> list Band -> Prop :=
  | reached_initial : model_reached initial_model []
  | reached_assess st h f n src st' a :
      model_reached st h -> assess st f n src = (st', Some a) ->
      model_reached st' (h ++ [raw_band (score a)]).

Lemma raw_band_evaluated s : raw_band s <> NotEvaluated.
Proof. unfold raw_band. by repeat case_code. Qed.
Lemma next_band_ok raw st h b bt c :
  raw <> NotEvaluated -> model_ok st ->
  (better st <> NotEvaluated -> ends_with (better st) (better_count st) h) ->
  next_band raw st = (b, bt, c) ->
  (band_value b < band_value (band st) -> band st <> NotEvaluated -> ends_with b 3 (h ++ [raw])) /\
  ((bt = NotEvaluated /\ c = 0) \/
   (bt <> NotEvaluated /\ band_value bt < band_value b /\ 1 <= c <= 2)) /\
  (bt <> NotEvaluated -> ends_with bt c (h ++ [raw])).
Proof.
  intros Hraw Hok Hh. unfold next_band, band_gtb, model_ok in *.
  destruct (band_eqb (band st) NotEvaluated || (band_value (band st) <? band_value raw)) eqn:E1.
  { intros [= <- <- <-]. split_and!; [|by left|done].
    apply orb_true_iff in E1 as [E1%band_eqb_eq|E1]; [done|b2p; lia]. }
  destruct (band_value raw <? band_value (band st)) eqn:E2;
    [|intros [= <- <- <-]; split_and!; [lia|by left|done]].
  destruct (band_eqb (better st) raw) eqn:E3; cbn [negb]; b2p.
  - apply band_eqb_eq in E3 as <-. destruct Hok as [[? ?]|(_ & ? & ?)]; [done|].
    pose proof (ends_with_snoc (better st) (better_count st) h ltac:(lia) (Hh Hraw)) as He.
    destruct (3 <=? better_count st + 1) eqn:E4; intros [= <- <- <-]; b2p.
    + replace (better_count st + 1) with 3 in He by lia. split_and!; [done|by left|done].
    + split_and!; [lia|right; split_and!; (done || lia)|done].
  - intros [= <- <- <-]. split_and!; [lia|right; split_and!; (done || lia)|].
    intros _. by exists h.
Qed.
Lemma model_reached_ok st h :
  model_reached st h ->
  model_ok st /\ (better st <> NotEvaluated -> ends_with (better st) (better_count st) h) /\
  NoDup (recent st) /\ (length (recent st) <= 128)%nat.
Proof.
  induction 1 as [|st h f n src st' a _ (Hok & Hh & Hd & Hl) Ha].
  - split_and!; [by left|done|constructor|cbn; lia].
  - apply assess_Some in Ha as (_&_&_&Hnew&_&_&_&_&_&_&_&_&Hnext&Hrec&_).
    destruct (next_band_ok _ _ h _ _ _ (raw_band_evaluated _) Hok Hh (eq_sym Hnext)) as (_ & H1 & H2).
    split_and!; [done|done| |].
    + rewrite Hrec. unfold remember. assert (NoDup (recent st ++ [src])).
      { apply NoDup_app. split_and!; [done| |apply NoDup_singleton].
        intros x Hx ->%list_elem_of_singleton. apply find_string_In in Hx. congruence. }
      destruct (128 <? _); [|done]. destruct (recent st ++ [src]); [done|]. by apply NoDup_cons in H as [_ ?].
    + rewrite Hrec. unfold remember. rewrite length_app. cbn [length].
      destruct (128 <? _) eqn:E; b2p; [|rewrite length_app; cbn [length]; lia].
      destruct (recent st) as [|x l]; cbn [app tail]; [cbn; lia|]. rewrite length_app. cbn [length] in *. lia.
Qed.

Lemma features_bad_range f :
  features_bad f = false ->
  Forall (fun n => 0 <= n <= 10000) [longitudinal f; lateral f; dispersion f; persistence f].
Proof. intros H%features_bad_false. repeat constructor; lia. Qed.

(** ** Exercises: lemmas *)

Definition spaced (l : list Frame) : Prop :=
  StronglySorted (fun a b => frame_epoch a + 100 <= frame_epoch b) l.
(** What every exercise the engine reports satisfies. *)
Record episode_shape (e : Episode) : Prop := {
  shape_time : 0 <= started e <= ended e;
  shape_spaced : spaced (ep_samples e);
  shape_inside : Forall (fun f => started e <= frame_epoch f <= ended e) (ep_samples e);
  shape_finite : Forall (fun f => frame_finite f = true) (ep_samples e);
  shape_count : 1 <= Z.of_nat (length (ep_samples e)) <= 120 }.
Definition ended_by_engine (e : Episode) : Prop :=
  terminal e = "COMPLETE"%string /\ ended e - started e < 12000 \/
  terminal e = "TRUNCATED_MAX_DURATION"%string /\ 12000 <= ended e - started e < 12250.
Definition aborted (e : Episode) : Prop :=
  terminal e <> "COMPLETE"%string /\ terminal e <> "TRUNCATED_MAX_DURATION"%string /\
  ended e - started e < 12000.
Definition episode_ok (e : Episode) : Prop := episode_shape e /\ (ended_by_engine e \/ aborted e).

(** The open exercise between two frames. *)
Definition open_ok (s : Engine) (e : Episode) : Prop :=
  episode_shape e /\ ended e = previous s /\ ended e - started e < 12000 /\ terminal e = ""%string /\
  Forall (fun f => frame_epoch f <= retained s) (ep_samples e) /\ suppressed s = false.
Definition engine_ok (s : Engine) : Prop :=
  -1 <= previous s /\ -1 <= activation s /\ match current s with None => True | Some e => open_ok s e end.

Lemma spaced_snoc l f :
  spaced l -> Forall (fun g => frame_epoch g + 100 <= frame_epoch f) l -> spaced (l ++ [f]).
Proof.
  unfold spaced. induction 1 as [|g l Hl IH Hg]; intros H; cbn; [by repeat constructor|].
  apply Forall_cons in H as [Hgf H]. constructor; [by apply IH|].
  apply Forall_app. split; [done|by constructor].
Qed.
Lemma spaced_singleton f : spaced [f].
Proof. apply SSorted_cons; [apply SSorted_nil|constructor]. Qed.
Lemma set_terminal_shape r e : episode_shape e -> episode_shape (set_terminal r e).
Proof. by intros []. Qed.

(** The samples after a frame: [e] is an open exercise before it, or a new one without samples. *)
Definition extended (f : Frame) (e : Episode) (retained : Z) (keep : bool) : Episode :=
  MkEpisode (ep_id e) (started e) (frame_epoch f) (if keep then ep_samples e ++ [f] else ep_samples e) (terminal e).
Lemma extended_shape f e retained keep :
  frame_finite f = true -> 0 <= started e <= frame_epoch f ->
  keep = ((retained <? 0) || (100 <=? frame_epoch f - retained)) && (Z.of_nat (length (ep_samples e)) <? 120) ->
  (ep_samples e = [] /\ retained = -1) \/ (episode_shape e /\ ended e <= frame_epoch f) ->
  Forall (fun g => frame_epoch g <= retained) (ep_samples e) ->
  episode_shape (extended f e retained keep) /\
  Forall (fun g => frame_epoch g <= (if keep then frame_epoch f else retained))
    (ep_samples (extended f e retained keep)).
Proof.
  intros Hf Ht Hk Hs Hr. destruct Hs as [[Hnil ->]|[[H1 H2 H3 H4 H5] He]].
  - rewrite Hnil in Hk. assert (keep = true) as -> by (rewrite Hk; reflexivity). unfold extended. rewrite Hnil. cbn [app]. split.
    + constructor; cbn [started ended ep_samples length]; try lia; [apply spaced_singleton|..];
        apply Forall_singleton; done || lia.
    + cbn. constructor; [lia|done].
  - assert (Hin : Forall (fun g => started e <= frame_epoch g <= frame_epoch f) (ep_samples e)).
    { eapply Forall_impl; [exact H3|]. cbn. lia. }
    unfold extended. destruct keep; (split; [constructor|]); cbn [started ended ep_samples]; try done; try lia.
    + symmetry in Hk. apply andb_true_iff in Hk as [Hk _]. apply spaced_snoc; [done|]. apply orb_true_iff in Hk as [Hk|Hk]; b2p.
      * destruct (ep_samples e) as [|g l]; [done|]. apply Forall_cons in Hr as [Hr _].
        apply Forall_cons in Hin as [Hin _]. lia.
      * eapply Forall_impl; [exact Hr|]. cbn. lia.
    + apply Forall_app. split; [done|]. constructor; [lia|done].
    + apply Forall_app. split; [done|]. by constructor.
    + symmetry in Hk. apply andb_true_iff in Hk as [_ Hk%Z.ltb_lt]. rewrite length_app. cbn [length]. lia.
    + apply Forall_app. split; [|by constructor; [lia|]]. eapply Forall_impl; [exact Hin|]. cbn. lia.
Qed.
Lemma continue_episode_ok f e a c r s' out :
  frame_finite f = true -> 0 <= started e <= frame_epoch f -> -1 <= a -> terminal e = ""%string ->
  (ep_samples e = [] /\ r = -1 /\ started e = frame_epoch f) \/
  (episode_shape e /\ ended e <= frame_epoch f <= ended e + 250 /\ ended e - started e < 12000) ->
  Forall (fun g => frame_epoch g <= r) (ep_samples e) ->
  continue_episode f e a c r = (s', out) ->
  engine_ok s' /\ (forall e', out = Some e' -> episode_ok e').
Proof.
  intros Hf Ht Ha Hterm Hs Hr. unfold continue_episode. cbn zeta.
  remember (_ && _) as keep eqn:Hk. fold (extended f e r keep).
  destruct (extended_shape f e r keep) as [Hshape Hret]; [done|done|done| |done|].
  { destruct Hs as [(?&?&?)|(?&?&?)]; [left; done|right; split; [done|lia]]. }
  cbn [started]. clear Hk. destruct (_ || _) eqn:E; intros [= <- <-].
  - split; [unfold engine_ok; cbn; lia|]. intros e' [= <-]. split; [by apply set_terminal_shape|].
    left. unfold ended_by_engine. cbn [set_terminal extended terminal ended started].
    destruct (12000 <=? frame_epoch f - started e) eqn:Em; b2p; [right|left]; (split; [done|]).
    + destruct Hs as [(?&?&?)|(?&?&?)]; lia.
    + lia.
  - split; [|done]. b2p. unfold engine_ok, open_ok. cbn [previous activation current retained suppressed].
    split_and!; try done; cbn [extended ended started]; lia.
Qed.

Lemma initial_engine_ok : engine_ok initial_engine.
Proof. unfold engine_ok. cbn. lia. Qed.
Lemma abort_ok reason s s' out :
  reason <> "COMPLETE"%string -> reason <> "TRUNCATED_MAX_DURATION"%string -> engine_ok s ->
  abort reason s = (s', out) -> s' = initial_engine /\ (forall e, out = Some e -> episode_ok e).
Proof.
  intros H1 H2 (_ & _ & Hs) [= <- <-]. split; [done|]. intros e He.
  destruct (current s) as [o|]; [|done]. injection He as <-. destruct Hs as (Hsh & _ & Hd & _).
  split; [by apply set_terminal_shape|]. right. by split_and!.
Qed.
Lemma ingest_frame_ok uuid f s s' out :
  frame_finite f = true -> 0 <= frame_epoch f -> engine_ok s ->
  (0 <= previous s -> previous s < frame_epoch f <= previous s + 250) ->
  ingest_frame uuid f s = (s', out) ->
  engine_ok s' /\ (forall e, out = Ok (Some e) -> episode_ok e).
Proof.
  intros Hf Ht (Hp & Ha & Hs) Hgap. unfold ingest_frame. cbn zeta.
  generalize (if clearing f then if clear s <? 0 then frame_epoch f else clear s else -1). intros cl.
  destruct (suppressed s) eqn:Esup.
  { destruct (current s) as [e|] eqn:Ec; [destruct Hs as (_&_&_&_&_&?); congruence|].
    destruct (cleared _ _); intros [= <- <-]; (split; [|done]); unfold engine_ok; cbn; lia. }
  destruct (current s) as [e|] eqn:Ec.
  - destruct Hs as ([H1 H2 H3 H4 H5] & Hend & Hd & Hterm & Hr & _).
    destruct (continue_episode f e (activation s) cl (retained s)) as [s1 o] eqn:E. intros [= <- <-].
    eapply continue_episode_ok in E; [|done|lia|done|done| |done].
    + destruct E as [E1 E2]. split; [done|]. intros e' [= ->]. by apply E2.
    + right. split; [by constructor|]. lia.
  - destruct (activating f); cbn [negb];
      [|intros [= <- <-]; split; [unfold engine_ok; cbn; lia|done]].
    destruct (frame_epoch f - _ <? 500) eqn:E5.
    { intros [= <- <-]. split; [|done]. unfold engine_ok. cbn. destruct (activation s <? 0); lia. }
    destruct uuid as [id|e].
    2: { intros [= <- <-]. split; [|done]. unfold engine_ok. cbn. destruct (activation s <? 0); lia. }
    destruct (continue_episode f _ _ cl (-1)) as [s1 o] eqn:E. intros [= <- <-].
    eapply continue_episode_ok in E; [|done|cbn; lia| |done|by left|by constructor].
    + destruct E as [E1 E2]. split; [done|]. intros e' [= ->]. by apply E2.
    + destruct (activation s <? 0); lia.
Qed.
Lemma ingest_ok uuid f s s' out :
  0 <= frame_epoch f -> engine_ok s -> ingest uuid f s = (s', out) ->
  engine_ok s' /\ (forall e, out = Ok (Some e) -> episode_ok e).
Proof.
  intros Ht Hs. unfold ingest. cbn zeta. destruct (frame_finite f) eqn:Ef; cbn [negb].
  2: { destruct (abort _ s) as [s1 o] eqn:E. intros [= <- <-].
       apply abort_ok in E as [-> E]; [|done..]. split; [apply initial_engine_ok|].
       intros e [= ->]. by apply E. }
  destruct ((0 <=? previous s) && (frame_epoch f =? previous s)) eqn:E1.
  { intros [= <- <-]. by split. }
  destruct ((0 <=? previous s) && (_ || _)) eqn:E2.
  { destruct (abort _ s) as [s1 o] eqn:E. intros [= <- <-].
    apply abort_ok in E as [-> E]; [|done..]. split; [unfold engine_ok; cbn; lia|].
    intros e [= ->]. by apply E. }
  apply ingest_frame_ok; try done. lia.
Qed.

(** *** Runs of the engine *)

Inductive input := Feed (uuid : res string) (f : Frame) | Stop (reason : string).
Definition engine_step (s : Engine) (i : input) : Engine * option Episode :=
  match i with
  | Feed uuid f => let '(s', out) := ingest uuid f s in (s', catch_all out None)
  | Stop reason => abort reason s
  end.
Fixpoint engine_run (s : Engine) (l : list input) : Engine * list Episode :=
  match l with
  | [] => (s, [])
  | i :: l' =>
    let '(s', out) := engine_step s i in
    let '(s'', rest) := engine_run s' l' in
    (s'', match out with Some e => e :: rest | None => rest end)
  end.
(** Epochs are milliseconds since 1970; the reasons of [abort] are not those of the engine. *)
Definition input_ok (i : input) : Prop :=
  match i with
  | Feed _ f => 0 <= frame_epoch f
  | Stop reason => reason <> "COMPLETE"%string /\ reason <> "TRUNCATED_MAX_DURATION"%string
  end.
Lemma engine_step_ok s i s' out :
  input_ok i -> engine_ok s -> engine_step s i = (s', out) ->
  engine_ok s' /\ (forall e, out = Some e -> episode_ok e).
Proof.
  destruct i as [uuid f|reason]; cbn [engine_step input_ok]; intros Hi Hs H.
  - destruct (ingest uuid f s) as [s1 o] eqn:E. injection H as <- <-.
    apply ingest_ok in E as [E1 E2]; [|done..]. split; [done|]. intros e He.
    destruct o as [o|x]; [|done]. cbn in He. subst o. by apply E2.
  - destruct Hi. apply abort_ok in H as [-> H]; [|done..]. split; [apply initial_engine_ok|done].
Qed.
Lemma engine_run_ok l s s' es :
  Forall input_ok l -> engine_ok s -> engine_run s l = (s', es) -> engine_ok s' /\ Forall episode_ok es.
Proof.
  intros Hl. revert s s' es. induction Hl as [|i l Hi _ IH]; intros s s' es Hs H; cbn [engine_run] in H.
  - injection H as <- <-. split; [done|constructor].
  - destruct (engine_step s i) as [s1 out] eqn:E1. destruct (engine_run s1 l) as [s2 rest] eqn:E2.
    injection H as <- <-. apply engine_step_ok in E1 as [H1 H2]; [|done..].
    apply IH in E2 as [H3 H4]; [|done]. split; [done|]. destruct out; [|done]. constructor; [by apply H2|done].
Qed.

(** An open exercise at the next frame without a gap. *)
Lemma ingest_open uuid f s e :
  frame_finite f = true -> 0 <= previous s < frame_epoch f -> frame_epoch f <= previous s + 250 ->
  current s = Some e -> suppressed s = false ->
  (exists e' s', ingest uuid f s = (s', Ok (Some e'))) \/
  (exists e' s', ingest uuid f s = (s', Ok None) /\ current s' = Some e' /\ started e' = started e /\
     previous s' = frame_epoch f /\ suppressed s' = false /\ frame_epoch f < started e + 12000).
Proof.
  intros Hf Hp Hg Hc Hs. unfold ingest, ingest_frame. cbn zeta. rewrite Hf, Hs, Hc. cbn [negb].
  replace (frame_epoch f =? previous s) with false by lia. rewrite andb_false_r.
  replace (frame_epoch f <? previous s) with false by lia.
  replace (250 <? frame_epoch f - previous s) with false by lia. cbn [orb]. rewrite andb_false_r.
  unfold continue_episode. cbn [started].
  generalize (if clearing f then if clear s <? 0 then frame_epoch f else clear s else -1). intros cl.
  destruct ((12000 <=? frame_epoch f - started e) || cleared cl (frame_epoch f)) eqn:E; [left; by eexists _, _|].
  right. eexists _, _. split; [reflexivity|]. cbn [current previous suppressed started]. b2p. split_and!; (done || lia).
Qed.
Lemma extract_samples_some e l x :
  StronglySorted (fun a b => frame_epoch a + 100 <= frame_epoch b) l ->
  Forall (fun f => x_previous x < frame_epoch f) l ->
  Forall (fun f => started e <= frame_epoch f <= ended e) l ->
  Forall (fun f => frame_finite f = true) l ->
  is_Some (extract_samples e l x) <->
  Forall (fun f => flt (value_at f 0) zero = false /\ flt (min_of (slice 3 4 f)) zero = false) l.
Proof.
  intros Hs. revert x. induction Hs as [|f l Hl IH Hf]; intros x Hx Hin Hfin; cbn [extract_samples].
  - split; [by constructor|by eexists].
  - apply Forall_cons in Hx as [Hxf Hx]. apply Forall_cons in Hin as [Hif Hin].
    apply Forall_cons in Hfin as [Hff Hfin]. rewrite Forall_cons. unfold frame_accepted. rewrite Hff.
    replace (x_previous x <? frame_epoch f) with true by lia.
    replace (started e <=? frame_epoch f) with true by lia.
    replace (frame_epoch f <=? ended e) with true by lia. cbn [andb].
    destruct (flt (value_at f 0) zero); cbn [negb andb];
      [split; [by intros []|by intros [[? ?] ?]]|].
    destruct (flt (min_of _) zero); cbn [negb andb];
      [split; [by intros []|by intros [[? ?] ?]]|].
    rewrite IH; [by split; [|intros [_ ?]]| |done|done].
    unfold extract_frame. cbn [x_previous]. eapply Forall_impl; [exact Hf|]. cbn. lia.
Qed.

Definition frames_of (l : list input) : list Frame :=
  flat_map (fun i => match i with Feed _ f => [f] | Stop _ => [] end) l.
(** A stream without gaps from epoch [p] on: finite frames, each later by 1 to 250 ms. *)
Fixpoint gapless (p : Z) (l : list Frame) : Prop :=
  match l with
  | [] => True
  | f :: l' => frame_finite f = true /\ p < frame_epoch f <= p + 250 /\ gapless (frame_epoch f) l'
  end.
Definition last_epoch (p : Z) (l : list Frame) : Z := fold_left (fun _ f => frame_epoch f) l p.
Lemma run_open uuid l s e :
  0 <= previous s -> gapless (previous s) l -> current s = Some e -> suppressed s = false ->
  started e + 12000 <= last_epoch (previous s) l -> previous s < started e + 12000 ->
  snd (engine_run s (map (Feed uuid) l)) <> [].
Proof.
  revert s e. induction l as [|f l IH]; intros s e Hp Hg Hc Hs Hlast Hprev; cbn [last_epoch fold_left] in Hlast.
  - lia.
  - destruct Hg as (Hf & Ht & Hg). cbn [map engine_run engine_step].
    destruct (ingest_open uuid f s e) as [(e' & s1 & E)|(e' & s1 & E & Hc1 & Hst & Hp1 & Hs1 & Hd)];
      [done|lia|lia|done|done| |]; rewrite E; cbn [catch_all];
      destruct (engine_run s1 _) as [s2 rest] eqn:Er; cbn [snd]; [done|].
    replace rest with (snd (engine_run s1 (map (Feed uuid) l))) by (by rewrite Er).
    apply (IH s1 e'); rewrite ?Hp1, ?Hst; (done || lia).
Qed.

(** ** Properties *)

(** An assessment has a score of 0 to 100 and a confidence of 50 to 100 percent, and worse
    features never give a better score. *)
Theorem assess_score st f n src st' a :
  assess st f n src = (st', Some a) ->
  0 <= score a <= 100 /\ 50 <= confidence a <= 100 /\ 0 <= load a <= 10000 /\
  last_score st' = score a /\ last_confidence st' = confidence a /\
  forall st2 g m src2 st2' b, assess st2 g m src2 = (st2', Some b) ->
    longitudinal f <= longitudinal g -> lateral f <= lateral g ->
    dispersion f <= dispersion g -> persistence f <= persistence g -> score b <= score a.
Proof.
  intros H. apply assess_Some in H as (Hn&_&Hf&_&_&_&El&Es&Ec&_&_&_&_&_&_&_&E1&E2).
  apply features_bad_false in Hf. rewrite El, Es, Ec.
  assert (Hload : 0 <= load_of f <= 10000) by (unfold load_of; Z.div_mod_to_equations; lia).
  split_and!; try (unfold score_of, confidence_of; Z.div_mod_to_equations; lia); [congruence..|].
  intros st2 g m src2 st2' b Hb H1 H2 H3 H4.
  apply assess_Some in Hb as (_&_&_&_&_&_&_&Eb&_). rewrite Eb.
  assert (load_of f <= load_of g) by (unfold load_of; apply Z.div_le_mono; lia).
  unfold score_of. pose proof (Z.div_le_mono (load_of f + 50) (load_of g + 50) 100). lia.
Qed.
Definition sample_source : string := "6ba7b810-9dad-11d1-80b4-00c04fd430c8".
Lemma assess_score_witness :
  exists st' a, assess initial_model (MkFeatures 5000 4000 100 200) 40 sample_source = (st', Some a) /\
    0 <= score a <= 100.
Proof.
  eexists _, _. split; [vm_compute; reflexivity|].
  apply (assess_score initial_model (MkFeatures 5000 4000 100 200) 40 sample_source _ _
    ltac:(vm_compute; reflexivity)).
Defined.

(** C32: the band worsens at once and improves with hysteresis: from any reachable state, a raw
    band worse than the current one (or the first) becomes the band, an equal one keeps it, and
    the band improves only to a band that the last three raw bands, this one included, were. *)
Theorem band_hysteresis st h f n src st' a :
  model_reached st h -> assess st f n src = (st', Some a) ->
  let raw := raw_band (score a) in
  (band st = NotEvaluated \/ band_value (band st) < band_value raw -> band st' = raw) /\
  (band st = raw -> band st' = raw) /\
  (band st <> NotEvaluated -> band_value raw < band_value (band st) -> band st' = band st \/ band st' = raw) /\
  (band st <> NotEvaluated -> band_value (band st') < band_value (band st) ->
   ends_with (band st') 3 (h ++ [raw])).
Proof.
  intros Hr Ha. cbn zeta. apply model_reached_ok in Hr as (Hok & Hh & _).
  apply assess_Some in Ha as (_&_&_&_&_&_&_&_&_&_&_&_&Hn&_).
  destruct (next_band_ok _ _ h _ _ _ (raw_band_evaluated _) Hok Hh (eq_sym Hn)) as (H3 & _ & _).
  unfold next_band, band_gtb in Hn. remember (raw_band (score a)) as raw eqn:Eraw. clear Eraw.
  split_and!; [| | |intros H1 H2; by apply H3]; clear H3.
  - intros H. destruct (_ || _) eqn:E; [congruence|]. exfalso. b2p.
    destruct H as [H|H]; [|lia]. apply band_eqb_eq in H. congruence.
  - intros <-. destruct (_ || _) eqn:E; [congruence|]. rewrite Z.ltb_irrefl in Hn. congruence.
  - intros H1 H2. destruct (_ || _) eqn:E; [right; congruence|].
    destruct (_ <? _) in Hn; [|left; congruence].
    destruct (if negb _ then _ else _) as [bt c] in Hn. destruct (3 <=? c); [right|left]; congruence.
Qed.

(** An exercise is assessed once: a source among the last 128 assessed is refused and
    changes nothing, an accepted one is refused from then on, and the memory holds at most 128
    distinct sources. *)
Theorem assess_replay st h f n src st' a :
  model_reached st h -> assess st f n src = (st', Some a) ->
  ~ src ∈ recent st /\ NoDup (recent st') /\ (length (recent st') <= 128)%nat /\
  forall g m, assess st' g m src = (st', None).
Proof.
  intros Hr Ha. assert (Hr' := reached_assess _ _ _ _ _ _ _ Hr Ha).
  apply model_reached_ok in Hr' as (_ & _ & Hd & Hl).
  apply assess_Some in Ha as (_&_&_&Hnew&_&_&_&_&_&_&_&_&_&Hrec&_).
  split_and!; [|done|done|].
  - intros Hin. apply find_string_In in Hin. congruence.
  - intros g m. unfold assess. destruct (_ || _); [done|]. destruct (features_bad g); [done|].
    assert (find_string src (recent st') = true) as ->; [|done]. apply find_string_In. rewrite Hrec.
    unfold remember. destruct (recent st) as [|x l]; [cbn; set_solver|].
    destruct (128 <? _); cbn [app tail]; set_solver.
Qed.

(** C31: whatever frames and aborts the engine is fed, every exercise it reports has 1 to 120
    finite samples at least 100 ms apart inside its time span; it is COMPLETE within twelve
    seconds, truncated after twelve and before twelve and a quarter, or aborted. *)
Theorem engine_reports_exercises l s es :
  Forall input_ok l -> engine_run initial_engine l = (s, es) -> engine_ok s /\ Forall episode_ok es.
Proof. intros Hl H. eapply engine_run_ok; [done|apply initial_engine_ok|done]. Qed.

(** An open exercise ends: a gapless stream that reaches twelve seconds after its start
    makes the engine report an exercise. *)
Theorem exercise_ends uuid l s e :
  engine_ok s -> current s = Some e -> gapless (previous s) l ->
  started e + 12000 <= last_epoch (previous s) l ->
  snd (engine_run s (map (Feed uuid) l)) <> [].
Proof.
  intros (Hp & _ & Hs) Hc Hg Hl. rewrite Hc in Hs. destruct Hs as ([] & He & Hd & _ & _ & Hsup).
  apply (run_open uuid l s e); (done || lia).
Qed.

(** Features are extracted from an exercise the engine reports exactly if it was not
    aborted, has at least twenty samples and no negative speed: its other checks of order and
    time span never fail on such an exercise. *)
Theorem extract_features_defined e :
  episode_ok e ->
  is_Some (extract_features e) <->
  ended_by_engine e /\ 20 <= Z.of_nat (length (ep_samples e)) /\
  Forall (fun f => flt (value_at f 0) zero = false /\ flt (min_of (slice 3 4 f)) zero = false) (ep_samples e).
Proof.
  intros [[Ht Hs Hin Hfin Hc] Hend].
  assert (Hx : is_Some (extract_samples e (ep_samples e) (MkExtraction zero zero zero 0 (-1))) <->
    Forall (fun f => flt (value_at f 0) zero = false /\ flt (min_of (slice 3 4 f)) zero = false) (ep_samples e)).
  { apply extract_samples_some; try done. eapply Forall_impl; [exact Hin|]. cbn. lia. }
  rewrite <- Hx. unfold extract_features. cbn zeta.
  assert (Hterm : negb (String.eqb (terminal e) "COMPLETE") && negb (String.eqb (terminal e) "TRUNCATED_MAX_DURATION") = false
    <-> ended_by_engine e).
  { rewrite andb_false_iff, !negb_false_iff, !String.eqb_eq. split.
    - intros H. destruct Hend as [|(? & ? & _)]; [done|]. by destruct H.
    - intros [[-> _]|[-> _]]; auto. }
  rewrite <- Hterm. destruct (_ && _); cbn [orb]; [split; [by intros []|by intros [? _]]|].
  destruct (_ <? 20) eqn:E20; b2p; cbn [orb]; [split; [by intros []|intros (_ & ? & _); lia]|].
  replace (120 <? _) with false by lia.
  destruct (extract_samples _ _ _); split; [done|by eexists|by intros []|by intros (_ & _ & [])].
Qed.

(** ** Witnesses *)

Definition source_n (c : string) : string := "6ba7b810-9dad-11d1-80b4-00c04fd430c" +:+ c.
Definition worn : Features := MkFeatures 9000 9000 9000 9000.
Definition fresh : Features := MkFeatures 100 100 100 100.
Definition after (l : list (Features * string)) : ModelState :=
  fold_left (fun st fs => (assess st fs.1 40 (source_n fs.2)).1) l initial_model.
Lemma reached_after l h :
  forallb (fun n => is_ok (of_option OutOfRange
    (assess (after (take n l)) (nth n l (fresh, "")).1 40 (source_n (nth n l (fresh, "")).2)).2))%string
    (seq 0 (length l)) = true ->
  h = flat_map (fun n => match (assess (after (take n l)) (nth n l (fresh, "")).1 40 (source_n (nth n l (fresh, "")).2)).2 with
    | Some a => [raw_band (score a)] | None => [] end)%string (seq 0 (length l)) ->
  model_reached (after l) h.
Proof.
  revert h. induction l as [|x l IH] using rev_ind; intros h H ->; [constructor|].
  rewrite length_app, seq_app in *. cbn [length seq] in *. rewrite forallb_app in H. b2p.
  cbn [forallb Nat.add] in *. rewrite flat_map_app. cbn [flat_map Nat.add].
  rewrite take_app_length, nth_middle in *.
  destruct (assess (after l) x.1 40 (source_n x.2)) as [st' o] eqn:E. cbn [snd] in *.
  destruct o as [a|]; [|done]. rewrite app_nil_r.
  assert (after (l ++ [x]) = st') as ->.
  { unfold after. rewrite fold_left_app. cbn [fold_left]. fold (after l). by rewrite E. }
  assert (Hpre : forall n, (n < length l)%nat -> take n (l ++ [x]) = take n l /\ forall d, nth n (l ++ [x]) d = nth n l d).
  { intros n Hn. rewrite take_app_le by lia. split; [done|]. intros d. by rewrite app_nth1. }
  eapply reached_assess; [apply IH|exact E].
  - rewrite forallb_forall in *. intros n Hn. pose proof Hn as Hn'%in_seq. specialize (H n Hn).
    destruct (Hpre n) as [-> Hx] in H; [lia|]. by rewrite Hx in H.
  - rewrite !flat_map_concat_map. f_equal. apply map_ext_in. intros n Hn%in_seq.
    destruct (Hpre n) as [-> Hx]; [lia|]. by rewrite Hx.
Qed.
Definition worn_then_better : list (Features * string) := [(worn, "0"); (fresh, "1"); (fresh, "2")]%string.
Lemma band_hysteresis_witness :
  exists st' a, assess (after worn_then_better) fresh 40 (source_n "3") = (st', Some a) /\
    band (after worn_then_better) = Replacement /\ band st' = Good /\
    ends_with Good 3 ([Replacement; Good; Good] ++ [Good]).
Proof.
  destruct (assess (after worn_then_better) fresh 40 (source_n "3")) as [st' o] eqn:E.
  pose proof E as E2. vm_compute in E2. injection E2 as E3 E4. subst st' o.
  eexists _, _. split; [reflexivity|]. split; [vm_compute; reflexivity|]. split; [reflexivity|].
  assert (R : model_reached (after worn_then_better) [Replacement; Good; Good])
    by (apply reached_after; vm_compute; reflexivity).
  destruct (band_hysteresis _ _ _ _ _ _ _ R E) as (_ & _ & _ & H).
  apply H; vm_compute; [discriminate|reflexivity].
Defined.
Lemma assess_replay_witness :
  exists st' a, assess (after worn_then_better) fresh 40 (source_n "3") = (st', Some a) /\
    assess st' worn 30 (source_n "3") = (st', None).
Proof.
  destruct (assess (after worn_then_better) fresh 40 (source_n "3")) as [st' o] eqn:E.
  pose proof E as E2. vm_compute in E2. injection E2 as E3 E4. subst st' o.
  eexists _, _. split; [reflexivity|].
  assert (R : model_reached (after worn_then_better) [Replacement; Good; Good])
    by (apply reached_after; vm_compute; reflexivity).
  destruct (assess_replay _ _ _ _ _ _ _ R E) as (_ & _ & _ & H). apply H.
Defined.

(** A frame of a sharp turn at speed. *)
Definition turning (t : Z) : Frame :=
  MkFrame (of_int 20 :: zero :: of_int 5 :: replicate 4 (of_int 10) ++ replicate 8 zero) t.
Definition turn (n : nat) : list Frame := map (fun k => turning (1000 + 100 * Z.of_nat k)) (seq 0 n).
Definition turn_uuid : res string := Ok sample_source.
Lemma engine_reports_exercises_witness :
  exists e, snd (engine_run initial_engine (map (Feed turn_uuid) (turn 130))) = [e] /\ episode_ok e.
Proof.
  destruct (engine_run initial_engine (map (Feed turn_uuid) (turn 130))) as [s es] eqn:E.
  assert (Hes : Forall episode_ok es).
  { apply (engine_reports_exercises (map (Feed turn_uuid) (turn 130)) s es); [|exact E].
    unfold turn. rewrite List.Forall_map, List.Forall_map. apply List.Forall_forall. intros k _. cbn. lia. }
  assert (length es = 1%nat) as Hlen.
  { change (length (snd (s, es)) = 1%nat). rewrite <- E. vm_compute. reflexivity. }
  clear E. destruct es as [|e [|]]; [discriminate Hlen| |discriminate Hlen]. exists e. split; [reflexivity|]. by apply Forall_cons in Hes as [? _].
Defined.
Lemma exercise_ends_witness :
  let s := MkEngine (Some (MkEpisode sample_source 1500 1500 [turning 1500] "")) 1000 (-1) 1500 1500 false in
  snd (engine_run s (map (Feed turn_uuid) (map (fun k => turning (1600 + 100 * Z.of_nat k)) (seq 0 121)))) <> [].
Proof.
  cbn zeta. eapply exercise_ends; [|reflexivity| |vm_compute; discriminate].
  - unfold engine_ok, open_ok. cbn. split_and!; try done; try lia;
      repeat constructor; cbn; try lia; vm_compute; reflexivity.
  - cbn [previous]. vm_compute. repeat split; discriminate.
Defined.
Definition sample_exercise : Episode :=
  MkEpisode sample_source 1500 3500 (map (fun k => turning (1500 + 100 * Z.of_nat k)) (seq 0 20)) "COMPLETE".
Lemma sample_exercise_ok : episode_ok sample_exercise.
Proof.
  split; [|left; left; split; [done|vm_compute; reflexivity]].
  constructor; cbn; try lia; repeat constructor; cbn; try lia; vm_compute; reflexivity.
Qed.
Lemma extract_features_defined_witness :
  is_Some (extract_features sample_exercise) <->
  ended_by_engine sample_exercise /\ 20 <= Z.of_nat (length (ep_samples sample_exercise)) /\
  Forall (fun f => flt (value_at f 0) zero = false /\ flt (min_of (slice 3 4 f)) zero = false) (ep_samples sample_exercise).
Proof. apply (extract_features_defined sample_exercise). exact sample_exercise_ok. Defined.
