(* ===== verification/Messages.v ===== *)
(** * The messages of the product (the message functions of src/model.cpp)

    Assessments, band events, advisory requests and advisory facts, the check of the gateway's
    status, and what all of them promise: the content hash of a message is the hash of its
    content, and its parts name the records it is about. *)
From Stdlib Require Import ZArith Lia Bool Ascii String.
From stdpp Require Import gmap strings list.
From S2P Require Import Prelude Chars Sha256 Uuid Float64 Json JsonFacts Time Protocol Identity Model.
Local Open Scope Z_scope.

Definition kModelConfigSha256 : string :=
  "ba7f37351ac7297a3e61042dc2842e0f1d28e748757b38cde6fe7b8572712fd7".
(** The limit [parse_json] has by default. *)
Definition default_limit : Z := 65536.

(** Adds the content and the hash of its canonical text. *)
Definition wrap (message : Object) (content : Json) : res Json :=
  c ← canonical content;
  Ok (JObject (obj_set "contentSha256" (JString (sha256_hex c)) (obj_set "content" content message))).
Definition base (m : Metadata) (type : string) : res Object :=
  let message := obj_of
    [("schemaVersion", JInt 1); ("contractVersion", JString "1.0.0"); ("messageType", JString type);
     ("unitSystemUid", JString (unit_system_uid m)); ("unitRole", JString (unit_role m));
     ("serviceVersion", JString (service_version m));
     ("serviceArtifactSha256", JString (service_artifact_sha256 m));
     ("vdpContractVersion", JString (vdp_contract_version m));
     ("vdpContractSha256", JString (vdp_contract_sha256 m))]%string in
  match service_instance m with
  | None => Ok message
  | Some i =>
    _ ← metadata_binding m;
    let message := obj_set "contractVersion" (JString "2.0.0") (obj_set "schemaVersion" (JInt 2) message) in
    let message := obj_erase "serviceArtifactSha256" message in
    t ← service_instance_json i;
    si ← parse_json t default_limit;
    Ok (obj_emplace "serviceInstance" si message).1
  end.

Definition features_json (f : Features) : Object :=
  obj_of [("longitudinalSlipBps", JInt (longitudinal f)); ("lateralSlipBps", JInt (lateral f));
          ("wheelDispersionBps", JInt (dispersion f)); ("slipPersistenceBps", JInt (persistence f))]%string.
Definition assessment_namespace : string := "17847494-307d-5fb4-a96b-d9425a0e5093".
Definition event_namespace : string := "330cfd3e-d785-51ba-8074-2cb57498b11e".
Definition assessment_content (a : Assessment) : Json :=
  JObject (obj_of
    [("modelId", JString "tire-condition-demo-v1"); ("provenance", JString "DEMO_SYNTHETIC");
     ("validActiveSamples", JInt (samples a)); ("loadBps", JInt (load a));
     ("conditionScore", JInt (score a)); ("confidencePercent", JInt (confidence a));
     ("previousBand", JString (band_name (previous_band a)));
     ("currentBand", JString (band_name (current_band a)));
     ("features", JObject (features_json (features a)))]%string).
Definition assessment_message (m : Metadata) (a : Assessment) (e : Episode) (model : string) : res Json :=
  if negb (is_sha256 model) || negb (is_uuid (ep_id e)) then Err (InvalidArgument "MODEL_IDENTITY_INVALID")
  else
    msg ← base m "TIRE_HEALTH_ASSESSMENT";
    id ← uuid_v5 assessment_namespace [unit_system_uid m; ep_id e; model];
    let msg := obj_set "assessmentId" (JString id) msg in
    let msg := obj_set "sourceExerciseId" (JString (ep_id e)) msg in
    t ← utc_timestamp (ended e);
    let msg := obj_set "sourceEventTime" (JString t) msg in
    let msg := obj_set "modelConfigSha256" (JString model) msg in
    wrap msg (assessment_content a).

(** [message[field] = a.at(field)] for each field in turn. *)
Fixpoint copy_fields (fields : list string) (a : Json) (message : Object) : res Object :=
  match fields with
  | [] => Ok message
  | k :: fields' => v ← jat k a; copy_fields fields' a (obj_set k v message)
  end.
Definition event_message (a : Json) : res Json :=
  c ← jat "content" a;
  current ← at_string "currentBand" c;
  sv ← jat "schemaVersion" a;
  cv ← jat "contractVersion" a;
  aid ← jat "assessmentId" a;
  uid ← jat "unitSystemUid" a;
  t ← jat "sourceEventTime" a;
  aid_text ← at_string "assessmentId" a;
  id ← uuid_v5 event_namespace [aid_text; "TIRE_CONDITION_BAND_CHANGED"%string; current];
  let message := obj_of
    [("schemaVersion", sv); ("contractVersion", cv); ("messageType", JString "TIRE_CONDITION_BAND_CHANGED");
     ("assessmentId", aid); ("unitSystemUid", uid); ("sourceEventTime", t); ("eventId", JString id)]%string in
  v ← at_integer "schemaVersion" a;
  message ← (if v =? 2 then copy_fields ["unitRole"; "serviceVersion"; "serviceInstance"]%string a message
             else if v =? 1 then Ok message else Err (InvalidArgument "MESSAGE_SCHEMA_INVALID"));
  pb ← jat "previousBand" c;
  cb ← jat "currentBand" c;
  cs ← jat "conditionScore" c;
  cp ← jat "confidencePercent" c;
  wrap message (JObject (obj_of
    [("eventType", JString "TIRE_CONDITION_BAND_CHANGED"); ("previousBand", pb); ("currentBand", cb);
     ("conditionScore", cs); ("confidencePercent", cp)]%string)).

Definition advisory_invalid : exn := InvalidArgument "ADVISORY_INVALID".
Definition recommendation_of (b : Band) : string :=
  match b with Inspection => "TIRE_INSPECTION_RECOMMENDED" | _ => "TIRE_REPLACEMENT_RECOMMENDED" end.
Definition advisory_request (m : Metadata) (epoch : string) (sequence : Z) (decision : string)
    (b : Band) (now : Z) : res Json :=
  if negb (is_uuid epoch) || negb (is_uuid decision) || (sequence <? 1) || band_eqb b NotEvaluated
  then Err advisory_invalid
  else
    id ← uuid_v5 epoch [to_string sequence];
    issued_at ← utc_timestamp now;
    expires_at ← utc_timestamp (now + 30000);
    let r := obj_of
      [("schemaVersion", JInt 1); ("requestId", JString id); ("producerEpoch", JString epoch);
       ("sequence", JInt sequence); ("decisionId", JString decision);
       ("serviceVersion", JString (service_version m)); ("modelVersion", JString "1.0.0");
       ("issuedAt", JString issued_at); ("expiresAt", JString expires_at);
       ("operation", JString (if band_eqb b Good then "CLEAR" else "SET"));
       ("reasonCode", JString (if band_eqb b Good then "CONDITION_CLEARED" else "PREDICTED_TIRE_WEAR"))]%string in
    Ok (JObject (if band_eqb b Good then r else obj_set "recommendation" (JString (recommendation_of b)) r)).

Definition status_invalid : exn := InvalidArgument "STATUS_INVALID".
Definition gateway_states : list string :=
  ["RECEIVED"; "APPLIED"; "CLEARED"; "REJECTED"; "EXPIRED"; "FAILED"]%string.
Definition gateway_reasons : list string :=
  ["NONE"; "UNAUTHORIZED_SOURCE"; "UNAUTHORIZED_PATH"; "INVALID_SCHEMA"; "INVALID_VALUE"; "STALE_REQUEST";
   "REPLAY_DETECTED"; "SEQUENCE_ROLLBACK"; "RATE_LIMITED"; "QM_POLICY_DENIED"; "INTERNAL_ERROR"]%string.
Definition recommendations : list string :=
  ["NONE"; "TIRE_INSPECTION_RECOMMENDED"; "TIRE_REPLACEMENT_RECOMMENDED"]%string.
Definition active_reasons : list string := ["NONE"; "PREDICTED_TIRE_WEAR"]%string.
Definition validate_gateway_status (status : Json) : res unit :=
  ok ← schema_is status 10 1;
  if negb ok then Err status_invalid else
  rid ← at_string "requestId" status;
  if negb (is_uuid rid) then Err status_invalid else
  epoch ← at_string "producerEpoch" status;
  if negb (is_uuid epoch) then Err status_invalid else
  seq ← at_integer "sequence" status;
  if seq <? 1 then Err status_invalid else
  st ← at_string "state" status;
  if negb (find_string st gateway_states) then Err status_invalid else
  recommendation ← at_string "activeRecommendation" status;
  reason ← at_string "activeReasonCode" status;
  greason ← at_string "reason" status;
  if negb (find_string greason gateway_reasons) then Err status_invalid else
  observed ← at_string "gatewayObservedAt" status;
  if negb (date_time observed) then Err status_invalid else
  until ← jat "activeUntil" status;
  bad ← (if is_null until then Ok false
         else u ← jstring until; Ok (negb (date_time u)));
  if (bad : bool) then Err status_invalid else
  if negb (find_string recommendation recommendations) || negb (find_string reason active_reasons)
  then Err (InvalidArgument "STATUS_WRONG_PRODUCT") else Ok tt.

(** The fields that correlate a status with a request. *)
Definition correlation_fields : list string := ["requestId"; "producerEpoch"; "sequence"]%string.
Fixpoint correlated (fields : list string) (request status : Json) : res unit :=
  match fields with
  | [] => Ok tt
  | k :: fields' =>
    r ← jat k request; rc ← canonical r; s ← jat k status; sc ← canonical s;
    if String.eqb rc sc then correlated fields' request status
    else Err (InvalidArgument "UNCORRELATED_STATUS")
  end.
Definition advisory_fact (m : Metadata) (request status : Json) (now : Z) : res Json :=
  _ ← validate_gateway_status status;
  version ← at_string "serviceVersion" request;
  if negb (String.eqb (service_version m) version) then Err (InvalidArgument "ADVISORY_PROVENANCE_INVALID")
  else
    _ ← correlated correlation_fields request status;
    st ← at_string "state" status;
    bad ← (if String.eqb st "APPLIED" then op ← at_string "operation" request; Ok (negb (String.eqb op "SET"))
           else if String.eqb st "CLEARED" then op ← at_string "operation" request; Ok (negb (String.eqb op "CLEAR"))
           else Ok false);
    if (bad : bool) then Err status_invalid else
    msg ← base m "TIRE_ADVISORY_FACT";
    msg ← copy_fields correlation_fields request msg;
    t ← utc_timestamp now;
    let msg := obj_set "recordedAt" (JString t) (obj_set "gatewayState" (JString st) msg) in
    did ← jat "decisionId" request; op ← jat "operation" request; rc ← jat "reasonCode" request;
    ia ← jat "issuedAt" request; ea ← jat "expiresAt" request;
    gr ← jat "reason" status; go ← jat "gatewayObservedAt" status;
    ar ← jat "activeRecommendation" status; ac ← jat "activeReasonCode" status;
    au ← jat "activeUntil" status;
    let content := obj_of
      [("assessmentId", did); ("operation", op); ("reasonCode", rc); ("issuedAt", ia); ("expiresAt", ea);
       ("gatewayReason", gr); ("gatewayObservedAt", go); ("activeRecommendation", ar);
       ("activeReasonCode", ac); ("activeUntil", au)]%string in
    o ← object request;
    content ← (if obj_count "recommendation" o
               then r ← jat "recommendation" request; Ok (obj_set "recommendation" r content)
               else Ok content);
    wrap msg (JObject content).

(** ** Lemmas *)

Lemma jat_object k o : jat k (JObject o) = of_option OutOfRange (obj_find k o).
Proof. reflexivity. Qed.
Lemma jat_Ok k j v : jat k j = Ok v <-> exists o, j = JObject o /\ obj_find k o = Some v.
Proof.
  unfold jat. split.
  - intros H. apply bind_Ok in H as (o & Ho & H). apply of_option_Ok in H. destruct j; try done.
    injection Ho as ->. eauto.
  - intros (o & -> & H). unfold obj_at. cbn [object mbind res_mbind]. by rewrite H.
Qed.
Lemma obj_set_string k v o j : obj_find k (obj_set k (JString v) o) = Some j -> j = JString v.
Proof. rewrite find_set_eq. congruence. Qed.

(** The content hash of a message is the hash of its content's canonical text. *)
Definition sealed (msg : Json) : Prop :=
  exists content c, jat "content" msg = Ok content /\ canonical content = Ok c /\
    at_string "contentSha256" msg = Ok (sha256_hex c).
Lemma wrap_Ok message content j :
  wrap message content = Ok j ->
  sealed j /\ jat "content" j = Ok content /\
  forall k, k <> "content"%string -> k <> "contentSha256"%string ->
    jat k j = of_option OutOfRange (obj_find k message).
Proof.
  unfold wrap. intros H. apply bind_Ok in H as (c & Hc & H). injection H as <-.
  assert (E : jat "content" (JObject (obj_set "contentSha256" (JString (sha256_hex c))
    (obj_set "content" content message))) = Ok content).
  { apply jat_Ok. eexists. split; [done|]. rewrite find_set_ne by done. apply find_set_eq. }
  split_and!; [|done|].
  - exists content, c. split_and!; [done|done|]. apply at_string_Ok. eexists. split; [done|]. apply find_set_eq.
  - intros k H1 H2. rewrite jat_object, !find_set_ne by done. done.
Qed.

(** Where [base] puts the fields the two schemas share. *)
Lemma base_find m type o k :
  base m type = Ok o ->
  ~ k ∈ ["schemaVersion"; "contractVersion"; "serviceArtifactSha256"; "serviceInstance"]%string ->
  obj_find k o = obj_find k
    [("messageType", JString type); ("unitSystemUid", JString (unit_system_uid m));
     ("unitRole", JString (unit_role m)); ("serviceVersion", JString (service_version m));
     ("vdpContractVersion", JString (vdp_contract_version m));
     ("vdpContractSha256", JString (vdp_contract_sha256 m))]%string.
Proof.
  intros H Hk. rewrite !not_elem_of_cons in Hk. destruct Hk as (N1 & N2 & N3 & N4 & _).
  assert (F : forall l, obj_find k (("schemaVersion", JInt 1) :: ("contractVersion", JString "1.0.0") :: l)%string = obj_find k l).
  { intros l. cbn [obj_find]. apply String.eqb_neq in N1, N2. by rewrite N1, N2. }
  assert (G : forall v l, obj_find k (("serviceArtifactSha256", v) :: l)%string = obj_find k l).
  { intros v l. cbn [obj_find]. apply String.eqb_neq in N3. by rewrite N3. }
  assert (E : forall l, obj_find k (obj_of l) = obj_find k l) by (intros; apply find_obj_of).
  unfold base in H. cbn zeta in H. destruct (service_instance m).
  - apply bind_Ok in H as (? & _ & H). apply bind_Ok in H as (t & _ & H).
    apply bind_Ok in H as (si & _ & H). apply Ok_inj in H as <-.
    rewrite find_emplace, find_erase_ne, !find_set_ne, E, F by done.
    apply String.eqb_neq in N4. rewrite N4. cbn [obj_find]. apply String.eqb_neq in N3. rewrite N3.
    repeat case_code; done.
  - injection H as <-. rewrite E, F. cbn [obj_find]. apply String.eqb_neq in N3. by rewrite N3.
Qed.

Lemma assessment_message_Ok m a e model j :
  assessment_message m a e model = Ok j ->
  sealed j /\ jat "content" j = Ok (assessment_content a) /\ is_uuid (ep_id e) = true /\
  exists id, uuid_v5 assessment_namespace [unit_system_uid m; ep_id e; model] = Ok id /\
    at_string "assessmentId" j = Ok id /\ at_string "sourceExerciseId" j = Ok (ep_id e) /\
    at_string "messageType" j = Ok "TIRE_HEALTH_ASSESSMENT"%string /\
    jat "unitSystemUid" j = Ok (JString (unit_system_uid m)) /\
    jat "assessmentId" j = Ok (JString id).
Proof.
  unfold assessment_message. destruct (_ || _) eqn:E0; [done|]. intros H. b2p.
  apply bind_Ok in H as (msg & Hb & H). apply bind_Ok in H as (id & Hid & H).
  apply bind_Ok in H as (t & _ & H). apply wrap_Ok in H as (Hs & Hc & Hk).
  split_and!; [done..|]. exists id.
  assert (Hm : jat "messageType" j = Ok (JString "TIRE_HEALTH_ASSESSMENT")).
  { rewrite Hk, !find_set_ne by done. rewrite (base_find _ _ _ _ Hb) by set_solver. done. }
  assert (Hu : jat "unitSystemUid" j = Ok (JString (unit_system_uid m))).
  { rewrite Hk, !find_set_ne by done. rewrite (base_find _ _ _ _ Hb) by set_solver. done. }
  assert (Hi : jat "assessmentId" j = Ok (JString id)).
  { rewrite Hk, !(find_set_ne "assessmentId") by done. by rewrite find_set_eq. }
  assert (He : jat "sourceExerciseId" j = Ok (JString (ep_id e))).
  { rewrite Hk, !(find_set_ne "sourceExerciseId") by done. by rewrite find_set_eq. }
  unfold at_string. by rewrite Hm, Hi, He.
Qed.

Lemma find_member k o v : obj_find k o = Some v -> In (k, v) o.
Proof.
  induction o as [|[k' v'] o IH]; cbn [obj_find]; [done|].
  destruct (String.eqb k k') eqn:E; [|right; by apply IH]. apply String.eqb_eq in E as ->.
  intros [= ->]. by left.
Qed.
Lemma member_wf k j v : wf j -> depth j <= maximum_depth -> jat k j = Ok v -> wf v /\ depth v <= maximum_depth.
Proof.
  intros Hw Hd (o & -> & H%find_member)%jat_Ok. apply wf_object in Hw as [_ Hw].
  apply depth_object in Hd. rewrite List.Forall_forall in Hw, Hd.
  specialize (Hw _ H). specialize (Hd _ H). cbn in *. split; [done|lia].
Qed.
Lemma correlated_Ok fields request status k :
  wf request -> depth request <= maximum_depth -> wf status -> depth status <= maximum_depth ->
  correlated fields request status = Ok tt -> k ∈ fields ->
  exists v, jat k request = Ok v /\ jat k status = Ok v.
Proof.
  intros Hw Hd Hw' Hd'. induction fields as [|f fields IH]; intros H Hk; [set_solver|].
  cbn [correlated] in H. apply bind_Ok in H as (r & Hr & H). apply bind_Ok in H as (rc & Hrc & H).
  apply bind_Ok in H as (s & Hs & H). apply bind_Ok in H as (sc & Hsc & H).
  destruct (String.eqb rc sc) eqn:E; [|done]. apply String.eqb_eq in E as ->.
  apply elem_of_cons in Hk as [->|Hk]; [|by apply IH].
  destruct (member_wf _ _ _ Hw Hd Hr) as [? ?]. destruct (member_wf _ _ _ Hw' Hd' Hs) as [? ?].
  assert (r = s) as -> by (by eapply canonical_inj). eauto.
Qed.
Lemma copy_fields_other fields a o o' k :
  copy_fields fields a o = Ok o' -> ~ k ∈ fields -> obj_find k o' = obj_find k o.
Proof.
  revert o. induction fields as [|f fields IH]; intros o H Hk; cbn [copy_fields] in H.
  - by apply Ok_inj in H as ->.
  - apply bind_Ok in H as (v & _ & H). apply IH in H; [|set_solver]. rewrite H, find_set_ne; [done|set_solver].
Qed.
Lemma copy_fields_find fields a o o' k :
  copy_fields fields a o = Ok o' -> k ∈ fields -> NoDup fields ->
  exists v, jat k a = Ok v /\ obj_find k o' = Some v.
Proof.
  revert o. induction fields as [|f fields IH]; intros o H Hk Hd; [set_solver|]. cbn [copy_fields] in H.
  apply bind_Ok in H as (v & Hv & H). apply NoDup_cons in Hd as [Hf Hd].
  apply elem_of_cons in Hk as [->|Hk]; [|by eapply IH].
  exists v. split; [done|]. rewrite (copy_fields_other _ _ _ _ _ H Hf). apply find_set_eq.
Qed.
Lemma validated_status s :
  validate_gateway_status s = Ok tt ->
  exists rid epoch seq st,
    at_string "requestId" s = Ok rid /\ is_uuid rid = true /\
    at_string "producerEpoch" s = Ok epoch /\ is_uuid epoch = true /\
    at_integer "sequence" s = Ok seq /\ 1 <= seq /\
    at_string "state" s = Ok st /\ st ∈ gateway_states.
Proof.
  unfold validate_gateway_status. intros H. apply bind_Ok in H as (ok & _ & H). destruct ok; [|done].
  cbn [negb] in H. apply bind_Ok in H as (rid & H1 & H). destruct (is_uuid rid) eqn:E1; [|done].
  apply bind_Ok in H as (ep & H2 & H). destruct (is_uuid ep) eqn:E2; [|done].
  apply bind_Ok in H as (seq & H3 & H). destruct (seq <? 1) eqn:E3; [done|].
  apply bind_Ok in H as (st & H4 & H). destruct (find_string st gateway_states) eqn:E4; [|done].
  exists rid, ep, seq, st. b2p. apply find_string_In in E4. by split_and!.
Qed.

(** Drops the steps of a computation that returned, up to the last. *)
Ltac unbind H :=
  repeat lazymatch type of H with mbind _ _ = Ok _ => apply bind_Ok in H as (? & _ & H) end.

Lemma event_sealed a j : event_message a = Ok j -> sealed j.
Proof. intros H. unfold event_message in H. unbind H. by apply wrap_Ok in H as [? _]. Qed.
Lemma fact_sealed m r s now j : advisory_fact m r s now = Ok j -> sealed j.
Proof.
  intros H. unfold advisory_fact in H. do 2 apply bind_Ok in H as (? & _ & H).
  destruct (negb _); [done|]. do 2 apply bind_Ok in H as (? & _ & H).
  apply bind_Ok in H as ([|] & _ & H); [done|]. unbind H. by apply wrap_Ok in H as [? _].
Qed.

(** ** Properties *)

(** Every assessment, band event and advisory fact carries the hash of its own content. *)
Theorem messages_sealed j :
  (exists m a e model, assessment_message m a e model = Ok j) \/
  (exists a, event_message a = Ok j) \/
  (exists m request status now, advisory_fact m request status now = Ok j) ->
  sealed j.
Proof.
  intros [(m & a & e & model & H)|[(a & H)|(m & r & s & now & H)]].
  - by apply assessment_message_Ok in H as [? _].
  - by eapply event_sealed.
  - by eapply fact_sealed.
Qed.

(** Assessing the same exercise of the same unit again with the same model, whatever the
    assessment and the rest of the metadata, gives a message with the same key, so the backend
    recognises the duplicate. *)
Theorem assessment_key_stable m a e model j m' a' e' j' :
  assessment_message m a e model = Ok j -> assessment_message m' a' e' model = Ok j' ->
  unit_system_uid m = unit_system_uid m' -> ep_id e = ep_id e' ->
  message_key j = message_key j' /\ at_string "assessmentId" j = at_string "assessmentId" j'.
Proof.
  intros H H' Hu He. apply assessment_message_Ok in H as (_ & _ & _ & id & H1 & H2 & _ & H3 & H4 & H5).
  apply assessment_message_Ok in H' as (_ & _ & _ & id' & H1' & H2' & _ & H3' & H4' & H5').
  rewrite <- Hu, <- He, H1 in H1'. apply Ok_inj in H1' as <-.
  split; [|congruence]. unfold message_key, message_key_json.
  rewrite H3, H3'. cbn [mbind res_mbind]. change (key_field _) with (Some "assessmentId"%string).
  cbn [of_option mbind res_mbind]. rewrite H4, H4', H5, H5', Hu. done.
Qed.

(** An advisory request sets exactly the bands worse than good and clears the good band; it
    recommends something exactly when it sets; it is issued at [now], expires thirty seconds
    later, and the two texts compare so. *)
Theorem advisory_request_fields m epoch seq decision b now r :
  0 <= now -> now + 30000 < year_10000_ms ->
  advisory_request m epoch seq decision b now = Ok r ->
  1 <= seq /\ b <> NotEvaluated /\ at_integer "sequence" r = Ok seq /\
  at_string "producerEpoch" r = Ok epoch /\ at_string "decisionId" r = Ok decision /\
  at_string "operation" r = Ok (if band_eqb b Good then "CLEAR" else "SET")%string /\
  (jat "recommendation" r = if band_eqb b Good then Err OutOfRange else Ok (JString (recommendation_of b))) /\
  (exists id, uuid_v5 epoch [to_string seq] = Ok id /\ at_string "requestId" r = Ok id) /\
  exists i x, at_string "issuedAt" r = Ok i /\ at_string "expiresAt" r = Ok x /\
    utc_timestamp now = Ok i /\ utc_timestamp (now + 30000) = Ok x /\ str_ltb i x = true.
Proof.
  intros Hn Hy. unfold advisory_request. destruct (_ || _) eqn:E; [done|]. intros Hr.
  apply bind_Ok in Hr as (id & Hid & Hr). apply bind_Ok in Hr as (i & Hi & Hr).
  apply bind_Ok in Hr as (x & Hx & Hr). cbn zeta in Hr. apply Ok_inj in Hr as <-. b2p.
  assert (b <> NotEvaluated) by (intros ->; discriminate).
  assert (Hf : forall k, k <> "recommendation"%string -> forall o v,
    obj_find k o = Some v -> jat k (JObject (if band_eqb b Good then o
      else obj_set "recommendation" (JString (recommendation_of b)) o)) = Ok v).
  { intros k Hk o v Hv. apply jat_Ok. eexists. split; [done|].
    destruct (band_eqb b Good); [done|]. by rewrite find_set_ne. }
  unfold at_string, at_integer. split_and!; try done;
    try (erewrite Hf by (done || (rewrite find_obj_of; reflexivity)); reflexivity).
  - rewrite jat_object. destruct (band_eqb b Good); [by rewrite find_obj_of|]. by rewrite find_set_eq.
  - exists id. split; [done|]. by erewrite Hf by (done || (rewrite find_obj_of; reflexivity)).
  - exists i, x. split_and!; try done;
      try (erewrite Hf by (done || (rewrite find_obj_of; reflexivity)); reflexivity).
    by apply (utc_timestamp_lt now (now + 30000) i x); [lia|lia|..].
Qed.

(** An advisory fact is recorded only for a status that answers the request: the identifier,
    the epoch and the sequence of both are equal and are those of the fact, and an applied
    status answers a set, a cleared one a clear. *)
Theorem advisory_fact_correlated m request status now fact :
  wf request -> depth request <= maximum_depth -> wf status -> depth status <= maximum_depth ->
  advisory_fact m request status now = Ok fact ->
  Forall (fun k => exists v, jat k request = Ok v /\ jat k status = Ok v /\ jat k fact = Ok v) correlation_fields /\
  exists st, at_string "state" status = Ok st /\ st ∈ gateway_states /\
    jat "gatewayState" fact = Ok (JString st) /\
    at_string "serviceVersion" request = Ok (service_version m) /\
    (st = "APPLIED"%string -> at_string "operation" request = Ok "SET"%string) /\
    (st = "CLEARED"%string -> at_string "operation" request = Ok "CLEAR"%string).
Proof.
  intros Hw Hd Hw' Hd' H. unfold advisory_fact in H. apply bind_Ok in H as ([] & Hv & H).
  apply bind_Ok in H as (version & Hver & H). destruct (negb _) eqn:Eq; [done|]. b2p.
  apply String.eqb_eq in Eq as <-. apply bind_Ok in H as ([] & Hc & H).
  apply bind_Ok in H as (st & Hst & H). apply bind_Ok in H as (bad & Hbad & H). destruct bad; [done|].
  apply bind_Ok in H as (msg & Hb & H). apply bind_Ok in H as (msg2 & Hcp & H).
  do 13 apply bind_Ok in H as (? & _ & H). apply wrap_Ok in H as (_ & _ & Hk).
  apply validated_status in Hv as (_ & _ & _ & st' & _ & _ & _ & _ & _ & _ & Hst' & Hin).
  assert (st' = st) as -> by congruence. split.
  - apply Forall_forall. intros k Hkin.
    destruct (correlated_Ok _ _ _ k Hw Hd Hw' Hd' Hc Hkin) as (v & H1 & H2). exists v. split_and!; [done..|].
    destruct (copy_fields_find _ _ _ _ k Hcp Hkin) as (v' & H3 & H4).
    { unfold correlation_fields. repeat constructor; set_solver. }
    assert (v' = v) as -> by congruence. unfold correlation_fields in Hkin.
    rewrite Hk, !find_set_ne, H4 by set_solver. done.
  - exists st. split_and!; try done.
    + rewrite Hk by done. rewrite (find_set_ne "gatewayState") by done. by rewrite find_set_eq.
    + intros ->. cbn [String.eqb Ascii.eqb Bool.eqb] in Hbad. apply bind_Ok in Hbad as (op & Hop & Hbad).
      apply Ok_inj, negb_false_iff, String.eqb_eq in Hbad as ->. done.
    + intros ->. cbn in Hbad. apply bind_Ok in Hbad as (op & Hop & Hbad).
      apply Ok_inj, negb_false_iff, String.eqb_eq in Hbad as ->. done.
Qed.

(** ** Witnesses *)

Definition sample_features : Features := MkFeatures 9000 8000 7000 6000.
Definition sample_assessment : Assessment :=
  MkAssessment sample_features 40 7500 25 100 NotEvaluated Replacement true.
Definition sample_assessed : res Json :=
  assessment_message sample_metadata sample_assessment sample_exercise kModelConfigSha256.
Definition get_ok (m : res Json) : Json := catch_all m JNull.
Lemma messages_sealed_witness : sealed (get_ok (j ← sample_assessed; event_message j)).
Proof.
  apply messages_sealed. right. left. exists (get_ok sample_assessed). vm_compute. reflexivity.
Defined.
Lemma assessment_key_stable_witness :
  let other := MkAssessment (MkFeatures 0 0 0 0) 20 0 100 50 Good Good false in
  let j := get_ok (assessment_message sample_metadata other sample_exercise kModelConfigSha256) in
  message_key (get_ok sample_assessed) = message_key j /\
  at_string "assessmentId" (get_ok sample_assessed) = at_string "assessmentId" j.
Proof.
  cbn zeta. apply (assessment_key_stable sample_metadata sample_assessment sample_exercise kModelConfigSha256 _
    sample_metadata (MkAssessment (MkFeatures 0 0 0 0) 20 0 100 50 Good Good false) sample_exercise);
    [vm_compute; reflexivity|vm_compute; reflexivity|reflexivity|reflexivity].
Defined.
Definition sample_request : Json :=
  get_ok (advisory_request sample_metadata sample_source 7 sample_source Replacement 1709210096789).
Lemma advisory_request_fields_witness :
  at_integer "sequence" sample_request = Ok 7 /\ at_string "operation" sample_request = Ok "SET"%string.
Proof.
  destruct (advisory_request_fields sample_metadata sample_source 7 sample_source Replacement 1709210096789 sample_request)
    as (_ & _ & H1 & _ & _ & H2 & _); [lia|vm_compute; reflexivity|vm_compute; reflexivity|].
  split; [exact H1|exact H2].
Defined.
Definition sample_status : Json :=
  JObject (obj_of
    [("schemaVersion", JInt 1); ("requestId", get_ok (jat "requestId" sample_request));
     ("producerEpoch", JString sample_source); ("sequence", JInt 7); ("state", JString "APPLIED");
     ("activeRecommendation", JString "TIRE_REPLACEMENT_RECOMMENDED");
     ("activeReasonCode", JString "PREDICTED_TIRE_WEAR"); ("reason", JString "NONE");
     ("gatewayObservedAt", JString "2024-02-29T12:34:57Z"); ("activeUntil", JNull)]%string).
Lemma advisory_fact_correlated_witness :
  exists fact, advisory_fact sample_metadata sample_request sample_status 1709210097000 = Ok fact /\
    Forall (fun k => exists v, jat k sample_request = Ok v /\ jat k sample_status = Ok v /\ jat k fact = Ok v)
      correlation_fields.
Proof.
  destruct (advisory_fact sample_metadata sample_request sample_status 1709210097000) as [fact|] eqn:E;
    [|vm_compute in E; discriminate].
  exists fact. split; [reflexivity|].
  eapply (advisory_fact_correlated sample_metadata sample_request sample_status 1709210097000 fact); [..|exact E].
  - assert (exists o, sample_request = JObject o /\ obj_sorted o /\
      Forall (fun kv => match kv.2 with JObject _ | JArray _ => False | _ => True end) o) as (o & -> & H1 & H2).
    { eexists. split; [vm_compute; reflexivity|]. split; [sorted_keys|by repeat constructor]. }
    by apply wf_flat.
  - vm_compute. discriminate.
  - assert (exists o, sample_status = JObject o /\ obj_sorted o /\
      Forall (fun kv => match kv.2 with JObject _ | JArray _ => False | _ => True end) o) as (o & -> & H1 & H2).
    { eexists. split; [vm_compute; reflexivity|]. split; [sorted_keys|by repeat constructor]. }
    by apply wf_flat.
  - vm_compute. discriminate.
Defined.
