(* ===== verification/Fits.v ===== *)
(** * Values within a depth

    [fits d j]: the value is well formed and nested at most [d] deep.  What the service builds
    stays within a small depth, so it can be written, journalled and read back; these lemmas
    carry that through the operations on objects, and to the messages and the metadata binding. *)
From Stdlib Require Import ZArith Lia Bool Ascii String Sorted.
From stdpp Require Import gmap strings list.
From S2P Require Import Prelude Chars Sha256 Uuid Json JsonFacts Time Protocol Identity Model Messages.
Local Open Scope Z_scope.

Definition fits (d : Z) (j : Json) : Prop := wf j /\ depth j <= d.
Create HintDb fits.

Lemma fits_weaken d d' j : fits d j -> d <= d' -> fits d' j.
Proof. intros [H1 H2] H. split; [done|lia]. Qed.
Lemma fits_null d : 0 <= d -> fits d JNull.
Proof. by split. Qed.
Lemma fits_string d s : 0 <= d -> fits d (JString s).
Proof. by split. Qed.
Lemma fits_int d n : 0 <= d -> fits d (JInt n).
Proof. by split. Qed.
Lemma fits_bool d b : 0 <= d -> fits d (JBool b).
Proof. by split. Qed.
#[export] Hint Resolve fits_null fits_string fits_int fits_bool : fits.

Lemma depth_object_iff o m : 0 <= m -> depth (JObject o) <= m <-> Forall (fun kv => 1 + depth kv.2 <= m) o.
Proof.
  intros Hm. split; [apply depth_object|]. induction 1 as [|kv o H _ IH]; cbn [depth] in *; lia.
Qed.
Lemma depth_array_iff l m : 0 <= m -> depth (JArray l) <= m <-> Forall (fun x => 1 + depth x <= m) l.
Proof.
  intros Hm. split; [apply depth_array|]. induction 1 as [|x l H _ IH]; cbn [depth] in *; lia.
Qed.
Lemma fits_object d o : 0 <= d -> fits d (JObject o) <-> obj_sorted o /\ Forall (fun kv => fits (d - 1) kv.2) o.
Proof.
  intros Hd. unfold fits. rewrite wf_object, depth_object_iff, !Forall_forall by done. split.
  - intros [[Hs Hw] Hdp]. split; [done|]. intros kv Hin. split; [by apply Hw|]. specialize (Hdp kv Hin). cbn in *. lia.
  - intros [Hs H]. split_and!; [done|intros kv Hin; by apply H|]. intros kv Hin. destruct (H kv Hin). cbn in *. lia.
Qed.
Lemma fits_array d l : 0 <= d -> fits d (JArray l) <-> Forall (fits (d - 1)) l.
Proof.
  intros Hd. unfold fits. rewrite wf_array, depth_array_iff, !Forall_forall by done. split.
  - intros [Hw Hdp] x Hin. split; [by apply Hw|]. specialize (Hdp x Hin). cbn in *. lia.
  - intros H. split; intros x Hin; destruct (H x Hin); [done|]. cbn in *. lia.
Qed.
Lemma set_elem k v o kv : kv ∈ obj_set k v o -> kv = (k, v) \/ kv ∈ o.
Proof.
  induction o as [|[k' v'] o IH]; cbn [obj_set]; [set_solver|].
  destruct (String.eqb k k'); [set_solver|]. destruct (str_ltb k k'); set_solver.
Qed.
Lemma set_Forall (P : string * Json -> Prop) k v o : P (k, v) -> Forall P o -> Forall P (obj_set k v o).
Proof. rewrite !Forall_forall. intros Hv H kv [->|Hin]%set_elem; [done|by apply H]. Qed.
Lemma erase_Forall (P : string * Json -> Prop) k o : Forall P o -> Forall P (obj_erase k o).
Proof. rewrite !Forall_forall. intros H kv Hin. by eapply H, erase_subset. Qed.
Lemma find_elem k o v : obj_find k o = Some v -> (k, v) ∈ o.
Proof. intros H. by apply list_elem_of_In, find_member. Qed.
Lemma of_Forall (P : string * Json -> Prop) l : Forall P l -> Forall P (obj_of l).
Proof.
  unfold obj_of. assert (H : forall o, Forall P o -> Forall P l ->
    Forall P (fold_left (fun o kv => (obj_emplace kv.1 kv.2 o).1) l o)); [|apply H; constructor].
  induction l as [|[k v] l IH]; intros o Ho Hl; [done|]. cbn [fold_left]. apply Forall_cons in Hl as [Hv Hl].
  apply IH; [|done]. unfold obj_emplace. cbn [fst snd]. destruct (obj_find k o); [done|]. by apply set_Forall.
Qed.

Lemma fits_set d k v o : 0 <= d -> fits d (JObject o) -> fits (d - 1) v -> fits d (JObject (obj_set k v o)).
Proof.
  intros Hd. rewrite !fits_object by done. intros [Hs Ho] Hv. split; [by apply set_sorted|]. by apply set_Forall.
Qed.
Lemma fits_erase d k o : 0 <= d -> fits d (JObject o) -> fits d (JObject (obj_erase k o)).
Proof.
  intros Hd. rewrite !fits_object by done. intros [Hs Ho]. split; [by apply erase_sorted|]. by apply erase_Forall.
Qed.
Lemma fits_emplace d k v o : 0 <= d -> fits d (JObject o) -> fits (d - 1) v -> fits d (JObject (obj_emplace k v o).1).
Proof. intros Hd Ho Hv. unfold obj_emplace. destruct (obj_find k o); [done|]. by apply fits_set. Qed.
Lemma fits_of d l : 0 <= d -> Forall (fun kv => fits (d - 1) kv.2) l -> fits d (JObject (obj_of l)).
Proof. intros Hd H. apply fits_object; [done|]. split; [apply obj_of_sorted|by apply of_Forall]. Qed.
Lemma fits_find d k o v : 0 <= d -> fits d (JObject o) -> obj_find k o = Some v -> fits (d - 1) v.
Proof.
  intros Hd. rewrite fits_object by done. rewrite Forall_forall. intros [_ H] Hf%find_elem. by apply (H (k, v)).
Qed.
Lemma fits_at d k j v : 0 <= d -> fits d j -> jat k j = Ok v -> fits (d - 1) v.
Proof. intros Hd Hj (o & -> & H)%jat_Ok. by eapply fits_find. Qed.
(** A member of a value that is one deep is no deeper than any depth. *)
Lemma fits_leaf k j v d : fits 1 j -> jat k j = Ok v -> 0 <= d -> fits d v.
Proof. intros Hj Hv Hd. eapply fits_weaken; [eapply (fits_at 1); [lia|done..]|lia]. Qed.
Lemma fits_parse text limit j : parse_json text limit = Ok j -> fits maximum_depth j.
Proof.
  unfold parse_json. intros H. destruct (_ <? _); [done|]. split; [by eapply parse_wf|by eapply parse_depth].
Qed.
Lemma fits_strings d ss : 1 <= d -> fits d (JArray (map JString ss)).
Proof. intros Hd. apply fits_array; [lia|]. apply Forall_map, Forall_true. intros s. apply fits_string. lia. Qed.

(** A map with as many keys as expected has no other keys. *)
Lemma sorted_keys_nodup o : obj_sorted o -> NoDup (map fst o).
Proof.
  induction 1 as [|[k v] o Hs IH Hf]; cbn [map]; constructor; [|done].
  intros Hin. apply list_elem_of_In, in_map_iff in Hin as ([k' v'] & E & Hin). cbn in E. subst k'.
  rewrite List.Forall_forall in Hf. specialize (Hf _ Hin). unfold key_lt in Hf. cbn in Hf. by rewrite str_ltb_irrefl in Hf.
Qed.
Lemma exact_keys (names : list string) o kv :
  obj_sorted o -> NoDup names -> length o = length names ->
  Forall (fun k => is_Some (obj_find k o)) names -> kv ∈ o -> kv.1 ∈ names.
Proof.
  intros Hs Hn Hl Hf Hin. pose proof (sorted_keys_nodup o Hs) as Hd.
  assert (Hsub : names ⊆+ map fst o).
  { apply NoDup_submseteq; [done|]. intros k Hk. rewrite Forall_forall in Hf. destruct (Hf k Hk) as [v Hv].
    apply list_elem_of_In, in_map_iff. exists (k, v). split; [done|by apply find_member]. }
  apply submseteq_length_Permutation in Hsub; [|rewrite length_map; lia].
  rewrite Hsub. apply list_elem_of_In, in_map, list_elem_of_In, Hin.
Qed.

(** ** Metadata and messages *)

(** Solves [fits] of the objects the code writes out. *)
Ltac fits_step :=
  match goal with
  | H : fits _ ?j |- fits _ ?j => apply (fits_weaken _ _ _ H); lia
  | |- fits _ (JObject (obj_of _)) => apply fits_of; [lia|]
  | |- fits _ (JObject (obj_set _ _ _)) => apply fits_set; [lia| |]
  | |- fits _ (JObject (obj_erase _ _)) => apply fits_erase; [lia|]
  | |- fits _ (JObject (obj_emplace _ _ _).1) => apply fits_emplace; [lia| |]
  | |- fits _ JNull => apply fits_null; lia
  | |- fits _ (JString _) => apply fits_string; lia
  | |- fits _ (JInt _) => apply fits_int; lia
  | |- fits _ (JBool _) => apply fits_bool; lia
  | |- Forall _ [] => apply Forall_nil; exact I
  | |- Forall _ (_ :: _) => apply Forall_cons; split
  | |- fits _ _ => progress cbn [fst snd]
  | |- (_ <= _)%Z => lia
  end.
Ltac fits_tac := repeat fits_step.

Lemma instance_parses i t si limit :
  0 <= instance_index i -> service_instance_json i = Ok t -> parse_json t limit = Ok si ->
  si = JObject (instance_object i) /\ native_instance_valid i = true.
Proof.
  intros Hn Ht Hsi. pose proof Ht as Ht0. unfold service_instance_json in Ht0.
  destruct (native_instance_valid i) eqn:Hv; [|done]. clear Ht0.
  rewrite service_instance_json_canonical in Ht by done.
  apply (reparsed (JObject (instance_object i))) in Hsi as ->; [done|..];
    [apply wf_flat; [sorted_keys|by repeat constructor]|discriminate|done].
Qed.
Lemma instance_fits i d : 1 <= d -> fits d (JObject (instance_object i)).
Proof.
  intros Hd. apply fits_object; [lia|]. split; [sorted_keys|]. unfold instance_object. fits_tac.
Qed.
Lemma binding_fits m j : index_nonneg m -> metadata_binding m = Ok j -> fits 2 j.
Proof.
  unfold metadata_binding, index_nonneg. intros Hn H. destruct (_ && _); [done|].
  apply bind_Ok in H as (v & Hv & H). apply bind_Ok in H as (m' & _ & H). apply Ok_inj in H as <-.
  assert (Hb : fits 2 (JObject (binding_fields m))) by (unfold binding_fields; fits_tac).
  destruct (service_instance m) as [i|].
  - destruct (negb _); [done|]. apply bind_Ok in Hv as (t & Ht & Hv). apply bind_Ok in Hv as (si & Hsi & Hv).
    apply Ok_inj in Hv as <-. destruct (instance_parses _ _ _ _ Hn Ht Hsi) as [-> _].
    pose proof (instance_fits i 1 ltac:(lia)). fits_tac.
  - apply Ok_inj in Hv as <-. fits_tac.
Qed.
Lemma base_fits m type o : index_nonneg m -> base m type = Ok o -> fits 2 (JObject o).
Proof.
  unfold base, index_nonneg. cbn zeta. intros Hn H. destruct (service_instance m) as [i|].
  - apply bind_Ok in H as (b & _ & H). apply bind_Ok in H as (t & Ht & H). apply bind_Ok in H as (si & Hsi & H).
    apply Ok_inj in H as <-. destruct (instance_parses _ _ _ _ Hn Ht Hsi) as [-> _].
    pose proof (instance_fits i 1 ltac:(lia)). fits_tac.
  - apply Ok_inj in H as <-. fits_tac.
Qed.
Lemma wrap_fits d message content j :
  2 <= d -> fits d (JObject message) -> fits (d - 1) content -> wrap message content = Ok j -> fits d j.
Proof.
  unfold wrap. intros Hd Hm Hc H. apply bind_Ok in H as (c & _ & H). apply Ok_inj in H as <-. fits_tac.
Qed.
Lemma assessment_fits m a e model j : index_nonneg m -> assessment_message m a e model = Ok j -> fits 3 j.
Proof.
  unfold assessment_message. intros Hn H. destruct (_ || _); [done|]. apply bind_Ok in H as (msg & Hb & H).
  apply base_fits in Hb; [|done]. apply (fits_weaken _ 3) in Hb; [|lia].
  apply bind_Ok in H as (id & _ & H). apply bind_Ok in H as (t & _ & H). cbn zeta in H.
  eapply wrap_fits; [..|exact H]; [lia|fits_tac|].
  unfold assessment_content, features_json. fits_tac.
Qed.
Lemma copy_fits d fields a o o' :
  0 <= d -> fits d a -> fits d (JObject o) -> copy_fields fields a o = Ok o' -> fits d (JObject o').
Proof.
  intros Hd Ha. revert o. induction fields as [|k fields IH]; intros o Ho H; cbn [copy_fields] in H.
  - by apply Ok_inj in H as <-.
  - apply bind_Ok in H as (v & Hv & H). eapply IH; [|exact H]. apply (fits_at d) in Hv; [|done..]. fits_tac.
Qed.
Lemma event_fits a j : fits 3 a -> event_message a = Ok j -> fits 3 j.
Proof.
  unfold event_message. intros Ha H.
  apply bind_Ok in H as (c & Hc & H). apply bind_Ok in H as (current & _ & H).
  apply bind_Ok in H as (sv & H1 & H). apply bind_Ok in H as (cv & H2 & H). apply bind_Ok in H as (aid & H3 & H).
  apply bind_Ok in H as (uid & H4 & H). apply bind_Ok in H as (t & H5 & H).
  apply bind_Ok in H as (at_ & _ & H). apply bind_Ok in H as (id & _ & H). cbn zeta in H.
  apply bind_Ok in H as (v & _ & H). apply bind_Ok in H as (msg & Hm & H).
  apply (fits_at 3) in Hc, H1, H2, H3, H4, H5; [|lia|done..]. cbn [Z.sub Z.add Z.opp Z.pos_sub] in *.
  apply bind_Ok in H as (pb & P1 & H). apply bind_Ok in H as (cb & P2 & H).
  apply bind_Ok in H as (cs & P3 & H). apply bind_Ok in H as (cp & P4 & H).
  apply (fits_at 2) in P1, P2, P3, P4; [|lia|done..].
  eapply wrap_fits; [..|exact H]; [lia| |fits_tac].
  assert (Ho : fits 3 (JObject (obj_of [("schemaVersion", sv); ("contractVersion", cv);
    ("messageType", JString "TIRE_CONDITION_BAND_CHANGED"); ("assessmentId", aid); ("unitSystemUid", uid);
    ("sourceEventTime", t); ("eventId", JString id)]%string))) by fits_tac.
  destruct (v =? 2); [by eapply (copy_fits 3 _ a); [lia| | |exact Hm]|].
  destruct (v =? 1); [by apply Ok_inj in Hm as <-|done].
Qed.
Lemma request_fits m epoch seq decision b now r : advisory_request m epoch seq decision b now = Ok r -> fits 1 r.
Proof.
  unfold advisory_request. intros H. destruct (_ || _); [done|].
  apply bind_Ok in H as (id & _ & H). apply bind_Ok in H as (i & _ & H). apply bind_Ok in H as (x & _ & H).
  apply Ok_inj in H as <-. destruct (band_eqb b Good); fits_tac.
Qed.

(** A validated status is flat: its ten keys are the ten fields, and each is a string, an integer
    or null. *)
Definition status_keys : list string :=
  ["schemaVersion"; "requestId"; "producerEpoch"; "sequence"; "state"; "activeRecommendation";
   "activeReasonCode"; "reason"; "gatewayObservedAt"; "activeUntil"]%string.
Definition member_fits (d : Z) (j : Json) (k : string) : Prop := exists v, jat k j = Ok v /\ fits d v.
Lemma leaf_string d k j s : 0 <= d -> at_string k j = Ok s -> member_fits d j k.
Proof.
  unfold at_string. intros Hd (v & Hv & Hs)%bind_Ok. exists v. split; [done|]. by destruct v.
Qed.
Lemma leaf_integer d k j n : 0 <= d -> at_integer k j = Ok n -> member_fits d j k.
Proof.
  unfold at_integer. intros Hd (v & Hv & Hs)%bind_Ok. exists v. split; [done|]. by destruct v.
Qed.
(** The depth of an object whose keys are all accounted for. *)
Lemma keyed_fits d names j :
  0 <= d -> wf j -> NoDup names -> (exists o, j = JObject o /\ length o = length names) ->
  Forall (member_fits (d - 1) j) names -> fits d j.
Proof.
  intros Hd Hw Hn (o & -> & Hl) Hf. apply wf_object in Hw as [Hs _]. apply fits_object; [lia|]. split; [done|].
  apply Forall_forall. intros [k v] Hin. cbn [snd].
  assert (Hall : Forall (fun k => is_Some (obj_find k o)) names).
  { eapply Forall_impl; [exact Hf|]. intros k' (w & (o' & [= <-] & Hw)%jat_Ok & _). by exists w. }
  pose proof (exact_keys names o (k, v) Hs Hn Hl Hall Hin) as Hk. cbn [fst] in Hk.
  rewrite Forall_forall in Hf. destruct (Hf k Hk) as (w & (o' & [= <-] & Hw)%jat_Ok & Hfit).
  enough (w = v) as -> by done. clear -Hs Hin Hw. induction Hs as [|[k' v'] o Hs IH Hlt]; [set_solver|].
  cbn [obj_find] in Hw. apply elem_of_cons in Hin as [[= <- <-]|Hin].
  - rewrite String.eqb_refl in Hw. by injection Hw.
  - destruct (String.eqb k k') eqn:E; [|by apply IH]. apply String.eqb_eq in E as ->.
    rewrite List.Forall_forall in Hlt. apply list_elem_of_In in Hin. specialize (Hlt _ Hin).
    unfold key_lt in Hlt. cbn in Hlt. by rewrite str_ltb_irrefl in Hlt.
Qed.
Lemma status_fits j : wf j -> validate_gateway_status j = Ok tt -> fits 1 j.
Proof.
  intros Hw H. unfold validate_gateway_status in H.
  apply bind_Ok in H as (ok & Hok & H). destruct ok; [|done]. cbn [negb] in H.
  apply bind_Ok in H as (rid & H1 & H). destruct (negb (is_uuid rid)); [done|].
  apply bind_Ok in H as (ep & H2 & H). destruct (negb (is_uuid ep)); [done|].
  apply bind_Ok in H as (seq & H3 & H). destruct (seq <? 1); [done|].
  apply bind_Ok in H as (st & H4 & H). destruct (negb (find_string st _)); [done|].
  apply bind_Ok in H as (rec & H5 & H). apply bind_Ok in H as (rea & H6 & H).
  apply bind_Ok in H as (gre & H7 & H). destruct (negb (find_string gre _)); [done|].
  apply bind_Ok in H as (obs & H8 & H). destruct (negb (date_time obs)); [done|].
  apply bind_Ok in H as (unt & H9 & H). apply bind_Ok in H as (bad & H10 & H).
  unfold schema_is in Hok. apply bind_Ok in Hok as (o & Ho & Hok).
  destruct (negb (obj_size o =? 10)) eqn:E10; [done|]. apply bind_Ok in Hok as (v & H0 & _).
  apply (keyed_fits 1 status_keys); [lia|done|by repeat (constructor; [set_solver|]); constructor|..].
  - exists o. destruct j; try done. apply Ok_inj in Ho as ->. split; [done|].
    apply negb_false_iff, Z.eqb_eq in E10. unfold obj_size in E10. cbn. lia.
  - unfold status_keys. repeat (apply Forall_cons; split; [first [by eapply leaf_string; [lia|]|by eapply leaf_integer; [lia|]|idtac]|]);
      [|constructor].
    exists unt. split; [done|]. destruct unt; try done.
Qed.
Lemma fact_fits m request status now j :
  index_nonneg m -> fits 1 request -> fits 1 status -> advisory_fact m request status now = Ok j -> fits 3 j.
Proof.
  unfold advisory_fact. intros Hn Hr Hs H. apply bind_Ok in H as (? & _ & H). apply bind_Ok in H as (? & _ & H).
  destruct (negb _); [done|]. do 2 apply bind_Ok in H as (? & _ & H).
  apply bind_Ok in H as ([|] & _ & H); [done|]. apply bind_Ok in H as (msg & Hb & H).
  apply bind_Ok in H as (msg2 & Hc & H). apply bind_Ok in H as (t & _ & H). cbn zeta in H.
  apply base_fits in Hb; [|done]. apply (fits_weaken _ 3) in Hb; [|lia].
  apply (copy_fits 3) in Hc; [|lia|eapply fits_weaken; [exact Hr|lia]|done].
  do 10 (apply bind_Ok in H as (? & ?F & H)). apply bind_Ok in H as (o & Ho & H).
  apply bind_Ok in H as (content & Hco & H).
  eapply wrap_fits; [..|exact H]; [lia|fits_tac|]. cbn [Z.sub Z.add Z.opp Z.pos_sub].
  repeat match goal with X : jat _ _ = Ok _ |- _ => apply (fits_leaf _ _ _ 1) in X; [|assumption|lia] end.
  destruct (obj_count "recommendation" o).
  - apply bind_Ok in Hco as (r & Hrc & Hco). apply (fits_leaf _ _ _ 1) in Hrc; [|done|lia].
    apply Ok_inj in Hco as <-. fits_tac.
  - apply Ok_inj in Hco as <-. fits_tac.
Qed.
Lemma parsed_binding_nonneg j m : parse_metadata_binding j = Ok m -> index_nonneg m.
Proof.
  unfold parse_metadata_binding. intros H. apply bind_Ok in H as (v & _ & H). destruct (v =? 1).
  - apply bind_Ok in H as (c & _ & H). unfold parse_legacy_metadata in H.
    apply bind_Ok in H as (json & _ & H). apply bind_Ok in H as ([|] & _ & H); [|done]. cbn [negb] in H.
    unbind H. destruct (_ || _); [done|]. apply Ok_inj in H as <-. exact I.
  - apply bind_Ok in H as ([|] & _ & H); [|done]. cbn [negb] in H.
    apply bind_Ok in H as (ver & _ & H). apply bind_Ok in H as (si & _ & H). apply bind_Ok in H as (i & Hi & H).
    apply bind_Ok in H as (o & _ & H). cbn zeta in H. apply bind_Ok in H as (c & _ & H).
    unfold parse_metadata in H. apply bind_Ok in H as (json & _ & H). apply bind_Ok in H as ([|] & _ & H); [|done].
    cbn [negb] in H. unbind H. destruct (_ || _); [done|]. apply Ok_inj in H as <-. unfold index_nonneg. cbn [service_instance native_instance].
    unfold parse_service_instance in Hi. apply bind_Ok in Hi as (oo & _ & Hi). destruct (negb _); [done|].
    apply bind_Ok in Hi as (n & _ & Hi). destruct (n <? 0) eqn:En; [done|]. b2p.
    do 3 apply bind_Ok in Hi as (? & _ & Hi). cbn zeta in Hi. destruct (native_instance_valid _); [|done].
    apply Ok_inj in Hi as <-. cbn. lia.
Qed.
