(* ===== verification/StateCheck.v ===== *)
(** * The check of the durable state (StateStore::validate_state of src/state.cpp)

    A pure function of the unit and the state's JSON value: the store runs it on what it reads,
    on what it is asked to commit and on what the journal holds. *)
From Stdlib Require Import ZArith Lia Bool Ascii String.
From stdpp Require Import gmap strings list.
From S2P Require Import Prelude Chars Sha256 Uuid Json JsonFacts Time Protocol Identity Model Messages.
Local Open Scope Z_scope.

Definition not_ready : exn := RuntimeError "NOT_READY_STATE".
(** [if (b) throw NOT_READY_STATE;] *)
Definition not_ready_if (b : bool) : res unit := throw_if b not_ready.
Definition maximum_state : Z := 131072.

(** Each element is a string that passes the test and was not seen before. *)
Fixpoint distinct_strings (ok : string -> bool) (l : list Json) (seen : list string) : res unit :=
  match l with
  | [] => Ok tt
  | item :: l' =>
    v ← jstring item;
    _ ← not_ready_if (negb (ok v));
    _ ← not_ready_if (find_string v seen);
    distinct_strings ok l' (v :: seen)
  end.
Definition count_of (k : string) (o : Object) : Z := if obj_count k o then 1 else 0.

Definition validate_request_metadata (uid : string) (value : Json) : res unit :=
  o ← object value;
  if negb (obj_count "lastRequestMetadata" o) then Ok tt
  else
    b ← jat "lastRequestMetadata" value;
    m ← parse_metadata_binding b;
    request ← jat "lastRequest" value;
    _ ← not_ready_if (is_null request || negb (String.eqb (unit_system_uid m) uid));
    v ← at_string "serviceVersion" request;
    not_ready_if (negb (String.eqb (service_version m) v)).
Definition validate_top (uid : string) (value : Json) : res unit :=
  o ← object value;
  _ ← not_ready_if (negb (obj_size o =? 8 + count_of "lastRequestMetadata" o + count_of "demoReset" o));
  v ← at_integer "schemaVersion" value; _ ← not_ready_if (negb (v =? 1));
  u ← at_string "unitSystemUid" value; _ ← not_ready_if (negb (String.eqb u uid));
  e ← at_string "producerEpoch" value; _ ← not_ready_if (negb (is_uuid e));
  n ← at_integer "nextAdvisorySequence" value; _ ← not_ready_if (n <? 1);
  p ← at_integer "lastPublishedAt" value; _ ← not_ready_if (p <? 0);
  c ← canonical value; not_ready_if (maximum_state <? ssize c).

(** [canonical(a.at(k)) != canonical(b.at(k))] throws, for each key. *)
Fixpoint same_fields (keys : list string) (a b : Json) : res unit :=
  match keys with
  | [] => Ok tt
  | k :: keys' =>
    x ← jat k a; xc ← canonical x; y ← jat k b; yc ← canonical y;
    _ ← not_ready_if (negb (String.eqb xc yc));
    same_fields keys' a b
  end.
Definition ack_keys : list string :=
  ["schemaVersion"; "unitSystemUid"; "serviceVersion"; "serviceInstance"; "producerEpoch"]%string.
Definition reset_results : list string := ["CLEARED"; "FAILED"; "REJECTED"]%string.
Definition validate_command (uid : string) (value reset command : Json) : res unit :=
  r ← object reset; _ ← not_ready_if (negb (obj_size r =? 4));
  c ← object command; _ ← not_ready_if (negb (obj_size c =? 9));
  v ← at_integer "schemaVersion" command; _ ← not_ready_if (negb (v =? 1));
  u ← at_string "unitSystemUid" command; _ ← not_ready_if (negb (String.eqb u uid));
  e ← at_string "producerEpoch" command; ve ← at_string "producerEpoch" value;
  _ ← not_ready_if (negb (String.eqb e ve));
  op ← at_string "operation" command; _ ← not_ready_if (negb (String.eqb op "RESET_DEMO_SCENARIO"));
  id ← at_string "commandId" command; _ ← not_ready_if (negb (is_uuid id));
  ia ← at_string "issuedAt" command; _ ← not_ready_if (negb (date_time ia));
  ea ← at_string "expiresAt" command; not_ready_if (negb (date_time ea)).
Definition validate_reset_ack (reset command : Json) : res unit :=
  ack ← jat "ack" reset;
  if is_null ack then d ← at_boolean "delivered" reset; not_ready_if d
  else
    o ← object ack; _ ← not_ready_if (negb (obj_size o =? 9));
    id ← at_string "commandId" ack; cid ← at_string "commandId" command;
    _ ← not_ready_if (negb (String.eqb id cid));
    result ← at_string "result" ack;
    _ ← not_ready_if (negb (find_string result reset_results));
    _ ← (if String.eqb result "REJECTED" then
           cr ← jat "clearRequest" ack;
           bad ← (if negb (is_null cr) then Ok true else gs ← jat "gatewayStatus" ack; Ok (negb (is_null gs)));
           not_ready_if bad
         else Ok tt);
    same_fields ack_keys ack command.
Definition validate_reset (validate : Json -> res unit) (uid : string) (value : Json) : res unit :=
  o ← object value;
  if negb (obj_count "demoReset" o) then Ok tt
  else
    reset ← jat "demoReset" value;
    command ← jat "command" reset;
    _ ← validate_command uid value reset command;
    si ← jat "serviceInstance" command;
    _ ← parse_service_instance si;
    _ ← at_boolean "delivered" reset;
    _ ← validate_reset_ack reset command;
    pm ← jat "previousModel" reset;
    if is_null pm then Ok tt
    else
      (* The model from before the reset keeps its own sequence; it is validated by itself. *)
      let previous := obj_set "model" pm (obj_erase "demoReset" o) in
      n ← jat "nextAdvisorySequence" pm;
      let previous := obj_set "lastRequest" JNull (obj_set "nextAdvisorySequence" n previous) in
      validate (JObject (obj_erase "lastRequestMetadata" previous)).
Definition validate_last_request (value : Json) : res unit :=
  request ← jat "lastRequest" value;
  if is_null request then Ok tt
  else
    e ← at_string "producerEpoch" request; ve ← at_string "producerEpoch" value;
    _ ← not_ready_if (negb (String.eqb e ve));
    s ← at_integer "sequence" request; n ← at_integer "nextAdvisorySequence" value;
    not_ready_if (n <=? s).
Definition better_names : list string := ["NONE"; "GOOD"; "INSPECTION_RECOMMENDED"]%string.
Definition percent_field (model : Json) (k : string) : res unit :=
  v ← at_integer k model;
  if v <? 0 then Err not_ready else w ← at_integer k model; not_ready_if (100 <? w).
Definition validate_model (value : Json) : res unit :=
  model ← jat "model" value;
  if is_null model then Ok tt
  else
    o ← object model; _ ← not_ready_if (negb (obj_size o =? 13));
    v ← at_integer "schemaVersion" model; _ ← not_ready_if (negb (v =? 1));
    id ← at_string "modelId" model; _ ← not_ready_if (negb (String.eqb id "tire-condition-demo-v1"));
    d ← at_string "modelConfigSha256" model; _ ← not_ready_if (negb (is_sha256 d));
    e ← at_string "producerEpoch" model; ve ← at_string "producerEpoch" value;
    _ ← not_ready_if (negb (String.eqb e ve));
    b ← at_string "conditionBand" model; _ ← parse_band b;
    _ ← percent_field model "conditionScore";
    _ ← percent_field model "confidencePercent";
    better ← at_string "betterBandCandidate" model;
    _ ← not_ready_if (negb (find_string better better_names));
    ls ← at_string "lastAppliedSourceExerciseId" model; _ ← not_ready_if (negb (is_uuid ls));
    la ← at_string "lastAssessmentId" model; _ ← not_ready_if (negb (is_uuid la));
    mn ← at_integer "nextAdvisorySequence" model; n ← at_integer "nextAdvisorySequence" value;
    _ ← not_ready_if (negb (mn =? n));
    count ← at_integer "betterBandEpisodeCount" model;
    _ ← not_ready_if ((count <? 0) || (3 <? count));
    r ← jat "recentSourceExerciseIds" model;
    recent ← array r;
    _ ← not_ready_if (128 <? Z.of_nat (length recent));
    distinct_strings is_uuid recent [].
Definition validate_gateway_states (value : Json) : res unit :=
  gs ← jat "gatewayStates" value;
  states ← array gs;
  distinct_strings (fun v => find_string v gateway_states) states [].

(** One level of the recursion through [previousModel]. *)
Definition validate_step (validate : Json -> res unit) (uid : string) (value : Json) : res unit :=
  _ ← validate_request_metadata uid value;
  _ ← validate_gateway_states value;
  _ ← validate_top uid value;
  _ ← validate_reset validate uid value;
  _ ← validate_last_request value;
  validate_model value.
(** The inner state has no reset any more, so two levels are all there are. *)
Definition validate_state (uid : string) (value : Json) : res unit :=
  validate_step (validate_step (fun _ => Err FuelExhausted) uid) uid value.
