(* ===== verification/Store.v ===== *)
(** * The durable store (src/state.cpp, include/tire_health/state.hpp)

    The two private directories of the store as finite maps of entries, the operations on them
    cut into the steps between which the process or the machine may stop, and the store's own
    operations on top: opening (with the recovery of an unfinished transaction), committing a
    state with its messages, and the outbox.

    A stop is executable: the machine carries the number of steps it still makes ([ticks]) and
    what an interrupted write leaves in its temporary file ([torn], any bytes).  At each step
    boundary [tick] ends the run with [Stopped] when no step is left; the disk is then as the
    steps so far made it.  A rename that a power loss undoes before the directory is synced is
    the stop before the rename. *)
From Stdlib Require Import ZArith Lia Bool Ascii String.
From stdpp Require Import gmap strings list sorting.
From S2P Require Import Prelude Chars Sha256 Uuid Json JsonFacts Time Protocol Identity Model Messages StateCheck.
Local Open Scope Z_scope.

(** ** Directories *)

(** A directory entry.  [private] stands for what [private_file] checks beyond the type: owner,
    mode 0600 and a single link. *)
Record entry := MkEntry { regular : bool; private : bool; content : string }.
Definition own_file (bytes : string) : entry := MkEntry true true bytes.
Abbreviation dir := (gmap string entry).
Inductive place := Root | Outbox.
Record machine := MkMachine {
  root : dir; outbox : dir; ticks : nat; torn : string; memory : Json }.
(** How an operation of the store ends: it returns, it throws, or it is stopped. *)
Inductive outcome (A : Type) := Done (a : A) | Thrown (e : exn) | Stopped.
Arguments Done {A} _.
Arguments Thrown {A} _.
Arguments Stopped {A}.
Definition IO (A : Type) : Type := machine -> machine * outcome A.
#[export] Instance IO_mret : MRet IO := fun A a s => (s, Done a).
#[export] Instance IO_mbind : MBind IO := fun A B k m s =>
  match m s with
  | (s', Done a) => k a s'
  | (s', Thrown e) => (s', Thrown e)
  | (s', Stopped) => (s', Stopped)
  end.
(** A computation that does not touch the disk. *)
Definition pure {A} (m : res A) : IO A := fun s =>
  match m with Ok a => (s, Done a) | Err e => (s, Thrown e) end.
Definition fail {A} (e : exn) : IO A := fun s => (s, Thrown e).
Definition tick : IO unit := fun s =>
  match ticks s with
  | O => (s, Stopped)
  | S n => (MkMachine (root s) (outbox s) n (torn s) (memory s), Done tt)
  end.
Definition dir_of (p : place) (s : machine) : dir := match p with Root => root s | Outbox => outbox s end.
Definition read_dir (p : place) : IO dir := fun s => (s, Done (dir_of p s)).
Definition set_dir (p : place) (d : dir) (s : machine) : machine :=
  match p with
  | Root => MkMachine d (outbox s) (ticks s) (torn s) (memory s)
  | Outbox => MkMachine (root s) d (ticks s) (torn s) (memory s)
  end.
Definition change_dir (p : place) (f : dir -> dir) : IO unit := fun s =>
  (set_dir p (f (dir_of p s)) s, Done tt).
Definition remember_state (j : Json) : IO unit := fun s =>
  (MkMachine (root s) (outbox s) (ticks s) (torn s) j, Done tt).
Definition torn_bytes : IO string := fun s => (s, Done (torn s)).

Definition exists_in (p : place) (name : string) : IO bool := fun s =>
  (s, Done (bool_decide (is_Some (dir_of p s !! name)))).
Definition private_entry (e : entry) : bool := regular e && private e.
(** [read_file] of src/runtime/posix.cpp: a regular file of 1 to [limit] bytes. *)
Definition read_entry (e : option entry) (limit : Z) : res string :=
  match e with
  | Some f => if regular f && (0 <? ssize (content f)) && (ssize (content f) <=? limit)
              then Ok (content f) else Err (RuntimeError "INPUT_FILE_UNAVAILABLE")
  | None => Err (RuntimeError "INPUT_FILE_UNAVAILABLE")
  end.
Definition read_file (p : place) (name : string) (limit : Z) : IO string := fun s =>
  pure (read_entry (dir_of p s !! name) limit) s.

(** ** Durable writes *)

Definition next_name (name : string) : string := name +:+ ".next".
(** Opening the temporary: it must not exist, or, in a replay, be a private file. *)
Definition open_temporary (p : place) (name : string) (replay : bool) : IO unit :=
  d ← read_dir p;
  match d !! next_name name with
  | None => mret tt
  | Some e =>
    if negb replay then fail (RuntimeError "STATE_WRITE_FAILED")
    else if private_entry e then mret tt
    else fail (RuntimeError "STATE_TEMPORARY_INVALID")
  end.
(** The temporary exists and holds anything, then it holds the bytes and is synced, then it is
    renamed, then the directory is synced. *)
Definition write_durable_file (p : place) (name bytes : string) (replay : bool) : IO unit :=
  _ ← open_temporary p name replay;
  _ ← tick;
  t ← torn_bytes;
  _ ← change_dir p (fun d => <[next_name name := own_file t]> d);
  _ ← tick;
  _ ← change_dir p (fun d => <[name := own_file bytes]> (delete (next_name name) d));
  tick.
Definition durable_file (p : place) (name bytes : string) : IO unit :=
  write_durable_file p name bytes false.
(** [unlink], then the directory is synced. *)
Definition remove_durable (p : place) (name : string) : IO unit :=
  _ ← tick;
  _ ← change_dir p (delete name);
  tick.

(** ** Checks of the directories' contents *)

Definition root_names : list string :=
  ["state.json"; "state.sha256"; "transaction.json"; "commit.sha256"]%string.
Definition replay_names : list string :=
  ["state.json.next"; "state.sha256.next"; "commit.sha256.next"]%string.
Definition root_name_ok (transaction : bool) (name : string) : bool :=
  find_string name root_names || (transaction && find_string name replay_names).
(** The first loop of the constructor. *)
Fixpoint check_root_entries (transaction : bool) (l : list (string * entry)) : res unit :=
  match l with
  | [] => Ok tt
  | (name, e) :: l' =>
    if negb (root_name_ok transaction name) then Err not_ready
    else if negb (private_entry e) then Err (RuntimeError "STATE_FILE_INVALID")
    else check_root_entries transaction l'
  end.
Definition check_root (d : dir) : res unit :=
  check_root_entries (bool_decide (is_Some (d !! "transaction.json"%string))) (map_to_list d).

Definition has_suffix (suffix name : string) : bool :=
  bool_decide (drop (String.length name - String.length suffix) (chars name) = chars suffix).
(** [path.extension() == ".json"] *)
Definition json_name (name : string) : bool := (5 <? ssize name) && has_suffix ".json" name.
(** [path.stem()] of such a name; [name.substr(0, 64)] of a queue entry. *)
Definition stem (name : string) : string := str (take (String.length name - 5) (chars name)).
Definition queue_key (name : string) : string := substr 0 64 name.
Definition message_valid (uid key bytes : string) : res bool :=
  msg ← parse_json bytes 16384;
  u ← at_string "unitSystemUid" msg;
  if negb (String.eqb u uid) then Ok false else
  c ← canonical msg;
  if negb (String.eqb c bytes) then Ok false else
  k ← message_key msg;
  if negb (String.eqb k key) then Ok false else
  content ← jat "content" msg;
  cc ← canonical content;
  h ← at_string "contentSha256" msg;
  Ok (String.eqb (sha256_hex cc) h).
(** One entry of the queue: whether it is a message and its size. *)
Definition check_entry (uid : string) (d : dir) (name : string) (e : entry) : res (Z * Z) :=
  if negb (private_entry e) then Err (RuntimeError "STATE_FILE_INVALID") else
  let blocked := (ssize name =? 72) && String.eqb (substr 64 8 name) ".blocked" in
  let message := (ssize name =? 69) && String.eqb (substr 64 5 name) ".json" in
  if (negb blocked && negb message) || negb (is_sha256 (queue_key name)) then Err not_ready
  else if blocked then
    b ← read_entry (Some e) 64;
    if negb (String.eqb b "DELIVERY_CONFLICT")
       || negb (bool_decide (is_Some (d !! (queue_key name +:+ ".json"))))
    then Err not_ready else Ok (0, 0)
  else
    bytes ← read_entry (Some e) 16384;
    ok ← message_valid uid (queue_key name) bytes;
    if negb ok then Err not_ready else Ok (1, ssize bytes).
Fixpoint check_entries (uid : string) (d : dir) (l : list (string * entry)) (count bytes : Z) : res (Z * Z) :=
  match l with
  | [] => Ok (count, bytes)
  | (name, e) :: l' =>
    '(c, b) ← check_entry uid d name e;
    check_entries uid d l' (count + c) (bytes + b)
  end.
Definition maximum_count : Z := 256.
Definition maximum_bytes : Z := 2097152.
Definition validate_queue (uid : string) (d : dir) : res unit :=
  '(count, bytes) ← check_entries uid d (map_to_list d) 0 0;
  not_ready_if ((maximum_count <? count) || (maximum_bytes <? bytes)).

(** ** Transactions *)

Definition message_name (key : string) : string := key +:+ ".json".
Definition txn_json (state : Json) (messages : list Json) : Json :=
  JObject (obj_of [("schemaVersion", JInt 1); ("state", state); ("messages", JArray messages)]%string).

(** The checks of a message in [replay]. *)
Fixpoint check_messages (uid : string) (messages : list Json) : res unit :=
  match messages with
  | [] => Ok tt
  | msg :: messages' =>
    u ← at_string "unitSystemUid" msg; _ ← not_ready_if (negb (String.eqb u uid));
    content ← jat "content" msg; cc ← canonical content;
    h ← at_string "contentSha256" msg; _ ← not_ready_if (negb (String.eqb (sha256_hex cc) h));
    c ← canonical msg; _ ← not_ready_if (16384 <? ssize c);
    check_messages uid messages'
  end.
Definition replay_checks (uid : string) (txn : Json) : res (Json * list Json) :=
  o ← object txn; _ ← not_ready_if (negb (obj_size o =? 3));
  v ← at_integer "schemaVersion" txn; _ ← not_ready_if (negb (v =? 1));
  next ← jat "state" txn; _ ← validate_state uid next;
  ms ← jat "messages" txn; messages ← array ms;
  _ ← not_ready_if (4 <? Z.of_nat (length messages));
  _ ← check_messages uid messages;
  Ok (next, messages).
(** A message that is there must hold the same bytes. *)
Definition replay_message (msg : Json) : IO unit :=
  key ← pure (message_key msg);
  bytes ← pure (canonical msg);
  d ← read_dir Outbox;
  match d !! message_name key with
  | Some e =>
    if negb (private_entry e) then fail (RuntimeError "STATE_FILE_INVALID") else
    old ← read_file Outbox (message_name key) 16384;
    if String.eqb old bytes then mret tt else fail not_ready
  | None => write_durable_file Outbox (message_name key) bytes true
  end.
Fixpoint replay_messages (messages : list Json) : IO unit :=
  match messages with
  | [] => mret tt
  | msg :: messages' => _ ← replay_message msg; replay_messages messages'
  end.
Definition replay (uid : string) (txn : Json) : IO unit :=
  '(next, messages) ← pure (replay_checks uid txn);
  c ← pure (canonical next);
  _ ← write_durable_file Root "state.json" c true;
  _ ← write_durable_file Root "state.sha256" (sha256_hex c) true;
  _ ← replay_messages messages;
  t ← pure (canonical txn);
  _ ← write_durable_file Root "commit.sha256" (sha256_hex t) true;
  remember_state next.

(** The messages a commit takes: those already queued are skipped, those the queue has no room
    for are dropped and reported. *)
Fixpoint accept_messages (d : dir) (messages : list Json) (count bytes : Z) (full : bool)
    : res (list Json * bool) :=
  match messages with
  | [] => Ok ([], full)
  | msg :: messages' =>
    encoded ← canonical msg;
    key ← message_key msg;
    if 16384 <? ssize encoded then Err (RuntimeError "MESSAGE_TOO_LARGE") else
    match d !! message_name key with
    | Some e =>
      old ← read_entry (Some e) 16384;
      if String.eqb old encoded then accept_messages d messages' count bytes full
      else Err (RuntimeError "DELIVERY_CONFLICT")
    | None =>
      if (maximum_count <=? count) || (maximum_bytes <? bytes + ssize encoded)
      then accept_messages d messages' count bytes true
      else '(accepted, full') ← accept_messages d messages' (count + 1) (bytes + ssize encoded) full;
           Ok (msg :: accepted, full')
    end
  end.
Definition json_entries (d : dir) : list (string * entry) :=
  List.filter (fun ne => json_name ne.1) (map_to_list d).
Definition queued (d : dir) : Z := Z.of_nat (length (json_entries d)).
Definition queue_bytes (d : dir) : Z :=
  fold_right (fun ne n => ssize (content ne.2) + n) 0 (json_entries d).
(** [commit]: whether all messages found room. *)
Definition commit (uid : string) (next : Json) (messages : list Json) : IO bool :=
  d ← read_dir Outbox;
  _ ← pure (validate_state uid next);
  _ ← pure (validate_queue uid d);
  '(accepted, full) ← pure (accept_messages d messages (queued d) (queue_bytes d) false);
  let txn := txn_json next accepted in
  c ← pure (canonical txn);
  _ ← durable_file Root "transaction.json" c;
  _ ← replay uid txn;
  _ ← remove_durable Root "transaction.json";
  mret (negb full).

(** ** Opening the store *)

Definition initial (uid epoch : string) : Json :=
  JObject (obj_of
    [("schemaVersion", JInt 1); ("unitSystemUid", JString uid); ("producerEpoch", JString epoch);
     ("nextAdvisorySequence", JInt 1); ("model", JNull); ("lastPublishedAt", JInt 0);
     ("lastRequest", JNull); ("gatewayStates", JArray [])]%string).
Definition transaction_limit : Z := 196608.
Definition recover (uid : string) : IO unit :=
  t ← exists_in Root "transaction.json";
  if (t : bool) then
    bytes ← read_file Root "transaction.json" transaction_limit;
    txn ← pure (parse_json bytes transaction_limit);
    _ ← replay uid txn;
    remove_durable Root "transaction.json"
  else mret tt.
Definition load_state (uid epoch : string) : IO Json :=
  e ← exists_in Root "state.json";
  if (e : bool) then
    bytes ← read_file Root "state.json" maximum_state;
    pure (parse_json bytes maximum_state)
  else
    d ← read_dir Outbox;
    if negb (bool_decide (d = ∅)) then fail not_ready
    else
      let state := initial uid epoch in
      c ← pure (canonical state);
      _ ← durable_file Root "state.json" c;
      _ ← durable_file Root "state.sha256" (sha256_hex c);
      mret state.
(** The constructor; [epoch] is the identifier [random_uuid] gives a new state. *)
Definition open_store (uid epoch : string) : IO unit :=
  d ← read_dir Root;
  _ ← pure (check_root d);
  _ ← recover uid;
  state ← load_state uid epoch;
  _ ← remember_state state;
  digest ← read_file Root "state.sha256" 64;
  c ← pure (canonical state);
  _ ← pure (not_ready_if (negb (String.eqb digest (sha256_hex c))));
  _ ← pure (validate_state uid state);
  q ← read_dir Outbox;
  pure (validate_queue uid q).

(** ** The outbox *)

Record Pending := MkPending { pending_key : string; pending_bytes : string }.
Definition name_leb (a b : string * entry) : Prop := str_leb a.1 b.1 = true.
#[export] Instance name_leb_dec : RelDecision name_leb.
Proof. intros a b. unfold name_leb. apply _. Defined.
Definition blocked_name (key : string) : string := key +:+ ".blocked".
(** The first message by name that is not blocked. *)
Definition pending (d : dir) : res (option Pending) :=
  match List.find (fun ne => negb (bool_decide (is_Some (d !! blocked_name (stem ne.1)))))
          (merge_sort name_leb (json_entries d)) with
  | None => Ok None
  | Some (name, e) => bytes ← read_entry (Some e) 16384; Ok (Some (MkPending (stem name) bytes))
  end.
Definition record_mismatch : exn := RuntimeError "OUTBOX_RECORD_MISMATCH".
Definition acknowledge (p : Pending) (response : HttpResponse) : IO bool :=
  let name := message_name (pending_key p) in
  e ← exists_in Outbox name;
  if negb (is_sha256 (pending_key p)) || negb e then fail record_mismatch else
  bytes ← read_file Outbox name 16384;
  if negb (String.eqb bytes (pending_bytes p)) then fail record_mismatch
  else if matches_ack (pending_bytes p) response then
    _ ← remove_durable Outbox name; mret true
  else if negb (status response =? 0) && negb (status response =? 200) && negb (status response =? 201)
          && negb (retryable_http (status response)) then
    _ ← durable_file Outbox (blocked_name (pending_key p)) "DELIVERY_CONFLICT"; mret false
  else mret false.
