(* ===== verification/StoreFacts.v ===== *)
(** * What the store guarantees

    Triples with a condition for stops carry the proofs: [triple P m Q C] says that from a
    machine in [P] the operation [m] throws nothing, returns in [Q], and is stopped only in [C].
    The facts: a store at rest opens unchanged; a commit leaves, wherever it is stopped, a disk
    that opens as the old or as the new state with its messages, but for one window; an
    unfinished transaction is finished by the next opening, however often that is stopped. *)
From Stdlib Require Import ZArith Lia Bool Ascii String.
From stdpp Require Import gmap strings list sorting.
From S2P Require Import Prelude Chars Sha256 Uuid Json JsonFacts Time Protocol Identity Model Messages StateCheck Store.
Local Open Scope Z_scope.

(** ** Triples *)

Definition triple {A} (P : machine -> Prop) (m : IO A) (Q : A -> machine -> Prop) (C : machine -> Prop) : Prop :=
  forall s, P s -> match m s with
                   | (s', Done a) => Q a s'
                   | (s', Thrown _) => False
                   | (s', Stopped) => C s'
                   end.
Section Triples.
Context {A B : Type}.
Implicit Types (P C : machine -> Prop).

Lemma triple_bind P (m : IO A) (k : A -> IO B) R Q C :
  triple P m R C -> (forall a, triple (R a) (k a) Q C) -> triple P (m ≫= k) Q C.
Proof.
  intros Hm Hk s Hs. specialize (Hm s Hs). unfold mbind, IO_mbind.
  destruct (m s) as [s' [a|e|]]; [by apply Hk|done|done].
Qed.
Lemma triple_seq P (m : IO A) (k : IO B) R Q C :
  triple P m (fun _ => R) C -> triple R k Q C -> triple P (m ≫= fun _ => k) Q C.
Proof. intros Hm Hk. by apply (triple_bind P m _ (fun _ => R)). Qed.
Lemma triple_ret (a : A) (Q : A -> machine -> Prop) C : triple (Q a) (mret a) Q C.
Proof. by intros s Hs. Qed.
Lemma triple_pure P (r : res A) (a : A) (Q : A -> machine -> Prop) C :
  r = Ok a -> (forall s, P s -> Q a s) -> triple P (pure r) Q C.
Proof. intros -> H s Hs. cbn. by apply H. Qed.
Lemma pure_bind (r : res A) (a : A) (k : A -> IO B) : r = Ok a -> (pure r ≫= k) = k a.
Proof. by intros ->. Qed.
Lemma triple_weaken P P' (m : IO A) Q Q' C C' :
  triple P' m Q' C' -> (forall s, P s -> P' s) -> (forall a s, Q' a s -> Q a s) ->
  (forall s, C' s -> C s) -> triple P m Q C.
Proof.
  intros Hm HP HQ HC s Hs. specialize (Hm s (HP s Hs)).
  destruct (m s) as [s' [a|e|]]; [by apply HQ|done|by apply HC].
Qed.
End Triples.
(** A fact about the disk: the directories and the memory, not the steps left. *)
Definition disk_is (r o : dir) (j : Json) (s : machine) : Prop :=
  root s = r /\ outbox s = o /\ memory s = j.
Lemma triple_tick r o j (C : machine -> Prop) :
  (forall s, disk_is r o j s -> C s) -> triple (disk_is r o j) tick (fun _ => disk_is r o j) C.
Proof. intros HC s Hs. unfold tick. destruct (ticks s); [by apply HC|exact Hs]. Qed.

(** The directory of a place in a pair of directories, and replacing it. *)
Definition pick (p : place) (r o : dir) : dir := match p with Root => r | Outbox => o end.
Definition with_dir (p : place) (d r o : dir) (j : Json) : machine -> Prop :=
  match p with Root => disk_is d o j | Outbox => disk_is r d j end.
Lemma with_dir_same p r o j s : with_dir p (pick p r o) r o j s <-> disk_is r o j s.
Proof. by destruct p. Qed.
Lemma triple_change p f d r o j (C : machine -> Prop) :
  triple (with_dir p d r o j) (change_dir p f) (fun _ => with_dir p (f d) r o j) C.
Proof.
  intros s. unfold with_dir, change_dir, disk_is. destruct p; cbn; intros (<- & <- & <-); done.
Qed.
Lemma triple_tick_dir p d r o j (C : machine -> Prop) :
  (forall s, with_dir p d r o j s -> C s) ->
  triple (with_dir p d r o j) tick (fun _ => with_dir p d r o j) C.
Proof. destruct p; apply triple_tick. Qed.
Lemma triple_torn (P : machine -> Prop) C : triple P torn_bytes (fun _ => P) C.
Proof. by intros s Hs. Qed.

(** ** Writing and removing a file *)

Definition written (name bytes : string) (d : dir) : dir := <[name := own_file bytes]> (delete (next_name name) d).
(** Where a write may be stopped. *)
Definition write_stop (name bytes : string) (d d' : dir) : Prop :=
  d' = d \/ (exists t, d' = <[next_name name := own_file t]> d) \/ d' = written name bytes d.
(** The temporary is not there, or may be replaced. *)
Definition writable (name : string) (replay : bool) (d : dir) : Prop :=
  match d !! next_name name with
  | None => True
  | Some e => replay = true /\ private_entry e = true
  end.
Lemma write_triple p name bytes replay d r o j (C : machine -> Prop) :
  writable name replay d ->
  (forall d' s, write_stop name bytes d d' -> with_dir p d' r o j s -> C s) ->
  triple (with_dir p d r o j) (write_durable_file p name bytes replay)
    (fun _ => with_dir p (written name bytes d) r o j) C.
Proof.
  intros Hw HC. unfold write_durable_file.
  eapply triple_seq with (R := with_dir p d r o j).
  { unfold open_temporary. intros s Hs. unfold mbind, IO_mbind, read_dir.
    assert (dir_of p s = d) as -> by (destruct p; unfold with_dir, disk_is in Hs; naive_solver).
    unfold writable in Hw. destruct (d !! next_name name) as [e|]; [|done].
    destruct Hw as [-> He]. cbn [negb]. by rewrite He. }
  eapply triple_seq; [apply triple_tick_dir; intros s; apply HC; by left|].
  eapply triple_bind; [apply (triple_torn (with_dir p d r o j))|]. intros t. cbn beta.
  eapply triple_seq; [apply triple_change|].
  eapply triple_seq; [apply triple_tick_dir; intros s; apply HC; right; left; by eexists|].
  eapply triple_seq; [apply triple_change|].
  assert (Hd : <[name:=own_file bytes]> (delete (next_name name) (<[next_name name:=own_file t]> d)) = written name bytes d).
  { unfold written. by rewrite delete_insert_eq. }
  cbn beta. rewrite Hd. apply triple_tick_dir. intros s. apply HC. by right; right.
Qed.
Lemma remove_triple p name d r o j (C : machine -> Prop) :
  (forall d' s, d' = d \/ d' = delete name d -> with_dir p d' r o j s -> C s) ->
  triple (with_dir p d r o j) (remove_durable p name) (fun _ => with_dir p (delete name d) r o j) C.
Proof.
  intros HC. unfold remove_durable.
  eapply triple_seq; [apply triple_tick_dir; intros s; apply HC; by left|].
  eapply triple_seq; [apply triple_change|].
  apply triple_tick_dir. intros s. apply HC. by right.
Qed.

(** ** Names *)

Lemma ssize_inj_app a b x y : a +:+ x = b +:+ y -> ssize x = ssize y -> a = b.
Proof.
  intros E H. apply (f_equal chars) in E. rewrite !chars_app in E. rewrite !ssize_chars in H.
  apply app_inj_2 in E as [E _]; [by apply chars_inj|lia].
Qed.
Lemma message_name_inj k k' : message_name k = message_name k' -> k = k'.
Proof. intros E. by eapply ssize_inj_app. Qed.
Lemma is_sha256_size k : is_sha256 k = true -> ssize k = 64.
Proof. unfold is_sha256. intros H. b2p. done. Qed.
Lemma message_name_size k : ssize (message_name k) = ssize k + 5.
Proof. unfold message_name. by rewrite ssize_app. Qed.
Lemma next_name_size n : ssize (next_name n) = ssize n + 5.
Proof. unfold next_name. by rewrite ssize_app. Qed.
Lemma next_message_ne k k' :
  is_sha256 k = true -> is_sha256 k' = true -> next_name (message_name k) <> message_name k'.
Proof.
  intros Hk%is_sha256_size Hk'%is_sha256_size E. apply (f_equal ssize) in E.
  rewrite next_name_size, !message_name_size in E. lia.
Qed.

(** ** The root directory *)

Definition all_entries (transaction : bool) (d : dir) : Prop :=
  forall n e, d !! n = Some e -> root_name_ok transaction n = true /\ private_entry e = true.
Lemma check_root_entries_Ok b l :
  check_root_entries b l = Ok tt <->
  forall n e, In (n, e) l -> root_name_ok b n = true /\ private_entry e = true.
Proof.
  induction l as [|[n e] l IH]; cbn [check_root_entries In]; [by split|].
  split.
  - destruct (root_name_ok b n) eqn:E1; cbn [negb]; [|done].
    destruct (private_entry e) eqn:E2; cbn [negb]; [|done].
    intros H n' e' [[= <- <-]|Hin]; [done|]. by apply IH.
  - intros H. destruct (H n e) as [-> ->]; [by left|]. cbn [negb]. apply IH. intros n' e' Hin. apply H. by right.
Qed.
Lemma in_map_to_list (d : dir) n e : In (n, e) (map_to_list d) <-> d !! n = Some e.
Proof. rewrite <- list_elem_of_In. by rewrite elem_of_map_to_list. Qed.
Lemma check_root_Ok d :
  check_root d = Ok tt <-> all_entries (bool_decide (is_Some (d !! "transaction.json"%string))) d.
Proof.
  unfold check_root. rewrite check_root_entries_Ok. unfold all_entries.
  split; intros H n e Hn; apply H; by apply in_map_to_list.
Qed.

(** A root directory with a durable journal. *)
Definition txn_root (t : string) (d : dir) : Prop :=
  d !! "transaction.json"%string = Some (own_file t) /\ all_entries true d.
Definition replay_target (name : string) : Prop :=
  In name ["state.json"; "state.sha256"; "commit.sha256"]%string.
Lemma replay_target_ok name :
  replay_target name -> root_name_ok true name = true /\ root_name_ok true (next_name name) = true /\
    name <> "transaction.json"%string /\ next_name name <> "transaction.json"%string /\ next_name name <> name.
Proof. intros H. repeat destruct H as [<-|H]; [..|done]; by vm_compute. Qed.
Lemma all_entries_insert b n e d :
  all_entries b d -> root_name_ok b n = true -> private_entry e = true -> all_entries b (<[n := e]> d).
Proof.
  intros H Hn He n' e' [[<- <-]|[_ H']]%lookup_insert_Some; [done|by apply H].
Qed.
Lemma all_entries_delete b n d : all_entries b d -> all_entries b (delete n d).
Proof. intros H n' e' [_ H']%lookup_delete_Some. by apply H. Qed.
Lemma txn_root_writable t name d : txn_root t d -> writable name true d.
Proof.
  intros [_ H]. unfold writable. destruct (d !! next_name name) as [e|] eqn:E; [|done].
  split; [done|]. by apply (H _ _ E).
Qed.
Lemma txn_root_stop t name bytes d d' :
  replay_target name -> txn_root t d -> write_stop name bytes d d' -> txn_root t d'.
Proof.
  intros (H1 & H2 & H3 & H4 & H5)%replay_target_ok [Ht Ha] Hs.
  destruct Hs as [->|[[x ->]| ->]]; [done|split|split].
  - by rewrite lookup_insert_ne.
  - by apply all_entries_insert.
  - unfold written. by rewrite lookup_insert_ne, lookup_delete_ne.
  - apply all_entries_insert; [by apply all_entries_delete|done|done].
Qed.
Lemma written_txn_root t name bytes d :
  replay_target name -> txn_root t d -> txn_root t (written name bytes d).
Proof. intros Hn Hd. apply (txn_root_stop t name bytes d); [done|done|by right; right]. Qed.

Lemma read_own b limit : 0 < ssize b <= limit -> read_entry (Some (own_file b)) limit = Ok b.
Proof.
  intros H. cbn [read_entry own_file regular content andb].
  replace (0 <? ssize b) with true by lia. by replace (ssize b <=? limit) with true by lia.
Qed.

(** ** The outbox while the messages of a transaction are written *)

(** The messages of a transaction as keys and canonical texts. *)
Definition add_messages (old : dir) (ms : list (string * string)) : dir :=
  foldl (fun d kb => <[message_name kb.1 := own_file kb.2]> d) old ms.
Lemma add_messages_snoc old ms kb :
  add_messages old (ms ++ [kb]) = <[message_name kb.1 := own_file kb.2]> (add_messages old ms).
Proof. unfold add_messages. by rewrite foldl_snoc. Qed.
Record fresh_messages (old : dir) (ms : list (string * string)) : Prop := {
  fresh_keys : NoDup (map fst ms);
  fresh_sha : Forall (fun kb => is_sha256 kb.1 = true /\ 0 < ssize kb.2 <= 16384) ms;
  fresh_names : Forall (fun kb => old !! message_name kb.1 = None /\ old !! next_name (message_name kb.1) = None) ms }.
Lemma add_messages_other old ms n :
  Forall (fun kb => message_name kb.1 <> n) ms -> add_messages old ms !! n = old !! n.
Proof.
  induction ms as [|kb ms IH] using rev_ind; [done|]. rewrite add_messages_snoc, Forall_app, Forall_singleton.
  intros [H1 H2]. rewrite lookup_insert_ne by done. by apply IH.
Qed.
Lemma add_messages_in old ms k b :
  NoDup (map fst ms) -> (k, b) ∈ ms -> add_messages old ms !! message_name k = Some (own_file b).
Proof.
  induction ms as [|kb ms IH] using rev_ind; [set_solver|].
  rewrite add_messages_snoc, map_app, NoDup_app. intros (Hd & Hdis & _) [Hin| <-%list_elem_of_singleton]%elem_of_app.
  - rewrite lookup_insert_ne; [by apply IH|]. intros E%message_name_inj.
    apply (Hdis k).
    + apply list_elem_of_In, (in_map fst ms (k, b)). by apply list_elem_of_In.
    + rewrite <- E. cbn. set_solver.
  - cbn [fst snd]. apply lookup_insert_eq.
Qed.

(** The first messages are there; a temporary of the next may be. *)
Definition partly (old : dir) (ms : list (string * string)) (d : dir) : Prop :=
  exists p rest, ms = p ++ rest /\
    (d = add_messages old p \/
     exists k b rest' t, rest = (k, b) :: rest' /\
       d = <[next_name (message_name k) := own_file t]> (add_messages old p)).

Section Replay.
Context (old : dir) (ms : list (string * string)).
Hypothesis Hfresh : fresh_messages old ms.

Lemma temporary_absent p k b rest :
  ms = p ++ (k, b) :: rest ->
  add_messages old p !! next_name (message_name k) = None /\ add_messages old p !! message_name k = None.
Proof.
  intros E. destruct Hfresh as [Hd Hs Hn]. rewrite E in Hd, Hs, Hn.
  rewrite map_app, NoDup_app in Hd. destruct Hd as (_ & Hdis & _).
  apply Forall_app in Hs as [Hs1 Hs2]. apply Forall_cons in Hs2 as [[Hk _] _].
  apply Forall_app in Hn as [_ Hn]. apply Forall_cons in Hn as [[Hn1 Hn2] _]. cbn [fst] in *.
  rewrite !add_messages_other; [done| |].
  - apply List.Forall_forall. intros [k' b'] Hin E'%message_name_inj. cbn in E'. subst k'.
    apply (Hdis k); [|cbn; set_solver]. apply list_elem_of_In. by apply (in_map fst p (k, b')).
  - eapply Forall_impl; [exact Hs1|]. intros [k' b'] [Hk' _] E'. cbn in *. symmetry in E'.
    by apply next_message_ne in E'.
Qed.

(** [m] is the message with the key and text of the pair. *)
Definition message_is (m : Json) (kb : string * string) : Prop :=
  message_key m = Ok kb.1 /\ canonical m = Ok kb.2.
Definition from_prefix (p : list (string * string)) (d : dir) : Prop :=
  exists q rest, ms = p ++ q ++ rest /\
    (d = add_messages old (p ++ q) \/
     exists k b rest' t, rest = (k, b) :: rest' /\
       d = <[next_name (message_name k) := own_file t]> (add_messages old (p ++ q))).
Lemma from_prefix_partly p d : from_prefix p d -> partly old ms d.
Proof. intros (q & rest & E & H). exists (p ++ q), rest. by rewrite <- app_assoc. Qed.

Lemma replay_message_skip r j d m k b (C : machine -> Prop) :
  message_is m (k, b) -> 0 < ssize b <= 16384 -> d !! message_name k = Some (own_file b) ->
  triple (disk_is r d j) (replay_message m) (fun _ => disk_is r d j) C.
Proof.
  intros [Hk Hb] Hs Hd s (Hr & Ho & Hj). cbn [fst snd] in Hk, Hb. unfold replay_message.
  rewrite Hk, Hb. unfold mbind, IO_mbind, pure, read_dir, read_file. cbn [dir_of]. rewrite Ho, Hd.
  change (private_entry (own_file b)) with true. cbn [negb dir_of]. rewrite Ho, Hd, read_own by done.
  cbn [pure]. rewrite String.eqb_refl. by split_and!.
Qed.
Lemma replay_message_write r j d m k b (C : machine -> Prop) :
  message_is m (k, b) -> d !! message_name k = None -> writable (message_name k) true d ->
  (forall d' s, write_stop (message_name k) b d d' -> disk_is r d' j s -> C s) ->
  triple (disk_is r d j) (replay_message m) (fun _ => disk_is r (written (message_name k) b d) j) C.
Proof.
  intros [Hk Hb] Hd Hw HC s Hs. cbn [fst snd] in Hk, Hb.
  pose proof (write_triple Outbox (message_name k) b true d r d j C Hw HC s Hs) as H.
  unfold replay_message. rewrite Hk, Hb. unfold mbind, IO_mbind, pure, read_dir. cbn [dir_of].
  destruct Hs as (_ & -> & _). rewrite Hd. exact H.
Qed.
Lemma replay_messages_triple r j lm l p d :
  ms = p ++ l -> Forall2 message_is lm l -> from_prefix p d ->
  triple (disk_is r d j) (replay_messages lm) (fun _ => disk_is r (add_messages old ms) j)
    (fun s => exists d', partly old ms d' /\ disk_is r d' j s).
Proof.
  intros E Hl. revert p d E. induction Hl as [|m [k b] lm l Hm Hl IH]; intros p d E Hp; cbn [replay_messages].
  - destruct Hp as (q & rest & E2 & Hd). rewrite app_nil_r in E. subst p.
    assert (q = [] /\ rest = []) as [-> ->].
    { apply (f_equal length) in E2. rewrite !length_app in E2. destruct q, rest; cbn in E2; (done || lia). }
    rewrite app_nil_r in Hd. destruct Hd as [->|(? & ? & ? & ? & ? & _)]; [|done]. by intros s Hs.
  - destruct Hp as (q & rest & E2 & Hd).
    assert (Hsize : 0 < ssize b <= 16384).
    { destruct Hfresh as [_ Hs _]. rewrite E in Hs. apply Forall_app in Hs as [_ Hs].
      by apply Forall_cons in Hs as [[_ ?] _]. }
    assert (E' : ms = (p ++ [(k, b)]) ++ l) by (by rewrite E, <- app_assoc).
    rewrite E in E2. apply app_inv_head in E2. destruct q as [|[k' b'] q].
    + cbn [app] in E2. subst rest. rewrite app_nil_r in Hd.
      destruct (temporary_absent p k b l E) as [Ht Hf].
      assert (Htmp : message_name k <> next_name (message_name k)).
      { intros X. apply (f_equal ssize) in X. rewrite next_name_size in X. lia. }
      assert (Hdd : d !! message_name k = None /\ writable (message_name k) true d /\
        delete (next_name (message_name k)) d = add_messages old p).
      { unfold writable. destruct Hd as [->|(k1 & b1 & r1 & t & [= <- <- <-] & ->)].
        - rewrite Ht, Hf. split_and!; [done|done|by apply delete_id].
        - rewrite lookup_insert_ne, lookup_insert_eq by done. split_and!; [done|done|done|].
          by rewrite delete_insert_id. }
      destruct Hdd as (Hf' & Hw & Hdel).
      eapply triple_seq; [eapply replay_message_write; [exact Hm|done|done|]|].
      * intros d' s Hst Hs. exists d'. split; [|exact Hs].
        destruct Hst as [->|[[t ->]| ->]].
        -- exists p, ((k, b) :: l). split; [done|]. destruct Hd as [->|(? & ? & ? & t & [= <- <- <-] & ->)]; [by left|].
           right. by eexists _, _, _, _.
        -- exists p, ((k, b) :: l). split; [done|]. right. exists k, b, l, t. split; [done|].
           rewrite <- Hdel. by rewrite insert_delete_eq.
        -- exists (p ++ [(k, b)]), l. split; [done|]. left. by rewrite add_messages_snoc, <- Hdel.
      * apply (IH (p ++ [(k, b)])); [done|]. exists [], l. split; [done|]. left. rewrite app_nil_r.
        by rewrite add_messages_snoc, <- Hdel.
    + cbn [app] in E2. injection E2 as <- <- E2.
      assert (Hin : d !! message_name k = Some (own_file b)).
      { assert (Hk : add_messages old (p ++ (k, b) :: q) !! message_name k = Some (own_file b)).
        { apply add_messages_in; [|set_solver]. destruct Hfresh as [Hnd _ _]. rewrite E, E2 in Hnd.
          rewrite app_comm_cons, app_assoc, map_app in Hnd. by apply NoDup_app in Hnd as [? _]. }
        destruct Hd as [->|(k1 & b1 & r1 & t & -> & ->)]; [done|]. rewrite lookup_insert_ne; [done|].
        apply next_message_ne; destruct Hfresh as [_ Hs _]; rewrite E, E2 in Hs;
          rewrite Forall_forall in Hs; [apply (Hs (k1, b1))|apply (Hs (k, b))]; set_solver. }
      eapply triple_seq; [by eapply replay_message_skip|].
      apply (IH (p ++ [(k, b)])); [done|]. exists q, rest. rewrite <- !app_assoc. cbn [app].
      split; [by rewrite E, E2|]. exact Hd.
Qed.
End Replay.

(** ** Recovery *)

(** A transaction whose journal can be read back and replayed. *)
Record transaction (uid : string) (next : Json) (accepted : list Json)
    (ms : list (string * string)) (c t : string) : Prop := {
  tx_checks : replay_checks uid (txn_json next accepted) = Ok (next, accepted);
  tx_valid : validate_state uid next = Ok tt;
  tx_state : canonical next = Ok c;
  tx_text : canonical (txn_json next accepted) = Ok t;
  tx_size : ssize t <= transaction_limit;
  tx_state_size : ssize c <= maximum_state;
  tx_wf : wf (txn_json next accepted);
  tx_depth : depth (txn_json next accepted) <= maximum_depth;
  tx_messages : Forall2 message_is accepted ms }.

(** A state a store can hold: it is valid and survives being written and read. *)
Record holdable (uid : string) (st : Json) (c : string) : Prop := {
  hold_valid : validate_state uid st = Ok tt;
  hold_text : canonical st = Ok c;
  hold_size : ssize c <= maximum_state;
  hold_wf : wf st;
  hold_depth : depth st <= maximum_depth }.
Definition rest_root (c : string) (d : dir) : Prop :=
  d !! "state.json"%string = Some (own_file c) /\
  d !! "state.sha256"%string = Some (own_file (sha256_hex c)) /\
  d !! "transaction.json"%string = None /\ all_entries false d.
(** The store at rest with a state and a queue. *)
Definition at_rest (uid : string) (st : Json) (o : dir) (s : machine) : Prop :=
  (exists c, holdable uid st c /\ rest_root c (root s)) /\
  outbox s = o /\ validate_queue uid o = Ok tt.
(** The journal is durable and the transaction not finished. *)
Definition in_txn (old : dir) (ms : list (string * string)) (t : string) (s : machine) : Prop :=
  txn_root t (root s) /\ partly old ms (outbox s).

Definition finished (t c : string) (r : dir) : Prop :=
  txn_root t r /\ r !! "state.json"%string = Some (own_file c) /\
  r !! "state.sha256"%string = Some (own_file (sha256_hex c)) /\
  forall n, In n replay_names -> r !! n = None.
Lemma finished_rest t c r : finished t c r -> rest_root c (delete "transaction.json"%string r).
Proof.
  intros ((_ & Ha) & H1 & H2 & H3). unfold rest_root.
  rewrite !lookup_delete_ne, lookup_delete_eq by done. split_and!; [done..|].
  intros n e [Hne Hn]%lookup_delete_Some. destruct (Ha n e Hn) as [Hok Hp]. split; [|done].
  unfold root_name_ok in *. apply orb_true_iff in Hok as [->|Hok]; [done|]. cbn [andb] in Hok.
  exfalso. apply find_string_In, list_elem_of_In, H3 in Hok. congruence.
Qed.

Section Transaction.
Context (uid : string) (next : Json) (accepted : list Json) (ms : list (string * string)) (c t : string).
Context (old : dir).
Hypothesis Htx : transaction uid next accepted ms c t.
Hypothesis Hfresh : fresh_messages old ms.

Lemma root_write_triple name bytes r o j :
  replay_target name -> txn_root t r -> partly old ms o ->
  triple (disk_is r o j) (write_durable_file Root name bytes true)
    (fun _ => disk_is (written name bytes r) o j) (in_txn old ms t).
Proof.
  intros Hn Hr Ho. apply (write_triple Root name bytes true r r o j).
  - by eapply txn_root_writable.
  - intros d' s Hst (Hd & Hs & _). split; [rewrite Hd; by eapply txn_root_stop|by rewrite Hs].
Qed.
Lemma replay_triple r o j :
  txn_root t r -> partly old ms o ->
  triple (disk_is r o j) (replay uid (txn_json next accepted))
    (fun _ s => exists r', finished t c r' /\ disk_is r' (add_messages old ms) next s)
    (in_txn old ms t).
Proof.
  intros Hr Ho. destruct Htx as [Hck _ Hc Ht _ _ _ _ Hms]. unfold replay.
  rewrite (pure_bind _ _ _ Hck). cbn beta iota. rewrite (pure_bind _ _ _ Hc).
  set (r1 := written "state.json" c r).
  set (r2 := written "state.sha256" (sha256_hex c) r1).
  set (r3 := written "commit.sha256" (sha256_hex t) r2).
  assert (H1 : txn_root t r1) by (apply written_txn_root; [by left|done]).
  assert (H2 : txn_root t r2) by (apply written_txn_root; [by right; left|done]).
  assert (H3 : txn_root t r3) by (apply written_txn_root; [by right; right; left|done]).
  assert (Hfull : partly old ms (add_messages old ms)).
  { exists ms, []. split; [by rewrite app_nil_r|by left]. }
  eapply triple_seq; [apply root_write_triple; [by left|done|done]|].
  eapply triple_seq; [apply root_write_triple; [by right; left|done|done]|].
  eapply triple_seq.
  { eapply triple_weaken; [apply (replay_messages_triple old ms Hfresh r2 j accepted ms []); [done|done|]|..].
    - destruct Ho as (p & rest & E & Hd). exists p, rest. split; [exact E|exact Hd].
    - intros s Hs. exact Hs.
    - intros [] s Hs. exact Hs.
    - intros s (d' & Hp & (Hs1 & Hs2 & _)). split; [by rewrite Hs1|by rewrite Hs2]. }
  rewrite (pure_bind _ _ _ Ht).
  eapply triple_seq; [apply root_write_triple; [by right; right; left|done|done]|].
  intros s (Hs1 & Hs2 & Hs3). cbn [remember_state]. exists r3.
  split; [|by split_and!]. unfold finished. split_and!; [done|..].
  - unfold r3, r2, written. rewrite !lookup_insert_ne, !lookup_delete_ne, !lookup_insert_ne, !lookup_delete_ne by done.
    apply lookup_insert_eq.
  - unfold r3, written. rewrite lookup_insert_ne, lookup_delete_ne by done. apply lookup_insert_eq.
  - intros n [<-|[<-|[<-|[]]]]; unfold r3, r2, r1, written;
      repeat first [rewrite lookup_delete_eq; reflexivity | rewrite lookup_insert_ne by done
                   | rewrite lookup_delete_ne by done].
Qed.
Lemma read_file_done p name b limit s :
  dir_of p s !! name = Some (own_file b) -> 0 < ssize b <= limit ->
  read_file p name limit s = (s, Done b).
Proof. intros H Hb. unfold read_file. by rewrite H, read_own. Qed.
Lemma bind_done {A B} (m : IO A) (k : A -> IO B) s s' a : m s = (s', Done a) -> (m ≫= k) s = k a s'.
Proof. unfold mbind, IO_mbind. by intros ->. Qed.
Lemma journal_reads_back : parse_json t transaction_limit = Ok (txn_json next accepted).
Proof.
  destruct Htx as [_ _ _ Ht Hsz _ Hw Hd _]. unfold parse_json.
  replace (transaction_limit <? ssize t) with false by lia. by apply parse_canonical.
Qed.
Lemma remove_journal_triple r o j :
  finished t c r -> o = add_messages old ms ->
  triple (disk_is r o j) (remove_durable Root "transaction.json")
    (fun _ s => disk_is (delete "transaction.json"%string r) o j s)
    (fun s => in_txn old ms t s \/ (rest_root c (root s) /\ outbox s = o)).
Proof.
  intros Hf Ho. apply (remove_triple Root "transaction.json" r r o j).
  intros d' s [->| ->] (Hd & Hs & _); [left|right].
  - split; [rewrite Hd; by destruct Hf|]. rewrite Hs, Ho. exists ms, [].
    split; [by rewrite app_nil_r|by left].
  - split; [rewrite Hd; by eapply finished_rest|done].
Qed.
Lemma recover_triple r o j :
  txn_root t r -> partly old ms o ->
  triple (disk_is r o j) (recover uid)
    (fun _ s => rest_root c (root s) /\ outbox s = add_messages old ms)
    (fun s => in_txn old ms t s \/ (rest_root c (root s) /\ outbox s = add_messages old ms)).
Proof.
  intros Hr Ho s Hs. pose proof Hs as (Hs1 & Hs2 & Hs3). unfold recover.
  assert (Ht : root s !! "transaction.json"%string = Some (own_file t)) by (rewrite Hs1; apply Hr).
  rewrite (bind_done _ _ s s true).
  2: { unfold exists_in. cbn [dir_of]. by rewrite Ht. }
  assert (0 < ssize t) by (eapply canonical_nonempty, tx_text, Htx).
  rewrite (bind_done _ _ s s t) by (apply read_file_done; [done|]; pose proof (tx_size _ _ _ _ _ _ Htx); lia).
  rewrite (pure_bind _ _ _ journal_reads_back).
  enough (T : triple (disk_is r o j)
    (_ ← replay uid (txn_json next accepted); remove_durable Root "transaction.json")
    (fun _ s => rest_root c (root s) /\ outbox s = add_messages old ms)
    (fun s => in_txn old ms t s \/ (rest_root c (root s) /\ outbox s = add_messages old ms))) by exact (T s Hs).
  eapply triple_bind.
  - eapply triple_weaken; [apply (replay_triple r o j Hr Ho)|done|intros a s' Hq; exact Hq|by left].
  - intros a s' (r' & Hf & Hd).
    pose proof (remove_journal_triple r' _ next Hf eq_refl s' Hd) as Hm.
    destruct (remove_durable _ _ s') as [s2 [x|e|]]; [|done|done].
    destruct Hm as (E1 & E2 & _). rewrite E1, E2. split; [by eapply finished_rest|done].
Qed.
End Transaction.

(** ** The queue *)

Definition json_list (l : list (string * entry)) : list (string * entry) :=
  List.filter (fun ne => json_name ne.1) l.
Lemma filter_permutation {A} (p : A -> bool) l k : l ≡ₚ k -> List.filter p l ≡ₚ List.filter p k.
Proof.
  induction 1 as [|x l k _ IH|x y l|l k m _ IH1 _ IH2]; cbn [List.filter]; [done| | |by etrans].
  - destruct (p x); [by constructor|done].
  - destruct (p x), (p y); try done. by constructor.
Qed.
Definition bytes_list (l : list (string * entry)) : Z :=
  fold_right (fun ne n => ssize (content ne.2) + n) 0 (json_list l).
Lemma chars_length_size s n : ssize s = Z.of_nat n -> length (chars s) = n.
Proof. rewrite ssize_chars. lia. Qed.
Lemma suffix_message name :
  ssize name = 69 -> substr 64 5 name = ".json"%string -> json_name name = true.
Proof.
  intros Hs H. unfold json_name, has_suffix. replace (5 <? ssize name) with true by lia. cbn [andb].
  apply bool_decide_eq_true. apply (chars_length_size _ 69) in Hs. rewrite <- length_chars, Hs.
  apply (f_equal chars) in H. unfold substr in H. rewrite chars_str in H.
  rewrite take_ge in H by (rewrite length_drop; lia). exact H.
Qed.
Lemma suffix_blocked name :
  ssize name = 72 -> substr 64 8 name = ".blocked"%string -> json_name name = false.
Proof.
  intros Hs H. unfold json_name, has_suffix. apply andb_false_iff. right.
  apply bool_decide_eq_false. apply (chars_length_size _ 72) in Hs. rewrite <- length_chars, Hs.
  apply (f_equal chars) in H. unfold substr in H. rewrite chars_str in H.
  rewrite take_ge in H by (rewrite length_drop; lia).
  change (72 - String.length ".json")%nat with (64 + 3)%nat. rewrite <- drop_drop, H. done.
Qed.
Lemma check_entry_weight uid d name e c b :
  check_entry uid d name e = Ok (c, b) ->
  (c, b) = if json_name name then (1, ssize (content e)) else (0, 0).
Proof.
  unfold check_entry. destruct (negb (private_entry e)) eqn:Ep; [done|]. cbn zeta.
  destruct ((ssize name =? 72) && _) eqn:Eb.
  - destruct (_ || _); [done|]. intros H. apply bind_Ok in H as (x & _ & H).
    destruct (_ || _); [done|]. apply Ok_inj in H as [= <- <-].
    apply andb_true_iff in Eb as [Eb%Z.eqb_eq Eb'%String.eqb_eq]. by rewrite suffix_blocked.
  - destruct ((ssize name =? 69) && _) eqn:Em; [|done]. cbn [negb andb orb].
    destruct (negb (is_sha256 _)); [done|]. intros H. apply bind_Ok in H as (bytes & Hb & H).
    apply bind_Ok in H as (ok & _ & H). destruct ok; [|done]. apply Ok_inj in H as [= <- <-].
    apply andb_true_iff in Em as [Em%Z.eqb_eq Em'%String.eqb_eq]. rewrite suffix_message by done.
    cbn [read_entry] in Hb. destruct (_ && _) in Hb; [|done]. by injection Hb as ->.
Qed.
Lemma check_entries_Ok uid d l c0 b0 c b :
  check_entries uid d l c0 b0 = Ok (c, b) <->
  (forall n e, In (n, e) l -> is_ok (check_entry uid d n e) = true) /\
  c = c0 + Z.of_nat (length (json_list l)) /\ b = b0 + bytes_list l.
Proof.
  revert c0 b0. induction l as [|[n e] l IH]; intros c0 b0; cbn [check_entries].
  - cbn. split; [intros [= <- <-]; split_and!; (done || lia)|intros (_ & -> & ->); do 2 f_equal; lia].
  - destruct (check_entry uid d n e) as [[c1 b1]|x] eqn:E.
    2: { cbn. split; [done|]. intros (H & _). specialize (H n e (or_introl eq_refl)). by rewrite E in H. }
    cbn [mbind res_mbind]. rewrite IH. apply check_entry_weight in E as Ew.
    assert (c1 + Z.of_nat (length (json_list l)) = Z.of_nat (length (json_list ((n, e) :: l))) /\
      b1 + bytes_list l = bytes_list ((n, e) :: l)) as [E1 E2].
    { unfold bytes_list, json_list. cbn [List.filter fst]. destruct (json_name n); injection Ew as -> ->;
        cbn [length fold_right snd]; lia. }
    rewrite <- E1, <- E2. split.
    + intros (H & -> & ->). split_and!; [|lia..]. intros n' e' [[= <- <-]|Hin]; [by rewrite E|by apply H].
    + intros (H & -> & ->). split_and!; [|lia..]. intros n' e' Hin. apply H. by right.
Qed.
Definition queue_ok (uid : string) (d : dir) : Prop :=
  (forall n e, d !! n = Some e -> is_ok (check_entry uid d n e) = true) /\
  queued d <= maximum_count /\ queue_bytes d <= maximum_bytes.
Lemma validate_queue_Ok uid d : validate_queue uid d = Ok tt <-> queue_ok uid d.
Proof.
  unfold validate_queue, queue_ok. split.
  - intros H. apply bind_Ok in H as ([c b] & H & Hm). apply check_entries_Ok in H as (H & -> & ->).
    unfold not_ready_if in Hm. apply throw_if_Ok in Hm. b2p.
    split; [intros n e Hn; apply H; by apply in_map_to_list|]. split; assumption.
  - intros (H & Hc & Hb). apply bind_Ok. eexists (_, _). split.
    + apply check_entries_Ok. split; [|done]. intros n e Hn. apply H. by apply in_map_to_list.
    + unfold not_ready_if. apply throw_if_Ok. apply orb_false_iff. rewrite !Z.ltb_ge. by split.
Qed.
Lemma json_list_insert (d : dir) n e :
  d !! n = None -> json_name n = true ->
  queued (<[n := e]> d) = queued d + 1 /\
  queue_bytes (<[n := e]> d) = queue_bytes d + ssize (content e).
Proof.
  intros Hn Hj. unfold queued, queue_bytes, json_entries.
  pose proof (map_to_list_insert d n e Hn) as Hp.
  assert (Hf : List.filter (fun ne => json_name ne.1) (map_to_list (<[n := e]> d)) ≡ₚ
    (n, e) :: List.filter (fun ne => json_name ne.1) (map_to_list d)).
  { rewrite (filter_permutation _ _ _ Hp). cbn [List.filter fst]. by rewrite Hj. }
  split; [rewrite (Permutation_length Hf); cbn [length]; lia|].
  assert (Hs : forall l k : list (string * entry), l ≡ₚ k ->
    fold_right (fun ne n => ssize (content ne.2) + n) 0 l = fold_right (fun ne n => ssize (content ne.2) + n) 0 k).
  { induction 1; cbn; lia. }
  rewrite (Hs _ _ Hf). cbn. lia.
Qed.
Lemma check_entry_insert uid d n e m x :
  is_ok (check_entry uid d n e) = true -> is_ok (check_entry uid (<[m := x]> d) n e) = true.
Proof.
  unfold check_entry. destruct (negb (private_entry e)); [done|]. cbn zeta.
  destruct (_ || negb (is_sha256 _)); [done|]. destruct (_ && _); [|done].
  destruct (read_entry _ 64) as [b|]; [|done]. cbn [mbind res_mbind].
  destruct (negb (String.eqb b _)); [done|]. cbn [orb].
  destruct (bool_decide (is_Some (d !! _))) eqn:E; [|done]. apply bool_decide_eq_true in E.
  rewrite bool_decide_eq_true_2; [done|]. rewrite lookup_insert_is_Some. destruct (decide (m = queue_key n +:+ ".json")); auto.
Qed.

(** *** A message of a transaction is a valid queue entry *)

(** A message the service may commit for a unit: the checks of [replay], and it can be read back. *)
Record good_message (uid : string) (m : Json) : Prop := {
  msg_uid : at_string "unitSystemUid" m = Ok uid;
  msg_hash : exists content cc, jat "content" m = Ok content /\ canonical content = Ok cc /\
    at_string "contentSha256" m = Ok (sha256_hex cc);
  msg_wf : wf m;
  msg_depth : 2 + depth m <= maximum_depth }.
(** The bound of [commit] on a message it accepts. *)
Definition sized (m : Json) : Prop := exists c, canonical m = Ok c /\ ssize c <= 16384.
Lemma check_messages_good uid messages :
  Forall (good_message uid) messages -> Forall sized messages -> check_messages uid messages = Ok tt.
Proof.
  intros Hg Hs. induction Hg as [|m l [H1 (content & cc & H2 & H3 & H4) _ _] _ IH]; [done|].
  apply Forall_cons in Hs as [(c & H5 & H6) Hs].
  cbn [check_messages]. rewrite H1. cbn [mbind res_mbind]. rewrite String.eqb_refl. cbn [negb].
  unfold not_ready_if. cbn [throw_if]. rewrite H2. cbn [mbind res_mbind]. rewrite H3. cbn [mbind res_mbind].
  rewrite H4. cbn [mbind res_mbind]. rewrite String.eqb_refl. cbn [negb throw_if]. rewrite H5.
  cbn [mbind res_mbind]. replace (16384 <? ssize c) with false by lia. by apply IH.
Qed.
Lemma message_key_sha m k : message_key m = Ok k -> is_sha256 k = true.
Proof.
  unfold message_key. intros H. apply bind_Ok in H as (x & _ & H). apply bind_Ok in H as (c & _ & H).
  apply Ok_inj in H as <-. apply sha256_hex_is_sha256.
Qed.
Lemma message_name_parts k :
  is_sha256 k = true -> ssize (message_name k) = 69 /\ queue_key (message_name k) = k /\
    substr 64 5 (message_name k) = ".json"%string /\ stem (message_name k) = k.
Proof.
  intros Hk. apply is_sha256_size in Hk. split; [rewrite message_name_size; lia|].
  apply (chars_length_size _ 64) in Hk.
  assert (Hl : String.length k = 64%nat) by (by rewrite <- length_chars).
  split_and!; apply chars_inj.
  - unfold queue_key, substr, message_name. rewrite chars_str, chars_app, drop_0.
    by rewrite take_app_length' by done.
  - unfold substr, message_name. rewrite chars_str, chars_app.
    by rewrite drop_app_length' by done.
  - unfold stem. rewrite chars_str, <- length_chars. unfold message_name. rewrite chars_app, length_app, Hk.
    change (64 + length (chars ".json") - 5)%nat with 64%nat. by rewrite take_app_length' by done.
Qed.
Lemma message_entry_valid uid d m k b :
  good_message uid m -> message_is m (k, b) -> ssize b <= 16384 -> is_ok (check_entry uid d (message_name k) (own_file b)) = true.
Proof.
  intros [H1 (content & cc & H2 & H3 & H4) Hw Hd] [Hk Hb] H6. cbn [fst snd] in *.
  assert (Hs : is_sha256 k = true) by (by eapply message_key_sha).
  destruct (message_name_parts k Hs) as (N1 & N2 & N3 & _).
  unfold check_entry. change (private_entry (own_file b)) with true. cbn [negb]. cbn zeta.
  rewrite N1, N2, N3, Hs. cbn [Z.eqb Pos.eqb andb orb negb String.eqb Ascii.eqb Bool.eqb].
  rewrite read_own by (pose proof (canonical_nonempty _ _ Hb); lia). cbn [mbind res_mbind].
  unfold message_valid, parse_json. replace (16384 <? ssize b) with false by lia.
  rewrite (parse_canonical m b) by (done || lia). cbn [mbind res_mbind]. rewrite H1. cbn [mbind res_mbind].
  rewrite String.eqb_refl. cbn [negb]. rewrite Hb. cbn [mbind res_mbind]. rewrite String.eqb_refl. cbn [negb].
  rewrite Hk. cbn [mbind res_mbind]. rewrite String.eqb_refl. cbn [negb]. rewrite H2. cbn [mbind res_mbind].
  rewrite H3. cbn [mbind res_mbind]. rewrite H4. cbn [mbind res_mbind]. by rewrite String.eqb_refl.
Qed.

(** *** What a commit accepts *)

Definition total_bytes (ms : list (string * string)) : Z := fold_right (fun kb n => ssize kb.2 + n) 0 ms.
(** No two of the messages have the same key. *)
Fixpoint distinct_keys (messages : list Json) : Prop :=
  match messages with
  | [] => True
  | m :: l => Forall (fun m' => forall k, message_key m = Ok k -> message_key m' <> Ok k) l /\ distinct_keys l
  end.
Record acceptance (d : dir) (messages accepted : list Json) (count bytes : Z) (ms : list (string * string)) : Prop := {
  acc_is : Forall2 message_is accepted ms;
  acc_sub : Forall (fun m => m ∈ messages) accepted;
  acc_keys : NoDup (map fst ms);
  acc_absent : Forall (fun kb => d !! message_name kb.1 = None /\ is_sha256 kb.1 = true /\ 0 < ssize kb.2 <= 16384) ms;
  acc_count : count <= maximum_count -> count + Z.of_nat (length ms) <= maximum_count;
  acc_bytes : bytes <= maximum_bytes -> bytes + total_bytes ms <= maximum_bytes;
  acc_length : (length accepted <= length messages)%nat }.
Lemma accept_messages_Ok d messages count bytes full accepted full' :
  distinct_keys messages -> accept_messages d messages count bytes full = Ok (accepted, full') ->
  exists ms, acceptance d messages accepted count bytes ms.
Proof.
  revert count bytes full accepted full'. induction messages as [|m l IH]; intros count bytes full accepted full' Hd H.
  - cbn in H. injection H as <- <-. exists []. constructor; cbn; try constructor; lia.
  - cbn [accept_messages] in H. destruct Hd as [Hm Hd]. apply bind_Ok in H as (b & Hb & H).
    apply bind_Ok in H as (k & Hk & H). destruct (16384 <? ssize b) eqn:Esz; [done|]. b2p.
    assert (Hskip : forall count bytes full, accept_messages d l count bytes full = Ok (accepted, full') ->
      exists ms, acceptance d (m :: l) accepted count bytes ms).
    { intros c1 b1 f1 H1. apply IH in H1 as [ms [A1 A2 A3 A4 A5 A6 A7]]; [|done]. exists ms.
      constructor; try done; [|cbn; lia]. eapply Forall_impl; [exact A2|]. cbn. intros; by right. }
    destruct (d !! message_name k) as [e|] eqn:Ek.
    + apply bind_Ok in H as (o & _ & H). destruct (String.eqb o b); [by eapply Hskip|done].
    + destruct ((maximum_count <=? count) || _) eqn:Ef; [by eapply Hskip|]. b2p.
      apply bind_Ok in H as ([acc f] & H & E). apply Ok_inj in E as [= <- <-].
      apply IH in H as [ms [A1 A2 A3 A4 A5 A6 A7]]; [|done]. exists ((k, b) :: ms).
      constructor; cbn [map fst length total_bytes fold_right snd] in *.
      * by constructor.
      * constructor; [by left|]. eapply Forall_impl; [exact A2|]. cbn. intros; by right.
      * constructor; [|done]. intros Hin. apply list_elem_of_In, in_map_iff in Hin as ([k' b'] & E & Hin).
        cbn in E. subst k'. apply list_elem_of_In in Hin.
        apply list_elem_of_lookup in Hin as [i Hi].
        destruct (Forall2_lookup_r _ _ _ _ _ A1 Hi) as (m' & Hm' & [Hmk _]).
        apply list_elem_of_lookup_2 in Hm'. rewrite Forall_forall in A2, Hm.
        by apply (Hm m' (A2 _ Hm') k Hk).
      * constructor; [|done]. cbn. split_and!; [done|by eapply message_key_sha|by eapply canonical_nonempty|done].
      * lia.
      * unfold total_bytes in A6. lia.
      * lia.
Qed.
Lemma accepted_fresh d messages accepted count bytes ms uid :
  queue_ok uid d -> acceptance d messages accepted count bytes ms -> fresh_messages d ms.
Proof.
  intros (Hq & _) [_ _ A3 A4 _ _ _]. constructor; [done|..].
  - eapply Forall_impl; [exact A4|]. cbn. tauto.
  - eapply Forall_impl; [exact A4|]. cbn. intros [k b] (Hn & Hs & _). split; [done|].
    cbn [fst] in *. destruct (d !! next_name (message_name k)) as [e|] eqn:E; [|done]. exfalso.
    specialize (Hq _ _ E). unfold check_entry in Hq. destruct (negb (private_entry e)); [done|].
    cbn zeta in Hq. apply is_sha256_size in Hs.
    assert (Hsz : ssize (next_name (message_name k)) = 74) by (rewrite next_name_size, message_name_size; lia).
    by rewrite Hsz in Hq.
Qed.
(** The queue with the accepted messages is valid again. *)
Lemma accepted_queue uid d messages accepted ms :
  queue_ok uid d -> Forall (good_message uid) messages ->
  acceptance d messages accepted (queued d) (queue_bytes d) ms -> queue_ok uid (add_messages d ms).
Proof.
  intros (Hq & Hc & Hb) Hg [A1 A2 A3 A4 A5 A6 _].
  specialize (A5 Hc). specialize (A6 Hb).
  enough (H : (forall n e, add_messages d ms !! n = Some e -> is_ok (check_entry uid (add_messages d ms) n e) = true) /\
    queued (add_messages d ms) = queued d + Z.of_nat (length ms) /\
    queue_bytes (add_messages d ms) = queue_bytes d + total_bytes ms).
  { destruct H as (H1 & H2 & H3). unfold queue_ok. rewrite H2, H3. split; [done|lia]. }
  assert (Hgood : Forall (good_message uid) accepted).
  { rewrite Forall_forall in *. intros m Hm. by apply Hg, A2. }
  clear A2 A5 A6. revert accepted A1 Hgood. induction ms as [|[k b] ms IH] using rev_ind; intros accepted A1 Hgood.
  - cbn. split_and!; [done|lia..].
  - apply Forall2_app_inv_r in A1 as (acc & am & A1 & Am & ->).
    pose proof (Forall2_length _ _ _ Am) as Hl. destruct am as [|m [|]]; [discriminate Hl| |discriminate Hl].
    apply Forall2_cons_1 in Am as [Hmk _].
    apply Forall_app in Hgood as [Hgood Hm]. rewrite Forall_singleton in Hm.
    rewrite map_app, NoDup_app in A3. destruct A3 as (A3 & Hdis & _).
    apply Forall_app in A4 as [A4 Ak]. rewrite Forall_singleton in Ak. destruct Ak as (Hn & Hs & Hsz). cbn [fst snd] in *.
    destruct (IH A3 A4 acc A1 Hgood) as (H1 & H2 & H3). rewrite add_messages_snoc. cbn [fst snd].
    assert (Hnone : add_messages d ms !! message_name k = None).
    { rewrite add_messages_other; [done|]. apply List.Forall_forall. intros [k' b'] Hin E%message_name_inj.
      cbn in E. subst k'. apply (Hdis k); [apply list_elem_of_In; by apply (in_map fst ms (k, b'))|cbn; set_solver]. }
    destruct (message_name_parts k Hs) as (N1 & _ & N3 & _).
    destruct (json_list_insert (add_messages d ms) (message_name k) (own_file b) Hnone) as [E1 E2];
      [by apply suffix_message|].
    rewrite E1, E2, H2, H3, length_app. split_and!.
    + intros n e [[<- <-]|[Hne He]]%lookup_insert_Some.
      * eapply message_entry_valid; [done|done|lia].
      * apply check_entry_insert. by apply H1.
    + cbn [length]. lia.
    + unfold total_bytes. rewrite fold_right_app. cbn [fold_right snd content own_file].
      assert (Hsum : forall l x, fold_right (fun kb n => ssize (snd kb) + n) x l
        = fold_right (fun (kb : string * string) n => ssize kb.2 + n) 0 l + x) by (induction l; cbn; intros; [|rewrite IHl]; lia).
      rewrite (Hsum ms (ssize b + 0)). lia.
Qed.

(** ** The journal *)

Lemma validate_size uid v :
  validate_state uid v = Ok tt -> exists c, canonical v = Ok c /\ ssize c <= maximum_state.
Proof.
  unfold validate_state, validate_step. intros H. do 2 apply bind_Ok in H as (? & _ & H).
  apply bind_Ok in H as ([] & H & _). unfold validate_top in H.
  do 12 apply bind_Ok in H as (? & _ & H). apply bind_Ok in H as (c & Hc & H).
  unfold not_ready_if in H. apply throw_if_Ok in H. b2p. by exists c.
Qed.
Definition txn_object (next : Json) (accepted : list Json) : Object :=
  [("messages", JArray accepted); ("schemaVersion", JInt 1); ("state", next)]%string.
Lemma txn_json_object next accepted : txn_json next accepted = JObject (txn_object next accepted).
Proof. reflexivity. Qed.
Lemma comma_texts_length ps :
  Z.of_nat (length (comma_texts ps)) = fold_right (fun p n => ssize p + n) 0 ps + Z.of_nat (length ps).
Proof.
  induction ps as [|p ps IH]; [done|]. unfold comma_texts in *. cbn [flat_map fold_right].
  rewrite length_app, ssize_chars. cbn [length]. lia.
Qed.
Lemma journal_length next accepted ms c t :
  Forall2 message_is accepted ms -> canonical next = Ok c -> canonical (txn_json next accepted) = Ok t ->
  ssize t <= ssize c + total_bytes ms + Z.of_nat (length ms) + 50.
Proof.
  intros Hms Hc Ht. rewrite txn_json_object in Ht. apply canonical_object_inv in Ht as (ps & Hps & E).
  unfold txn_object in Hps.
  apply Forall2_cons_inv_l in Hps as (p1 & ps1 & H1 & Hps & ->).
  apply Forall2_cons_inv_l in Hps as (p2 & ps2 & H2 & Hps & ->).
  apply Forall2_cons_inv_l in Hps as (p3 & ps3 & H3 & Hps & ->).
  apply Forall2_nil_inv_l in Hps as ->. cbn [fst snd] in *.
  apply entry_text_inv in H1 as (q1 & x1 & Q1 & C1 & E1).
  apply entry_text_inv in H2 as (q2 & x2 & Q2 & C2 & E2).
  apply entry_text_inv in H3 as (q3 & x3 & Q3 & C3 & E3).
  assert (ssize q1 = 10) by (vm_compute in Q1; injection Q1 as <-; reflexivity).
  assert (ssize q2 = 15) by (vm_compute in Q2; injection Q2 as <-; reflexivity).
  assert (ssize q3 = 7) by (vm_compute in Q3; injection Q3 as <-; reflexivity).
  assert (ssize x2 = 1) by (vm_compute in C2; injection C2 as <-; reflexivity).
  assert (x3 = c) as -> by congruence.
  assert (Hx1 : ssize x1 <= total_bytes ms + Z.of_nat (length ms) + 2).
  { apply canonical_array_inv in C1 as (ts & Hts & Ex). rewrite ssize_chars, Ex. cbn [length].
    rewrite length_app. cbn [length].
    assert (Hsum : fold_right (fun p n => ssize p + n) 0 ts = total_bytes ms /\ length ts = length ms).
    { clear -Hts Hms. revert ts Hts. induction Hms as [|m [k b] acc ms [_ Hb] _ IH]; intros ts Hts.
      - by apply Forall2_nil_inv_l in Hts as ->.
      - apply Forall2_cons_inv_l in Hts as (y & ts' & Hy & Hts & ->). destruct (IH _ Hts) as [I1 I2].
        cbn [fold_right length total_bytes snd] in *. unfold total_bytes in I1.
        assert (y = b) as -> by congruence. split; [by rewrite I1|by rewrite I2]. }
    destruct Hsum as [Hsum Hlen]. pose proof (comma_texts_length ts) as Hct. destruct ts as [|y ts]; cbn [length] in *.
    - cbn in Hsum. lia.
    - rewrite length_app. unfold comma_texts in Hct. cbn [flat_map] in Hct.
      rewrite length_app in Hct. cbn [length] in Hct. unfold comma_texts. cbn [length]. lia. }
  unfold comma_texts in E. cbn [flat_map] in E. rewrite app_nil_r, E1, E2, E3 in E.
  apply (f_equal (fun l => Z.of_nat (length l))) in E. cbn [length] in E.
  repeat (rewrite ?length_app in E; cbn [length] in E). rewrite !ssize_chars in *. lia.
Qed.
Lemma total_bytes_bound ms :
  Forall (fun kb => ssize kb.2 <= 16384) ms -> total_bytes ms <= 16384 * Z.of_nat (length ms).
Proof.
  unfold total_bytes. induction 1 as [|[k b] ms Hb _ IH]; cbn [fold_right length snd] in *; lia.
Qed.
Lemma accepted_sized d messages accepted count bytes ms :
  acceptance d messages accepted count bytes ms -> Forall sized accepted.
Proof.
  intros [A1 _ _ A4 _ _ _]. induction A1 as [|m [k b] l ms [_ Hb] _ IH]; [done|].
  apply Forall_cons in A4 as [(_ & _ & Hs) A4]. constructor; [|by apply IH]. exists b. cbn [snd] in *. split; [done|lia].
Qed.
(** What a caller of [commit] provides. *)
Record good_commit (uid : string) (next : Json) (messages : list Json) : Prop := {
  commit_wf : wf next;
  commit_depth : 1 + depth next <= maximum_depth;
  commit_messages : Forall (good_message uid) messages;
  commit_distinct : distinct_keys messages;
  commit_length : (length messages <= 3)%nat }.
Lemma commit_transaction uid next messages accepted d ms c t :
  good_commit uid next messages -> validate_state uid next = Ok tt -> canonical next = Ok c ->
  canonical (txn_json next accepted) = Ok t ->
  acceptance d messages accepted (queued d) (queue_bytes d) ms ->
  transaction uid next accepted ms c t.
Proof.
  intros [Hw Hd Hg _ Hlen] Hv Hc Ht Hacc. pose proof (accepted_sized _ _ _ _ _ _ Hacc) as Hsized.
  destruct Hacc as [A1 A2 A3 A4 A5 A6 A7].
  destruct (validate_size _ _ Hv) as (c' & Hc' & Hsz). assert (c' = c) as -> by congruence.
  assert (Hgood : Forall (good_message uid) accepted).
  { rewrite Forall_forall in *. intros m Hm. by apply Hg, A2. }
  assert (Hl : length accepted = length ms) by (by eapply Forall2_length).
  constructor; try done.
  - unfold replay_checks. rewrite txn_json_object. cbn [object mbind res_mbind].
    change (obj_size (txn_object next accepted)) with 3. cbn [Z.eqb Pos.eqb negb not_ready_if throw_if].
    change (at_integer "schemaVersion" (JObject (txn_object next accepted))) with (Ok 1).
    change (jat "state" (JObject (txn_object next accepted))) with (Ok next).
    change (jat "messages" (JObject (txn_object next accepted))) with (Ok (JArray accepted)).
    unfold not_ready_if. cbn [mbind res_mbind Z.eqb Pos.eqb negb throw_if array]. rewrite Hv. cbn [mbind res_mbind].
    replace (4 <? Z.of_nat (length accepted)) with false by lia. cbn [throw_if mbind res_mbind].
    by rewrite check_messages_good.
  - pose proof (journal_length _ _ _ _ _ A1 Hc Ht).
    assert (total_bytes ms <= 16384 * Z.of_nat (length ms)).
    { apply total_bytes_bound. eapply Forall_impl; [exact A4|]. cbn. tauto. }
    unfold transaction_limit, maximum_state in *. lia.
  - rewrite txn_json_object. apply wf_object. split; [sorted_keys|].
    repeat constructor; cbn [snd]; try done. apply wf_array. eapply Forall_impl; [exact Hgood|]. by intros m [].
  - rewrite txn_json_object. cbn [depth txn_object].
    assert (Hdm : depth (JArray accepted) <= maximum_depth - 1).
    { clear -Hgood. cbn [depth]. induction Hgood as [|m l [_ _ _ Hm] _ IH]; [unfold maximum_depth; lia|].
      unfold maximum_depth in *. lia. }
    cbn [depth snd] in *. pose proof (depth_nonneg next). unfold maximum_depth in *. lia.
Qed.

(** ** Opening *)

Definition set_memory (j : Json) (s : machine) : machine :=
  MkMachine (root s) (outbox s) (ticks s) (torn s) j.
(** The constructor after the recovery. *)
Definition open_tail (uid epoch : string) : IO unit :=
  state ← load_state uid epoch;
  _ ← remember_state state;
  digest ← read_file Root "state.sha256" 64;
  c ← pure (canonical state);
  _ ← pure (not_ready_if (negb (String.eqb digest (sha256_hex c))));
  _ ← pure (validate_state uid state);
  q ← read_dir Outbox;
  pure (validate_queue uid q).
Lemma open_store_eq uid epoch :
  open_store uid epoch =
  (d ← read_dir Root; _ ← pure (check_root d); _ ← recover uid; open_tail uid epoch).
Proof. reflexivity. Qed.
Lemma sha256_hex_size x : ssize (sha256_hex x) = 64.
Proof. apply is_sha256_size, sha256_hex_is_sha256. Qed.
Lemma open_tail_loaded uid epoch st c s s1 :
  load_state uid epoch s = (s1, Done st) ->
  holdable uid st c -> rest_root c (root s1) -> validate_queue uid (outbox s1) = Ok tt ->
  open_tail uid epoch s = (set_memory st s1, Done tt).
Proof.
  intros Hload [Hv Hc Hsz Hw Hd] (R1 & R2 & _) Hq. unfold open_tail.
  rewrite (bind_done _ _ s s1 st Hload).
  rewrite (bind_done _ _ s1 (set_memory st s1) tt) by reflexivity.
  rewrite (bind_done _ _ (set_memory st s1) (set_memory st s1) (sha256_hex c))
    by (apply read_file_done; [exact R2|rewrite sha256_hex_size; lia]).
  rewrite (pure_bind _ _ _ Hc), String.eqb_refl. cbn [negb].
  rewrite (pure_bind (not_ready_if false) tt) by reflexivity. rewrite (pure_bind _ _ _ Hv).
  rewrite (bind_done _ _ (set_memory st s1) (set_memory st s1) (outbox s1)) by reflexivity.
  by rewrite Hq.
Qed.
Lemma load_state_stored uid epoch st c s :
  holdable uid st c -> rest_root c (root s) -> load_state uid epoch s = (s, Done st).
Proof.
  intros [_ Hc Hsz Hw Hd] (R1 & _). pose proof (canonical_nonempty _ _ Hc) as Hpos.
  unfold load_state. rewrite (bind_done _ _ s s true) by (unfold exists_in; cbn [dir_of]; by rewrite R1).
  rewrite (bind_done _ _ s s c) by (apply read_file_done; [done|lia]). unfold parse_json.
  replace (maximum_state <? ssize c) with false by lia. by rewrite (parse_canonical st c).
Qed.
Lemma open_tail_done uid epoch st c s :
  holdable uid st c -> rest_root c (root s) -> validate_queue uid (outbox s) = Ok tt ->
  open_tail uid epoch s = (set_memory st s, Done tt).
Proof. intros Hh Hr Hq. eapply open_tail_loaded; [by eapply load_state_stored|done..]. Qed.
(** Without a journal there is nothing to recover. *)
Lemma open_no_journal uid epoch c s :
  rest_root c (root s) -> open_store uid epoch s = open_tail uid epoch s.
Proof.
  intros (_ & _ & Hn & Ha). rewrite open_store_eq. rewrite (bind_done _ _ s s (root s)) by reflexivity.
  rewrite (pure_bind _ tt) by (apply check_root_Ok; rewrite Hn; by rewrite bool_decide_eq_false_2 by (by intros [])).
  rewrite (bind_done _ _ s s tt); [done|].
  unfold recover. rewrite (bind_done _ _ s s false); [done|]. unfold exists_in. cbn [dir_of]. by rewrite Hn.
Qed.
Lemma open_at_rest uid epoch st o s :
  at_rest uid st o s -> open_store uid epoch s = (set_memory st s, Done tt).
Proof.
  intros [(c & Hh & Hr) [Ho Hq]]. rewrite (open_no_journal uid epoch c) by done.
  eapply open_tail_done; [done|done|by rewrite Ho].
Qed.

(** A committed transaction that was stopped: the journal is durable, and what it leads to is a
    store at rest with the new state and queue. *)
Definition unfinished (uid : string) (next : Json) (o' : dir) (s : machine) : Prop :=
  exists accepted ms c t old, transaction uid next accepted ms c t /\ fresh_messages old ms /\
    in_txn old ms t s /\ o' = add_messages old ms /\ holdable uid next c /\ validate_queue uid o' = Ok tt.
Lemma open_unfinished uid epoch next o' s :
  unfinished uid next o' s ->
  match open_store uid epoch s with
  | (s', Done _) => at_rest uid next o' s' /\ memory s' = next
  | (s', Thrown _) => False
  | (s', Stopped) => unfinished uid next o' s' \/ at_rest uid next o' s'
  end.
Proof.
  intros (accepted & ms & c & t & old & Htx & Hf & [Hr Ho] & -> & Hh & Hq). rewrite open_store_eq.
  rewrite (bind_done _ _ s s (root s)) by reflexivity.
  rewrite (pure_bind _ tt).
  2: { apply check_root_Ok. destruct Hr as [-> Ha]. by rewrite bool_decide_eq_true_2 by (by eexists). }
  pose proof (recover_triple uid next accepted ms c t old Htx Hf (root s) (outbox s) (memory s) Hr Ho s
    ltac:(done)) as H.
  unfold mbind, IO_mbind. destruct (recover uid s) as [s1 [x|e|]]; [|done|].
  - destruct H as [H1 H2]. rewrite (open_tail_done uid epoch next c) by (done || by rewrite H2).
    split; [|done]. split; [by exists c|]. by split.
  - destruct H as [H|[H1 H2]]; [left|right].
    + by exists accepted, ms, c, t, old.
    + split; [by exists c|]. by split.
Qed.

(** *** Committing *)

(** The window: the journal's temporary was created and the journal not yet renamed. *)
Definition torn_journal (uid : string) (st : Json) (o : dir) (s : machine) : Prop :=
  exists c r t, holdable uid st c /\ rest_root c r /\
    root s = <["transaction.json.next"%string := own_file t]> r /\ outbox s = o /\
    validate_queue uid o = Ok tt.
Lemma rest_root_txn c r t :
  rest_root c r -> txn_root t (written "transaction.json" t r).
Proof.
  intros (_ & _ & _ & Ha). unfold written. split; [apply lookup_insert_eq|].
  intros n e [[<- <-]|[_ [_ Hn]%lookup_delete_Some]]%lookup_insert_Some; [done|].
  destruct (Ha n e Hn) as [H1 H2]. split; [|done]. unfold root_name_ok in *. cbn [andb] in H1.
  rewrite orb_false_r in H1. by rewrite H1.
Qed.
(** The queue a commit leads to: the accepted messages are added under their keys. *)
Definition commits_to (o : dir) (messages : list Json) (full : bool) (o' : dir) : Prop :=
  exists accepted ms, accept_messages o messages (queued o) (queue_bytes o) false = Ok (accepted, full) /\
    Forall2 message_is accepted ms /\ o' = add_messages o ms.
(** Where a commit that leads to the queue [o'] may be stopped. *)
Definition commit_stopped (uid : string) (next st : Json) (o o' : dir) (s : machine) : Prop :=
  at_rest uid st o s \/ torn_journal uid st o s \/ unfinished uid next o' s \/ at_rest uid next o' s.
(** The replay of a journal that is durable, and its removal. *)
Lemma journalled_triple uid next o accepted ms c t c0 r j (room : bool) :
  transaction uid next accepted ms c t -> fresh_messages o ms -> rest_root c0 r ->
  holdable uid next c -> validate_queue uid (add_messages o ms) = Ok tt ->
  triple (disk_is (written "transaction.json" t r) o j)
    (_ ← replay uid (txn_json next accepted); _ ← remove_durable Root "transaction.json"; mret room)
    (fun b s' => at_rest uid next (add_messages o ms) s' /\ memory s' = next /\ b = room)
    (fun s' => unfinished uid next (add_messages o ms) s' \/ at_rest uid next (add_messages o ms) s').
Proof.
  intros Htx Hf Hr Hnext Hq'.
  assert (Hmid : partly o ms o) by (exists [], ms; by split; [|left]).
  pose proof (rest_root_txn c0 r t Hr) as Hr'.
  set (C := fun s' => unfinished uid next (add_messages o ms) s' \/ at_rest uid next (add_messages o ms) s').
  assert (Hunf : forall s', in_txn o ms t s' -> C s').
  { intros s' Hs. left. by exists accepted, ms, c, t, o. }
  eapply triple_bind; [eapply triple_weaken;
    [eapply (replay_triple uid next accepted ms c t o Htx Hf _ o); [exact Hr'|exact Hmid]|done|intros a s' Hq2; exact Hq2|exact Hunf]|].
  intros a s1 (r' & Hfin & Hd). cbn beta.
  enough (T : triple (disk_is r' (add_messages o ms) next)
    (_ ← remove_durable Root "transaction.json"; mret room)
    (fun b s' => at_rest uid next (add_messages o ms) s' /\ memory s' = next /\ b = room) C) by exact (T s1 Hd).
  eapply triple_seq.
  - eapply triple_weaken; [eapply remove_journal_triple; [exact Hfin|reflexivity]|done|
      intros u s' H; exact H|].
    intros s' [H|[H1 H2]]; [by apply Hunf|]. right. split; [by exists c|by split].
  - intros s' (E1 & E2 & E3). split_and!; [|done|done].
    split; [exists c; split; [done|]; rewrite E1; by eapply finished_rest|by split].
Qed.
Lemma journal_writable c r : rest_root c r -> writable "transaction.json" false r.
Proof.
  intros (_ & _ & _ & Ha). unfold writable. destruct (r !! _) as [e|] eqn:E; [|done]. by destruct (Ha _ _ E).
Qed.
(** The journal, its replay and its removal. *)
Lemma commit_triple uid next st o accepted ms c t c0 r j (room : bool) :
  transaction uid next accepted ms c t -> fresh_messages o ms -> holdable uid st c0 -> rest_root c0 r ->
  holdable uid next c -> validate_queue uid o = Ok tt -> validate_queue uid (add_messages o ms) = Ok tt ->
  triple (disk_is r o j)
    (_ ← durable_file Root "transaction.json" t; _ ← replay uid (txn_json next accepted);
     _ ← remove_durable Root "transaction.json"; mret room)
    (fun b s' => at_rest uid next (add_messages o ms) s' /\ memory s' = next /\ b = room)
    (commit_stopped uid next st o (add_messages o ms)).
Proof.
  intros Htx Hf Hh Hr Hnext Hq Hq'.
  assert (Hmid : partly o ms o) by (exists [], ms; by split; [|left]).
  pose proof (rest_root_txn c0 r t Hr) as Hr'.
  set (C := commit_stopped uid next st o (add_messages o ms)).
  eapply triple_seq.
  { apply (write_triple Root "transaction.json" t false r r o j); [by eapply journal_writable|].
    intros d' s' [->|[[x ->]| ->]] (E1 & E2 & _).
    - left. split; [exists c0; by rewrite E1|by split].
    - right. left. by exists c0, r, x.
    - right. right. left. exists accepted, ms, c, t, o. split_and!; try done. split; [by rewrite E1|by rewrite E2]. }
  eapply triple_weaken; [by eapply (journalled_triple uid next o accepted ms c t c0 r j)|done|done|].
  intros s' [H|H]; [by right; right; left|by do 3 right].
Qed.
(** What a commit gets past its checks with. *)
Record commit_plan (uid : string) (next : Json) (o : dir) (messages accepted : list Json) (full : bool) (ms : list (string * string)) (c t : string) : Prop := {
  plan_checks : validate_state uid next = Ok tt;
  plan_accepted : accept_messages o messages (queued o) (queue_bytes o) false = Ok (accepted, full);
  plan_text : canonical (txn_json next accepted) = Ok t;
  plan_transaction : transaction uid next accepted ms c t;
  plan_fresh : fresh_messages o ms;
  plan_queue : validate_queue uid (add_messages o ms) = Ok tt;
  plan_holdable : holdable uid next c;
  plan_to : commits_to o messages full (add_messages o ms) }.
Lemma commit_planned uid next messages o accepted full t :
  validate_queue uid o = Ok tt -> good_commit uid next messages -> validate_state uid next = Ok tt ->
  accept_messages o messages (queued o) (queue_bytes o) false = Ok (accepted, full) ->
  canonical (txn_json next accepted) = Ok t ->
  exists ms c, commit_plan uid next o messages accepted full ms c t.
Proof.
  intros Hq Hg Hv Hacc Ht.
  destruct (accept_messages_Ok _ _ _ _ _ _ _ (commit_distinct _ _ _ Hg) Hacc) as [ms Hms].
  destruct (validate_size _ _ Hv) as (c & Hc & Hsz). apply validate_queue_Ok in Hq as Hqok. exists ms, c.
  constructor; try done.
  - by eapply commit_transaction.
  - by eapply accepted_fresh.
  - apply validate_queue_Ok. exact (accepted_queue uid o messages accepted ms Hqok (commit_messages _ _ _ Hg) Hms).
  - destruct Hg as [Hw Hd _ _ _]. constructor; try done. lia.
  - exists accepted, ms. split_and!; [done|by destruct Hms|done].
Qed.
Lemma commit_run uid next messages s st o :
  at_rest uid st o s -> good_commit uid next messages ->
  match commit uid next messages s with
  | (s', Thrown _) => s' = s
  | (s', Done room) => exists o', commits_to o messages (negb room) o' /\ at_rest uid next o' s' /\ memory s' = next
  | (s', Stopped) => at_rest uid st o s' \/ torn_journal uid st o s' \/
      exists full o', commits_to o messages full o' /\ (unfinished uid next o' s' \/ at_rest uid next o' s')
  end.
Proof.
  intros [(c0 & Hh & Hr) [Ho Hq]] Hg. unfold commit.
  rewrite (bind_done _ _ s s o) by (unfold read_dir; cbn [dir_of]; by rewrite Ho).
  destruct (validate_state uid next) as [[]|e] eqn:Hv; [|done]. rewrite (pure_bind _ tt) by done.
  rewrite (pure_bind _ tt) by done.
  destruct (accept_messages o messages (queued o) (queue_bytes o) false) as [[accepted full]|e] eqn:Hacc; [|done].
  rewrite (pure_bind _ (accepted, full)) by done. cbn beta iota zeta.
  destruct (canonical (txn_json next accepted)) as [t|e] eqn:Ht; [|done]. rewrite (pure_bind _ t) by done.
  destruct (commit_planned uid next messages o accepted full t Hq Hg Hv Hacc Ht) as (ms & c & [_ _ _ Htx Hf Hq' Hnext Hto]).
  pose proof (commit_triple uid next st o accepted ms c t c0 (root s) (memory s) (negb full) Htx Hf Hh Hr Hnext Hq Hq' s ltac:(done)) as T.
  destruct (mbind _ (durable_file Root "transaction.json" t) s) as [s' [room|e|]]; [|done|].
  - destruct T as (T1 & T2 & ->). exists (add_messages o ms). rewrite negb_involutive. by split_and!.
  - destruct T as [T|[T|T]]; [by left|by right; left|]. right. right. by exists full, (add_messages o ms).
Qed.

(** ** Steps *)

(** [m] makes at most [n] steps. *)
Definition cost {A} (m : IO A) (n : nat) : Prop :=
  forall s, match m s with
            | (s', Done _) => (ticks s <= ticks s' + n)%nat
            | (_, Thrown _) => True
            | (_, Stopped) => (ticks s < n)%nat
            end.
Lemma cost_bind {A B} (m : IO A) (k : A -> IO B) a b :
  cost m a -> (forall x, cost (k x) b) -> cost (m ≫= k) (a + b).
Proof.
  intros Hm Hk s. specialize (Hm s). unfold mbind, IO_mbind. destruct (m s) as [s1 [x|e|]]; [|done|lia].
  specialize (Hk x s1). destruct (k x s1) as [s2 [y|e|]]; [lia|done|lia].
Qed.
Lemma cost_weaken {A} (m : IO A) a b : cost m a -> (a <= b)%nat -> cost m b.
Proof. intros H Hab s. specialize (H s). destruct (m s) as [s1 [x|e|]]; [lia|done|lia]. Qed.
Lemma cost_free {A} (m : IO A) : (forall s, (m s).2 <> Stopped /\ ticks (m s).1 = ticks s) -> cost m 0.
Proof. intros H s. destruct (H s) as [H1 H2]. destruct (m s) as [s1 [x|e|]]; cbn in *; [lia|done|done]. Qed.
Lemma cost_pure {A} (r : res A) : cost (pure r) 0.
Proof. apply cost_free. by destruct r. Qed.
Lemma cost_ret {A} (a : A) : cost (mret a) 0.
Proof. by apply cost_free. Qed.
Lemma cost_fail {A} e : cost (A:=A) (fail e) 0.
Proof. by apply cost_free. Qed.
Lemma cost_read_dir p : cost (read_dir p) 0.
Proof. by apply cost_free. Qed.
Lemma cost_exists p n : cost (exists_in p n) 0.
Proof. by apply cost_free. Qed.
Lemma cost_read_file p n l : cost (read_file p n l) 0.
Proof. apply cost_free. intros s. unfold read_file. by destruct (read_entry _ _). Qed.
Lemma cost_tick : cost tick 1.
Proof. intros s. unfold tick. destruct (ticks s); cbn; lia. Qed.
Lemma cost_change p f : cost (change_dir p f) 0.
Proof. apply cost_free. by destruct p. Qed.
Lemma cost_torn : cost torn_bytes 0.
Proof. by apply cost_free. Qed.
Lemma cost_remember j : cost (remember_state j) 0.
Proof. by apply cost_free. Qed.
Create HintDb steps.
#[export] Hint Resolve cost_pure cost_ret cost_fail cost_read_dir cost_exists cost_read_file cost_tick
  cost_change cost_torn cost_remember : steps.
Lemma cost_open p n r : cost (open_temporary p n r) 0.
Proof.
  unfold open_temporary. apply (cost_bind _ _ 0 0); [auto with steps|]. intros d.
  destruct (d !! _); [|auto with steps]. destruct (negb r); [auto with steps|].
  destruct (private_entry e); auto with steps.
Qed.
Lemma cost_write p n b r : cost (write_durable_file p n b r) 3.
Proof.
  unfold write_durable_file. apply (cost_bind _ _ 0 3); [apply cost_open|]. intros _.
  apply (cost_bind _ _ 1 2); [auto with steps|]. intros _.
  apply (cost_bind _ _ 0 2); [auto with steps|]. intros t.
  apply (cost_bind _ _ 0 2); [auto with steps|]. intros _.
  apply (cost_bind _ _ 1 1); [auto with steps|]. intros _.
  apply (cost_bind _ _ 0 1); auto with steps.
Qed.
Lemma cost_remove p n : cost (remove_durable p n) 2.
Proof.
  unfold remove_durable. apply (cost_bind _ _ 1 1); [auto with steps|]. intros _.
  apply (cost_bind _ _ 0 1); auto with steps.
Qed.
#[export] Hint Resolve cost_write cost_remove : steps.
Lemma cost_replay_message m : cost (replay_message m) 3.
Proof.
  unfold replay_message. apply (cost_bind _ _ 0 3); [auto with steps|]. intros k.
  apply (cost_bind _ _ 0 3); [auto with steps|]. intros b.
  apply (cost_bind _ _ 0 3); [auto with steps|]. intros d.
  destruct (d !! _); [|auto with steps]. apply (cost_weaken _ 0); [|lia].
  destruct (negb _); [auto with steps|]. apply (cost_bind _ _ 0 0); [auto with steps|]. intros o.
  destruct (String.eqb o b); auto with steps.
Qed.
Lemma cost_replay_messages l : cost (replay_messages l) (3 * length l).
Proof.
  induction l as [|m l IH]; cbn [replay_messages length]; [auto with steps|].
  replace (3 * S (length l))%nat with (3 + 3 * length l)%nat by lia.
  apply cost_bind; [apply cost_replay_message|done].
Qed.
Lemma cost_replay uid txn : cost (replay uid txn) 21.
Proof.
  unfold replay. intros s. destruct (replay_checks uid txn) as [[next messages]|e] eqn:Hck; [|done].
  rewrite (pure_bind _ (next, messages)) by done. revert s. cbn beta iota.
  assert (Hlen : (length messages <= 4)%nat).
  { unfold replay_checks in Hck. do 7 apply bind_Ok in Hck as (? & _ & Hck).
    apply bind_Ok in Hck as (ms & _ & Hck). apply bind_Ok in Hck as (? & H4 & Hck).
    apply bind_Ok in Hck as (? & _ & Hck). apply Ok_inj in Hck as [= _ <-].
    unfold not_ready_if in H4. apply throw_if_Ok in H4. b2p. lia. }
  apply (cost_bind _ _ 0 21); [auto with steps|]. intros c.
  apply (cost_bind _ _ 3 18); [auto with steps|]. intros _.
  apply (cost_bind _ _ 3 15); [auto with steps|]. intros _.
  apply (cost_bind _ _ 12 3).
  { eapply cost_weaken; [apply cost_replay_messages|lia]. }
  intros _. apply (cost_bind _ _ 0 3); [auto with steps|]. intros t.
  apply (cost_bind _ _ 3 0); auto with steps.
Qed.
(** Opening a store takes at most 29 steps. *)
Definition open_steps : nat := 29.
Lemma cost_open_store uid epoch : cost (open_store uid epoch) open_steps.
Proof.
  rewrite open_store_eq. unfold open_steps. apply (cost_bind _ _ 0 29); [auto with steps|]. intros d.
  apply (cost_bind _ _ 0 29); [auto with steps|]. intros _.
  apply (cost_bind _ _ 23 6).
  { unfold recover. apply (cost_bind _ _ 0 23); [auto with steps|]. intros t.
    destruct t; [|eapply cost_weaken; [auto with steps|lia]].
    apply (cost_bind _ _ 0 23); [auto with steps|]. intros b.
    apply (cost_bind _ _ 0 23); [auto with steps|]. intros txn.
    apply (cost_bind _ _ 21 2); [apply cost_replay|]. auto with steps. }
  intros _. unfold open_tail. apply (cost_bind _ _ 6 0).
  { unfold load_state. apply (cost_bind _ _ 0 6); [auto with steps|]. intros e. destruct e.
    - apply (cost_weaken _ 0); [|lia]. apply (cost_bind _ _ 0 0); auto with steps.
    - apply (cost_bind _ _ 0 6); [auto with steps|]. intros o.
      destruct (negb _); [apply (cost_weaken _ 0); [auto with steps|lia]|]. cbn zeta.
      apply (cost_bind _ _ 0 6); [auto with steps|]. intros c. unfold durable_file.
      apply (cost_bind _ _ 3 3); [auto with steps|]. intros _.
      apply (cost_bind _ _ 3 0); auto with steps. }
  intros st. repeat (apply (cost_bind _ _ 0 0); [auto with steps|]; intros ?). auto with steps.
Qed.

(** ** Restarts *)

(** A new process on the disk the old one left: it makes at most [n] steps, an interrupted write
    leaves [t]. *)
Definition restart (n : nat) (t : string) (s : machine) : machine :=
  MkMachine (root s) (outbox s) n t JNull.
(** Openings, each stopped after some number of steps, then one that may run to its end. *)
Fixpoint restarts (uid epoch : string) (l : list (nat * string)) (s : machine) : machine :=
  match l with
  | [] => s
  | (n, t) :: l' => restarts uid epoch l' (open_store uid epoch (restart n t s)).1
  end.
Lemma restart_at_rest uid st o s n t : at_rest uid st o s -> at_rest uid st o (restart n t s).
Proof. by intros H. Qed.
Lemma restart_unfinished uid next o s n t : unfinished uid next o s -> unfinished uid next o (restart n t s).
Proof. by intros H. Qed.
Lemma restarts_keep uid epoch next o l s :
  unfinished uid next o s \/ at_rest uid next o s ->
  unfinished uid next o (restarts uid epoch l s) \/ at_rest uid next o (restarts uid epoch l s).
Proof.
  revert s. induction l as [|[n t] l IH]; intros s H; [done|]. cbn [restarts]. apply IH.
  destruct H as [H|H].
  - pose proof (open_unfinished uid epoch next o _ (restart_unfinished _ _ _ _ n t H)) as Ho.
    destruct (open_store uid epoch (restart n t s)) as [s' [x|e|]]; cbn [fst]; [right; by destruct Ho|done|done].
  - right. rewrite (open_at_rest uid epoch next o) by (by apply restart_at_rest). done.
Qed.
Lemma open_completes uid epoch next o s :
  unfinished uid next o s \/ at_rest uid next o s -> (open_steps <= ticks s)%nat ->
  exists s', open_store uid epoch s = (s', Done tt) /\ at_rest uid next o s' /\ memory s' = next.
Proof.
  intros [H|H] Hn.
  - pose proof (open_unfinished uid epoch next o s H) as Ho. pose proof (cost_open_store uid epoch s) as Hc.
    destruct (open_store uid epoch s) as [s' [[]|e|]]; [by exists s'|done|lia].
  - exists (set_memory next s). by rewrite (open_at_rest uid epoch next o).
Qed.

(** *** The window *)

Lemma check_root_entries_refused b l :
  (forall n e, In (n, e) l -> private_entry e = true) ->
  (exists n e, In (n, e) l /\ root_name_ok b n = false) -> check_root_entries b l = Err not_ready.
Proof.
  induction l as [|[n e] l IH]; intros Hp (n0 & e0 & Hin & Hbad); [done|]. cbn [check_root_entries].
  destruct (root_name_ok b n) eqn:E; [|done]. cbn [negb]. rewrite (Hp n e) by (by left). cbn [negb].
  apply IH; [intros n' e' H; apply (Hp n' e'); by right|]. exists n0, e0. split; [|done].
  destruct Hin as [[= -> ->]|Hin]; [congruence|done].
Qed.
Lemma open_torn uid epoch st o s : torn_journal uid st o s -> open_store uid epoch s = (s, Thrown not_ready).
Proof.
  intros (c & r & t & _ & (_ & _ & Hn & Ha) & Hr & _ & _). rewrite open_store_eq.
  rewrite (bind_done _ _ s s (root s)) by reflexivity. rewrite Hr.
  assert (E : check_root (<["transaction.json.next"%string := own_file t]> r) = Err not_ready); [|by rewrite E].
  unfold check_root. rewrite lookup_insert_ne, Hn by done. apply check_root_entries_refused.
  - intros n e Hin. apply in_map_to_list, lookup_insert_Some in Hin as [[<- <-]|[_ Hin]]; [done|].
    by destruct (Ha _ _ Hin).
  - exists "transaction.json.next"%string, (own_file t). split; [|reflexivity].
    apply in_map_to_list. apply lookup_insert_eq.
Qed.
