(* ===== verification/OutboxFacts.v ===== *)
(** * The outbox and the store's properties

    [pending] picks the least message that is not blocked, [acknowledge] removes it or blocks it
    and leaves the queue valid; then the properties of the store as a whole. *)
From Stdlib Require Import ZArith Lia Bool Ascii String Sorted.
From stdpp Require Import gmap strings list sorting.
From S2P Require Import Prelude Chars Sha256 Uuid Json JsonFacts Time Protocol Identity Model Messages StateCheck Store StoreFacts.
Local Open Scope Z_scope.

(** ** The queue's entries *)

Inductive queue_entry (uid : string) (d : dir) (name : string) (e : entry) : Prop :=
  | entry_message k :
      is_sha256 k = true -> name = message_name k -> 0 < ssize (content e) <= 16384 ->
      message_valid uid k (content e) = Ok true -> queue_entry uid d name e
  | entry_blocked k :
      is_sha256 k = true -> name = blocked_name k -> is_Some (d !! message_name k) -> queue_entry uid d name e.
Lemma key_of_name name suffix n :
  ssize name = 64 + Z.of_nat n -> substr 64 n name = suffix -> name = queue_key name +:+ suffix.
Proof.
  intros Hs <-. apply chars_inj. unfold queue_key, substr. rewrite chars_app, !chars_str, drop_0.
  rewrite ssize_chars in Hs. rewrite (take_ge (drop 64 (chars name))) by (rewrite length_drop; lia).
  by rewrite take_drop.
Qed.
Lemma check_entry_inv uid d name e :
  is_ok (check_entry uid d name e) = true -> private_entry e = true /\ queue_entry uid d name e.
Proof.
  intros (cb & H)%is_ok_iff. unfold check_entry in H. destruct (private_entry e) eqn:Ep; [|done].
  split; [done|]. cbn [negb] in H. cbn zeta in H.
  destruct ((ssize name =? 72) && _) eqn:Eb.
  - apply andb_true_iff in Eb as [Es%Z.eqb_eq Eb%String.eqb_eq]. cbn [negb andb orb] in H.
    destruct (is_sha256 (queue_key name)) eqn:Ek; [|done]. cbn [negb] in H.
    apply bind_Ok in H as (b & _ & H). destruct (_ || _) eqn:E; [done|].
    apply orb_false_iff in E as [_ E]. apply negb_false_iff, bool_decide_eq_true in E.
    eapply entry_blocked; [exact Ek|by apply (key_of_name _ _ 8)|exact E].
  - destruct ((ssize name =? 69) && _) eqn:Em; [|done].
    apply andb_true_iff in Em as [Es%Z.eqb_eq Em%String.eqb_eq]. cbn [negb andb orb] in H.
    destruct (is_sha256 (queue_key name)) eqn:Ek; [|done]. cbn [negb] in H.
    apply bind_Ok in H as (b & Hb & H). apply bind_Ok in H as (ok & Hv & H). destruct ok; [|done].
    unfold read_entry in Hb. destruct (_ && _) eqn:E in Hb; [|done]. injection Hb as <-. b2p.
    eapply entry_message; [exact Ek|by apply (key_of_name _ _ 5)|lia|exact Hv].
Qed.
Lemma blocked_name_size k : ssize (blocked_name k) = ssize k + 8.
Proof. unfold blocked_name. by rewrite ssize_app. Qed.
Lemma blocked_name_parts k :
  is_sha256 k = true -> ssize (blocked_name k) = 72 /\ queue_key (blocked_name k) = k /\
    substr 64 8 (blocked_name k) = ".blocked"%string.
Proof.
  intros Hk. apply is_sha256_size in Hk. split; [rewrite blocked_name_size; lia|].
  apply (chars_length_size _ 64) in Hk.
  split; apply chars_inj; unfold queue_key, substr, blocked_name; rewrite chars_str, chars_app.
  - rewrite drop_0. by rewrite take_app_length' by done.
  - by rewrite drop_app_length' by done.
Qed.
Lemma json_name_message k : is_sha256 k = true -> json_name (message_name k) = true.
Proof. intros Hk. destruct (message_name_parts k Hk) as (? & _ & ? & _). by apply suffix_message. Qed.
Lemma json_name_blocked k : is_sha256 k = true -> json_name (blocked_name k) = false.
Proof. intros Hk. destruct (blocked_name_parts k Hk) as (? & _ & ?). by apply suffix_blocked. Qed.
Lemma queue_entries uid d n e :
  queue_ok uid d -> d !! n = Some e -> private_entry e = true /\ queue_entry uid d n e.
Proof. intros (H & _) Hn. apply check_entry_inv. by apply H. Qed.
Lemma queue_message uid d n e :
  queue_ok uid d -> d !! n = Some e -> json_name n = true ->
  exists k, is_sha256 k = true /\ n = message_name k /\ stem n = k /\ private_entry e = true /\
    0 < ssize (content e) <= 16384 /\ message_valid uid k (content e) = Ok true.
Proof.
  intros Hq Hn Hj. destruct (queue_entries _ _ _ _ Hq Hn) as [Hp [k Hk -> Hs Hv|k Hk -> _]].
  - exists k. destruct (message_name_parts k Hk) as (_ & _ & _ & Hst). destruct Hs. by split_and!.
  - by rewrite json_name_blocked in Hj.
Qed.

(** ** pending *)

#[export] Instance name_leb_total : Total name_leb.
Proof.
  intros a b. unfold name_leb, str_leb. destruct (str_ltb b.1 a.1) eqn:E; [right|by left].
  by rewrite (str_ltb_asym _ _ E).
Qed.
#[export] Instance name_leb_trans : Transitive name_leb.
Proof.
  intros a b c. unfold name_leb, str_leb. rewrite !negb_true_iff. intros H1 H2.
  destruct (str_ltb c.1 a.1) eqn:E; [|done]. destruct (str_ltb a.1 b.1) eqn:E2.
  - by rewrite (str_ltb_trans _ _ _ E E2) in H2.
  - assert (a.1 = b.1) as X by (by apply str_ltb_total). congruence.
Qed.
Lemma find_sorted {A} (R : A -> A -> Prop) (f : A -> bool) l x :
  StronglySorted R l -> List.find f l = Some x -> forall y, In y l -> f y = true -> x = y \/ R x y.
Proof.
  induction 1 as [|a l Hs IH Ha]; cbn [List.find]; [done|].
  destruct (f a) eqn:E.
  - intros [= ->] y [->|Hin] _; [by left|right]. rewrite List.Forall_forall in Ha. by apply Ha.
  - intros Hf y [->|Hin] Hy; [congruence|by apply IH].
Qed.
Lemma in_json_entries d n e : In (n, e) (json_entries d) <-> d !! n = Some e /\ json_name n = true.
Proof. unfold json_entries. rewrite filter_In, in_map_to_list. done. Qed.
Lemma in_sorted_entries d n e :
  In (n, e) (merge_sort name_leb (json_entries d)) <-> d !! n = Some e /\ json_name n = true.
Proof.
  rewrite <- in_json_entries. rewrite <- !list_elem_of_In.
  by rewrite (merge_sort_Permutation name_leb (json_entries d)).
Qed.
Definition blocked_in (d : dir) (key : string) : Prop := is_Some (d !! blocked_name key).

Lemma pending_run uid d :
  queue_ok uid d ->
  exists r, pending d = Ok r /\
  match r with
  | None => forall k e, d !! message_name k = Some e -> is_sha256 k = true -> blocked_in d k
  | Some p =>
    is_sha256 (pending_key p) = true /\
    (exists e, d !! message_name (pending_key p) = Some e /\ private_entry e = true /\ content e = pending_bytes p) /\
    0 < ssize (pending_bytes p) <= 16384 /\ message_valid uid (pending_key p) (pending_bytes p) = Ok true /\
    ~ blocked_in d (pending_key p) /\
    forall k e, d !! message_name k = Some e -> is_sha256 k = true -> ~ blocked_in d k ->
      str_leb (message_name (pending_key p)) (message_name k) = true
  end.
Proof.
  intros Hq. unfold pending.
  set (f := fun ne : string * entry => negb (bool_decide (is_Some (d !! blocked_name (stem ne.1))))).
  assert (Hf : forall k e, is_sha256 k = true -> f (message_name k, e) = true <-> ~ blocked_in d k).
  { intros k e Hk. unfold f, blocked_in. cbn [fst]. destruct (message_name_parts k Hk) as (_ & _ & _ & ->).
    rewrite negb_true_iff. apply bool_decide_eq_false. }
  destruct (List.find f (merge_sort name_leb (json_entries d))) as [[n e]|] eqn:E.
  - destruct (find_some _ _ E) as [Hin Hfn]. apply in_sorted_entries in Hin as [Hn Hj].
    destruct (queue_message _ _ _ _ Hq Hn Hj) as (k & Hk & -> & Hst & Hp & Hs & Hv).
    exists (Some (MkPending k (content e))). split.
    { assert (read_entry (Some e) 16384 = Ok (content e)) as ->.
      { unfold read_entry. unfold private_entry in Hp. apply andb_true_iff in Hp as [-> _].
        replace (0 <? ssize (content e)) with true by lia. by replace (ssize (content e) <=? 16384) with true by lia. }
      cbn [mbind res_mbind]. by rewrite Hst. }
    cbn [pending_key pending_bytes]. split_and!; try done; [by exists e|lia|lia|by apply (Hf k e)|].
    intros k' e' Hn' Hk' Hb. rewrite <- (Hf k' e') in Hb by done.
    assert (Hin' : In (message_name k', e') (merge_sort name_leb (json_entries d))).
    { apply in_sorted_entries. split; [done|by apply json_name_message]. }
    destruct (find_sorted name_leb f _ _ (StronglySorted_merge_sort name_leb _) E _ Hin' Hb) as [[= ->]|H]; [|done].
    unfold str_leb. by rewrite str_ltb_irrefl.
  - exists None. split; [done|]. intros k e Hn Hk.
    assert (Hin : In (message_name k, e) (merge_sort name_leb (json_entries d))).
    { apply in_sorted_entries. split; [done|by apply json_name_message]. }
    pose proof (find_none _ _ E _ Hin) as Hno. unfold f in Hno. cbn [fst] in Hno.
    destruct (message_name_parts k Hk) as (_ & _ & _ & Hst). rewrite Hst in Hno.
    by apply negb_false_iff, bool_decide_eq_true in Hno.
Qed.

(** ** acknowledge *)

Lemma check_entry_delete uid d n e k :
  n <> blocked_name k -> is_ok (check_entry uid d n e) = true ->
  is_ok (check_entry uid (delete (message_name k) d) n e) = true.
Proof.
  intros Hne. unfold check_entry. destruct (negb (private_entry e)); [done|]. cbn zeta.
  destruct ((ssize n =? 72) && _) eqn:Eb; [|done]. cbn [negb andb orb].
  destruct (negb (is_sha256 _)); [done|]. destruct (read_entry _ 64) as [b|]; [|done]. cbn [mbind res_mbind].
  destruct (negb (String.eqb b _)); [done|]. cbn [orb].
  destruct (bool_decide (is_Some (d !! _))) eqn:E; [|done]. apply bool_decide_eq_true in E.
  rewrite bool_decide_eq_true_2; [done|]. rewrite lookup_delete_ne; [done|].
  intros X%message_name_inj. apply andb_true_iff in Eb as [Es%Z.eqb_eq Eb%String.eqb_eq].
  apply Hne. rewrite X. by apply (key_of_name _ _ 8).
Qed.
Lemma queue_delete uid d k e :
  queue_ok uid d -> d !! message_name k = Some e -> is_sha256 k = true -> d !! blocked_name k = None ->
  queue_ok uid (delete (message_name k) d).
Proof.
  intros Hq Hk Hs Hb. pose proof Hq as (H1 & H2 & H3).
  destruct (json_list_insert (delete (message_name k) d) (message_name k) e) as [E1 E2];
    [by rewrite lookup_delete_eq|by apply json_name_message|].
  rewrite insert_delete_id in E1, E2 by done.
  destruct (queue_message _ _ _ _ Hq Hk (json_name_message k Hs)) as (k' & _ & _ & _ & _ & Hsz & _).
  split; [|lia]. intros n e' [Hne Hn]%lookup_delete_Some. apply check_entry_delete; [|by apply H1].
  intros ->. congruence.
Qed.
Lemma json_list_insert_other (d : dir) n e :
  d !! n = None -> json_name n = false ->
  queued (<[n := e]> d) = queued d /\ queue_bytes (<[n := e]> d) = queue_bytes d.
Proof.
  intros Hn Hj. unfold queued, queue_bytes, json_entries.
  pose proof (filter_permutation (fun ne => json_name ne.1) _ _ (map_to_list_insert d n e Hn)) as Hp.
  cbn [List.filter fst] in Hp. rewrite Hj in Hp. split; [by rewrite (Permutation_length Hp)|].
  induction Hp; cbn; lia.
Qed.
Lemma queue_block uid d k e :
  queue_ok uid d -> d !! message_name k = Some e -> is_sha256 k = true -> d !! blocked_name k = None ->
  queue_ok uid (<[blocked_name k := own_file "DELIVERY_CONFLICT"]> d).
Proof.
  intros (H1 & H2 & H3) Hk Hs Hb.
  destruct (json_list_insert_other d (blocked_name k) (own_file "DELIVERY_CONFLICT") Hb (json_name_blocked k Hs)) as [E1 E2].
  unfold queue_ok. rewrite E1, E2. split; [|done].
  intros n e' [[<- <-]|[Hne Hn]]%lookup_insert_Some; [|by apply check_entry_insert, H1].
  destruct (blocked_name_parts k Hs) as (N1 & N2 & N3). unfold check_entry.
  change (private_entry (own_file "DELIVERY_CONFLICT")) with true. cbn [negb]. cbn zeta.
  rewrite N1, N2, N3, Hs. cbn [Z.eqb Pos.eqb andb orb negb String.eqb Ascii.eqb Bool.eqb].
  assert (read_entry (Some (own_file "DELIVERY_CONFLICT")) 64 = Ok "DELIVERY_CONFLICT"%string) as -> by reflexivity.
  cbn [mbind res_mbind]. rewrite String.eqb_refl. cbn [negb orb].
  rewrite bool_decide_eq_true_2; [done|]. fold (message_name k). rewrite lookup_insert_ne, Hk; [by eexists|].
  intros X. apply (f_equal ssize) in X. rewrite blocked_name_size, message_name_size in X. lia.
Qed.
Lemma queue_next_absent uid d n : queue_ok uid d -> ssize n <> 69 -> ssize n <> 72 -> d !! n = None.
Proof.
  intros Hq H1 H2. destruct (d !! n) as [e|] eqn:E; [|done]. exfalso.
  destruct (queue_entries _ _ _ _ Hq E) as [_ [k Hk -> _ _|k Hk -> _]].
  - by destruct (message_name_parts k Hk).
  - by destruct (blocked_name_parts k Hk).
Qed.

(** The window of a write into the outbox: the temporary of a block record. *)
Definition torn_block (uid : string) (st : Json) (o : dir) (k : string) (s : machine) : Prop :=
  (exists c, holdable uid st c /\ rest_root c (root s)) /\
  exists t, outbox s = <[next_name (blocked_name k) := own_file t]> o.
(** The responses that end the delivery of a message for good. *)
Definition rejects (r : HttpResponse) : bool :=
  negb (status r =? 0) && negb (status r =? 200) && negb (status r =? 201) && negb (retryable_http (status r)).

(** The message is in the queue with these bytes. *)
Definition in_outbox (o : dir) (p : Pending) : Prop :=
  is_sha256 (pending_key p) = true /\
  exists e, o !! message_name (pending_key p) = Some e /\ content e = pending_bytes p.
Lemma acknowledge_found uid o p r s :
  queue_ok uid o -> outbox s = o ->
  (acknowledge p r s = (s, Thrown record_mismatch) /\ ~ in_outbox o p) \/
  (in_outbox o p /\
   acknowledge p r s =
    (if matches_ack (pending_bytes p) r then _ ← remove_durable Outbox (message_name (pending_key p)); mret true
     else if rejects r then _ ← durable_file Outbox (blocked_name (pending_key p)) "DELIVERY_CONFLICT"; mret false
     else mret false) s).
Proof.
  intros Hq Ho. destruct p as [k b]. unfold acknowledge, in_outbox. cbn [pending_key pending_bytes]. cbn zeta.
  rewrite (bind_done _ _ s s (bool_decide (is_Some (o !! message_name k)))) by (unfold exists_in; cbn [dir_of]; by rewrite Ho).
  destruct (is_sha256 k) eqn:Hk; cbn [negb orb]; [|left; split; [done|by intros [? _]]].
  destruct (o !! message_name k) as [e|] eqn:He.
  2: { rewrite bool_decide_eq_false_2 by (by intros []). left. split; [done|]. by intros (_ & e & [=] & _). }
  rewrite bool_decide_eq_true_2 by (by eexists). cbn [negb].
  destruct (queue_message _ _ _ _ Hq He (json_name_message k Hk)) as (k' & _ & _ & _ & Hp & Hsz & _).
  rewrite (bind_done _ _ s s (content e)).
  2: { unfold read_file. cbn [dir_of]. rewrite Ho, He. unfold read_entry.
       unfold private_entry in Hp. apply andb_true_iff in Hp as [-> _].
       replace (0 <? ssize (content e)) with true by lia. by replace (ssize (content e) <=? 16384) with true by lia. }
  destruct (String.eqb (content e) b) eqn:Eb; cbn [negb].
  - apply String.eqb_eq in Eb. right. split; [|done]. split; [done|]. by exists e.
  - apply String.eqb_neq in Eb. left. split; [done|]. intros (_ & e' & [= <-] & H). done.
Qed.
(** At rest, with the state in memory as it was. *)
Definition still (uid : string) (st : Json) (o : dir) (s s' : machine) : Prop :=
  at_rest uid st o s' /\ memory s' = memory s.
Lemma acknowledge_run uid st o s p r :
  at_rest uid st o s -> ~ blocked_in o (pending_key p) ->
  let k := pending_key p in
  let removed := delete (message_name k) o in
  let blocked := <[blocked_name k := own_file "DELIVERY_CONFLICT"]> o in
  match acknowledge p r s with
  | (s', Thrown _) => s' = s /\ ~ in_outbox o p
  | (s', Done true) => in_outbox o p /\ matches_ack (pending_bytes p) r = true /\ still uid st removed s s'
  | (s', Done false) => in_outbox o p /\ matches_ack (pending_bytes p) r = false /\
      still uid st (if rejects r then blocked else o) s s'
  | (s', Stopped) => in_outbox o p /\ (at_rest uid st o s' \/
      (matches_ack (pending_bytes p) r = true /\ at_rest uid st removed s') \/
      (rejects r = true /\ (at_rest uid st blocked s' \/ torn_block uid st o k s')))
  end.
Proof.
  intros [(c & Hh & Hr) [Ho Hq]] Hnb. cbn zeta. apply validate_queue_Ok in Hq as Hqok.
  destruct (acknowledge_found uid o p r s Hqok Ho) as [[-> Hno]|[Hin ->]]; [done|].
  pose proof Hin as (Hk & e & He & Hc). destruct p as [k b]. cbn [pending_key pending_bytes] in *.
  assert (Hb : o !! blocked_name k = None).
  { unfold blocked_in in Hnb. destruct (o !! blocked_name k); [|done]. exfalso. apply Hnb. by eexists. }
  assert (Hroot : forall s' o', root s' = root s -> outbox s' = o' -> validate_queue uid o' = Ok tt -> at_rest uid st o' s').
  { intros s' o' E1 E2 E3. split; [exists c; by rewrite E1|by split]. }
  destruct (matches_ack b r) eqn:Em.
  - assert (Hq1 : validate_queue uid (delete (message_name k) o) = Ok tt).
    { apply validate_queue_Ok. by eapply queue_delete. }
    pose proof (remove_triple Outbox (message_name k) o (root s) o (memory s)
      (fun s' => root s' = root s /\ (outbox s' = o \/ outbox s' = delete (message_name k) o))
      ltac:(intros d' s' [->| ->] (E1 & E2 & _); split; auto) s (conj eq_refl (conj Ho eq_refl))) as T.
    unfold mbind, IO_mbind. destruct (remove_durable Outbox (message_name k) s) as [s' [x|x|]]; [|done|].
    + destruct T as (E1 & E2 & E3). cbn. split_and!; [done..|]. split; [by apply Hroot|done].
    + destruct T as (E1 & [E2|E2]); (split; [done|]); [left; by apply Hroot|right; left; split; [done|by apply Hroot]].
  - destruct (rejects r) eqn:Er; [|cbn; split_and!; [done..|]; split; [by apply Hroot|done]].
    assert (Hq1 : validate_queue uid (<[blocked_name k := own_file "DELIVERY_CONFLICT"]> o) = Ok tt).
    { apply validate_queue_Ok. by eapply queue_block. }
    assert (Hnone : o !! next_name (blocked_name k) = None).
    { apply is_sha256_size in Hk. apply (queue_next_absent uid); [done|..];
        rewrite next_name_size, blocked_name_size; lia. }
    assert (Hwr : written (blocked_name k) "DELIVERY_CONFLICT" o = <[blocked_name k := own_file "DELIVERY_CONFLICT"]> o).
    { unfold written. by rewrite delete_id. }
    pose proof (write_triple Outbox (blocked_name k) "DELIVERY_CONFLICT" false o (root s) o (memory s)
      (fun s' => root s' = root s /\ write_stop (blocked_name k) "DELIVERY_CONFLICT" o (outbox s'))) as T.
    specialize (T ltac:(unfold writable; by rewrite Hnone)
      ltac:(intros d' s' Hst (E1 & E2 & _); rewrite E2; split; [exact E1|exact Hst]) s (conj eq_refl (conj Ho eq_refl))).
    unfold mbind, IO_mbind, durable_file. destruct (write_durable_file Outbox _ _ _ s) as [s' [x|x|]]; [|done|].
    + destruct T as (E1 & E2 & E3). cbn. rewrite Hwr in E2. split_and!; [done..|]. split; [by apply Hroot|done].
    + destruct T as (E1 & [E2|[[t E2]|E2]]); (split; [done|]).
      * left. by apply Hroot.
      * right. right. split; [done|right]. split; [exists c; by rewrite E1|by exists t].
      * right. right. split; [done|left]. apply Hroot; [done|by rewrite E2, Hwr|done].
Qed.

(** A store with the temporary of a block record is not opened: the queue is not valid. *)
Lemma open_torn_block uid epoch st o k s :
  is_sha256 k = true -> torn_block uid st o k s ->
  exists e, open_store uid epoch s = (set_memory st s, Thrown e).
Proof.
  intros Hk [(c & Hh & Hr) [t Ho]].
  assert (Hbad : exists e, validate_queue uid (outbox s) = Err e).
  { destruct (validate_queue uid (outbox s)) as [[]|e] eqn:E; [|by exists e]. exfalso.
    apply validate_queue_Ok in E. apply is_sha256_size in Hk.
    assert (Hn : outbox s !! next_name (blocked_name k) = None)
      by (apply (queue_next_absent uid); [done|..]; rewrite next_name_size, blocked_name_size; lia).
    rewrite Ho, lookup_insert_eq in Hn. done. }
  destruct Hbad as [e He]. exists e. rewrite (open_no_journal uid epoch c) by done.
  pose proof (load_state_stored uid epoch st c s Hh Hr) as Hl.
  destruct Hh as [Hv Hc Hsz Hw Hd], Hr as (R1 & R2 & _). unfold open_tail. rewrite (bind_done _ _ s s st Hl).
  rewrite (bind_done _ _ s (set_memory st s) tt) by reflexivity.
  rewrite (bind_done _ _ (set_memory st s) (set_memory st s) (sha256_hex c))
    by (apply read_file_done; [exact R2|rewrite sha256_hex_size; lia]).
  rewrite (pure_bind _ _ _ Hc), String.eqb_refl. cbn [negb].
  rewrite (pure_bind (not_ready_if false) tt) by reflexivity. rewrite (pure_bind _ _ _ Hv).
  rewrite (bind_done _ _ (set_memory st s) (set_memory st s) (outbox s)) by reflexivity.
  by rewrite He.
Qed.

(** ** The first opening *)

Lemma initial_valid uid epoch c :
  is_uuid epoch = true -> canonical (initial uid epoch) = Ok c -> ssize c <= maximum_state ->
  validate_state uid (initial uid epoch) = Ok tt.
Proof.
  intros He Hc Hs. unfold validate_state, validate_step.
  change (validate_request_metadata uid (initial uid epoch)) with (Ok tt).
  change (validate_gateway_states (initial uid epoch)) with (Ok tt).
  change (validate_last_request (initial uid epoch)) with (Ok tt).
  change (validate_model (initial uid epoch)) with (Ok tt).
  change (validate_reset _ uid (initial uid epoch)) with (Ok tt). cbn [mbind res_mbind].
  enough (validate_top uid (initial uid epoch) = Ok tt) as -> by done.
  unfold validate_top. rewrite Hc.
  change (object (initial uid epoch)) with (Ok (obj_of
    [("schemaVersion", JInt 1); ("unitSystemUid", JString uid); ("producerEpoch", JString epoch);
     ("nextAdvisorySequence", JInt 1); ("model", JNull); ("lastPublishedAt", JInt 0);
     ("lastRequest", JNull); ("gatewayStates", JArray [])]%string)).
  change (at_integer "schemaVersion" (initial uid epoch)) with (Ok 1).
  change (at_string "unitSystemUid" (initial uid epoch)) with (Ok uid).
  change (at_string "producerEpoch" (initial uid epoch)) with (Ok epoch).
  change (at_integer "nextAdvisorySequence" (initial uid epoch)) with (Ok 1).
  change (at_integer "lastPublishedAt" (initial uid epoch)) with (Ok 0).
  cbn -[is_uuid Z.ltb ssize String.eqb maximum_state]. rewrite He, String.eqb_refl. cbn [negb].
  unfold not_ready_if. cbn [throw_if mbind res_mbind]. by replace (maximum_state <? ssize c) with false by lia.
Qed.
Lemma initial_wf uid epoch : wf (initial uid epoch) /\ depth (initial uid epoch) <= maximum_depth.
Proof.
  split; [|cbn; discriminate]. apply wf_object. split; [apply obj_of_sorted|].
  repeat constructor.
Qed.
Lemma load_state_empty uid epoch c s :
  root s = ∅ -> outbox s = ∅ -> canonical (initial uid epoch) = Ok c ->
  load_state uid epoch s =
  (_ ← durable_file Root "state.json" c; _ ← durable_file Root "state.sha256" (sha256_hex c);
   mret (initial uid epoch)) s.
Proof.
  intros Hr Ho Hc. unfold load_state.
  rewrite (bind_done _ _ s s false) by (unfold exists_in; cbn [dir_of]; by rewrite Hr).
  rewrite (bind_done _ _ s s ∅) by (unfold read_dir; cbn [dir_of]; by rewrite Ho).
  rewrite bool_decide_eq_true_2 by done. cbn [negb]. cbn zeta. by rewrite (pure_bind _ c).
Qed.
(** Creating the state files of an empty store. *)
Lemma create_run uid epoch c s :
  root s = ∅ -> outbox s = ∅ -> canonical (initial uid epoch) = Ok c ->
  match load_state uid epoch s with
  | (s', Done st) => st = initial uid epoch /\ rest_root c (root s') /\ outbox s' = ∅
  | (_, Thrown _) => False
  | (_, Stopped) => True
  end.
Proof.
  intros Hr Ho Hc. rewrite (load_state_empty _ _ _ _ Hr Ho Hc).
  set (r1 := written "state.json" c ∅). set (r2 := written "state.sha256" (sha256_hex c) r1).
  assert (Hr2 : rest_root c r2).
  { unfold r2, r1, written. split_and!.
    - rewrite lookup_insert_ne, lookup_delete_ne by done. apply lookup_insert_eq.
    - apply lookup_insert_eq.
    - rewrite lookup_insert_ne, lookup_delete_ne, lookup_insert_ne, lookup_delete_ne by done. apply lookup_empty.
    - apply all_entries_insert; [|done..]. apply all_entries_delete, all_entries_insert; [|done..].
      apply all_entries_delete. intros n e Hx. by rewrite lookup_empty in Hx. }
  set (m := (_ ← durable_file Root "state.json" c; _ ← durable_file Root "state.sha256" (sha256_hex c);
     mret (initial uid epoch))).
  enough (T : triple (disk_is ∅ ∅ (memory s)) m
    (fun st s' => st = initial uid epoch /\ disk_is r2 ∅ (memory s) s') (fun _ => True)).
  { specialize (T s (conj Hr (conj Ho eq_refl))). destruct (m s) as [s' [st|e|]]; [|done..].
    destruct T as (-> & R & O & _). by rewrite R. }
  eapply triple_seq; [apply (write_triple Root "state.json" c false ∅ ∅ ∅ (memory s)); [|done]|].
  { unfold writable. by rewrite lookup_empty. }
  eapply triple_seq; [apply (write_triple Root "state.sha256" (sha256_hex c) false r1 r1 ∅ (memory s)); [|done]|].
  { unfold writable, r1, written. rewrite lookup_insert_ne, lookup_delete_ne by done. by rewrite lookup_empty. }
  by intros s'.
Qed.
Lemma open_empty_run uid epoch c s :
  root s = ∅ -> outbox s = ∅ -> (open_steps <= ticks s)%nat ->
  is_uuid epoch = true -> canonical (initial uid epoch) = Ok c -> ssize c <= maximum_state ->
  exists s', open_store uid epoch s = (s', Done tt) /\ at_rest uid (initial uid epoch) ∅ s' /\ memory s' = initial uid epoch.
Proof.
  intros Hr Ho Hn He Hc Hs. pose proof (cost_open_store uid epoch s) as Hcost.
  assert (Hh : holdable uid (initial uid epoch) c).
  { destruct (initial_wf uid epoch). constructor; try done. by eapply initial_valid. }
  assert (Hopen : open_store uid epoch s = open_tail uid epoch s).
  { rewrite open_store_eq. rewrite (bind_done _ _ s s ∅) by (unfold read_dir; cbn [dir_of]; by rewrite Hr).
    rewrite (pure_bind _ tt) by (apply check_root_Ok; intros n e Hx; by rewrite lookup_empty in Hx).
    rewrite (bind_done _ _ s s tt); [done|].
    unfold recover. rewrite (bind_done _ _ s s false); [done|]. unfold exists_in. cbn [dir_of]. by rewrite Hr. }
  rewrite Hopen in *. clear Hopen. pose proof (create_run uid epoch c s Hr Ho Hc) as Hl.
  assert (Hd : exists s1, load_state uid epoch s = (s1, Done (initial uid epoch)) /\ rest_root c (root s1) /\ outbox s1 = ∅).
  { unfold open_tail, mbind at 1, IO_mbind at 1 in Hcost.
    destruct (load_state uid epoch s) as [s1 [st|e|]]; [|done|lia]. destruct Hl as (-> & H1 & H2). by exists s1. }
  destruct Hd as (s1 & Hl1 & Hr1 & Ho1). exists (set_memory (initial uid epoch) s1).
  split_and!; [|split; [by exists c|]; split; [exact Ho1|reflexivity]|done].
  eapply open_tail_loaded; [exact Hl1|exact Hh|exact Hr1|rewrite Ho1; reflexivity].
Qed.
