(* ===== verification/StoreSpec.v ===== *)
(** * What the store promises

    The abstract store is a state and a queue.  A commit moves to the next state and to a queue
    that keeps what it held and gains the messages, all at once or not at all, whatever the step
    at which the process is stopped; acknowledging a message removes just that message.  The
    theorems below are the refinement of this contract by the operations of Store.v, with the
    one window in which it does not hold. *)
From Stdlib Require Import ZArith Lia Bool Ascii String Sorted.
From stdpp Require Import gmap strings list sorting.
From S2P Require Import Prelude Chars Sha256 Uuid Json JsonFacts Time Protocol Identity Model Messages StateCheck Store StoreFacts OutboxFacts.
Local Open Scope Z_scope.

(** ** The queue after a commit *)

(** The message is in the queue with its canonical text. *)
Definition in_queue (o : dir) (m : Json) : Prop :=
  exists k b e, message_is m (k, b) /\ o !! message_name k = Some e /\ content e = b.
Lemma message_is_fun m x y : message_is m x -> message_is m y -> x = y.
Proof. intros [H1 H2] [H3 H4]. destruct x, y. cbn in *. congruence. Qed.
Lemma messages_are_fun l ms ms' : Forall2 message_is l ms -> Forall2 message_is l ms' -> ms = ms'.
Proof.
  intros H. revert ms'. induction H as [|m x l ms Hx _ IH]; intros ms' H'; inversion H'; subst; [done|].
  f_equal; [by eapply message_is_fun|by apply IH].
Qed.
Lemma read_entry_content e limit b : read_entry (Some e) limit = Ok b -> content e = b.
Proof. unfold read_entry. intros H. destruct (_ && _); [by injection H|done]. Qed.
Lemma accept_all d messages count bytes full accepted :
  accept_messages d messages count bytes full = Ok (accepted, false) ->
  full = false /\ Forall (fun m => in_queue d m \/ m ∈ accepted) messages.
Proof.
  revert count bytes full accepted. induction messages as [|m l IH]; intros count bytes full accepted H.
  - cbn in H. injection H as <- <-. by split.
  - cbn [accept_messages] in H. apply bind_Ok in H as (b & Hb & H). apply bind_Ok in H as (k & Hk & H).
    destruct (16384 <? ssize b); [done|]. destruct (d !! message_name k) as [e|] eqn:Ek.
    + apply bind_Ok in H as (x & Hx & H). destruct (String.eqb x b) eqn:E; [|done].
      apply String.eqb_eq in E as ->. apply IH in H as [-> H]. split; [done|]. constructor; [|done].
      left. exists k, b, e. split_and!; [done|done|by eapply read_entry_content].
    + destruct ((maximum_count <=? count) || _); [by apply IH in H as [? _]|].
      apply bind_Ok in H as ([acc f] & H & E). apply Ok_inj in E as [= <- ->]. apply IH in H as [-> H].
      split; [done|]. constructor; [right; by left|]. eapply Forall_impl; [exact H|].
      cbn. intros x [Hx|Hx]; [by left|right; by right].
Qed.
Lemma commits_to_queue uid o messages full o' :
  queue_ok uid o -> distinct_keys messages -> commits_to o messages full o' ->
  o ⊆ o' /\ (full = false -> Forall (in_queue o') messages).
Proof.
  intros Hq Hd (accepted & ms & Ha & Hms & ->).
  destruct (accept_messages_Ok _ _ _ _ _ _ _ Hd Ha) as [ms' Hacc].
  assert (ms' = ms) as -> by (by eapply messages_are_fun; [apply Hacc|]).
  assert (Hsub : o ⊆ add_messages o ms).
  { apply map_subseteq_spec. intros n e Hn. rewrite add_messages_other; [done|].
    eapply Forall_impl; [apply Hacc|]. cbn. intros kb (Hnone & _) E. congruence. }
  split; [exact Hsub|]. intros ->. apply accept_all in Ha as [_ Ha].
  eapply Forall_impl; [exact Ha|]. cbn. intros m [(k & b & e & Hm & Hk & He)|Hin].
  - exists k, b, e. split_and!; [done|by eapply lookup_weaken|done].
  - apply list_elem_of_lookup in Hin as [i Hi].
    destruct (Forall2_lookup_l _ _ _ _ _ Hms Hi) as ([k b] & Hkb & Hm).
    exists k, b, (own_file b). split_and!; [done| |done].
    eapply add_messages_in; [apply Hacc|by eapply list_elem_of_lookup_2].
Qed.

(** ** The contract *)

(** C25: [commit] is atomic.  From a store at rest it either throws and leaves the machine as it
    was; or returns, and the store is at rest with the new state and a queue that keeps every
    message it held and, when the result is [true], holds every message of the commit; or is
    stopped at one of its steps, and then the next opening, given [open_steps] steps, finds the
    old state with the old queue or the new state with the new queue, unless the stop fell in
    the window of the journal's temporary file. *)
Theorem commit_atomic uid epoch next messages s st o n t :
  at_rest uid st o s -> good_commit uid next messages -> (open_steps <= n)%nat ->
  let new_queue full o' := o ⊆ o' /\ (full = false -> Forall (in_queue o') messages) in
  match commit uid next messages s with
  | (s', Thrown _) => s' = s
  | (s', Done room) => exists o', new_queue (negb room) o' /\ at_rest uid next o' s' /\ memory s' = next
  | (s', Stopped) => torn_journal uid st o s' \/
      exists s2, open_store uid epoch (restart n t s') = (s2, Done tt) /\
        ((at_rest uid st o s2 /\ memory s2 = st) \/
         exists full o', new_queue full o' /\ at_rest uid next o' s2 /\ memory s2 = next)
  end.
Proof.
  intros Hr Hg Hn new_queue. pose proof Hr as (_ & _ & Hq). apply validate_queue_Ok in Hq.
  assert (Hnew : forall full o', commits_to o messages full o' -> new_queue full o').
  { intros full o'. apply (commits_to_queue uid); [done|by destruct Hg]. }
  pose proof (commit_run uid next messages s st o Hr Hg) as H.
  destruct (commit uid next messages s) as [s' [room|e|]]; [|done|].
  - destruct H as (o' & H1 & H2). exists o'. auto.
  - destruct H as [H|[H|(full & o' & Hto & H)]]; [right|by left|right].
    + destruct (open_completes uid epoch st o (restart n t s')) as (s2 & E & H1 & H2);
        [right; by apply restart_at_rest|done|]. exists s2. auto.
    + destruct (open_completes uid epoch next o' (restart n t s')) as (s2 & E & H1 & H2);
        [destruct H; [left; by apply restart_unfinished|right; by apply restart_at_rest]|done|].
      exists s2. split; [done|]. right. exists full, o'. auto.
Qed.

(** C28: recovery is idempotent.  Once the journal of a commit is durable, any number of openings
    that are each stopped anywhere, followed by one that has [open_steps] steps, end in the
    store at rest with the committed state and queue. *)
Theorem recovery_restartable uid epoch next o s l n t :
  unfinished uid next o s -> (open_steps <= n)%nat ->
  exists s2, open_store uid epoch (restart n t (restarts uid epoch l s)) = (s2, Done tt) /\
    at_rest uid next o s2 /\ memory s2 = next.
Proof.
  intros Hu Hn. apply open_completes; [|done].
  destruct (restarts_keep uid epoch next o l s (or_introl Hu)) as [H|H].
  - left. by apply restart_unfinished.
  - right. by apply restart_at_rest.
Qed.

(** The store opens on what it leaves at rest: an opening makes no change to the disk, takes
    no step, ignores the fresh epoch and loads the state that was stored. *)
Theorem store_reopens uid epoch st o s n t :
  at_rest uid st o s ->
  open_store uid epoch (restart n t s) = (MkMachine (root s) (outbox s) n t st, Done tt).
Proof. intros H. by rewrite (open_at_rest uid epoch st o _ (restart_at_rest _ _ _ _ n t H)). Qed.

(** The first opening, on two empty directories, creates the initial state under the given
    epoch and leaves a store at rest with an empty queue. *)
Theorem store_first_opening uid epoch c s :
  root s = ∅ -> outbox s = ∅ -> (open_steps <= ticks s)%nat -> is_uuid epoch = true ->
  canonical (initial uid epoch) = Ok c -> ssize c <= maximum_state ->
  exists s', open_store uid epoch s = (s', Done tt) /\ at_rest uid (initial uid epoch) ∅ s' /\
    memory s' = initial uid epoch.
Proof. apply open_empty_run. Qed.

(** C30: the window.  A process stopped between creating the journal's temporary file and renaming
    it leaves a store that no opening accepts, however often it is tried: the constructor throws
    STATE_NOT_READY and changes nothing. *)
Theorem torn_journal_refused uid epoch st o s l n t :
  torn_journal uid st o s ->
  open_store uid epoch (restart n t (restarts uid epoch l s)) =
    (restart n t (restarts uid epoch l s), Thrown not_ready).
Proof.
  intros Ht. apply (open_torn uid epoch st o).
  assert (H : torn_journal uid st o (restarts uid epoch l s)); [|exact H].
  revert s Ht. induction l as [|[m x] l IH]; intros s Ht; [exact Ht|]. cbn [restarts]. apply IH.
  by rewrite (open_torn uid epoch st o (restart m x s)).
Qed.

(** C0: [pending] never fails on a valid queue and is fair by name: it answers nothing exactly when
    every message is blocked, and otherwise a valid message that is not blocked and is the least
    of those by file name. *)
Theorem pending_least uid d :
  validate_queue uid d = Ok tt ->
  let waiting k := is_Some (d !! message_name k) /\ is_sha256 k = true /\ ~ blocked_in d k in
  exists r, pending d = Ok r /\
  match r with
  | None => forall k, ~ waiting k
  | Some p => waiting (pending_key p) /\ message_valid uid (pending_key p) (pending_bytes p) = Ok true /\
      forall k, waiting k -> str_leb (message_name (pending_key p)) (message_name k) = true
  end.
Proof.
  intros Hq%validate_queue_Ok waiting. destruct (pending_run uid d Hq) as (r & Hr & H). exists r. split; [done|].
  destruct r as [p|].
  - destruct H as (Hk & (e & He & _) & _ & Hv & Hb & Hmin). split_and!; [by eexists|done..|].
    intros k ([e' Hk'] & Hs & Hnb). by apply (Hmin k e').
  - intros k ([e He] & Hs & Hnb). by apply Hnb, (H k e).
Qed.

(** C29: [acknowledge] of a message that is not blocked.  It throws exactly when the message is not in
    the queue with these bytes, and changes nothing then.  It returns [true] exactly when the
    response acknowledges the message, which is then gone and nothing else changed; a final
    rejection only adds the block record; any other response changes nothing.  Stopped anywhere,
    the store is at rest with the message still there, or acknowledged and gone, or rejected and
    blocked, unless the stop fell in the window of the block record's temporary file. *)
Theorem acknowledge_exact uid st o s p r :
  at_rest uid st o s -> ~ blocked_in o (pending_key p) ->
  let k := pending_key p in
  let removed := delete (message_name k) o in
  let blocked := <[blocked_name k := own_file "DELIVERY_CONFLICT"]> o in
  match acknowledge p r s with
  | (s', Thrown _) => s' = s /\ ~ in_outbox o p
  | (s', Done true) => in_outbox o p /\ matches_ack (pending_bytes p) r = true /\ still uid st removed s s'
  | (s', Done false) => in_outbox o p /\ matches_ack (pending_bytes p) r = false /\
      still uid st (if rejects r then blocked else o) s s'
  | (s', Stopped) => in_outbox o p /\ (at_rest uid st o s' \/
      (matches_ack (pending_bytes p) r = true /\ at_rest uid st removed s') \/
      (rejects r = true /\ (at_rest uid st blocked s' \/ torn_block uid st o k s')))
  end.
Proof. apply acknowledge_run. Qed.

(** ** Witnesses: a store opened on empty directories and one commit *)

Definition sample_machine : machine := MkMachine ∅ ∅ 100 "torn" JNull.
Definition sample_uid : string := unit_system_uid sample_metadata.
Definition sample_initial : Json := initial sample_uid sample_source.
Definition opened_machine : machine := (open_store sample_uid sample_source sample_machine).1.
Definition sample_next : Json :=
  JObject (obj_set "lastPublishedAt" (JInt 5) (match sample_initial with JObject o => o | _ => [] end)).
Definition sample_message : Json := get_ok sample_assessed.
Definition sample_text : string := catch_all (canonical sample_initial) ""%string.
Lemma sample_canonical : canonical sample_initial = Ok sample_text.
Proof. vm_compute. reflexivity. Qed.
Lemma sample_epoch : is_uuid sample_source = true.
Proof. vm_compute. reflexivity. Qed.
Lemma sample_text_size : ssize sample_text <= maximum_state.
Proof. vm_compute. discriminate. Qed.
Lemma opened_at_rest : at_rest sample_uid sample_initial ∅ opened_machine.
Proof.
  destruct (open_empty_run sample_uid sample_source sample_text sample_machine) as (s' & E & H & _);
    [reflexivity|reflexivity|unfold open_steps; change (ticks sample_machine) with 100%nat; lia|exact sample_epoch|exact sample_canonical|exact sample_text_size|].
  unfold opened_machine. rewrite E. exact H.
Qed.
Lemma parsed_wf m : (exists s j, parse_json s 16384 = Ok j /\ j = m) -> wf m.
Proof. intros (s & j & H & <-). unfold parse_json in H. destruct (_ <? _); [done|]. by eapply parse_wf. Qed.
Lemma sample_good : good_commit sample_uid sample_next [sample_message].
Proof.
  constructor.
  - apply parsed_wf. exists (catch_all (canonical sample_next) ""%string), sample_next.
    split; vm_compute; reflexivity.
  - vm_compute. discriminate.
  - constructor; [|done]. constructor.
    + by vm_compute.
    + exists (get_ok (jat "content" sample_message)),
        (catch_all (c ← jat "content" sample_message; canonical c) ""%string).
      split_and!; vm_compute; reflexivity.
    + apply parsed_wf. exists (catch_all (canonical sample_message) ""%string), sample_message.
      split; vm_compute; reflexivity.
    + vm_compute. discriminate.
  - by cbn.
  - cbn. lia.
Qed.
Lemma commit_atomic_witness :
  exists s' o', commit sample_uid sample_next [sample_message] opened_machine = (s', Done true) /\
    in_queue o' sample_message /\ at_rest sample_uid sample_next o' s'.
Proof.
  pose proof (commit_atomic sample_uid sample_source sample_next [sample_message] opened_machine
    sample_initial ∅ 100 "" opened_at_rest sample_good ltac:(unfold open_steps; lia)) as H. cbn zeta in H.
  destruct (commit sample_uid sample_next [sample_message] opened_machine) as [s' x] eqn:E.
  assert (Ex : (commit sample_uid sample_next [sample_message] opened_machine).2 = Done true) by (vm_compute; reflexivity).
  rewrite E in Ex. cbn [snd] in Ex. subst x. destruct H as (o' & [_ H1] & H2 & _).
  exists s', o'. split; [reflexivity|split; [|exact H2]]. exact (Forall_inv (H1 eq_refl)).
Defined.
(** The commit stopped after one of its steps, in the window, and after two of them. *)
Definition stopped_machine (n : nat) : machine :=
  (commit sample_uid sample_next [sample_message] (restart n "torn" opened_machine)).1.
Lemma sample_commit_run n :
  match commit sample_uid sample_next [sample_message] (restart n "torn" opened_machine) with
  | (_, Stopped) => at_rest sample_uid sample_initial ∅ (stopped_machine n) \/
      torn_journal sample_uid sample_initial ∅ (stopped_machine n) \/
      exists full o', commits_to ∅ [sample_message] full o' /\
        (unfinished sample_uid sample_next o' (stopped_machine n) \/ at_rest sample_uid sample_next o' (stopped_machine n))
  | _ => True
  end.
Proof.
  pose proof (commit_run sample_uid sample_next [sample_message] (restart n "torn" opened_machine) sample_initial ∅
    (restart_at_rest _ _ _ _ _ _ opened_at_rest) sample_good) as H. unfold stopped_machine.
  destruct (commit sample_uid sample_next [sample_message] (restart n "torn" opened_machine)) as [s' [x|e|]]; [exact I..|exact H].
Qed.
Lemma stopped_is n :
  (commit sample_uid sample_next [sample_message] (restart n "torn" opened_machine)).2 = Stopped ->
  exists s', commit sample_uid sample_next [sample_message] (restart n "torn" opened_machine) = (s', Stopped).
Proof. intros H. destruct (commit _ _ _ _) as [s' x]. cbn in H. subst x. by exists s'. Qed.
Definition root_has (n : string) (s : machine) : bool := bool_decide (is_Some (root s !! n)).
Lemma rest_no_journal uid st o s :
  at_rest uid st o s -> root_has "transaction.json" s = false /\ root_has "transaction.json.next" s = false.
Proof.
  intros [(c & _ & (_ & _ & H1 & H2)) _]. unfold root_has. split; apply bool_decide_eq_false; intros [e He].
  - congruence.
  - by destruct (H2 _ _ He).
Qed.
Lemma unfinished_journal uid st o s : unfinished uid st o s -> root_has "transaction.json" s = true.
Proof.
  intros (a & ms & c & t & old & _ & _ & [[H _] _] & _). unfold root_has. rewrite H.
  apply bool_decide_eq_true. by eexists.
Qed.
Lemma torn_no_journal uid st o s : torn_journal uid st o s -> root_has "transaction.json" s = false.
Proof.
  intros (c & r & t & _ & (_ & _ & H & _) & Hr & _). unfold root_has. rewrite Hr, lookup_insert_ne, H by discriminate.
  apply bool_decide_eq_false. by intros [].
Qed.
Lemma sample_torn : torn_journal sample_uid sample_initial ∅ (stopped_machine 1).
Proof.
  pose proof (sample_commit_run 1) as H. destruct (stopped_is 1) as [s' E]; [vm_compute; reflexivity|].
  rewrite E in H. clear E s'.
  assert (Hj : root_has "transaction.json" (stopped_machine 1) = false) by (vm_compute; reflexivity).
  assert (Hn : root_has "transaction.json.next" (stopped_machine 1) = true) by (vm_compute; reflexivity).
  destruct H as [H|[H|(full & o' & _ & [H|H])]]; [|exact H|..].
  - apply rest_no_journal in H as [_ H]. congruence.
  - apply unfinished_journal in H. congruence.
  - apply rest_no_journal in H as [_ H]. congruence.
Qed.
Lemma sample_unfinished : exists o', unfinished sample_uid sample_next o' (stopped_machine 2).
Proof.
  pose proof (sample_commit_run 2) as H. destruct (stopped_is 2) as [s' E]; [vm_compute; reflexivity|].
  rewrite E in H. clear E s'.
  assert (Hj : root_has "transaction.json" (stopped_machine 2) = true) by (vm_compute; reflexivity).
  destruct H as [H|[H|(full & o' & _ & [H|H])]]; [..|by exists o'|].
  - apply rest_no_journal in H as [H _]. congruence.
  - apply torn_no_journal in H. congruence.
  - apply rest_no_journal in H as [H _]. congruence.
Qed.
Lemma torn_journal_refused_witness :
  (commit sample_uid sample_next [sample_message] (restart 1 "torn" opened_machine)).2 = Stopped /\
  (open_store sample_uid sample_source (restart 100 "" (stopped_machine 1))).2 = Thrown not_ready.
Proof.
  split; [vm_compute; reflexivity|].
  pose proof (torn_journal_refused sample_uid sample_source sample_initial ∅ (stopped_machine 1) [] 100 "" sample_torn) as H.
  cbn [restarts] in H. rewrite H. reflexivity.
Defined.
Lemma recovery_restartable_witness :
  exists s2, open_store sample_uid sample_source
      (restart 100 "" (restarts sample_uid sample_source [(1%nat, "x"%string); (4%nat, ""%string)] (stopped_machine 2))) = (s2, Done tt) /\
    memory s2 = sample_next.
Proof.
  destruct sample_unfinished as [o' H].
  destruct (recovery_restartable sample_uid sample_source sample_next o' (stopped_machine 2)
    [(1%nat, "x"%string); (4%nat, ""%string)] 100 "" H ltac:(unfold open_steps; lia)) as (s2 & E & _ & M).
  exists s2. split; [exact E|exact M].
Defined.
Lemma store_reopens_witness :
  open_store sample_uid sample_source (restart 0 "" opened_machine) =
    (MkMachine (root opened_machine) (outbox opened_machine) 0 "" sample_initial, Done tt).
Proof. exact (store_reopens sample_uid sample_source sample_initial ∅ opened_machine 0 "" opened_at_rest). Defined.
Lemma store_first_opening_witness :
  exists s', open_store sample_uid sample_source sample_machine = (s', Done tt) /\ memory s' = sample_initial.
Proof.
  destruct (store_first_opening sample_uid sample_source sample_text sample_machine) as (s' & E & _ & M);
    [reflexivity|reflexivity|unfold open_steps; change (ticks sample_machine) with 100%nat; lia
    |exact sample_epoch|exact sample_canonical|exact sample_text_size|].
  exists s'. split; [exact E|exact M].
Defined.
(** The queue after the commit. *)
Definition committed_machine : machine := (commit sample_uid sample_next [sample_message] opened_machine).1.
Lemma committed_at_rest : at_rest sample_uid sample_next (outbox committed_machine) committed_machine.
Proof.
  pose proof (commit_run sample_uid sample_next [sample_message] opened_machine sample_initial ∅ opened_at_rest sample_good) as H.
  assert (Ex : (commit sample_uid sample_next [sample_message] opened_machine).2 = Done true) by (vm_compute; reflexivity).
  unfold committed_machine. destruct (commit sample_uid sample_next [sample_message] opened_machine) as [s' x].
  cbn [snd] in Ex. subst x. destruct H as (o' & _ & H & _). pose proof H as (_ & Ho & _). cbn [fst]. by rewrite Ho.
Qed.
Definition sample_pending : Pending :=
  MkPending (catch_all (message_key sample_message) ""%string) (catch_all (canonical sample_message) ""%string).
Lemma sample_is_pending : pending (outbox committed_machine) = Ok (Some sample_pending).
Proof. vm_compute. reflexivity. Qed.
Lemma pending_least_witness :
  message_valid sample_uid (pending_key sample_pending) (pending_bytes sample_pending) = Ok true.
Proof.
  destruct (pending_least sample_uid (outbox committed_machine)) as (r & E & H); [apply committed_at_rest|].
  rewrite sample_is_pending in E. injection E as <-. destruct H as (_ & H & _). exact H.
Defined.
Lemma sample_not_blocked : ~ blocked_in (outbox committed_machine) (pending_key sample_pending).
Proof.
  unfold blocked_in. assert (E : outbox committed_machine !! blocked_name (pending_key sample_pending) = None)
    by (vm_compute; reflexivity).
  rewrite E. by intros [].
Qed.
Lemma acknowledge_exact_witness :
  let r := MkHttpResponse 400 "" 0 in
  match acknowledge sample_pending r committed_machine with
  | (s', Done false) => at_rest sample_uid sample_next
      (<[blocked_name (pending_key sample_pending) := own_file "DELIVERY_CONFLICT"]> (outbox committed_machine)) s'
  | _ => False
  end.
Proof.
  cbn zeta.
  assert (Ex : (acknowledge sample_pending (MkHttpResponse 400 "" 0) committed_machine).2 = Done false)
    by (vm_compute; reflexivity).
  pose proof (acknowledge_exact sample_uid sample_next (outbox committed_machine) committed_machine sample_pending
    (MkHttpResponse 400 "" 0) committed_at_rest sample_not_blocked) as H.
  destruct (acknowledge sample_pending (MkHttpResponse 400 "" 0) committed_machine) as [s' x].
  cbn [snd] in Ex. subst x. destruct H as (_ & _ & H & _). exact H.
Defined.
