(* ===== verification/Observation.v ===== *)
(** * Function observations (include/aosedge/function_observation.hpp)

    The vocabulary check of an observation ([content], [validate]) and the snapshot the runtime
    keeps of its function ([FunctionFacts]): a JSON value its setters replace part by part.  The
    codec is the one of include/tire_health/runtime/function_observation.hpp: [parse_json],
    [canonical], [sha256_hex], [utc_timestamp] and [is_uuid]. *)
From Stdlib Require Import ZArith Lia Bool Ascii String.
From stdpp Require Import gmap strings list.
From S2P Require Import Prelude Chars Sha256 Uuid Json JsonFacts Time Protocol Identity.
Local Open Scope Z_scope.

(** ** Checks *)

Definition unavailable : exn := RuntimeError "FUNCTION_OBSERVATION_UNAVAILABLE".
(** [if (b) fail();] *)
Definition fail_if (b : bool) : res unit := throw_if b unavailable.
Fixpoint all_at (names : list string) (value : Json) : res unit :=
  match names with
  | [] => Ok tt
  | k :: names' => _ ← jat k value; all_at names' value
  end.
Definition keys (names : list string) (value : Json) : res unit :=
  o ← object value; _ ← fail_if (negb (obj_size o =? Z.of_nat (length names))); all_at names value.
Definition pick (values : list string) (value : Json) : res unit :=
  s ← jstring value; fail_if (negb (find_string s values)).
Definition check_id (value : Json) : res unit :=
  s ← jstring value; fail_if (negb (native_identifier s)).
Definition check_integer (positive : bool) (value : Json) : res unit :=
  n ← integer value; fail_if ((n <? (if positive then 1 else 0)) || (maximum_integer <? n)).
(** The text up to the next dot, and what follows it, if there is one. *)
Fixpoint until_dot (l : list ascii) : list ascii * option (list ascii) :=
  match l with
  | [] => ([], None)
  | c :: l' => if Ascii.eqb c "." then ([], Some l')
               else let '(a, r) := until_dot l' in (c :: a, r)
  end.
(** The loop over the three numbers of a version; [n] are left. *)
Fixpoint version_parts (n : nat) (l : list ascii) : bool :=
  match n with
  | O => true
  | S n' =>
    let '(part, rest) := until_dot l in
    negb (Nat.eqb (length part) 0)
    && negb ((1 <? Z.of_nat (length part)) && Ascii.eqb (sat part 0) "0")
    && Bool.eqb (Nat.eqb n' 0) (bool_decide (rest = None))
    && forallb is_digit part
    && version_parts n' (default [] rest)
  end.
Definition check_version (value : Json) : res unit :=
  s ← jstring value;
  _ ← fail_if ((ssize s =? 0) || (32 <? ssize s));
  fail_if (negb (version_parts 3 (chars s))).
Definition marks_ok (t : list ascii) : bool :=
  Ascii.eqb (sat t 4) "-" && Ascii.eqb (sat t 7) "-" && Ascii.eqb (sat t 10) "T"
  && Ascii.eqb (sat t 13) ":" && Ascii.eqb (sat t 16) ":" && Ascii.eqb (sat t 19) "."
  && Ascii.eqb (sat t 23) "Z".
Definition check_instant (value : Json) : res unit :=
  s ← jstring value;
  let t := chars s in
  _ ← fail_if (negb (ssize s =? 24) || negb (marks_ok t));
  let y := number t 0 4 in let m := number t 5 2 in let d := number t 8 2 in
  let hour := number t 11 2 in let minute := number t 14 2 in let second := number t 17 2 in
  (* [number] is -1 where the lambda [n] fails *)
  _ ← fail_if ((y <? 0) || (m <? 0) || (d <? 0));
  _ ← fail_if ((m <? 1) || (12 <? m) || (d <? 1) || (days_in y m <? d)
               || (hour <? 0) || (23 <? hour) || (minute <? 0) || (59 <? minute)
               || (second <? 0) || (59 <? second));
  fail_if (number t 20 3 <? 0).

(** [canonical(a.at(k)) != canonical(b.at(k))] for some key; it stops at the first. *)
Fixpoint differs (fields : list string) (a b : Json) : res bool :=
  match fields with
  | [] => Ok false
  | k :: fields' =>
    x ← jat k a; xc ← canonical x; y ← jat k b; yc ← canonical y;
    if String.eqb xc yc then differs fields' a b else Ok true
  end.

(** ** The content of an observation *)

Definition connections : list string :=
  ["STARTING"; "CONNECTED"; "REAUTHENTICATING"; "DISCONNECTED"; "ACCESS_DENIED"]%string.
Definition input_states : list string :=
  ["WAITING"; "RECEIVING"; "STALE"; "DISCONNECTED"; "ACCESS_DENIED"; "INVALID"]%string.
Definition input_reasons : list string :=
  ["NONE"; "AWAITING_INPUT"; "SOURCE_GAP"; "INVALID_SAMPLE"; "TRANSPORT_LOST"; "ACCESS_DENIED";
   "REAUTHENTICATING"]%string.
Definition activity_states : list string :=
  ["WAITING"; "PRE"; "ACTIVE"; "POST"; "COMPLETED"; "SKIPPED"]%string.
Definition activity_reasons : list string :=
  ["NONE"; "NOT_QUALIFIED"; "INSUFFICIENT_SAMPLES"; "INVALID_INPUT"; "SOURCE_DISCONTINUITY";
   "REAUTHENTICATING"; "RESET"; "STORAGE_UNAVAILABLE"]%string.
Definition delivery_states : list string := ["IDLE"; "PENDING"; "RETRYING"; "BLOCKED"]%string.
Definition advisory_states : list string :=
  ["NOT_SUPPORTED"; "WAITING"; "CONFIRMED"; "UNAVAILABLE"; "REAUTHENTICATING"]%string.
(** [if (!null(v)) check(v);] *)
Definition unless_null (check : Json -> res unit) (v : Json) : res unit := if is_null v then Ok tt else check v.

Definition check_input (input : Json) : res unit :=
  _ ← keys ["state"; "reason"]%string input;
  v ← jat "state" input; _ ← pick input_states v;
  v ← jat "reason" input; _ ← pick input_reasons v;
  st ← at_string "state" input; r ← at_string "reason" input;
  fail_if (negb (Bool.eqb (String.eqb st "RECEIVING") (String.eqb r "NONE"))).
Definition check_activity (activity : Json) : res unit :=
  _ ← keys ["state"; "reason"; "episodeId"]%string activity;
  v ← jat "state" activity; _ ← pick activity_states v;
  v ← jat "reason" activity; _ ← pick activity_reasons v;
  e ← jat "episodeId" activity; _ ← unless_null check_id e;
  st ← at_string "state" activity;
  if String.eqb st "SKIPPED" then r ← at_string "reason" activity; fail_if (String.eqb r "NONE") else Ok tt.
Definition check_delivery (delivery : Json) : res unit :=
  _ ← keys ["state"; "queuedMessages"; "lastReceiptAt"]%string delivery;
  v ← jat "state" delivery; _ ← pick delivery_states v;
  n ← jat "queuedMessages" delivery; _ ← check_integer false n;
  t ← jat "lastReceiptAt" delivery; unless_null check_instant t.
Definition check_advisory (profile : string) (brake : bool) (advisory : Json) : res unit :=
  _ ← keys ["state"; "requestId"]%string advisory;
  v ← jat "state" advisory; _ ← pick advisory_states v;
  id ← jat "requestId" advisory; _ ← unless_null check_id id;
  st ← at_string "state" advisory;
  _ ← fail_if (String.eqb st "CONFIRMED" && is_null id);
  if brake && negb (String.eqb profile "v3")
  then fail_if (negb (String.eqb st "NOT_SUPPORTED") || negb (is_null id))
  else fail_if (String.eqb st "NOT_SUPPORTED").
Definition check_result (result : Json) : res unit :=
  _ ← keys ["kind"; "id"; "sourceTime"; "serviceVersion"]%string result;
  v ← jat "kind" result; _ ← pick ["WINDOW"; "ASSESSMENT"]%string v;
  v ← jat "id" result; _ ← check_id v;
  v ← jat "sourceTime" result; _ ← check_instant v;
  v ← jat "serviceVersion" result; check_version v.
Definition content_check (profile : string) (brake : bool) (c : Json) : res unit :=
  _ ← keys ["connection"; "input"; "activity"; "delivery"; "advisory"; "lastResult"]%string c;
  v ← jat "connection" c; _ ← pick connections v;
  input ← jat "input" c; _ ← check_input input;
  activity ← jat "activity" c; _ ← check_activity activity;
  delivery ← jat "delivery" c; _ ← check_delivery delivery;
  advisory ← jat "advisory" c; _ ← check_advisory profile brake advisory;
  result ← jat "lastResult" c; unless_null check_result result.

(** ** The snapshot (FunctionFacts) *)

Definition facts_input_json (state reason : string) : Json :=
  JObject (obj_of [("state", JString state); ("reason", JString reason)]%string).
Definition id_json (id : option string) : Json := match id with Some s => JString s | None => JNull end.
Definition activity_json (state reason : string) (id : option string) : Json :=
  JObject (obj_of [("state", JString state); ("reason", JString reason); ("episodeId", id_json id)]%string).
Definition advisory_json (state : string) (request : option string) : Json :=
  JObject (obj_of [("state", JString state); ("requestId", id_json request)]%string).
Definition initial_facts (supports : bool) : Json :=
  JObject (obj_of
    [("connection", JString "STARTING"); ("input", facts_input_json "WAITING" "AWAITING_INPUT");
     ("activity", activity_json "WAITING" "NOT_QUALIFIED" None);
     ("delivery", JObject (obj_of [("state", JString "IDLE"); ("queuedMessages", JInt 0); ("lastReceiptAt", JNull)]));
     ("advisory", advisory_json (if supports then "WAITING" else "NOT_SUPPORTED") None);
     ("lastResult", JNull)]%string).
Definition facts_input (connection state reason : string) (value : Json) : res Json :=
  v ← object value;
  Ok (JObject (obj_set "input" (facts_input_json state reason) (obj_set "connection" (JString connection) v))).
Definition facts_activity (state reason : string) (id : option string) (value : Json) : res Json :=
  v ← object value; Ok (JObject (obj_set "activity" (activity_json state reason id) v)).
Definition facts_interruption (reason : string) (value : Json) : res Json :=
  activity ← jat "activity" value;
  phase ← at_string "state" activity;
  if find_string phase ["ACTIVE"; "POST"; "PRE"]%string then
    id ← jat "episodeId" activity;
    if is_null id then facts_activity "SKIPPED" reason None value
    else s ← jstring id; facts_activity "SKIPPED" reason (Some s) value
  else Ok value.
Definition facts_advisory (supports : bool) (state : string) (request : option string) (value : Json) : res Json :=
  if negb supports then Ok value
  else v ← object value; Ok (JObject (obj_set "advisory" (advisory_json state request) v)).
Definition facts_result (kind id source version : string) (value : Json) : res Json :=
  v ← object value;
  Ok (JObject (obj_set "lastResult" (JObject (obj_of
    [("kind", JString kind); ("id", JString id); ("sourceTime", JString source);
     ("serviceVersion", JString version)]%string)) v)).
(** The receipt's time, where the receipt can be read. *)
Definition receipt_time (receipt : string) : option Json :=
  match (a ← parse_json receipt 8192; t ← jat "receivedAt" a; _ ← check_instant t; Ok t) with
  | Ok t => Some t
  | Err _ => None
  end.
Definition facts_delivery (accepted : bool) (status : Z) (receipt : string) (value : Json) : res Json :=
  v ← object value;
  dj ← obj_at "delivery" v;
  d ← object dj;
  let st := if accepted then "PENDING"
            else if (status =? 0) || (status =? 408) || (status =? 429) || (500 <=? status) then "RETRYING"
            else "BLOCKED" in
  let d := obj_set "state" (JString st) d in
  let d := if accepted then
             match receipt_time receipt with Some t => obj_set "lastReceiptAt" t d | None => d end
           else d in
  Ok (JObject (obj_set "delivery" (JObject d) v)).
Definition snapshot (queued : Z) (blocked : bool) (value : Json) : res Json :=
  v ← object value;
  dj ← obj_at "delivery" v;
  d ← object dj;
  let d := obj_set "queuedMessages" (JInt queued) d in
  d ← (if blocked then Ok (obj_set "state" (JString "BLOCKED") d)
       else if queued =? 0 then Ok (obj_set "state" (JString "IDLE") d)
       else sj ← obj_at "state" d; st ← jstring sj;
            if String.eqb st "IDLE" then Ok (obj_set "state" (JString "PENDING") d) else Ok d);
  Ok (JObject (obj_set "delivery" (JObject d) v)).
