(* ===== verification/Service.v ===== *)
(** * The runtime (src/runtime.cpp, include/tire_health/service.hpp)

    The object behind the service: the store with its JSON state, the exercise engine, the
    advisory and telemetry clocks and the observation snapshot.  Every handler takes the mutex
    and runs alone, so a handler is a function of the runtime state; what it changed before it
    throws stays changed.  A handler may also be stopped inside the store. *)
From Stdlib Require Import ZArith Lia Bool Ascii String.
From stdpp Require Import gmap strings list.
From S2P Require Import Prelude Chars Sha256 Uuid Json JsonFacts Time Protocol Identity Model Messages StateCheck Store Observation.
Local Open Scope Z_scope.

(** ** State *)

(** [disk] is the machine with the store's directories, [store_ok] whether [store_] holds a
    store; the store's [state_] is the machine's memory. *)
Record Runtime := MkRuntime {
  disk : machine; store_ok : bool; metadata : Metadata; engine : Engine;
  reason : string; status_at : Z; refresh_at : Z; last_write : Z; advisory_sent : bool;
  telemetry_at : Z; input_mono : Z; facts : Json }.
Definition RT (A : Type) : Type := Runtime -> Runtime * outcome A.
#[export] Instance RT_mret : MRet RT := fun A a s => (s, Done a).
#[export] Instance RT_mbind : MBind RT := fun A B k m s =>
  match m s with
  | (s', Done a) => k a s'
  | (s', Thrown e) => (s', Thrown e)
  | (s', Stopped) => (s', Stopped)
  end.
Definition eval {A} (m : res A) : RT A := fun s =>
  match m with Ok a => (s, Done a) | Err e => (s, Thrown e) end.
Definition raise {A} (e : exn) : RT A := fun s => (s, Thrown e).
Definition raise_if (b : bool) (e : exn) : RT unit := eval (throw_if b e).
Definition self : RT Runtime := fun s => (s, Done s).
Definition change (f : Runtime -> Runtime) : RT unit := fun s => (f s, Done tt).

Definition set_disk (d : machine) (s : Runtime) : Runtime :=
  MkRuntime d (store_ok s) (metadata s) (engine s) (reason s) (status_at s) (refresh_at s) (last_write s)
    (advisory_sent s) (telemetry_at s) (input_mono s) (facts s).
Definition set_metadata (m : Metadata) (s : Runtime) : Runtime :=
  MkRuntime (disk s) (store_ok s) m (engine s) (reason s) (status_at s) (refresh_at s) (last_write s)
    (advisory_sent s) (telemetry_at s) (input_mono s) (facts s).
Definition set_engine (e : Engine) (s : Runtime) : Runtime :=
  MkRuntime (disk s) (store_ok s) (metadata s) e (reason s) (status_at s) (refresh_at s) (last_write s)
    (advisory_sent s) (telemetry_at s) (input_mono s) (facts s).
Definition set_status (r : string) (at_ : Z) (s : Runtime) : Runtime :=
  MkRuntime (disk s) (store_ok s) (metadata s) (engine s) r at_ (refresh_at s) (last_write s)
    (advisory_sent s) (telemetry_at s) (input_mono s) (facts s).
(** [refresh_at_], [last_write_] and [advisory_sent_]. *)
Definition set_advisory (refresh write : Z) (sent : bool) (s : Runtime) : Runtime :=
  MkRuntime (disk s) (store_ok s) (metadata s) (engine s) (reason s) (status_at s) refresh write
    sent (telemetry_at s) (input_mono s) (facts s).
Definition set_refresh_at (n : Z) (s : Runtime) : Runtime := set_advisory n (last_write s) (advisory_sent s) s.
Definition set_last_write (n : Z) (s : Runtime) : Runtime := set_advisory (refresh_at s) n (advisory_sent s) s.
Definition set_advisory_sent (b : bool) (s : Runtime) : Runtime := set_advisory (refresh_at s) (last_write s) b s.
Definition set_telemetry_at (n : Z) (s : Runtime) : Runtime :=
  MkRuntime (disk s) (store_ok s) (metadata s) (engine s) (reason s) (status_at s) (refresh_at s) (last_write s)
    (advisory_sent s) n (input_mono s) (facts s).
Definition set_input_mono (n : Z) (s : Runtime) : Runtime :=
  MkRuntime (disk s) (store_ok s) (metadata s) (engine s) (reason s) (status_at s) (refresh_at s) (last_write s)
    (advisory_sent s) (telemetry_at s) n (facts s).
Definition set_facts (j : Json) (s : Runtime) : Runtime :=
  MkRuntime (disk s) (store_ok s) (metadata s) (engine s) (reason s) (status_at s) (refresh_at s) (last_write s)
    (advisory_sent s) (telemetry_at s) (input_mono s) j.

(** [store_->state()] *)
Definition state (s : Runtime) : Json := memory (disk s).
Definition store_io {A} (m : IO A) : RT A := fun s =>
  let '(d, r) := m (disk s) in (set_disk d s, r).
Definition store_commit (next : Json) (messages : list Json) : RT bool := fun s =>
  store_io (commit (unit_system_uid (metadata s)) next messages) s.
Definition function (f : Json -> res Json) : RT unit := fun s =>
  match f (facts s) with Ok v => (set_facts v s, Done tt) | Err e => (s, Thrown e) end.
Definition function_advisory (st : string) (request : option string) : RT unit :=
  function (facts_advisory true st request).
Definition abort_engine (why : string) : RT unit := change (fun s => set_engine (abort why (engine s)).1 s).

(** ** Helpers *)

Definition control_binding (m : Metadata) (state : Json) : res Json :=
  match service_instance m with
  | None => Err (RuntimeError "RESET_NATIVE_IDENTITY_REQUIRED")
  | Some i =>
    t ← service_instance_json i;
    si ← parse_json t default_limit;
    e ← jat "producerEpoch" state;
    Ok (JObject (obj_of
      [("schemaVersion", JInt 1); ("unitSystemUid", JString (unit_system_uid m));
       ("serviceVersion", JString (service_version m)); ("serviceInstance", si); ("producerEpoch", e)]%string))
  end.
Definition reset_pending (state : Json) : res bool :=
  o ← object state;
  if negb (obj_count "demoReset" o) then Ok false
  else reset ← jat "demoReset" state; ack ← jat "ack" reset; Ok (is_null ack).
(** [static_cast<int>] of a 64-bit integer. *)
Definition to_int (n : Z) : Z := (n + 2 ^ 31) mod 2 ^ 32 - 2 ^ 31.
Fixpoint strings_of (l : list Json) : res (list string) :=
  match l with
  | [] => Ok []
  | v :: l' => s ← jstring v; ss ← strings_of l'; Ok (s :: ss)
  end.
Definition read_model (value : Json) : res ModelState :=
  if is_null value then Ok initial_model
  else
    bn ← at_string "conditionBand" value; band ← parse_band bn;
    bt ← at_string "betterBandCandidate" value;
    better ← (if String.eqb bt "NONE" then Ok NotEvaluated else parse_band bt);
    score ← at_integer "conditionScore" value;
    confidence ← at_integer "confidencePercent" value;
    count ← at_integer "betterBandEpisodeCount" value;
    source ← at_string "lastAppliedSourceExerciseId" value;
    assessment ← at_string "lastAssessmentId" value;
    r ← jat "recentSourceExerciseIds" value;
    l ← array r; recent ← strings_of l;
    Ok (MkModelState band better (to_int score) (to_int confidence) (to_int count) source assessment recent).
Definition write_model (m : ModelState) (digest : string) (state : Json) : res Json :=
  e ← jat "producerEpoch" state;
  n ← jat "nextAdvisorySequence" state;
  Ok (JObject (obj_of
    [("schemaVersion", JInt 1); ("modelId", JString "tire-condition-demo-v1");
     ("modelConfigSha256", JString digest); ("conditionScore", JInt (last_score m));
     ("conditionBand", JString (band_name (band m))); ("confidencePercent", JInt (last_confidence m));
     ("betterBandCandidate", JString (if band_eqb (better m) NotEvaluated then "NONE" else band_name (better m)));
     ("betterBandEpisodeCount", JInt (better_count m));
     ("lastAppliedSourceExerciseId", JString (last_source m));
     ("lastAssessmentId", JString (last_assessment m));
     ("recentSourceExerciseIds", JArray (map JString (recent m)));
     ("producerEpoch", e); ("nextAdvisorySequence", n)]%string)).
(** [canonical(a.at(k)) == canonical(v)] for every field of a binding; no field is skipped. *)
Fixpoint bound_fields (binding : Object) (command : Json) : res bool :=
  match binding with
  | [] => Ok true
  | (k, v) :: binding' =>
    x ← jat k command; xc ← canonical x; vc ← canonical v;
    rest ← bound_fields binding' command;
    Ok (String.eqb xc vc && rest)
  end.
(** The acknowledgement of a reset that was not carried out. *)
Definition refused_ack (command : Object) (result : string) : Object :=
  obj_set "gatewayStatus" JNull (obj_set "clearRequest" JNull (obj_set "result" (JString result)
    (obj_erase "expiresAt" (obj_erase "issuedAt" (obj_erase "operation" command))))).
(** [std::any_of] over string values: it stops at the first match. *)
Fixpoint any_string (s : string) (l : list Json) : res bool :=
  match l with
  | [] => Ok false
  | v :: l' => t ← jstring v; if String.eqb t s then Ok true else any_string s l'
  end.

(** ** Starting *)

(** The constructor: a store that does not open leaves a runtime without one; a reset that was
    asked of another instance or version is rejected. *)
Definition initial_runtime (m : Metadata) (d : machine) : Runtime :=
  MkRuntime d true m initial_engine "" (-1) (-1) (-1) false (-1) (-1) (initial_facts true).
Definition reject_foreign_reset : RT unit :=
  s ← self;
  binding ← eval (control_binding (metadata s) (state s));
  next ← eval (object (state s));
  r ← eval (obj_at "demoReset" next);
  reset ← eval (object r);
  command ← eval (obj_at "command" reset);
  b ← eval (object binding);
  matches ← eval (bound_fields b command);
  if (matches : bool) then mret tt
  else
    c ← eval (object command);
    let reset := obj_set "ack" (JObject (refused_ack c "REJECTED")) reset in
    _ ← store_commit (JObject (obj_set "demoReset" (JObject reset) next)) [];
    mret tt.
Definition start (m : Metadata) (epoch : string) (d : machine) : Runtime * outcome unit :=
  match open_store (unit_system_uid m) epoch d with
  | (d', Stopped) => (initial_runtime m d', Stopped)
  | (d', Thrown _) =>
    (MkRuntime d' false m initial_engine "NOT_READY_STATE" (-1) (-1) (-1) false (-1) (-1) (initial_facts true), Done tt)
  | (d', Done _) =>
    (pending ← eval (reset_pending (memory d'));
     if (pending : bool) then reject_foreign_reset else mret tt) (initial_runtime m d')
  end.

(** ** Input *)

Definition is_some {A} (o : option A) : bool := match o with Some _ => true | None => false end.
Definition ingest_frame_at (uuid : res string) (frame : Frame) (received_mono : Z) : RT (option Episode) :=
  _ ← function (facts_input "CONNECTED" "RECEIVING" "NONE");
  _ ← change (set_input_mono received_mono);
  s ← self;
  if negb (store_ok s) then _ ← function (facts_activity "SKIPPED" "STORAGE_UNAVAILABLE" None); mret None
  else
    pending ← eval (reset_pending (state s));
    if (pending : bool) then _ ← function (facts_activity "WAITING" "RESET" None); mret None
    else
      let '(e', out) := ingest uuid frame (engine s) in
      _ ← change (set_engine e');
      episode ← eval out;
      _ ← match episode with
          | Some ep => function (facts_activity "SKIPPED"
              (if String.eqb (terminal ep) "INCOMPLETE_SOURCE_GAP" then "SOURCE_DISCONTINUITY" else "INSUFFICIENT_SAMPLES")
              (Some (ep_id ep)))
          | None =>
            let active := is_some (current e') in
            function (facts_activity (if active then "ACTIVE" else "WAITING")
              (if active then "NONE" else "NOT_QUALIFIED") (ep_id <$> current e'))
          end;
      mret episode.
Definition reauthenticate : RT unit :=
  _ ← function (facts_input "REAUTHENTICATING" "WAITING" "REAUTHENTICATING");
  function_advisory "REAUTHENTICATING" None.
Definition expire_input (observed_mono : Z) : RT bool :=
  s ← self;
  if (input_mono s <? 0) || (observed_mono - input_mono s <=? 250) then mret false
  else
    _ ← change (set_input_mono (-1));
    _ ← change (set_telemetry_at (-1));
    _ ← abort_engine "INCOMPLETE_SOURCE_GAP";
    _ ← function (facts_interruption "SOURCE_DISCONTINUITY");
    _ ← function (facts_input "CONNECTED" "STALE" "SOURCE_GAP");
    mret true.
Definition disconnect : RT unit :=
  _ ← change (set_input_mono (-1));
  _ ← change (set_telemetry_at (-1));
  _ ← abort_engine "INCOMPLETE_SOURCE_GAP";
  _ ← function (facts_interruption "SOURCE_DISCONTINUITY");
  function (facts_input "DISCONNECTED" "DISCONNECTED" "TRANSPORT_LOST").
Definition stop : RT unit :=
  _ ← change (set_input_mono (-1));
  _ ← change (set_telemetry_at (-1));
  abort_engine "ABORTED_SERVICE_STOP".
Definition same_identity (m m' : Metadata) : bool :=
  String.eqb (unit_system_uid m) (unit_system_uid m') && String.eqb (unit_role m) (unit_role m')
  && String.eqb (service_version m) (service_version m')
  && String.eqb (service_artifact_sha256 m) (service_artifact_sha256 m')
  && bool_decide (service_instance m = service_instance m').
Definition update_vdp_metadata (m : Metadata) : RT unit :=
  s ← self;
  if negb (same_identity m (metadata s)) then raise (InvalidArgument "IMMUTABLE_IDENTITY_CHANGED")
  else if negb (String.eqb (vdp_contract_version m) (vdp_contract_version (metadata s)))
          || negb (String.eqb (vdp_contract_sha256 m) (vdp_contract_sha256 (metadata s)))
  then _ ← abort_engine "INCOMPLETE_SOURCE_GAP"; change (set_metadata m)
  else mret tt.

(** ** Status messages *)

Definition allowed_reasons : list string :=
  ["READY"; "BACKEND_SYNC_PENDING"; "BACKEND_DISCONNECTED"; "OUTBOX_FULL"; "INCOMPATIBLE_VDP"; "TELEMETRY_STALE";
   "TELEMETRY_DISCONNECTED"; "SERVICE_ACCESS_DENIED"; "NOT_READY_STATE"]%string.
Definition degraded_reasons : list string := ["BACKEND_DISCONNECTED"; "BACKEND_SYNC_PENDING"; "OUTBOX_FULL"]%string.
Definition status_content (why : string) (missing : list string) : Json :=
  JObject (obj_of
    [("functionalState", JString (if String.eqb why "READY" then "OPERATIONAL"
                                  else if find_string why degraded_reasons then "DEGRADED" else "NOT_READY"));
     ("reason", JString why); ("requiredVdpContractVersion", JString "3.0.0");
     ("missingPaths", JArray (map JString missing)); ("missingCapabilities", JArray [])]%string).
Definition status_message (m : Metadata) (why : string) (now : Z) (missing : list string) (state : Json) : res Json :=
  let content := status_content why missing in
  observed ← utc_timestamp now;
  epoch ← at_string "producerEpoch" state;
  c ← canonical content;
  id ← uuid_v5 epoch [observed; why; service_version m; vdp_contract_version m; c];
  let msg := obj_of
    [("schemaVersion", JInt 1); ("contractVersion", JString "1.0.0"); ("messageType", JString "TIRE_FUNCTION_STATUS");
     ("statusId", JString id); ("unitSystemUid", JString (unit_system_uid m)); ("unitRole", JString (unit_role m));
     ("serviceVersion", JString (service_version m)); ("serviceArtifactSha256", JString (service_artifact_sha256 m));
     ("actualVdpContractVersion", JString (vdp_contract_version m));
     ("actualVdpContractSha256", JString (vdp_contract_sha256 m)); ("observedAt", JString observed);
     ("content", content); ("contentSha256", JString (sha256_hex c))]%string in
  match service_instance m with
  | None => Ok (JObject msg)
  | Some i =>
    _ ← metadata_binding m;
    let msg := obj_erase "serviceArtifactSha256"
                 (obj_set "contractVersion" (JString "2.0.0") (obj_set "schemaVersion" (JInt 2) msg)) in
    t ← service_instance_json i;
    si ← parse_json t default_limit;
    Ok (JObject (obj_emplace "serviceInstance" si msg).1)
  end.
Definition function_status (why : string) (now : Z) (missing : list string) : RT unit :=
  s ← self;
  if negb (store_ok s) then mret tt
  else if negb (find_string why allowed_reasons) || (32 <? Z.of_nat (length missing))
  then raise (InvalidArgument "STATUS_INVALID")
  else
    _ ← (if String.eqb why "READY" then change (set_telemetry_at now) else mret tt);
    if String.eqb why (reason s) && (0 <=? status_at s) && (now - status_at s <? 30000) then mret tt
    else
      msg ← eval (status_message (metadata s) why now missing (state s));
      _ ← store_commit (state s) [msg];
      change (set_status why now).
Definition next_message : RT (option Pending) :=
  s ← self;
  if store_ok s then eval (pending (outbox (disk s))) else mret None.
Definition accept (p : Pending) (r : HttpResponse) : RT bool :=
  s ← self;
  accepted ← (if store_ok s then store_io (acknowledge p r) else mret false);
  _ ← function (facts_delivery accepted (status r) (body r));
  mret accepted.

(** ** Assessing an exercise *)

Definition episode_done (e : Episode) : bool :=
  String.eqb (terminal e) "COMPLETE" || String.eqb (terminal e) "TRUNCATED_MAX_DURATION".
(** The exercises the model had consumed when it was reset, if there was such a model. *)
Definition consumed_before_reset (next : Object) : res (option (list Json)) :=
  if negb (obj_count "demoReset" next) then Ok None
  else
    reset ← obj_at "demoReset" next;
    pm ← jat "previousModel" reset;
    if is_null pm then Ok None
    else r ← jat "recentSourceExerciseIds" pm; l ← array r; Ok (Some l).
Definition add_recent (ids : list string) (m : ModelState) : ModelState :=
  MkModelState (band m) (better m) (last_score m) (last_confidence m) (better_count m) (last_source m)
    (last_assessment m) (recent m ++ ids).
Definition set_assessment (id : string) (m : ModelState) : ModelState :=
  MkModelState (band m) (better m) (last_score m) (last_confidence m) (better_count m) (last_source m) id (recent m).
(** The model an exercise is assessed with; nothing when the exercise was consumed before. *)
Definition model_for (episode : Episode) (next : Object) : res (option ModelState) :=
  mj ← obj_at "model" next;
  model ← read_model mj;
  before ← consumed_before_reset next;
  match before with
  | None => Ok (Some model)
  | Some ids =>
    seen ← any_string (ep_id episode) ids;
    if (seen : bool) then Ok None
    else if is_null mj then ss ← strings_of ids; Ok (Some (add_recent ss model))
    else Ok (Some model)
  end.
(** The new request of a changed band: sequence, provenance and model in the state. *)
Definition schedule_request (m : Metadata) (model : ModelState) (digest : string) (now : Z) (next : Object) : res Object :=
  sj ← obj_at "nextAdvisorySequence" next; sequence ← integer sj;
  ej ← obj_at "producerEpoch" next; epoch ← jstring ej;
  request ← advisory_request m epoch sequence (last_assessment model) (band model) now;
  binding ← metadata_binding m;
  let next := obj_set "nextAdvisorySequence" (JInt (sequence + 1))
                (obj_set "lastRequestMetadata" binding (obj_set "lastRequest" request next)) in
  mj ← write_model model digest (JObject next);
  Ok (obj_set "gatewayStates" (JArray []) (obj_set "model" mj next)).
(** The state and the messages of an assessment. *)
Definition assessed_state (m : Metadata) (digest : string) (episode : Episode) (model : ModelState)
    (result : Assessment) (next : Object) : res (Object * list Json * Json * bool) :=
  message ← assessment_message m result episode digest;
  id ← at_string "assessmentId" message;
  let model := set_assessment id model in
  published ← (if changed result then Ok true
               else pj ← obj_at "lastPublishedAt" next; p ← integer pj; Ok (30000 <=? ended episode - p));
  events ← (if changed result then e ← event_message message; Ok [e] else Ok []);
  let messages := if (published : bool) then message :: events else [] in
  let next := if (published : bool) then obj_set "lastPublishedAt" (JInt (ended episode)) next else next in
  mj ← write_model model digest (JObject next);
  let next := obj_set "model" mj next in
  let scheduled := changed result
    && (negb (band_eqb (current_band result) Good) || negb (band_eqb (previous_band result) NotEvaluated)) in
  next ← (if scheduled then schedule_request m model digest (ended episode) next else Ok next);
  Ok (next, messages, message, scheduled).
Definition apply_episode (features : Features) (episode : Episode) (digest : string) : RT bool :=
  s ← self;
  skip ← (if negb (store_ok s) then mret true
          else pending ← eval (reset_pending (state s));
               mret ((pending : bool) || negb (is_sha256 digest) || negb (episode_done episode)));
  if (skip : bool) then mret false
  else
    next ← eval (object (state s));
    found ← eval (model_for episode next);
    match found with
    | None => mret false
    | Some model =>
      mj ← eval (obj_at "model" next);
      other ← (if is_null mj then mret false
               else d ← eval (at_string "modelConfigSha256" mj); mret (negb (String.eqb d digest)));
      _ ← raise_if other (RuntimeError "MODEL_STATE_MISMATCH");
      let '(model, result) := assess model features (Z.of_nat (length (ep_samples episode))) (ep_id episode) in
      match result with
      | None => mret false
      | Some result =>
        '(next, messages, message, scheduled) ←
          eval (assessed_state (metadata s) digest episode model result next);
        _ ← (if (scheduled : bool) then change (set_advisory (ended episode) (-1) false) else mret tt);
        committed ← store_commit (JObject next) messages;
        _ ← function (facts_activity (if (committed : bool) then "COMPLETED" else "SKIPPED")
              (if (committed : bool) then "NONE" else "STORAGE_UNAVAILABLE") (Some (ep_id episode)));
        _ ← (if (committed : bool) && negb (bool_decide (messages = [])) then
               id ← eval (at_string "assessmentId" message);
               t ← eval (at_string "sourceEventTime" message);
               function (facts_result "ASSESSMENT" id t (service_version (metadata s)))
             else mret tt);
        mret committed
      end
    end.

(** ** Advisories *)

(** A new request: the sequence is consumed and the gateway's answers forgotten. *)
Definition new_request (m : Metadata) (decision : string) (b : Band) (now : Z) (next : Object) : res Object :=
  sj ← obj_at "nextAdvisorySequence" next; sequence ← integer sj;
  ej ← obj_at "producerEpoch" next; epoch ← jstring ej;
  request ← advisory_request m epoch sequence decision b now;
  binding ← metadata_binding m;
  Ok (obj_set "gatewayStates" (JArray []) (obj_set "nextAdvisorySequence" (JInt (sequence + 1))
    (obj_set "lastRequestMetadata" binding (obj_set "lastRequest" request next)))).
(** Reporting and returning the request of a state. *)
Definition send_request (next : Object) : RT (option string) :=
  r ← eval (obj_at "lastRequest" next);
  id ← eval (at_string "requestId" r);
  _ ← function_advisory "WAITING" (Some id);
  text ← eval (canonical r);
  mret (Some text).
Definition next_reset_advisory (now : Z) : RT (option string) :=
  s ← self;
  next ← eval (object (state s));
  reset ← eval (obj_at "demoReset" next);
  command ← eval (jat "command" reset);
  t ← eval (utc_timestamp now);
  expires ← eval (at_string "expiresAt" command);
  if str_leb expires t then mret None
  else if (0 <=? last_write s) && (now - last_write s <? 1000) then mret None
  else
    next ← (if (refresh_at s <? 0) || (5000 <=? now - refresh_at s) then
              id ← eval (at_string "commandId" command);
              next ← eval (new_request (metadata s) id Good now next);
              _ ← store_commit (JObject next) [];
              _ ← change (set_refresh_at now);
              mret next
            else mret next);
    _ ← change (set_last_write now);
    send_request next.
Definition next_advisory (now : Z) : RT (option string) :=
  s ← self;
  if negb (store_ok s) then mret None
  else
    pending ← eval (reset_pending (state s));
    if (pending : bool) then next_reset_advisory now
    else
      mj ← eval (jat "model" (state s));
      model ← eval (read_model mj);
      if band_eqb (band model) NotEvaluated then mret None
      else
        last ← eval (jat "lastRequest" (state s));
        if negb (is_null last) && (0 <=? refresh_at s) && (now - refresh_at s <? 20000) then
          if negb (advisory_sent s) && ((last_write s <? 0) || (1000 <=? now - last_write s)) then
            _ ← change (set_last_write now);
            o ← eval (object (state s));
            send_request o
          else mret None
        else if band_eqb (band model) Good && (advisory_sent s || is_null last) then mret None
        else
          next ← eval (object (state s));
          next ← eval (new_request (metadata s) (last_assessment model) (band model) now next);
          dj ← eval (obj_at "model" next);
          digest ← eval (at_string "modelConfigSha256" dj);
          mj ← eval (write_model model digest (JObject next));
          let next := obj_set "model" mj next in
          _ ← store_commit (JObject next) [];
          _ ← change (set_advisory now now false);
          send_request next.

(** ** The gateway's answers *)

(** Whether the request is the clearing of the demo reset. *)
Definition clears_reset (state request : Json) : res bool :=
  o ← object state;
  if negb (obj_count "demoReset" o) then Ok false
  else
    d ← at_string "decisionId" request;
    reset ← jat "demoReset" state; command ← jat "command" reset; id ← at_string "commandId" command;
    Ok (String.eqb d id).
(** The state in which the reset is acknowledged as cleared. *)
Definition cleared_reset (m : Metadata) (state request status : Json) : res Object :=
  next ← object state;
  rj ← obj_at "demoReset" next; reset ← object rj;
  bj ← control_binding m state; binding ← object bj;
  command ← obj_at "command" reset; id ← jat "commandId" command;
  let ack := obj_set "gatewayStatus" status (obj_set "clearRequest" request
               (obj_set "result" (JString "CLEARED") (obj_set "commandId" id binding))) in
  let reset := obj_set "ack" (JObject ack) reset in
  Ok (obj_set "gatewayStates" (JArray [JString "CLEARED"]) (obj_set "demoReset" (JObject reset) next)).
Definition reset_status (m : Metadata) (state request status : Json) : RT unit :=
  pending ← eval (reset_pending state);
  st ← eval (at_string "state" status);
  if negb (pending : bool) || negb (String.eqb st "CLEARED") then mret tt
  else
    r ← eval (at_string "reason" status);
    ar ← eval (at_string "activeRecommendation" status);
    ac ← eval (at_string "activeReasonCode" status);
    au ← eval (jat "activeUntil" status);
    _ ← raise_if (negb (String.eqb r "NONE") || negb (String.eqb ar "NONE") || negb (String.eqb ac "NONE")
                  || negb (is_null au)) (RuntimeError "RESET_CLEAR_NOT_CONFIRMED");
    next ← eval (cleared_reset m state request status);
    _ ← store_commit (JObject next) [];
    _ ← change (set_advisory_sent true);
    id ← eval (at_string "requestId" request);
    function_advisory "CONFIRMED" (Some id).
Definition final_states : list string := ["APPLIED"; "CLEARED"; "REJECTED"; "FAILED"]%string.
Definition observed_state (current : string) : string :=
  if String.eqb current "APPLIED" || String.eqb current "CLEARED" then "CONFIRMED"
  else if String.eqb current "RECEIVED" then "WAITING" else "UNAVAILABLE".
Definition request_status (state request status fact : Json) : RT unit :=
  next ← eval (object state);
  gs ← eval (obj_at "gatewayStates" next);
  states ← eval (array gs);
  current ← eval (at_string "state" status);
  known ← eval (any_string current states);
  if (known : bool) then mret tt
  else
    _ ← store_commit (JObject (obj_set "gatewayStates" (JArray (states ++ [JString current])) next)) [fact];
    id ← eval (at_string "requestId" request);
    _ ← function_advisory (observed_state current) (Some id);
    if find_string current final_states then change (set_advisory_sent true) else mret tt.
Definition gateway_status (bytes : string) (now : Z) : RT unit :=
  s ← self;
  if negb (store_ok s) then mret tt
  else
    request ← eval (jat "lastRequest" (state s));
    if is_null request then mret tt
    else
      o ← eval (object (state s));
      if negb (obj_count "lastRequestMetadata" o) then mret tt
      else
        status ← eval (parse_json bytes 4096);
        _ ← eval (validate_gateway_status status);
        other ← eval (differs correlation_fields request status);
        if (other : bool) then mret tt
        else
          bj ← eval (jat "lastRequestMetadata" (state s));
          binding ← eval (parse_metadata_binding bj);
          fact ← eval (advisory_fact binding request status now);
          clears ← eval (clears_reset (state s) request);
          if (clears : bool) then reset_status (metadata s) (state s) request status
          else request_status (state s) request status fact.

(** ** The demo reset *)

Definition demo_control_poll : RT (option string) :=
  s ← self;
  if negb (store_ok s) || negb (is_some (service_instance (metadata s))) then mret None
  else b ← eval (control_binding (metadata s) (state s)); t ← eval (canonical b); mret (Some t).
(** Every field of the binding must be the command's; the first that is not throws. *)
Fixpoint require_bound (binding : Object) (command : Json) : res unit :=
  match binding with
  | [] => Ok tt
  | (k, v) :: binding' =>
    x ← jat k command; xc ← canonical x; vc ← canonical v;
    _ ← throw_if (negb (String.eqb xc vc)) (RuntimeError "RESET_BINDING_MISMATCH");
    require_bound binding' command
  end.
(** Whether the command is the one the state already has. *)
Definition known_command (next : Object) (command : Json) : res bool :=
  if negb (obj_count "demoReset" next) then Ok false
  else
    reset ← obj_at "demoReset" next; old ← jat "command" reset;
    oid ← at_string "commandId" old; id ← at_string "commandId" command;
    if negb (String.eqb oid id) then Ok false
    else
      oc ← canonical old; c ← canonical command;
      _ ← throw_if (negb (String.eqb oc c)) (RuntimeError "RESET_COMMAND_CONFLICT");
      Ok true.
(** [text.back()] of a text of 24 bytes. *)
Definition ends_utc (t : string) : bool := bool_decide (last (chars t) = Some "Z"%char).
Definition command_times (command : Json) (now : Z) : res unit :=
  issued ← at_string "issuedAt" command;
  expires ← at_string "expiresAt" command;
  let expired := RuntimeError "RESET_COMMAND_EXPIRED" in
  _ ← throw_if (negb (date_time issued) || negb (date_time expires) || negb (ssize issued =? 24)
                || negb (ssize expires =? 24) || negb (ends_utc issued) || negb (ends_utc expires)) expired;
  t ← utc_timestamp now;
  _ ← throw_if (str_ltb t issued || str_leb expires t) expired;
  limit ← utc_timestamp (now + 60000);
  throw_if (str_ltb limit expires || str_leb expires issued) expired.
Definition check_command (m : Metadata) (state command : Json) : res unit :=
  let invalid := RuntimeError "RESET_INVALID_COMMAND" in
  o ← object command;
  _ ← throw_if (negb (obj_size o =? 9)) invalid;
  op ← at_string "operation" command;
  _ ← throw_if (negb (String.eqb op "RESET_DEMO_SCENARIO")) invalid;
  id ← at_string "commandId" command;
  _ ← throw_if (negb (is_uuid id)) invalid;
  bj ← control_binding m state;
  binding ← object bj;
  require_bound binding command.
(** The state with the reset begun: no model, a clearing request, the old model kept aside. *)
Definition begun_reset (m : Metadata) (command : Json) (now : Z) (next : Object) : res Object :=
  sj ← obj_at "nextAdvisorySequence" next; _ ← integer sj;
  mj ← obj_at "model" next;
  let next := obj_set "demoReset" (JObject (obj_of
    [("command", command); ("previousModel", mj); ("ack", JNull); ("delivered", JBool false)]%string)) next in
  let next := obj_set "lastPublishedAt" (JInt 0) (obj_set "model" JNull next) in
  id ← at_string "commandId" command;
  new_request m id Good now next.
Definition demo_control_command (bytes : string) (now : Z) : RT unit :=
  s ← self;
  _ ← raise_if (negb (store_ok s)) (RuntimeError "RESET_STATE_UNAVAILABLE");
  response ← eval (parse_json bytes 4096);
  o ← eval (object response);
  _ ← raise_if (negb (obj_size o =? 2)) (RuntimeError "RESET_INVALID_RESPONSE");
  v ← eval (at_integer "schemaVersion" response);
  _ ← raise_if (negb (v =? 1)) (RuntimeError "RESET_INVALID_RESPONSE");
  command ← eval (jat "command" response);
  if is_null command then mret tt
  else
    _ ← eval (check_command (metadata s) (state s) command);
    next ← eval (object (state s));
    known ← eval (known_command next command);
    if (known : bool) then mret tt
    else
      _ ← eval (command_times command now);
      pending ← eval (reset_pending (state s));
      _ ← raise_if pending (RuntimeError "RESET_ALREADY_PENDING");
      next ← eval (begun_reset (metadata s) command now next);
      _ ← store_commit (JObject next) [];
      _ ← change (set_engine initial_engine);
      _ ← change (set_advisory now (-1) false);
      function (facts_activity "WAITING" "RESET" None).
Definition demo_control_ack (now : Z) : RT (option string) :=
  s ← self;
  if negb (store_ok s) then mret None
  else
    next ← eval (object (state s));
    if negb (obj_count "demoReset" next) then mret None
    else
      rj ← eval (obj_at "demoReset" next);
      reset ← eval (object rj);
      dj ← eval (obj_at "delivered" reset);
      delivered ← eval (boolean dj);
      if (delivered : bool) then mret None
      else
        ack ← eval (obj_at "ack" reset);
        if negb (is_null ack) then t ← eval (canonical ack); mret (Some t)
        else
          t ← eval (utc_timestamp now);
          command ← eval (obj_at "command" reset);
          expires ← eval (at_string "expiresAt" command);
          if str_ltb t expires then mret None
          else
            c ← eval (object command);
            let ack := JObject (refused_ack c "FAILED") in
            let next := obj_set "demoReset" (JObject (obj_set "ack" ack reset)) next in
            _ ← store_commit (JObject next) [];
            t ← eval (canonical ack);
            mret (Some t).
Definition demo_control_accepted (bytes : string) : RT unit :=
  s ← self;
  if negb (store_ok s) then mret tt
  else
    next ← eval (object (state s));
    if negb (obj_count "demoReset" next) then mret tt
    else
      let invalid := RuntimeError "RESET_ACK_INVALID" in
      rj ← eval (obj_at "demoReset" next);
      reset ← eval (object rj);
      response ← eval (parse_json bytes 4096);
      ack ← eval (obj_at "ack" reset);
      _ ← raise_if (is_null ack) invalid;
      o ← eval (object response);
      _ ← raise_if (negb (obj_size o =? 3)) invalid;
      v ← eval (at_integer "schemaVersion" response);
      _ ← raise_if (negb (v =? 1)) invalid;
      id ← eval (at_string "commandId" response);
      command ← eval (obj_at "command" reset);
      cid ← eval (at_string "commandId" command);
      _ ← raise_if (negb (String.eqb id cid)) invalid;
      st ← eval (at_string "state" response);
      result ← eval (at_string "result" ack);
      _ ← raise_if (negb (String.eqb st result)) invalid;
      let next := obj_set "demoReset" (JObject (obj_set "delivered" (JBool true) reset)) next in
      _ ← store_commit (JObject next) [];
      mret tt.

(** ** Reports *)

Definition telemetry_ready (s : Runtime) (now : Z) : bool :=
  store_ok s && (0 <=? telemetry_at s) && (telemetry_at s <=? now) && (now - telemetry_at s <=? 5000).
Definition advisory_readiness (now : Z) : RT string :=
  s ← self;
  t ← eval (utc_timestamp now);
  eval (canonical (JObject (obj_of
    [("schemaVersion", JInt 1); ("ready", JBool (telemetry_ready s now)); ("observedAt", JString t)]%string))).
Definition observation_binding : RT (option Json) :=
  s ← self;
  match service_instance (metadata s) with
  | None => mret None
  | Some i =>
    t ← eval (service_instance_json i);
    si ← eval (parse_json t default_limit);
    mret (Some (JObject (obj_of
      [("messageType", JString "TIRE_FUNCTION_OBSERVATION"); ("unitSystemUid", JString (unit_system_uid (metadata s)));
       ("unitRole", JString (unit_role (metadata s))); ("serviceVersion", JString (service_version (metadata s)));
       ("serviceProfile", JString "v1"); ("serviceInstance", si)]%string)))
  end.
Definition function_observation : RT Json :=
  s ← self;
  eval (snapshot (if store_ok s then queued (outbox (disk s)) else 0) (negb (store_ok s)) (facts s)).
Definition input_observation (connection st why : string) : RT unit :=
  _ ← (if negb (String.eqb st "RECEIVING") then
         function (facts_interruption (if String.eqb why "REAUTHENTICATING" then "REAUTHENTICATING"
                                       else "SOURCE_DISCONTINUITY"))
       else mret tt);
  function (facts_input connection st why).
Definition advisory_observation (st : string) : RT unit := function_advisory st None.
