(* ===== verification/ServiceFacts.v ===== *)
(** * What the runtime's handlers keep

    A weakest-precondition calculus for handlers, the invariant [served] of a runtime with a
    store, and the step every handler makes: the producer epoch stays, the advisory sequence
    never goes back, and the durable request either stays or is a new one whose sequence was
    not used before.  A handler that is stopped leaves a store the next start can open with such
    a step made or not made, but for the window of the journal's temporary file. *)
From Stdlib Require Import ZArith Lia Bool Ascii String Sorted.
From stdpp Require Import gmap strings list.
From S2P Require Import Prelude Chars Sha256 Uuid Json JsonFacts Time Protocol Identity Model Messages Fits StateCheck Store StoreFacts OutboxFacts Observation Service.
Local Open Scope Z_scope.

(** ** Weakest preconditions *)

Definition wp {A} (m : RT A) (Q : Runtime -> outcome A -> Prop) (s : Runtime) : Prop :=
  let '(s', r) := m s in Q s' r.
Section Wp.
Context {A B : Type}.
Implicit Types (Q : Runtime -> outcome B -> Prop) (k : A -> RT B).
Definition after k Q : Runtime -> outcome A -> Prop := fun s r =>
  match r with Done a => wp (k a) Q s | Thrown e => Q s (Thrown e) | Stopped => Q s Stopped end.
Lemma wp_bind (m : RT A) k Q s : wp m (after k Q) s -> wp (m ≫= k) Q s.
Proof. unfold wp, mbind, RT_mbind. by destruct (m s) as [s' [a|e|]]. Qed.
Lemma wp_assoc {C} (m : RT C) (h : C -> RT A) k Q s :
  wp (m ≫= fun c => h c ≫= k) Q s -> wp ((m ≫= h) ≫= k) Q s.
Proof. unfold wp, mbind, RT_mbind. by destruct (m s) as [s' [a|e|]]. Qed.
Lemma wp_ret_bind (a : A) k Q s : wp (k a) Q s -> wp (mret a ≫= k) Q s.
Proof. done. Qed.
Lemma wp_eval_bind (m : res A) k Q s :
  (forall e, m = Err e -> Q s (Thrown e)) -> (forall a, m = Ok a -> wp (k a) Q s) -> wp (eval m ≫= k) Q s.
Proof. intros He Ha. unfold wp, mbind, RT_mbind, eval. destruct m as [a|e]; [by apply Ha|by apply He]. Qed.
Lemma wp_self_bind (k : Runtime -> RT B) Q s : wp (k s) Q s -> wp (self ≫= k) Q s.
Proof. done. Qed.
Lemma wp_change_bind f (k : unit -> RT B) Q s : wp (k tt) Q (f s) -> wp (change f ≫= k) Q s.
Proof. done. Qed.
Lemma wp_function_bind f (k : unit -> RT B) Q s :
  (forall e, Q s (Thrown e)) -> (forall j, f (facts s) = Ok j -> wp (k tt) Q (set_facts j s)) ->
  wp (function f ≫= k) Q s.
Proof.
  intros He Hk. unfold wp, mbind, RT_mbind, function. destruct (f (facts s)) as [j|e]; [by apply Hk|by apply He].
Qed.
Lemma wp_if (b : bool) (m1 m2 : RT B) Q s :
  (b = true -> wp m1 Q s) -> (b = false -> wp m2 Q s) -> wp (if b then m1 else m2) Q s.
Proof. destruct b; auto. Qed.
End Wp.
Lemma wp_last {A} (m : RT A) Q s : wp (m ≫= mret) Q s -> wp m Q s.
Proof. unfold wp, mbind, RT_mbind. by destruct (m s) as [s' [a|e|]]. Qed.
Lemma wp_conseq {A} (m : RT A) (Q Q' : Runtime -> outcome A -> Prop) s :
  wp m Q s -> (forall s' r, Q s' r -> Q' s' r) -> wp m Q' s.
Proof. unfold wp. destruct (m s) as [s' r]. auto. Qed.

(** ** The durable state *)

(** How deep each field of the state is nested at most. *)
Definition field_limit (k : string) : Z :=
  if String.eqb k "demoReset" then 3
  else if find_string k ["model"; "lastRequestMetadata"; "gatewayStates"]%string then 2
  else if String.eqb k "lastRequest" then 1 else 0.
Definition good_object (o : Object) : Prop :=
  obj_sorted o /\ Forall (fun kv => fits (field_limit kv.1) kv.2) o.
Definition shape (st : Json) : Prop := exists o, st = JObject o /\ good_object o.
Lemma field_limit_range k : 0 <= field_limit k <= 3.
Proof. unfold field_limit. repeat case_code; lia. Qed.
Lemma good_object_fits o : good_object o -> fits 4 (JObject o).
Proof.
  intros [Hs Ho]. apply fits_object; [lia|]. split; [done|]. eapply Forall_impl; [exact Ho|].
  intros kv H. eapply fits_weaken; [exact H|]. pose proof (field_limit_range kv.1). cbn. lia.
Qed.
Lemma good_set k v o : good_object o -> fits (field_limit k) v -> good_object (obj_set k v o).
Proof. intros [Hs Ho] Hv. split; [by apply set_sorted|]. by apply set_Forall. Qed.
Lemma good_find k v o : good_object o -> obj_find k o = Some v -> fits (field_limit k) v.
Proof. intros [_ H] Hf%find_elem. rewrite Forall_forall in H. by apply (H (k, v)). Qed.
Lemma good_at k v o : good_object o -> obj_at k o = Ok v -> fits (field_limit k) v.
Proof. unfold obj_at. intros H Hf%of_option_Ok. by eapply good_find. Qed.
Lemma obj_at_jat k o : obj_at k o = jat k (JObject o).
Proof. reflexivity. Qed.
Lemma shape_at k v st : shape st -> jat k st = Ok v -> fits (field_limit k) v.
Proof. intros (o & -> & H) Hv. by apply (good_at k v o). Qed.

(** A step of the durable state. *)
Record adv (st st' : Json) : Prop := {
  adv_epoch : at_string "producerEpoch" st' = at_string "producerEpoch" st;
  adv_sequence : exists n n', at_integer "nextAdvisorySequence" st = Ok n /\
    at_integer "nextAdvisorySequence" st' = Ok n' /\ n <= n' /\
    (jat "lastRequest" st' = jat "lastRequest" st \/
     exists r q, jat "lastRequest" st' = Ok r /\ at_integer "sequence" r = Ok q /\ n <= q < n') }.
Lemma adv_trans a b c : adv a b -> adv b c -> adv a c.
Proof.
  intros [E1 (n & n' & H1 & H2 & H3 & H4)] [E2 (m & m' & G1 & G2 & G3 & G4)].
  assert (m = n') as -> by congruence. constructor; [congruence|]. exists n, m'. split_and!; [done..|lia|].
  destruct G4 as [G4|(r & q & Q1 & Q2 & Q3)]; [|right; exists r, q; split_and!; [done..|lia|lia]].
  rewrite G4. destruct H4 as [H4|(r & q & Q1 & Q2 & Q3)]; [by left|right; exists r, q; split_and!; [done..|lia|lia]].
Qed.
Lemma validated_top uid st :
  validate_state uid st = Ok tt ->
  exists e n, at_string "producerEpoch" st = Ok e /\ is_uuid e = true /\
    at_integer "nextAdvisorySequence" st = Ok n /\ 1 <= n.
Proof.
  unfold validate_state, validate_step. intros H. do 2 apply bind_Ok in H as (? & _ & H).
  apply bind_Ok in H as ([] & H & _). unfold validate_top in H.
  do 6 apply bind_Ok in H as (? & _ & H). apply bind_Ok in H as (e & He & H). apply bind_Ok in H as ([] & Hu & H).
  apply bind_Ok in H as (n & Hn & H). apply bind_Ok in H as ([] & H1 & H).
  unfold not_ready_if in Hu, H1. apply throw_if_Ok in Hu, H1. b2p. by exists e, n.
Qed.
Lemma validated_metadata uid o b m :
  validate_state uid (JObject o) = Ok tt -> obj_count "lastRequestMetadata" o = true ->
  jat "lastRequestMetadata" (JObject o) = Ok b -> parse_metadata_binding b = Ok m -> unit_system_uid m = uid.
Proof.
  unfold validate_state, validate_step. intros H Hc Hb Hm. apply bind_Ok in H as ([] & H & _).
  unfold validate_request_metadata in H. cbn [object mbind res_mbind] in H. rewrite Hc in H. cbn [negb] in H.
  rewrite Hb in H. cbn [mbind res_mbind] in H. rewrite Hm in H. cbn [mbind res_mbind] in H.
  apply bind_Ok in H as (r & _ & H). apply bind_Ok in H as ([] & H & _). unfold not_ready_if in H.
  apply throw_if_Ok in H. b2p. by apply String.eqb_eq.
Qed.

(** ** The runtime with a store *)

Definition uid_of (s : Runtime) : string := unit_system_uid (metadata s).
Definition served (s : Runtime) : Prop :=
  store_ok s = true /\ at_rest (uid_of s) (state s) (outbox (disk s)) (disk s) /\
  shape (state s) /\ index_nonneg (metadata s).
Lemma served_valid s : served s -> validate_state (uid_of s) (state s) = Ok tt.
Proof. intros (_ & [(c & [] & _) _] & _). done. Qed.
Lemma adv_refl s : served s -> adv (state s) (state s).
Proof.
  intros Hs. apply served_valid, validated_top in Hs as (e & n & He & _ & Hn & _). constructor; [done|].
  exists n, n. split_and!; [done..|lia|by left].
Qed.
(** A runtime was stopped in a step from [st]: what the disk holds. *)
Definition halted (uid : string) (st : Json) (d : machine) : Prop :=
  exists st' o, adv st st' /\ shape st' /\
    (at_rest uid st' o d \/ unfinished uid st' o d \/ torn_journal uid st' o d \/
     exists k, is_sha256 k = true /\ torn_block uid st' o k d).
(** The step of a handler. *)
Definition steps (s s' : Runtime) : Prop :=
  uid_of s' = uid_of s /\ served s' /\ adv (state s) (state s').
Definition Steps {A} (s0 : Runtime) : Runtime -> outcome A -> Prop := fun s r =>
  match r with Stopped => halted (uid_of s0) (state s0) (disk s) | _ => steps s0 s end.
Lemma steps_refl s : served s -> steps s s.
Proof. intros H. split_and!; [done|done|by apply adv_refl]. Qed.
Lemma steps_trans a b c : steps a b -> steps b c -> steps a c.
Proof.
  intros (U1 & _ & A1) (U2 & S2 & A2). split_and!; [by rewrite U2|done|by eapply adv_trans].
Qed.

(** A message a handler commits. *)
Lemma sealed_good uid m :
  at_string "unitSystemUid" m = Ok uid -> sealed m -> fits 3 m -> good_message uid m.
Proof.
  intros Hu (content & c & H1 & H2 & H3) [Hw Hd]. constructor; [done|by exists content, c|done|].
  unfold maximum_depth. lia.
Qed.
Lemma commit_Steps s next messages :
  served s -> shape next -> adv (state s) next ->
  Forall (good_message (uid_of s)) messages -> distinct_keys messages -> (length messages <= 3)%nat ->
  let '(s', r) := store_commit next messages s in
  (exists d, s' = set_disk d s) /\
  match r with
  | Done _ => served s' /\ state s' = next
  | Thrown _ => s' = s
  | Stopped => halted (uid_of s) (state s) (disk s')
  end.
Proof.
  intros Hs Hsh Ha Hg Hd Hl. pose proof Hs as (Hok & Hr & Hsh0 & Hi).
  assert (Hgc : good_commit (uid_of s) next messages).
  { destruct Hsh as (o & -> & Ho). apply good_object_fits in Ho as [Hw Hdp].
    constructor; try done. unfold maximum_depth. lia. }
  pose proof (commit_run (uid_of s) next messages (disk s) (state s) (outbox (disk s)) Hr Hgc) as H.
  unfold store_commit, store_io. fold (uid_of s). destruct (commit (uid_of s) next messages (disk s)) as [d [b|e|]].
  - destruct H as (o' & _ & Hrest & Hmem). split; [by eexists|].
    assert (Hst : state (set_disk d s) = next) by done. split; [|done]. split_and!; [done| |by rewrite Hst|done].
    rewrite Hst. pose proof Hrest as (_ & Ho & _). cbn [disk set_disk]. rewrite Ho. done.
  - subst d. split; [by eexists|]. by destruct s.
  - split; [by eexists|]. cbn [disk set_disk].
    destruct H as [H|[H|(full & o' & _ & H)]].
    + exists (state s), (outbox (disk s)). split_and!; [by apply adv_refl|done|by left].
    + exists (state s), (outbox (disk s)). split_and!; [by apply adv_refl|done|by right; right; left].
    + exists next, o'. split_and!; [done..|]. destruct H; [right; by left|by left].
Qed.
Lemma wp_commit_bind {B} s0 s next messages (k : bool -> RT B) Q :
  steps s0 s -> shape next -> adv (state s) next ->
  Forall (good_message (uid_of s)) messages -> distinct_keys messages -> (length messages <= 3)%nat ->
  (forall e, Q s (Thrown e)) ->
  (forall s', halted (uid_of s0) (state s0) (disk s') -> Q s' Stopped) ->
  (forall b d, steps s0 (set_disk d s) -> state (set_disk d s) = next -> wp (k b) Q (set_disk d s)) ->
  wp (store_commit next messages ≫= k) Q s.
Proof.
  intros (Hu & Hs & Ha0) Hsh Ha Hg Hd Hl He Hh Hk.
  pose proof (commit_Steps s next messages Hs Hsh Ha Hg Hd Hl) as H.
  unfold wp, mbind, RT_mbind. destruct (store_commit next messages s) as [s' [b|e|]]; destruct H as [[d E] H].
  - destruct H as [H1 H2]. subst s'. apply Hk; [|done]. split_and!; [done|done|]. rewrite H2. by eapply adv_trans.
  - subst s'. rewrite H. apply He.
  - apply Hh. destruct H as (st' & o & Had & Hsh' & Hc). rewrite Hu in Hc. exists st', o.
    split_and!; [by eapply adv_trans|done|done].
Qed.

(** ** Handlers that do not commit *)

(** One step of a handler's proof: the steps so far are a hypothesis. *)
Ltac hdone := first [assumption | exact I].
Ltac hstep :=
  lazymatch goal with
  | |- wp (mbind _ (mbind _ _)) _ _ => apply wp_assoc
  | |- wp (mbind _ self) _ _ => apply wp_self_bind
  | |- wp (mbind _ (mret _)) _ _ => apply wp_ret_bind
  | |- wp (mbind _ (change _)) _ _ => apply wp_change_bind
  | |- wp (mbind _ (eval _)) _ _ => apply wp_eval_bind; [intros ? _; hdone|intros ? ?]
  | |- wp (mbind _ (function _)) _ _ => apply wp_function_bind; [intros ?; hdone|intros ? _]
  | |- wp (mbind _ (if ?b then _ else _)) _ _ => destruct b eqn:?
  | |- wp (mbind _ (match ?b with _ => _ end)) _ _ => destruct b eqn:?
  | |- wp (if ?b then _ else _) _ _ => destruct b eqn:?
  | |- wp (match ?b with _ => _ end) _ _ => destruct b eqn:?
  | |- wp (mret _) _ _ => hdone
  | |- wp (raise _) _ _ => hdone
  | |- wp (change _) _ _ => apply wp_last
  | |- wp (eval _) _ _ => apply wp_last
  | |- wp (function _) _ _ => apply wp_last
  | |- wp (raise_if _ _ ≫= _) _ _ => unfold raise_if
  end; cbv beta zeta.
Ltac hsteps := repeat hstep.

Lemma ingest_Steps uuid f mono s : served s -> wp (ingest_frame_at uuid f mono) (Steps s) s.
Proof. intros Hs. pose proof (steps_refl s Hs) as H. unfold ingest_frame_at. hsteps. Qed.
Lemma reauthenticate_Steps s : served s -> wp reauthenticate (Steps s) s.
Proof. intros Hs. pose proof (steps_refl s Hs) as H. unfold reauthenticate, function_advisory. hsteps. Qed.
Lemma expire_Steps mono s : served s -> wp (expire_input mono) (Steps s) s.
Proof. intros Hs. pose proof (steps_refl s Hs) as H. unfold expire_input, abort_engine. hsteps. Qed.
Lemma disconnect_Steps s : served s -> wp disconnect (Steps s) s.
Proof. intros Hs. pose proof (steps_refl s Hs) as H. unfold disconnect, abort_engine. hsteps. Qed.
Lemma stop_Steps s : served s -> wp stop (Steps s) s.
Proof. intros Hs. pose proof (steps_refl s Hs) as H. unfold stop, abort_engine. hsteps. Qed.
Lemma input_observation_Steps c st why s : served s -> wp (input_observation c st why) (Steps s) s.
Proof. intros Hs. pose proof (steps_refl s Hs) as H. unfold input_observation. hsteps. Qed.
Lemma advisory_observation_Steps st s : served s -> wp (advisory_observation st) (Steps s) s.
Proof. intros Hs. pose proof (steps_refl s Hs) as H. unfold advisory_observation, function_advisory. hsteps. Qed.
Lemma next_message_Steps s : served s -> wp next_message (Steps s) s.
Proof. intros Hs. pose proof (steps_refl s Hs) as H. unfold next_message. hsteps. Qed.
Lemma readiness_Steps now s : served s -> wp (advisory_readiness now) (Steps s) s.
Proof. intros Hs. pose proof (steps_refl s Hs) as H. unfold advisory_readiness. hsteps. Qed.
Lemma poll_Steps s : served s -> wp demo_control_poll (Steps s) s.
Proof. intros Hs. pose proof (steps_refl s Hs) as H. unfold demo_control_poll. hsteps. Qed.
Lemma update_Steps m s : served s -> index_nonneg m -> wp (update_vdp_metadata m) (Steps s) s.
Proof.
  intros Hs Hm. pose proof (steps_refl s Hs) as H. unfold update_vdp_metadata, abort_engine. hsteps.
  assert (E : unit_system_uid m = uid_of s).
  { unfold same_identity in *. b2p. by apply String.eqb_eq. }
  destruct H as (_ & (H1 & H2 & H3 & _) & H4). split; [exact E|split; [|exact H4]].
  split; [exact H1|split; [|split; [exact H3|exact Hm]]].
  change (at_rest (unit_system_uid m) (state s) (outbox (disk s)) (disk s)). rewrite E. exact H2.
Qed.

(** ** Handlers that change the outbox *)

Lemma accept_Steps p r s :
  served s -> ~ blocked_in (outbox (disk s)) (pending_key p) -> wp (accept p r) (Steps s) s.
Proof.
  intros Hs Hb. pose proof Hs as (Hok & Hr & Hsh & Hi). unfold accept. hstep. rewrite Hok. apply wp_bind.
  pose proof (acknowledge_run (uid_of s) (state s) (outbox (disk s)) (disk s) p r Hr Hb) as H. cbn zeta in H.
  unfold wp at 1, store_io. destruct (acknowledge p r (disk s)) as [d [a|e|]].
  - assert (Hst : exists o, still (uid_of s) (state s) o (disk s) d).
    { destruct a; destruct H as (_ & _ & H); eauto. }
    destruct Hst as (o & Hrest & Hm). cbn [after].
    assert (Hs' : steps s (set_disk d s)).
    { split; [done|]. unfold steps, served, state in *. cbn [set_disk disk store_ok metadata]. rewrite Hm.
      pose proof Hrest as (_ & Ho & _). split; [|by apply (adv_refl s)]. split_and!; try done. by rewrite Ho. }
    hsteps.
  - destruct H as [-> _]. cbn [after Steps].
    assert (set_disk (disk s) s = s) as -> by (by destruct s). by apply steps_refl.
  - cbn [after Steps]. destruct H as [[Hk _] H]. unfold set_disk at 1. cbn [disk].
    assert (Hh : forall o, (at_rest (uid_of s) (state s) o d \/ exists k, is_sha256 k = true /\ torn_block (uid_of s) (state s) o k d) ->
      halted (uid_of s) (state s) d).
    { intros o Ho. exists (state s), o. split; [by apply adv_refl|split; [done|]].
      destruct Ho; [by left|right; right; by right]. }
    destruct H as [H|[[_ H]|[_ [H|H]]]]; (eapply Hh; first [left; exact H|right; eexists; split; [exact Hk|exact H]]).
Qed.

(** ** Building the next state *)

Lemma adv_set a o k v :
  ~ k ∈ ["producerEpoch"; "nextAdvisorySequence"; "lastRequest"]%string ->
  adv a (JObject o) -> adv a (JObject (obj_set k v o)).
Proof.
  rewrite !not_elem_of_cons. intros (N1 & N2 & N3 & _) [E (n & n' & H1 & H2 & H3 & H4)].
  assert (F : forall k', k' <> k -> jat k' (JObject (obj_set k v o)) = jat k' (JObject o)).
  { intros k' Hk. rewrite !jat_object. by rewrite find_set_ne. }
  constructor; [unfold at_string in *; by rewrite F|]. exists n, n'. unfold at_integer in *. rewrite !F by done. auto.
Qed.
Lemma request_sequence m epoch seq d b now r :
  advisory_request m epoch seq d b now = Ok r -> at_integer "sequence" r = Ok seq.
Proof.
  unfold advisory_request. intros H. destruct (_ || _); [done|].
  apply bind_Ok in H as (id & _ & H). apply bind_Ok in H as (i & _ & H). apply bind_Ok in H as (x & _ & H).
  apply Ok_inj in H as <-. unfold at_integer. destruct (band_eqb b Good); [reflexivity|].
  rewrite jat_object, find_set_ne by done. by rewrite find_obj_of.
Qed.
(** Consuming a sequence for a new request. *)
Lemma adv_request a o r binding n :
  adv a (JObject o) -> at_integer "nextAdvisorySequence" (JObject o) = Ok n -> at_integer "sequence" r = Ok n ->
  adv a (JObject (obj_set "nextAdvisorySequence" (JInt (n + 1))
    (obj_set "lastRequestMetadata" binding (obj_set "lastRequest" r o)))).
Proof.
  intros [E (m & m' & H1 & H2 & H3 & H4)] Hn Hr. assert (m' = n) as -> by congruence. constructor.
  - rewrite <- E. unfold at_string. rewrite !jat_object, !find_set_ne by done. done.
  - exists m, (n + 1). split_and!; [done| |lia|].
    + unfold at_integer. rewrite jat_object, find_set_eq. done.
    + right. exists r, n. split_and!; [|done|lia|lia].
      rewrite jat_object, !(find_set_ne "lastRequest") by done. by rewrite find_set_eq.
Qed.
Lemma obj_at_integer k o v n : obj_at k o = Ok v -> integer v = Ok n -> at_integer k (JObject o) = Ok n.
Proof. unfold at_integer. rewrite obj_at_jat. by intros ->. Qed.
Lemma new_request_good m d b now o o' :
  index_nonneg m -> good_object o -> new_request m d b now o = Ok o' -> good_object o'.
Proof.
  intros Hi Ho H. unfold new_request in H. do 4 apply bind_Ok in H as (? & _ & H).
  apply bind_Ok in H as (r & Hr & H). apply bind_Ok in H as (bd & Hb & H). apply Ok_inj in H as <-.
  apply request_fits in Hr. apply binding_fits in Hb; [|done].
  repeat (apply good_set; [|try done]); try done.
Qed.
Lemma new_request_adv a m d b now o o' :
  adv a (JObject o) -> new_request m d b now o = Ok o' -> adv a (JObject o').
Proof.
  intros Ha H. unfold new_request in H. apply bind_Ok in H as (sj & Hsj & H). apply bind_Ok in H as (n & Hn & H).
  apply bind_Ok in H as (ej & _ & H). apply bind_Ok in H as (e & _ & H).
  apply bind_Ok in H as (r & Hr & H). apply bind_Ok in H as (bd & Hb & H). apply Ok_inj in H as <-.
  apply adv_set; [set_solver|]. eapply adv_request; [done|by eapply obj_at_integer|by eapply request_sequence].
Qed.
Lemma write_model_fits m d o mj : good_object o -> write_model m d (JObject o) = Ok mj -> fits 2 mj.
Proof.
  intros Ho H. unfold write_model in H. apply bind_Ok in H as (e & He & H). apply bind_Ok in H as (n & Hn & H).
  apply Ok_inj in H as <-. rewrite <- obj_at_jat in He, Hn.
  apply (good_at _ _ _ Ho), (fits_weaken _ 1) in He, Hn; [|by vm_compute..].
  assert (fits 1 (JArray (map JString (recent m)))) by (by apply fits_strings).
  fits_tac.
Qed.
Lemma control_binding_fits m st j : shape st -> index_nonneg m -> control_binding m st = Ok j -> fits 2 j.
Proof.
  intros Hs Hi H. unfold control_binding, index_nonneg in *. destruct (service_instance m) as [i|]; [|done].
  apply bind_Ok in H as (t & Ht & H). apply bind_Ok in H as (si & Hsi & H). apply bind_Ok in H as (e & He & H).
  apply Ok_inj in H as <-. destruct (instance_parses _ _ _ _ Hi Ht Hsi) as [-> _].
  pose proof (instance_fits i 1 ltac:(lia)). apply (shape_at _ _ _ Hs), (fits_weaken _ 1) in He; [|by vm_compute].
  fits_tac.
Qed.
Lemma refused_fits c r : fits 2 (JObject c) -> fits 2 (JObject (refused_ack c r)).
Proof. intros Hc. unfold refused_ack. fits_tac. Qed.
(** A bound field of a command is the binding's. *)
Lemma require_bound_Ok binding command :
  fits maximum_depth command -> Forall (fun kv => fits (maximum_depth - 1) kv.2) binding ->
  require_bound binding command = Ok tt -> Forall (fun kv => jat kv.1 command = Ok kv.2) binding.
Proof.
  intros Hc HF H. induction HF as [|[k v] binding Hv _ IH]; [constructor|]. cbn [require_bound fst snd] in *.
  apply bind_Ok in H as (x & Hx & H). apply bind_Ok in H as (xc & Hxc & H). apply bind_Ok in H as (vc & Hvc & H).
  apply bind_Ok in H as ([] & Hb & H). apply throw_if_Ok, negb_false_iff, String.eqb_eq in Hb as ->.
  constructor; [|by apply IH]. cbn [fst snd]. rewrite Hx. f_equal.
  apply (fits_at maximum_depth) in Hx as [W D]; [|by vm_compute|done]. destruct Hv as [W' D'].
  eapply canonical_inj; [exact W|exact W'|lia|lia|exact Hxc|exact Hvc].
Qed.
Definition command_keys : list string :=
  ["schemaVersion"; "unitSystemUid"; "serviceVersion"; "serviceInstance"; "producerEpoch";
   "operation"; "commandId"; "issuedAt"; "expiresAt"]%string.
Lemma command_fits m st command now :
  shape st -> index_nonneg m -> fits maximum_depth command ->
  check_command m st command = Ok tt -> command_times command now = Ok tt -> fits 2 command.
Proof.
  intros Hsh Hi Hf H Ht. unfold check_command in H. cbn zeta in H.
  apply bind_Ok in H as (o & Ho & H). apply bind_Ok in H as ([] & Hsz & H).
  apply bind_Ok in H as (op & Hop & H). apply bind_Ok in H as ([] & _ & H).
  apply bind_Ok in H as (id & Hid & H). apply bind_Ok in H as ([] & _ & H).
  apply bind_Ok in H as (bj & Hbj & H). apply bind_Ok in H as (b & Hb & H).
  pose proof (control_binding_fits _ _ _ Hsh Hi Hbj) as Hbf. destruct bj; try done. apply Ok_inj in Hb as ->.
  assert (HF : Forall (fun kv => fits (maximum_depth - 1) kv.2) b).
  { apply fits_object in Hbf as [_ Hbf]; [|lia]. eapply Forall_impl; [exact Hbf|]. intros kv Hkv.
    eapply fits_weaken; [exact Hkv|]. by vm_compute. }
  apply (require_bound_Ok _ _ Hf HF) in H.
  assert (Hall : Forall (member_fits 1 command) (map fst b)).
  { apply Forall_forall. intros k Hk. apply list_elem_of_In, in_map_iff in Hk as ([k' v] & <- & Hin).
    apply list_elem_of_In in Hin. rewrite Forall_forall in H. specialize (H _ Hin). exists v. split; [done|].
    apply fits_object in Hbf as [_ Hbf]; [|lia]. rewrite Forall_forall in Hbf. by apply (Hbf (k', v)). }
  unfold control_binding in Hbj. destruct (service_instance m) as [i|]; [|done].
  apply bind_Ok in Hbj as (t & _ & Hbj). apply bind_Ok in Hbj as (si & _ & Hbj).
  apply bind_Ok in Hbj as (e & _ & Hbj). apply Ok_inj in Hbj. injection Hbj as Hbj.
  assert (Hkeys : map fst b = ["producerEpoch"; "schemaVersion"; "serviceInstance"; "serviceVersion"; "unitSystemUid"]%string)
    by (rewrite <- Hbj; reflexivity).
  unfold command_times in Ht. apply bind_Ok in Ht as (ia & Hia & Ht). apply bind_Ok in Ht as (ea & Hea & _).
  apply throw_if_Ok, negb_false_iff, Z.eqb_eq in Hsz. unfold obj_size in Hsz.
  apply (keyed_fits 2 command_keys); [lia|by destruct Hf|by apply (bool_decide_unpack (NoDup command_keys)); vm_compute|..].
  - exists o. destruct command; try done. apply Ok_inj in Ho as ->. split; [done|]. cbn. lia.
  - rewrite Hkeys, !Forall_cons in Hall. destruct Hall as (A1 & A2 & A3 & A4 & A5 & _).
    unfold command_keys. repeat (apply Forall_cons; split); try assumption; try (by eapply leaf_string; [lia|]).
    constructor.
Qed.

(** ** Messages *)

Lemma assessment_good m a e d j :
  index_nonneg m -> assessment_message m a e d = Ok j -> good_message (unit_system_uid m) j.
Proof.
  intros Hi H. pose proof (assessment_fits _ _ _ _ _ Hi H) as Hf.
  apply assessment_message_Ok in H as (Hs & _ & _ & id & _ & _ & _ & _ & Hu & _).
  apply sealed_good; [|done|done]. unfold at_string. by rewrite Hu.
Qed.
Lemma event_good uid a j :
  good_message uid a -> fits 3 a -> event_message a = Ok j -> good_message uid j.
Proof.
  intros [Hu _ _ _] Hf H. pose proof (event_fits _ _ Hf H) as Hfj. apply sealed_good; [|by eapply event_sealed|done].
  unfold event_message in H. apply bind_Ok in H as (c & _ & H). apply bind_Ok in H as (cur & _ & H).
  do 3 apply bind_Ok in H as (? & _ & H). apply bind_Ok in H as (u & Hu' & H). do 3 apply bind_Ok in H as (? & _ & H).
  cbn zeta in H. apply bind_Ok in H as (v & _ & H). apply bind_Ok in H as (msg & Hm & H).
  do 4 apply bind_Ok in H as (? & _ & H). apply wrap_Ok in H as (_ & _ & Hk). unfold at_string.
  rewrite Hk by done. unfold at_string in Hu. rewrite Hu' in Hu. cbn [mbind res_mbind] in Hu.
  assert (obj_find "unitSystemUid" msg = Some u) as ->; [|done].
  destruct (v =? 2).
  - rewrite (copy_fields_other _ _ _ _ _ Hm) by set_solver. by rewrite find_obj_of.
  - destruct (v =? 1); [|done]. apply Ok_inj in Hm as <-. by rewrite find_obj_of.
Qed.
Lemma fact_good m request status now j :
  index_nonneg m -> fits 1 request -> fits 1 status -> advisory_fact m request status now = Ok j ->
  good_message (unit_system_uid m) j.
Proof.
  intros Hi Hr Hs H. apply sealed_good; [|by eapply fact_sealed|exact (fact_fits _ _ _ _ _ Hi Hr Hs H)].
  unfold advisory_fact in H. do 2 apply bind_Ok in H as (? & _ & H). destruct (negb _); [done|].
  do 2 apply bind_Ok in H as (? & _ & H). apply bind_Ok in H as ([|] & _ & H); [done|].
  apply bind_Ok in H as (msg & Hb & H). apply bind_Ok in H as (msg2 & Hc & H).
  do 13 apply bind_Ok in H as (? & _ & H). apply wrap_Ok in H as (_ & _ & Hk).
  unfold at_string. rewrite Hk, !find_set_ne by done.
  rewrite (copy_fields_other _ _ _ _ _ Hc) by (unfold correlation_fields; set_solver).
  rewrite (base_find _ _ _ _ Hb) by set_solver. reflexivity.
Qed.
Lemma status_content_fits why missing : fits 2 (status_content why missing).
Proof.
  unfold status_content. pose proof (fits_strings 1 missing ltac:(lia)).
  assert (fits 1 (JArray [])) by (apply fits_array; [lia|constructor]). fits_tac.
Qed.
Lemma status_good m why now missing st j :
  index_nonneg m -> status_message m why now missing st = Ok j -> good_message (unit_system_uid m) j.
Proof.
  intros Hi H. unfold status_message in H. cbn zeta in H.
  apply bind_Ok in H as (t & _ & H). apply bind_Ok in H as (e & _ & H). apply bind_Ok in H as (c & Hc & H).
  apply bind_Ok in H as (id & _ & H). pose proof (status_content_fits why missing) as Hf.
  destruct (service_instance m) as [i|] eqn:Ei.
  - apply bind_Ok in H as (b & _ & H). apply bind_Ok in H as (tx & Htx & H). apply bind_Ok in H as (si & Hsi & H).
    apply Ok_inj in H as <-. unfold index_nonneg in Hi. rewrite Ei in Hi.
    destruct (instance_parses _ _ _ _ Hi Htx Hsi) as [-> _]. pose proof (instance_fits i 2 ltac:(lia)).
    apply sealed_good; [| |fits_tac].
    + unfold at_string. rewrite jat_object, find_emplace, find_erase_ne, !find_set_ne, find_obj_of by done. reflexivity.
    + exists (status_content why missing), c. split_and!; [|done|].
      * rewrite jat_object, find_emplace, find_erase_ne, !find_set_ne, find_obj_of by done. reflexivity.
      * unfold at_string. rewrite jat_object, find_emplace, find_erase_ne, !find_set_ne, find_obj_of by done. reflexivity.
  - apply Ok_inj in H as <-. apply sealed_good; [| |fits_tac].
    + unfold at_string. rewrite jat_object, find_obj_of. reflexivity.
    + exists (status_content why missing), c. unfold at_string. rewrite !jat_object, !find_obj_of. by split_and!.
Qed.

(** ** Handlers that commit *)

(** A commit: the state, the messages and what follows are left. *)
Ltac hcommit :=
  eapply wp_commit_bind; [eassumption| | | | |cbn; lia|intros ?; hdone|intros ? ?; hdone|intros ? ? ? ?]; cbv beta zeta.
Ltac no_messages := try (apply Forall_nil; exact I); try exact I.

Lemma served_shape s : served s -> shape (state s).
Proof. by intros (_ & _ & H & _). Qed.
Lemma served_index s : served s -> index_nonneg (metadata s).
Proof. by intros (_ & _ & _ & H). Qed.
Lemma served_object s o : served s -> object (state s) = Ok o -> state s = JObject o /\ good_object o.
Proof. intros (o' & Ho & Hg)%served_shape H. rewrite Ho in *. apply Ok_inj in H as ->. done. Qed.
Lemma adv_object s o : served s -> object (state s) = Ok o -> adv (state s) (JObject o).
Proof. intros Hs Ho. destruct (served_object s o Hs Ho) as [<- _]. by apply adv_refl. Qed.

Lemma function_status_Steps why now missing s : served s -> wp (function_status why now missing) (Steps s) s.
Proof.
  intros Hs. pose proof (steps_refl s Hs) as H. unfold function_status. hsteps.
  all: hcommit; [exact (served_shape s Hs)|exact (adv_refl s Hs)| |done|hsteps].
  all: constructor; [|constructor]; by eapply status_good; [apply (served_index s Hs)|].
Qed.

(** *** Advisories *)

Lemma send_request_Steps s0 o s : steps s0 s -> wp (send_request o) (Steps s0) s.
Proof. intros H. unfold send_request, function_advisory. hsteps. Qed.
Lemma next_reset_advisory_Steps now s : served s -> wp (next_reset_advisory now) (Steps s) s.
Proof.
  intros Hs. pose proof (steps_refl s Hs) as H. unfold next_reset_advisory. hsteps; try by apply send_request_Steps.
  match goal with Hn : new_request _ _ _ _ ?o = Ok ?o', Ho : object _ = Ok ?o |- _ =>
    pose proof (served_object s o Hs Ho) as [_ Hg]; pose proof (adv_object s o Hs Ho) as Ha;
    pose proof (new_request_good _ _ _ _ _ _ (served_index s Hs) Hg Hn) as Hg';
    pose proof (new_request_adv _ _ _ _ _ _ _ Ha Hn) as Ha' end.
  hcommit; [by eexists|done|no_messages..|]. hsteps. by apply send_request_Steps.
Qed.
Lemma next_advisory_Steps now s : served s -> wp (next_advisory now) (Steps s) s.
Proof.
  intros Hs. pose proof (steps_refl s Hs) as H. unfold next_advisory. hsteps;
    try by apply next_reset_advisory_Steps. all: try by apply send_request_Steps.
  match goal with Hn : new_request _ _ _ _ ?o = Ok ?o', Ho : object _ = Ok ?o, Hm : write_model _ _ _ = Ok _ |- _ =>
    pose proof (served_object s o Hs Ho) as [_ Hg]; pose proof (adv_object s o Hs Ho) as Ha;
    pose proof (new_request_good _ _ _ _ _ _ (served_index s Hs) Hg Hn) as Hg';
    pose proof (new_request_adv _ _ _ _ _ _ _ Ha Hn) as Ha';
    pose proof (write_model_fits _ _ _ _ Hg' Hm) as Hf end.
  hcommit; [eexists; split; [done|by apply good_set]|apply adv_set; [set_solver|done]|no_messages..|].
  hsteps. by apply send_request_Steps.
Qed.

(** *** The gateway's answers *)

Lemma fits_object_object d j o : object j = Ok o -> fits d j -> fits d (JObject o).
Proof. destruct j; try done. by intros [= ->]. Qed.
Lemma cleared_reset_good m st request status o' :
  index_nonneg m -> shape st -> fits 1 request -> fits 1 status ->
  cleared_reset m st request status = Ok o' -> good_object o'.
Proof.
  intros Hi Hst Hr Hs H. unfold cleared_reset in H.
  apply bind_Ok in H as (next & Ho & H). apply bind_Ok in H as (rj & Hrj & H).
  apply bind_Ok in H as (reset & Hreset & H). apply bind_Ok in H as (bj & Hbj & H).
  apply bind_Ok in H as (binding & Hb & H). apply bind_Ok in H as (command & Hcm & H).
  apply bind_Ok in H as (id & Hid & H). cbn zeta in H. apply Ok_inj in H as <-.
  apply control_binding_fits in Hbj; [|done..]. apply (fits_object_object 2) in Hb; [|done].
  destruct Hst as (o & -> & Hg). apply Ok_inj in Ho as ->.
  apply (good_at _ _ _ Hg) in Hrj. apply (fits_object_object 3) in Hreset; [|done].
  rewrite obj_at_jat in Hcm. apply (fits_at 3) in Hcm; [|lia|done].
  apply (fits_at 2) in Hid; [|lia|done]. change (3 - 1) with 2 in *.
  apply good_set; [apply good_set; [done|]|].
  - change (field_limit "demoReset") with 3. fits_tac.
  - change (field_limit "gatewayStates") with 2. apply fits_array; [lia|]. fits_tac.
Qed.
Lemma cleared_reset_adv a m st request status o' :
  adv a st -> cleared_reset m st request status = Ok o' -> adv a (JObject o').
Proof.
  intros Ha H. unfold cleared_reset in H. apply bind_Ok in H as (next & Ho & H).
  do 6 apply bind_Ok in H as (? & _ & H). cbn zeta in H. apply Ok_inj in H as <-.
  destruct st; try done. apply Ok_inj in Ho as ->. do 2 (apply adv_set; [set_solver|]). done.
Qed.
Lemma reset_status_Steps s0 s request status :
  steps s0 s -> served s -> fits 1 request -> fits 1 status ->
  wp (reset_status (metadata s) (state s) request status) (Steps s0) s.
Proof.
  intros H Hs Hr Hst. unfold reset_status, function_advisory, raise_if. hsteps.
  match goal with Hc : cleared_reset _ _ _ _ = Ok ?o' |- _ =>
    pose proof (cleared_reset_good _ _ _ _ _ (served_index s Hs) (served_shape s Hs) Hr Hst Hc);
    pose proof (cleared_reset_adv _ _ _ _ _ _ (adv_refl s Hs) Hc) end.
  hcommit; [by eexists|done|no_messages..|]. hsteps.
Qed.
Lemma request_status_Steps s0 s request status fact :
  steps s0 s -> served s -> good_message (uid_of s) fact ->
  wp (request_status (state s) request status fact) (Steps s0) s.
Proof.
  intros H Hs Hf. unfold request_status, function_advisory. hsteps.
  match goal with Ho : object _ = Ok ?o, Hg : obj_at "gatewayStates" _ = Ok ?g, Ha : array ?g = Ok ?l |- _ =>
    pose proof (served_object s o Hs Ho) as [_ Hgo]; pose proof (adv_object s o Hs Ho) as Had;
    pose proof (good_at _ _ _ Hgo Hg) as Hfg; destruct g; try done; apply Ok_inj in Ha as -> end.
  change (field_limit "gatewayStates") with 2 in *. apply fits_array in Hfg; [|lia].
  hcommit; [eexists; split; [done|apply good_set; [done|]]|by apply adv_set; [set_solver|]|by constructor|done|hsteps].
  change (field_limit "gatewayStates") with 2. apply fits_array; [lia|]. apply Forall_app; split; [done|fits_tac].
Qed.
Lemma gateway_status_Steps bytes now s : served s -> wp (gateway_status bytes now) (Steps s) s.
Proof.
  intros Hs. pose proof (steps_refl s Hs) as H. unfold gateway_status. hsteps.
  all: match goal with
    | Hp : parse_json _ _ = Ok ?st, Hv : validate_gateway_status ?st = Ok ?u,
      Hr : jat "lastRequest" _ = Ok ?r |- _ =>
      pose proof (fits_parse _ _ _ Hp) as [Hw _]; destruct u; pose proof (status_fits _ Hw Hv) as Hst;
      pose proof (shape_at _ _ _ (served_shape s Hs) Hr) as Hrf; change (field_limit "lastRequest") with 1 in Hrf end.
  - by apply reset_status_Steps.
  - apply request_status_Steps; [done..|].
    match goal with Hb : jat "lastRequestMetadata" _ = Ok ?b, Hp : parse_metadata_binding ?b = Ok ?m,
      Hf : advisory_fact ?m _ _ _ = Ok _, Ho : object _ = Ok ?o |- _ =>
      destruct (served_object s o Hs Ho) as [E _]; rewrite E in Hb;
      pose proof (served_valid s Hs) as Hval; rewrite E in Hval;
      rewrite <- (validated_metadata (uid_of s) o b m); [|done..| |done|done];
      [exact (fact_good _ _ _ _ _ (parsed_binding_nonneg _ _ Hp) Hrf Hst Hf)|by apply negb_false_iff] end.
Qed.

(** *** The demo reset *)

Lemma begun_reset_good m command now o o' :
  index_nonneg m -> good_object o -> fits 2 command -> begun_reset m command now o = Ok o' -> good_object o'.
Proof.
  intros Hi Ho Hc H. unfold begun_reset in H. do 2 apply bind_Ok in H as (? & _ & H).
  apply bind_Ok in H as (mj & Hm & H). cbn zeta in H. apply bind_Ok in H as (id & _ & H).
  apply (good_at _ _ _ Ho) in Hm. change (field_limit "model") with 2 in Hm.
  eapply new_request_good; [exact Hi| |exact H].
  do 2 (apply good_set; [|vm_compute; by split]). apply good_set; [done|].
  change (field_limit "demoReset") with 3. fits_tac.
Qed.
Lemma begun_reset_adv a m command now o o' :
  adv a (JObject o) -> begun_reset m command now o = Ok o' -> adv a (JObject o').
Proof.
  intros Ha H. unfold begun_reset in H. do 3 apply bind_Ok in H as (? & _ & H). cbn zeta in H.
  apply bind_Ok in H as (id & _ & H). eapply new_request_adv; [|exact H]. do 3 (apply adv_set; [set_solver|]). done.
Qed.
Lemma demo_control_command_Steps bytes now s : served s -> wp (demo_control_command bytes now) (Steps s) s.
Proof.
  intros Hs. pose proof (steps_refl s Hs) as H. unfold demo_control_command, raise_if. hsteps.
  match goal with Hp : parse_json _ _ = Ok ?r, Hr : jat "command" ?r = Ok ?c, Hc : check_command _ _ ?c = Ok ?u,
    Ht : command_times ?c _ = Ok ?v, Hb : begun_reset _ _ _ ?o = Ok ?o', Ho : object _ = Ok ?o |- _ =>
    destruct u, v; pose proof (fits_parse _ _ _ Hp) as Hf; apply (fits_at maximum_depth) in Hr; [|by vm_compute|exact Hf];
    apply (fits_weaken _ maximum_depth) in Hr; [|by vm_compute];
    pose proof (command_fits _ _ _ _ (served_shape s Hs) (served_index s Hs) Hr Hc Ht) as Hcf;
    pose proof (served_object s o Hs Ho) as [_ Hg]; pose proof (adv_object s o Hs Ho) as Ha;
    pose proof (begun_reset_good _ _ _ _ _ (served_index s Hs) Hg Hcf Hb);
    pose proof (begun_reset_adv _ _ _ _ _ _ Ha Hb) end.
  hcommit; [by eexists|done|no_messages..|]. hsteps.
Qed.
(** Replacing the reset's entry. *)
Lemma reset_replaced s o reset :
  served s -> object (state s) = Ok o -> fits 3 (JObject reset) ->
  shape (JObject (obj_set "demoReset" (JObject reset) o)) /\
  adv (state s) (JObject (obj_set "demoReset" (JObject reset) o)).
Proof.
  intros Hs Ho Hr. destruct (served_object s o Hs Ho) as [_ Hg]. split.
  - eexists; split; [done|]. by apply good_set.
  - apply adv_set; [set_solver|]. by apply adv_object.
Qed.
Lemma reset_entry_fits s o r reset :
  served s -> object (state s) = Ok o -> obj_at "demoReset" o = Ok r -> object r = Ok reset -> fits 3 (JObject reset).
Proof.
  intros Hs Ho Hr Hre. destruct (served_object s o Hs Ho) as [_ Hg]. apply (good_at _ _ _ Hg) in Hr.
  by eapply fits_object_object.
Qed.
Lemma reset_command_fits reset c co :
  fits 3 (JObject reset) -> obj_at "command" reset = Ok c -> object c = Ok co -> fits 2 (JObject co).
Proof.
  intros Hr Hc Hco. rewrite obj_at_jat in Hc. apply (fits_at 3) in Hc; [|lia|done]. by eapply fits_object_object.
Qed.
Ltac reset_tac s Hs :=
  match goal with Ho : object (state s) = Ok ?o, Hr : obj_at "demoReset" ?o = Ok ?r, Hre : object ?r = Ok ?reset |- _ =>
    pose proof (reset_entry_fits s o r reset Hs Ho Hr Hre) as Hrf end.
Lemma demo_control_ack_Steps now s : served s -> wp (demo_control_ack now) (Steps s) s.
Proof.
  intros Hs. pose proof (steps_refl s Hs) as H. unfold demo_control_ack. hsteps. reset_tac s Hs.
  match goal with Hc : obj_at "command" _ = Ok ?c, Hco : object ?c = Ok ?co |- _ =>
    pose proof (refused_fits co "FAILED" (reset_command_fits _ _ _ Hrf Hc Hco)) as Hack end.
  match goal with Ho : object (state s) = Ok ?o |- wp (store_commit (JObject (obj_set _ (JObject ?rs) _)) _ ≫= _) _ _ =>
    destruct (reset_replaced s o rs Hs Ho) as [Hsh Ha]; [fits_tac|] end.
  hcommit; [done|done|no_messages..|]. hsteps.
Qed.
Lemma demo_control_accepted_Steps bytes s : served s -> wp (demo_control_accepted bytes) (Steps s) s.
Proof.
  intros Hs. pose proof (steps_refl s Hs) as H. unfold demo_control_accepted, raise_if. hsteps. reset_tac s Hs.
  match goal with Ho : object (state s) = Ok ?o |- wp (store_commit (JObject (obj_set _ (JObject ?rs) _)) _ ≫= _) _ _ =>
    destruct (reset_replaced s o rs Hs Ho) as [Hsh Ha]; [fits_tac|] end.
  hcommit; [done|done|no_messages..|]. hsteps.
Qed.
Lemma reject_foreign_reset_Steps s : served s -> wp reject_foreign_reset (Steps s) s.
Proof.
  intros Hs. pose proof (steps_refl s Hs) as H. unfold reject_foreign_reset. hsteps.
  match goal with Ho : object (state s) = Ok ?o, Hr : obj_at "demoReset" ?o = Ok ?r, Hre : object ?r = Ok ?reset,
    Hc : obj_at "command" ?reset = Ok ?c, Hco : object ?c = Ok ?co |- _ =>
    pose proof (reset_entry_fits s o r reset Hs Ho Hr Hre) as Hrf;
    pose proof (refused_fits co "REJECTED" (reset_command_fits _ _ _ Hrf Hc Hco)) as Hack;
    destruct (reset_replaced s o (obj_set "ack" (JObject (refused_ack co "REJECTED")) reset) Hs Ho) as [Hsh Ha];
    [fits_tac|] end.
  hcommit; [done|done|no_messages..|]. hsteps.
Qed.

(** *** Assessing an exercise *)

Lemma schedule_request_good m model digest now o o' :
  index_nonneg m -> good_object o -> schedule_request m model digest now o = Ok o' -> good_object o'.
Proof.
  intros Hi Ho H. unfold schedule_request in H. do 4 apply bind_Ok in H as (? & _ & H).
  apply bind_Ok in H as (r & Hr & H). apply bind_Ok in H as (bd & Hb & H). cbn zeta in H.
  apply bind_Ok in H as (mj & Hm & H). apply Ok_inj in H as <-.
  apply request_fits in Hr. apply binding_fits in Hb; [|done].
  match type of Hm with write_model _ _ (JObject ?o1) = _ => assert (Hg : good_object o1) end.
  { repeat (apply good_set; [|try done]); try done. }
  apply write_model_fits in Hm; [|done]. repeat (apply good_set; [|try done]); try done.
Qed.
Lemma schedule_request_adv a m model digest now o o' :
  adv a (JObject o) -> schedule_request m model digest now o = Ok o' -> adv a (JObject o').
Proof.
  intros Ha H. unfold schedule_request in H. apply bind_Ok in H as (sj & Hsj & H). apply bind_Ok in H as (n & Hn & H).
  apply bind_Ok in H as (ej & _ & H). apply bind_Ok in H as (e & _ & H).
  apply bind_Ok in H as (r & Hr & H). apply bind_Ok in H as (bd & Hb & H). cbn zeta in H.
  apply bind_Ok in H as (mj & Hm & H). apply Ok_inj in H as <-. do 2 (apply adv_set; [set_solver|]).
  eapply adv_request; [done|by eapply obj_at_integer|by eapply request_sequence].
Qed.
Lemma assessed_good a m digest episode model result o o' messages message scheduled :
  index_nonneg m -> good_object o -> adv a (JObject o) ->
  assessed_state m digest episode model result o = Ok (o', messages, message, scheduled) ->
  good_object o' /\ adv a (JObject o') /\ Forall (good_message (unit_system_uid m)) messages /\
  (length messages <= 3)%nat.
Proof.
  intros Hi Ho Ha H. unfold assessed_state in H. apply bind_Ok in H as (msg & Hmsg & H).
  apply bind_Ok in H as (id & _ & H). cbn zeta in H. apply bind_Ok in H as (published & _ & H).
  apply bind_Ok in H as (events & Hev & H). apply bind_Ok in H as (mj & Hmj & H).
  apply bind_Ok in H as (o2 & H2 & H). apply Ok_inj in H as [= -> <- <- _].
  set (o1 := if published then _ else o) in *.
  assert (G1 : good_object o1) by (unfold o1; destruct published; [by apply good_set|done]).
  assert (A1 : adv a (JObject o1)) by (unfold o1; destruct published; [by apply adv_set; [set_solver|]|done]).
  apply write_model_fits in Hmj; [|done].
  assert (G2 : good_object (obj_set "model" mj o1)) by (by apply good_set).
  assert (A2 : adv a (JObject (obj_set "model" mj o1))) by (by apply adv_set; [set_solver|]).
  pose proof (assessment_good _ _ _ _ _ Hi Hmsg) as Hg.
  assert (He : Forall (good_message (unit_system_uid m)) events /\ (length events <= 1)%nat).
  { destruct (changed result); [|apply Ok_inj in Hev as <-; split; [constructor|cbn; lia]].
    apply bind_Ok in Hev as (e & Hev & H). apply Ok_inj in H as <-. split; [|cbn; lia]. constructor; [|constructor].
    by eapply event_good; [exact Hg|exact (assessment_fits _ _ _ _ _ Hi Hmsg)|]. }
  destruct He as [He1 He2].
  split_and!.
  - destruct (_ && _) in H2; [by eapply schedule_request_good|by apply Ok_inj in H2 as <-].
  - destruct (_ && _) in H2; [by eapply schedule_request_adv|by apply Ok_inj in H2 as <-].
  - destruct published; [by constructor|constructor].
  - destruct published; cbn; lia.
Qed.
(** The messages an exercise would be committed with. *)
Definition planned (s : Runtime) (features : Features) (episode : Episode) (digest : string) : res (list Json) :=
  next ← object (state s);
  found ← model_for episode next;
  match found with
  | None => Ok []
  | Some model =>
    let '(model, result) := assess model features (Z.of_nat (length (ep_samples episode))) (ep_id episode) in
    match result with
    | None => Ok []
    | Some result =>
      '(_, messages, _, _) ← assessed_state (metadata s) digest episode model result next; Ok messages
    end
  end.
(** Their keys differ: the digests of an assessment's key and its event's do not collide. *)
Definition planned_distinct (s : Runtime) (features : Features) (episode : Episode) (digest : string) : Prop :=
  forall messages, planned s features episode digest = Ok messages -> distinct_keys messages.
Lemma apply_episode_Steps features episode digest s :
  served s -> planned_distinct s features episode digest -> wp (apply_episode features episode digest) (Steps s) s.
Proof.
  intros Hs Hd. pose proof (steps_refl s Hs) as H. unfold apply_episode, raise_if. hsteps.
  all: match goal with Ho : object (state ?s) = Ok ?o, Hm : model_for _ _ = Ok (Some ?m), Ha : assess _ _ _ _ = (_, Some _),
      He : assessed_state _ _ _ _ _ _ = Ok (?l, ?l0, _, _) |- _ =>
      destruct (served_object s o Hs Ho) as [_ Hg]; pose proof (adv_object s o Hs Ho) as Had;
      destruct (assessed_good _ _ _ _ _ _ _ _ _ _ _ (served_index s Hs) Hg Had He) as (G & A & F & L);
      assert (D : distinct_keys l0) by
        (apply Hd; unfold planned; rewrite Ho; cbn [mbind res_mbind]; rewrite Hm; cbn [mbind res_mbind];
         rewrite Ha, He; reflexivity) end.
  all: hcommit; [by eexists|exact A|exact F|exact D|hsteps].
Qed.
