(* ===== verification/ServiceSpec.v ===== *)
(** * The service as a whole

    The runtime's handlers as the steps of one system: a process that is up answers one event at
    a time, may be stopped inside any of them, and is started again on the disk it left.  The
    invariant of every history, and what the handlers for advisories, gateway answers and demo
    resets promise. *)
From Stdlib Require Import ZArith Lia Bool Ascii String Sorted.
From stdpp Require Import gmap strings list relations.
From S2P Require Import Prelude Chars Sha256 Uuid Json JsonFacts Time Protocol Identity Model Messages Fits StateCheck Store StoreFacts OutboxFacts StoreSpec Observation Service ServiceFacts.
Local Open Scope Z_scope.

(** ** A runtime without a store *)

Definition idle (s0 s : Runtime) : Prop :=
  store_ok s = false /\ disk s = disk s0 /\ uid_of s = uid_of s0.
Definition Idle {A} (s0 : Runtime) : Runtime -> outcome A -> Prop := fun s r =>
  match r with Stopped => False | _ => idle s0 s end.

(** ** Events *)

Inductive Event :=
  | IngestFrame (uuid : res string) (frame : Frame) (received_mono : Z)
  | ApplyEpisode (features : Features) (episode : Episode) (digest : string)
  | ExpireInput (observed_mono : Z)
  | Disconnect
  | StopInput
  | Reauthenticate
  | UpdateVdpMetadata (m : Metadata)
  | FunctionStatus (why : string) (now : Z) (missing : list string)
  | NextMessage
  | Accept (p : Pending) (response : HttpResponse)
  | NextAdvisory (now : Z)
  | GatewayStatus (bytes : string) (now : Z)
  | DemoControlPoll
  | DemoControlCommand (bytes : string) (now : Z)
  | DemoControlAck (now : Z)
  | DemoControlAccepted (bytes : string)
  | AdvisoryReadiness (now : Z)
  | ObservationBinding
  | FunctionObservation
  | InputObservation (connection st why : string)
  | AdvisoryObservation (st : string).
Definition discard {A} (m : RT A) : RT unit := _ ← m; mret tt.
Definition handle (e : Event) : RT unit :=
  match e with
  | IngestFrame u f t => discard (ingest_frame_at u f t)
  | ApplyEpisode f ep d => discard (apply_episode f ep d)
  | ExpireInput t => discard (expire_input t)
  | Disconnect => disconnect
  | StopInput => stop
  | Reauthenticate => reauthenticate
  | UpdateVdpMetadata m => update_vdp_metadata m
  | FunctionStatus why now missing => function_status why now missing
  | NextMessage => discard next_message
  | Accept p r => discard (accept p r)
  | NextAdvisory now => discard (next_advisory now)
  | GatewayStatus b now => gateway_status b now
  | DemoControlPoll => discard demo_control_poll
  | DemoControlCommand b now => demo_control_command b now
  | DemoControlAck now => discard (demo_control_ack now)
  | DemoControlAccepted b => demo_control_accepted b
  | AdvisoryReadiness now => discard (advisory_readiness now)
  | ObservationBinding => discard observation_binding
  | FunctionObservation => discard function_observation
  | InputObservation c st why => input_observation c st why
  | AdvisoryObservation st => advisory_observation st
  end.
(** What the callers see to: a message is delivered after [next_message] offered it, so it is not
    blocked; identities come from parsed metadata, so their index is not negative; and the keys of
    the two messages of an assessment do not collide. *)
Definition enabled (s : Runtime) (e : Event) : Prop :=
  match e with
  | ApplyEpisode f ep d => planned_distinct s f ep d
  | Accept p _ => ~ blocked_in (outbox (disk s)) (pending_key p)
  | UpdateVdpMetadata m => index_nonneg m
  | _ => True
  end.
Lemma wp_discard {A} (m : RT A) (Q : Runtime -> outcome unit -> Prop) s :
  wp m (fun s' r => Q s' (match r with Done _ => Done tt | Thrown e => Thrown e | Stopped => Stopped end)) s ->
  wp (discard m) Q s.
Proof. unfold discard. intros H. apply wp_bind. eapply wp_conseq; [exact H|]. by intros s' [a|e|]. Qed.
Lemma wp_discard_Steps {A} (m : RT A) s0 s : wp m (Steps s0) s -> wp (discard m) (Steps s0) s.
Proof. intros H. apply wp_discard. eapply wp_conseq; [exact H|]. by intros s' [a|e|]. Qed.
Lemma wp_discard_Idle {A} (m : RT A) s0 s : wp m (Idle s0) s -> wp (discard m) (Idle s0) s.
Proof. intros H. apply wp_discard. eapply wp_conseq; [exact H|]. by intros s' [a|e|]. Qed.
Lemma observation_binding_Steps s : served s -> wp observation_binding (Steps s) s.
Proof. intros Hs. pose proof (steps_refl s Hs) as H. unfold observation_binding. hsteps. Qed.
Lemma function_observation_Steps s : served s -> wp function_observation (Steps s) s.
Proof. intros Hs. pose proof (steps_refl s Hs) as H. unfold function_observation. hsteps. Qed.
Lemma handle_Steps e s : served s -> enabled s e -> wp (handle e) (Steps s) s.
Proof.
  intros Hs He. destruct e; cbn [handle enabled] in *; try apply wp_discard_Steps.
  - by apply ingest_Steps.
  - by apply apply_episode_Steps.
  - by apply expire_Steps.
  - by apply disconnect_Steps.
  - by apply stop_Steps.
  - by apply reauthenticate_Steps.
  - by apply update_Steps.
  - by apply function_status_Steps.
  - by apply next_message_Steps.
  - by apply accept_Steps.
  - by apply next_advisory_Steps.
  - by apply gateway_status_Steps.
  - by apply poll_Steps.
  - by apply demo_control_command_Steps.
  - by apply demo_control_ack_Steps.
  - by apply demo_control_accepted_Steps.
  - by apply readiness_Steps.
  - by apply observation_binding_Steps.
  - by apply function_observation_Steps.
  - by apply input_observation_Steps.
  - by apply advisory_observation_Steps.
Qed.
Lemma handle_Idle e s : store_ok s = false -> wp (handle e) (Idle s) s.
Proof.
  intros Hoff. assert (H : idle s s) by done. destruct e; cbn [handle]; try apply wp_discard_Idle.
  all: unfold ingest_frame_at, apply_episode, expire_input, disconnect, stop, reauthenticate, function_status,
    next_message, accept, next_advisory, gateway_status, demo_control_poll, demo_control_command, demo_control_ack,
    demo_control_accepted, advisory_readiness, observation_binding, function_observation, input_observation,
    advisory_observation, function_advisory, abort_engine, raise_if.
  7: { unfold update_vdp_metadata, abort_engine. hsteps. unfold same_identity in *. b2p.
       split_and!; [done|done|]. by apply String.eqb_eq. }
  all: try (rewrite Hoff; cbn [negb]).
  all: hstep; rewrite ?Hoff; cbn [negb]; hsteps; discriminate.
Qed.

(** ** Starting on what a process left *)

(** A running process: with a store, in a state later than [st]; or without one, on a store that
    was stopped in the window of a temporary file. *)
Definition running (uid : string) (st : Json) (s : Runtime) : Prop :=
  uid_of s = uid /\
  ((served s /\ adv st (state s)) \/ (store_ok s = false /\ halted uid st (disk s))).
Lemma served_halted uid st s : uid_of s = uid -> served s -> adv st (state s) -> halted uid st (disk s).
Proof.
  intros <- (_ & Hr & Hsh & _) Ha. exists (state s), (outbox (disk s)). split_and!; [done|done|by left].
Qed.
Lemma running_halted uid st s : running uid st s -> halted uid st (disk s).
Proof. intros [Hu [[Hs Ha]|[_ H]]]; [by eapply served_halted|done]. Qed.
Lemma halted_adv uid a b d : adv a b -> halted uid b d -> halted uid a d.
Proof.
  intros Ha (st & o & Hb & Hsh & H). exists st, o. split_and!; [by eapply adv_trans|done|done].
Qed.
Lemma halted_restart uid st n t d : halted uid st d -> halted uid st (restart n t d).
Proof. intros H. exact H. Qed.
Lemma open_opened m epoch st o d :
  index_nonneg m -> shape st ->
  at_rest (unit_system_uid m) st o d \/ unfinished (unit_system_uid m) st o d ->
  match open_store (unit_system_uid m) epoch d with
  | (d', Done _) => served (initial_runtime m d') /\ memory d' = st
  | (d', Thrown _) => False
  | (d', Stopped) => at_rest (unit_system_uid m) st o d' \/ unfinished (unit_system_uid m) st o d'
  end.
Proof.
  intros Hi Hsh H.
  assert (Hserved : forall d', at_rest (unit_system_uid m) st o d' -> memory d' = st -> served (initial_runtime m d')).
  { intros d' Hr Hm. unfold served, state, uid_of. cbn [initial_runtime disk metadata store_ok]. rewrite Hm.
    pose proof Hr as (_ & Ho & _). rewrite Ho. by split_and!. }
  destruct H as [H|H].
  - rewrite (open_at_rest _ epoch st o d H). split; [by apply Hserved|done].
  - pose proof (open_unfinished _ epoch st o d H) as Ho.
    destruct (open_store (unit_system_uid m) epoch d) as [d' [[]|e|]]; [|done|tauto].
    destruct Ho as [Ho Hm]. split; [by apply Hserved|done].
Qed.
Lemma open_refused uid epoch st o d :
  torn_journal uid st o d \/ (exists k, is_sha256 k = true /\ torn_block uid st o k d) ->
  exists d' e, open_store uid epoch d = (d', Thrown e) /\ root d' = root d /\ outbox d' = outbox d.
Proof.
  intros [H|(k & Hk & H)].
  - exists d, not_ready. by rewrite (open_torn uid epoch st o d H).
  - destruct (open_torn_block uid epoch st o k d Hk H) as [e E]. by exists (set_memory st d), e.
Qed.
Lemma start_running m epoch st d :
  index_nonneg m -> halted (unit_system_uid m) st d ->
  let '(s', r) := start m epoch d in
  match r with
  | Stopped => halted (unit_system_uid m) st (disk s')
  | _ => running (unit_system_uid m) st s'
  end.
Proof.
  intros Hi (st' & o & Ha & Hsh & H). unfold start.
  assert (H' : (at_rest (unit_system_uid m) st' o d \/ unfinished (unit_system_uid m) st' o d) \/
    (torn_journal (unit_system_uid m) st' o d \/ exists k, is_sha256 k = true /\ torn_block (unit_system_uid m) st' o k d))
    by tauto.
  clear H. destruct H' as [H|H].
  - pose proof (open_opened m epoch st' o d Hi Hsh H) as Ho.
    destruct (open_store (unit_system_uid m) epoch d) as [d' [x|e|]]; [|done|].
    + destruct Ho as [Hs Hm]. subst st'.
      set (s0 := initial_runtime m d') in *. change (memory d') with (state s0) in *.
      set (rest := pending ← eval (reset_pending (state s0)); if (pending : bool) then reject_foreign_reset else mret tt).
      assert (W : wp rest (Steps s0) s0).
      { pose proof (steps_refl s0 Hs) as H0. unfold rest. hstep. destruct a; [by apply reject_foreign_reset_Steps|exact H0]. }
      unfold wp in W. destruct (rest s0) as [s' [u|e|]].
      * destruct W as (Hu & Hs' & Ha'). split; [done|left; split; [done|by eapply adv_trans]].
      * destruct W as (Hu & Hs' & Ha'). split; [done|left; split; [done|by eapply adv_trans]].
      * by eapply halted_adv.
    + exists st', o. split_and!; [done|done|tauto].
  - destruct (open_refused _ epoch _ _ _ H) as (d' & e & -> & E1 & E2). split; [done|]. right. split; [done|].
    exists st', o. split_and!; [done|done|]. cbn [disk]. right. right.
    destruct H as [(c & r & t & H)|(k & Hk & H)]; [left; exists c, r, t; by rewrite E1, E2|].
    right. exists k. split; [done|]. destruct H as [Hc Ht]. split; [by rewrite E1|by rewrite E2].
Qed.

(** ** Histories *)

Inductive System := Up (s : Runtime) | Down (d : machine).
(** One step of the system: a handler that returns or throws, one that is stopped, the process
    ending between two events, or a start on the disk, with any number of steps to its own stop. *)
Inductive step (uid : string) : System -> System -> Prop :=
  | step_event e s s' r :
      enabled s e -> handle e s = (s', r) -> r <> Stopped -> step uid (Up s) (Up s')
  | step_stopped e s s' :
      enabled s e -> handle e s = (s', Stopped) -> step uid (Up s) (Down (disk s'))
  | step_exit s : step uid (Up s) (Down (disk s))
  | step_start m epoch n t d s' :
      unit_system_uid m = uid -> index_nonneg m ->
      start m epoch (restart n t d) = (s', Done tt) -> step uid (Down d) (Up s')
  | step_start_stopped m epoch n t d s' r :
      unit_system_uid m = uid -> index_nonneg m ->
      start m epoch (restart n t d) = (s', r) -> r <> Done tt -> step uid (Down d) (Down (disk s')).
Definition sound (uid : string) (st : Json) (sys : System) : Prop :=
  match sys with Up s => running uid st s | Down d => halted uid st d end.
Lemma step_sound uid st sys sys' : step uid sys sys' -> sound uid st sys -> sound uid st sys'.
Proof.
  intros [e s s' r He Hh Hr|e s s' He Hh|s|m epoch n t d s' <- Hi Hh|m epoch n t d s' r <- Hi Hh Hr] H; cbn [sound] in *.
  - destruct H as [Hu [[Hs Ha]|[Hoff Ha]]].
    + pose proof (handle_Steps e s Hs He) as W. unfold wp in W. rewrite Hh in W.
      assert (W' : steps s s') by (by destruct r). destruct W' as (Hu' & Hs' & Ha').
      split; [congruence|left; split; [done|by eapply adv_trans]].
    + pose proof (handle_Idle e s Hoff) as W. unfold wp in W. rewrite Hh in W.
      assert (W' : idle s s') by (by destruct r). destruct W' as (H1 & H2 & H3).
      split; [congruence|right]. by rewrite H2.
  - destruct H as [Hu [[Hs Ha]|[Hoff Ha]]].
    + pose proof (handle_Steps e s Hs He) as W. unfold wp in W. rewrite Hh in W. cbn [Steps] in W.
      rewrite Hu in W. by eapply halted_adv.
    + pose proof (handle_Idle e s Hoff) as W. unfold wp in W. by rewrite Hh in W.
  - by eapply running_halted.
  - pose proof (start_running m epoch st _ Hi (halted_restart _ _ n t d H)) as W. by rewrite Hh in W.
  - pose proof (start_running m epoch st _ Hi (halted_restart _ _ n t d H)) as W. rewrite Hh in W.
    destruct r; [by eapply running_halted|by eapply running_halted|done].
Qed.

Lemma service_history_sound uid s0 sys :
  uid_of s0 = uid -> served s0 -> rtc (step uid) (Up s0) sys -> sound uid (state s0) sys.
Proof.
  intros Hu Hs H.
  assert (H0 : sound uid (state s0) (Up s0)) by (split; [done|left; split; [done|by apply adv_refl]]).
  clear Hu Hs. induction H as [|a b c Hab _ IH]; [done|]. apply IH. by eapply step_sound.
Qed.

(** C1: the invariant of every history.  From a process that serves a valid store, whatever events
    arrive, wherever the process is stopped or killed and however often it is started again: the
    running process serves a store at rest whose state passes the check of the durable state, or,
    after a stop in the window of a temporary file, refuses it and leaves it alone; the producer
    epoch never changes, the advisory sequence never goes back, and a durable request that is not
    the first one has a sequence the first state had not used. *)
Theorem service_history uid s0 sys :
  uid_of s0 = uid -> served s0 -> rtc (step uid) (Up s0) sys ->
  match sys with
  | Up s => uid_of s = uid /\
      ((store_ok s = true /\ at_rest uid (state s) (outbox (disk s)) (disk s) /\
        validate_state uid (state s) = Ok tt /\ adv (state s0) (state s)) \/
       (store_ok s = false /\ halted uid (state s0) (disk s)))
  | Down d => halted uid (state s0) d
  end.
Proof.
  intros Hu Hs H. pose proof (service_history_sound uid s0 sys Hu Hs H) as Hsound.
  destruct sys as [s|d]; [|done]. destruct Hsound as [<- [[Hs' Ha]|Ho]]; (split; [done|]); [left|by right].
  pose proof (served_valid s Hs') as Hv. destruct Hs' as (H1 & H2 & _). by split_and!.
Qed.

(** ** Advisories *)

(** What is sent is the durable request. *)
Definition Durable : Runtime -> outcome (option string) -> Prop := fun s r =>
  match r with
  | Done (Some text) => served s /\ exists q, jat "lastRequest" (state s) = Ok q /\ canonical q = Ok text
  | _ => True
  end.
Lemma send_request_Durable o s :
  served s -> obj_at "lastRequest" o = jat "lastRequest" (state s) -> wp (send_request o) Durable s.
Proof.
  intros Hs Ho. unfold send_request, function_advisory. do 4 hstep.
  match goal with Hr : obj_at _ _ = Ok ?q, Hc : canonical ?q = Ok _ |- _ =>
    split; [exact Hs|exists q; split; [rewrite <- Hr, Ho; reflexivity|exact Hc]] end.
Qed.
Lemma committed_request s d o :
  state (set_disk d s) = JObject o -> obj_at "lastRequest" o = jat "lastRequest" (state (set_disk d s)).
Proof. by intros ->. Qed.
Lemma next_reset_advisory_Durable now s : served s -> wp (next_reset_advisory now) Durable s.
Proof.
  intros Hs. pose proof (steps_refl s Hs) as H. unfold next_reset_advisory. hsteps.
  - match goal with Hn : new_request _ _ _ _ ?o = Ok ?o', Ho : object _ = Ok ?o |- _ =>
      pose proof (served_object s o Hs Ho) as [_ Hg]; pose proof (adv_object s o Hs Ho) as Ha;
      pose proof (new_request_good _ _ _ _ _ _ (served_index s Hs) Hg Hn) as Hg';
      pose proof (new_request_adv _ _ _ _ _ _ _ Ha Hn) as Ha' end.
    hcommit; [by eexists|done|no_messages..|]. match goal with X : steps s _ |- _ => destruct X as (_ & Hs' & _) end.
    hstep. hstep. apply send_request_Durable; [exact Hs'|by eapply committed_request].
  - match goal with Ho : object _ = Ok ?o |- _ => destruct (served_object s o Hs Ho) as [E _] end.
    apply send_request_Durable; [exact Hs|]. rewrite obj_at_jat, <- E. reflexivity.
Qed.

Lemma next_advisory_Durable now s : served s -> wp (next_advisory now) Durable s.
Proof.
  intros Hs. pose proof (steps_refl s Hs) as H.
  unfold next_advisory. hsteps; try by apply next_reset_advisory_Durable.
  all: match goal with Ho : object _ = Ok ?o |- _ => destruct (served_object _ o Hs Ho) as [E Hg] end.
  - apply send_request_Durable; [exact Hs|]. rewrite obj_at_jat, <- E. reflexivity.
  - match goal with Hn : new_request _ _ _ _ ?o = Ok ?o', Ho : object _ = Ok ?o, Hm : write_model _ _ _ = Ok _ |- _ =>
      pose proof (adv_object s o Hs Ho) as Ha;
      pose proof (new_request_good _ _ _ _ _ _ (served_index s Hs) Hg Hn) as Hg';
      pose proof (new_request_adv _ _ _ _ _ _ _ Ha Hn) as Ha';
      pose proof (write_model_fits _ _ _ _ Hg' Hm) as Hf end.
    hcommit; [eexists; split; [done|by apply good_set]|apply adv_set; [set_solver|done]|no_messages..|].
    match goal with X : steps s _ |- _ => destruct X as (_ & Hs' & _) end.
    hstep. apply send_request_Durable; [exact Hs'|by eapply committed_request].
Qed.

(** Durable before sent.  Whatever [next_advisory] hands to the gateway is the canonical text of
    the request that the store at rest holds; a stop between the commit and the sending loses the
    request's transmission, never its sequence. *)
Theorem next_advisory_durable now s :
  served s ->
  match next_advisory now s with
  | (s', Done (Some text)) => served s' /\ exists q, jat "lastRequest" (state s') = Ok q /\ canonical q = Ok text
  | _ => True
  end.
Proof.
  intros Hs. pose proof (next_advisory_Durable now s Hs) as W.
  unfold wp in W. destruct (next_advisory now s) as [s' [[text|]|e|]]; done.
Qed.

(** ** Witnesses: a service on the opened store, and a reset it was asked for *)

Definition sample_runtime : Runtime := initial_runtime sample_metadata opened_machine.
Definition sample_now : Z := 1767225600000.
Definition time_text (t : Z) : string := catch_all (utc_timestamp t) ""%string.
Definition sample_command : Json :=
  JObject (obj_set "operation" (JString "RESET_DEMO_SCENARIO") (obj_set "commandId" (JString sample_source)
    (obj_set "issuedAt" (JString (time_text sample_now)) (obj_set "expiresAt" (JString (time_text (sample_now + 50000)))
      (catch_all (b ← control_binding sample_metadata sample_initial; object b) []))))).
Definition sample_response : string :=
  catch_all (canonical (JObject (obj_of [("schemaVersion", JInt 1); ("command", sample_command)]%string))) ""%string.
Definition sample_reset : Runtime := (demo_control_command sample_response sample_now sample_runtime).1.
Lemma initial_shape uid epoch : shape (initial uid epoch).
Proof.
  eexists. split; [reflexivity|]. split; [apply obj_of_sorted|]. apply of_Forall.
  repeat (constructor; [cbn [fst snd]; first [apply fits_int; by vm_compute|apply fits_string; by vm_compute
    |apply fits_null; by vm_compute|apply fits_array; [by vm_compute|constructor]]|]). constructor.
Qed.
Lemma sample_index : index_nonneg sample_metadata.
Proof. vm_compute. discriminate. Qed.
Lemma sample_served : served sample_runtime.
Proof.
  split; [reflexivity|]. split; [|split; [|exact sample_index]].
  - assert (E1 : state sample_runtime = sample_initial) by (vm_compute; reflexivity).
    assert (E2 : outbox (disk sample_runtime) = ∅) by (vm_compute; reflexivity).
    rewrite E1, E2. exact opened_at_rest.
  - assert (E1 : state sample_runtime = sample_initial) by (vm_compute; reflexivity). rewrite E1. apply initial_shape.
Qed.
Lemma sample_reset_run : demo_control_command sample_response sample_now sample_runtime = (sample_reset, Done tt).
Proof.
  unfold sample_reset. destruct (demo_control_command _ _ _) as [s' r] eqn:E. f_equal.
  change r with (s', r).2. rewrite <- E. vm_compute. reflexivity.
Qed.
Lemma sample_reset_served : served sample_reset.
Proof.
  pose proof (demo_control_command_Steps sample_response sample_now sample_runtime sample_served) as W.
  unfold wp in W. rewrite sample_reset_run in W. by destruct W as (_ & H & _).
Qed.
Definition sample_restarted : Runtime :=
  (start sample_metadata sample_source (restart 100 "" (disk sample_reset))).1.
Lemma sample_restart_run :
  start sample_metadata sample_source (restart 100 "" (disk sample_reset)) = (sample_restarted, Done tt).
Proof.
  unfold sample_restarted. destruct (start _ _ _) as [s' r] eqn:E. f_equal.
  change r with (s', r).2. rewrite <- E. vm_compute. reflexivity.
Qed.
Lemma sample_history : rtc (step sample_uid) (Up sample_runtime) (Up sample_restarted).
Proof.
  eapply rtc_l; [|eapply rtc_l; [|apply rtc_once]].
  - eapply (step_event sample_uid (DemoControlCommand sample_response sample_now));
      [exact I|exact sample_reset_run|discriminate].
  - apply step_exit.
  - eapply step_start; [|exact sample_index|exact sample_restart_run]. reflexivity.
Qed.
Lemma service_history_witness :
  uid_of sample_restarted = sample_uid /\
  ((store_ok sample_restarted = true /\
    at_rest sample_uid (state sample_restarted) (outbox (disk sample_restarted)) (disk sample_restarted) /\
    validate_state sample_uid (state sample_restarted) = Ok tt /\ adv (state sample_runtime) (state sample_restarted)) \/
   (store_ok sample_restarted = false /\ halted sample_uid (state sample_runtime) (disk sample_restarted))).
Proof.
  exact (service_history sample_uid sample_runtime (Up sample_restarted) eq_refl sample_served sample_history).
Defined.
(** The restarted service sends the clearing request that was durable before the exit. *)
Definition sent_text (r : outcome (option string)) : string :=
  match r with Done (Some t) => t | _ => EmptyString end.
Definition sample_sent : string := sent_text (next_advisory (sample_now + 1000) sample_restarted).2.
Lemma sample_restarted_served : served sample_restarted.
Proof.
  pose proof (service_history_sound sample_uid sample_runtime (Up sample_restarted) eq_refl sample_served sample_history) as H.
  destruct H as [_ [[H _]|[H _]]]; [exact H|]. exfalso. assert (X : store_ok sample_restarted = true) by (vm_compute; reflexivity).
  rewrite X in H. exact (Bool.diff_true_false H).
Qed.
Lemma next_advisory_durable_witness :
  sample_sent <> ""%string /\ exists s' q, served s' /\ jat "lastRequest" (state s') = Ok q /\ canonical q = Ok sample_sent.
Proof.
  split; [vm_compute; discriminate|].
  pose proof (next_advisory_durable (sample_now + 1000) sample_restarted sample_restarted_served) as H.
  unfold sample_sent. destruct (next_advisory (sample_now + 1000) sample_restarted) as [s' r] eqn:E.
  assert (X : match r with Done (Some _) => True | _ => False end).
  { change r with (s', r).2. rewrite <- E. vm_compute. exact I. }
  cbn [snd sent_text]. destruct r as [[t|]|e|]; [|destruct X..]. cbn [sent_text]. destruct H as (H1 & q & H2 & H3). exists s', q.
  split; [exact H1|split; [exact H2|exact H3]].
Defined.
