(* ===== verification/ResetSpec.v ===== *)
(** * Gateway answers and the demo reset

    The comparison by canonical text is equality of values; a gateway status that does not answer
    the durable request changes nothing; a reset command takes effect once, with the clearing
    request durable in the same commit; while it is pending no exercise is recorded or assessed;
    and what a reset remembers of the exercises consumed before it. *)
From Stdlib Require Import ZArith Lia Bool Ascii String Sorted.
From stdpp Require Import gmap strings list.
From S2P Require Import Prelude Chars Sha256 Uuid Json JsonFacts Time Protocol Identity Model Messages Fits StateCheck Store StoreFacts OutboxFacts StoreSpec Observation Service ServiceFacts ServiceSpec.
Local Open Scope Z_scope.

(** ** Comparing by canonical text *)

(** The field is there with the same value in both, a value that has a canonical text. *)
Definition same_field (a b : Json) (k : string) : Prop :=
  exists v, jat k a = Ok v /\ jat k b = Ok v /\ is_ok (canonical v) = true.
(** C0: [differs], which compares canonical texts field by field, decides equality of the values. *)
Theorem differs_decides_equality fields a b :
  fits maximum_depth a -> fits maximum_depth b ->
  differs fields a b = Ok false <-> Forall (same_field a b) fields.
Proof.
  intros Ha Hb. induction fields as [|k fields IH]; cbn [differs]; [by split|]. split.
  - intros H. apply bind_Ok in H as (x & Hx & H). apply bind_Ok in H as (xc & Hxc & H).
    apply bind_Ok in H as (y & Hy & H). apply bind_Ok in H as (yc & Hyc & H).
    destruct (String.eqb xc yc) eqn:E; [|done]. apply String.eqb_eq in E as ->. constructor; [|by apply IH].
    apply (fits_at maximum_depth) in Hx as Fx; [|by vm_compute|done].
    apply (fits_at maximum_depth) in Hy as Fy; [|by vm_compute|done].
    assert (x = y) as <-; [|exists x; by rewrite Hxc].
    destruct Fx as [W1 D1], Fy as [W2 D2]. eapply canonical_inj; [exact W1|exact W2|lia|lia|exact Hxc|exact Hyc].
  - intros [(v & Hx & Hy & Hc) HF]%Forall_cons. rewrite Hx, Hy. cbn [mbind res_mbind].
    apply is_ok_iff in Hc as [c Hc]. rewrite Hc. cbn [mbind res_mbind]. rewrite String.eqb_refl. by apply IH.
Qed.
Lemma differs_decides_equality_witness :
  let a := JObject [("requestId"%string, JString "a"); ("sequence"%string, JInt 1)] in
  differs ["requestId"; "sequence"]%string a a = Ok false <-> Forall (same_field a a) ["requestId"; "sequence"]%string.
Proof.
  apply differs_decides_equality;
    (apply (fits_weaken 1); [apply fits_object; [lia|split; [repeat constructor|fits_tac]]|by vm_compute]).
Defined.

(** ** Gateway answers *)

Lemma wp_any {A} (m : RT A) (Q : Runtime -> outcome A -> Prop) s : (forall s' r, Q s' r) -> wp m Q s.
Proof. intros H. unfold wp. destruct (m s) as [s' r]. apply H. Qed.
(** The text is a valid gateway status that names the durable request. *)
Definition answers (s : Runtime) (bytes : string) : Prop :=
  store_ok s = true /\ exists request status,
    jat "lastRequest" (state s) = Ok request /\ parse_json bytes 4096 = Ok status /\
    validate_gateway_status status = Ok tt /\ differs correlation_fields request status = Ok false.
(** C19: a status that is malformed, retained or superseded, or that comes when there is no request,
    changes nothing at all: only a valid status that names the durable request's identifier,
    epoch and sequence can. *)
Theorem gateway_status_guarded bytes now s :
  (gateway_status bytes now s).1 = s \/ answers s bytes.
Proof.
  assert (H : s = s \/ answers s bytes) by (by left).
  enough (W : wp (gateway_status bytes now) (fun s' _ => s' = s \/ answers s bytes) s).
  { unfold wp in W. by destruct (gateway_status bytes now s). }
  unfold gateway_status. hsteps.
  all: match goal with Hs : negb (store_ok _) = false, Hr : jat "lastRequest" _ = Ok ?r, Hp : parse_json _ _ = Ok ?st,
      Hv : validate_gateway_status ?st = Ok ?u, Hd : differs _ ?r ?st = Ok false |- _ =>
      destruct u; apply negb_false_iff in Hs; apply wp_any; intros ? ?; right; split; [exact Hs|by exists r, st] end.
Qed.

(** ** While a reset is pending *)

(** While a reset is pending no input reaches the engine and no exercise is assessed: a frame is
    reported and dropped, an exercise is refused, and neither touches the model, the store or the
    exercise in progress. *)
Theorem pending_reset_blocks uuid f mono features episode digest s :
  store_ok s = true -> reset_pending (state s) = Ok true ->
  (let '(s', r) := ingest_frame_at uuid f mono s in
   engine s' = engine s /\ disk s' = disk s /\ forall ep, r <> Done (Some ep)) /\
  apply_episode features episode digest s = (s, Done false).
Proof.
  intros Hok Hp. split.
  - set (Q := fun (s' : Runtime) (r : outcome (option Episode)) =>
      engine s' = engine s /\ disk s' = disk s /\ forall ep, r <> Done (Some ep)).
    enough (W : wp (ingest_frame_at uuid f mono) Q s).
    { unfold wp in W. by destruct (ingest_frame_at uuid f mono s). }
    assert (H1 : forall e, Q s (Thrown e)) by done. assert (H2 : Q s (Done None)) by done.
    unfold ingest_frame_at. apply wp_function_bind; [exact H1|intros j _]. hstep. hstep.
    cbn [store_ok set_input_mono set_facts]. rewrite Hok. cbn [negb].
    change (state (set_input_mono mono (set_facts j s))) with (state s). rewrite Hp.
    apply wp_function_bind; [exact H1|intros j' _]. exact H2.
  - unfold apply_episode, mbind, RT_mbind, self, eval. rewrite Hok, Hp. reflexivity.
Qed.

(** ** What a reset remembers *)

Lemma begun_reset_memory m command now o o' :
  begun_reset m command now o = Ok o' ->
  exists model r n id, obj_find "model" o = Some model /\ at_string "commandId" command = Ok id /\
    obj_find "model" o' = Some JNull /\
    obj_find "demoReset" o' = Some (JObject (obj_of
      [("command", command); ("previousModel", model); ("ack", JNull); ("delivered", JBool false)]%string)) /\
    obj_find "lastRequest" o' = Some r /\ at_integer "nextAdvisorySequence" (JObject o) = Ok n /\
    (exists e, at_string "producerEpoch" (JObject o) = Ok e /\ advisory_request m e n id Good now = Ok r) /\
    at_integer "nextAdvisorySequence" (JObject o') = Ok (n + 1).
Proof.
  unfold begun_reset. intros H. apply bind_Ok in H as (sj & Hsj & H). apply bind_Ok in H as (n & Hn & H).
  apply bind_Ok in H as (model & Hm & H). cbn zeta in H. apply bind_Ok in H as (id & Hid & H).
  unfold new_request in H. apply bind_Ok in H as (sj' & Hsj' & H). apply bind_Ok in H as (n' & Hn' & H).
  apply bind_Ok in H as (ej & Hej & H). apply bind_Ok in H as (e & He & H). apply bind_Ok in H as (r & Hr & H).
  apply bind_Ok in H as (b & _ & H). apply Ok_inj in H as <-.
  unfold obj_at in Hsj, Hsj', Hej. apply of_option_Ok in Hsj, Hsj', Hej, Hm.
  rewrite !find_set_ne in Hsj', Hej by done. rewrite Hsj in Hsj'. injection Hsj' as <-.
  assert (n' = n) as -> by congruence.
  exists model, r, n, id. split_and!; try done; try by rewrite ?find_set_ne, find_set_eq by done.
  - unfold at_integer. by rewrite jat_object, Hsj.
  - exists e. split; [|done]. unfold at_string. by rewrite jat_object, Hej.
  - unfold at_integer. by rewrite jat_object, find_set_ne, find_set_eq by done.
Qed.
(** C21: a reset keeps the exercises its model had consumed, and an exercise among them is refused as
    long as it is remembered; but a reset that comes when there is no model yet, such as a second
    reset in a row, forgets them: every exercise is then new, those consumed before the first reset
    included. *)
Theorem reset_memory m command now o o' model :
  begun_reset m command now o = Ok o' -> obj_find "model" o = Some model ->
  (forall ids episode, jat "recentSourceExerciseIds" model = Ok (JArray (map JString ids)) ->
     ep_id episode ∈ ids -> model_for episode o' = Ok None) /\
  (model = JNull -> forall episode, model_for episode o' = Ok (Some initial_model)).
Proof.
  intros H Hm. apply begun_reset_memory in H as (model' & r & n & id & Hm' & _ & Hn & Hd & _).
  assert (model' = model) as -> by congruence.
  assert (Hc : consumed_before_reset o' = if is_null model then Ok None
    else r ← jat "recentSourceExerciseIds" model; l ← array r; Ok (Some l)).
  { unfold consumed_before_reset, obj_count, obj_at. rewrite Hd. reflexivity. }
  assert (Hat : obj_at "model" o' = Ok JNull) by (unfold obj_at; by rewrite Hn). split.
  - intros ids episode Hr Hin. unfold model_for. rewrite Hat. cbn [mbind res_mbind read_model is_null]. rewrite Hc.
    destruct (is_null model) eqn:En; [by destruct model|]. rewrite Hr. cbn [mbind res_mbind array].
    assert (any_string (ep_id episode) (map JString ids) = Ok true) as ->; [|done].
    clear -Hin. induction ids as [|i ids IH]; [set_solver|]. cbn [map any_string jstring mbind res_mbind].
    destruct (String.eqb i (ep_id episode)) eqn:E; [done|]. apply IH. apply String.eqb_neq in E. set_solver.
  - intros -> episode. unfold model_for. rewrite Hat. cbn [mbind res_mbind read_model is_null]. rewrite Hc. done.
Qed.

(** ** A reset command takes effect once *)

(** The response carries the command. *)
Definition carries (bytes : string) (command : Json) : Prop :=
  exists response o, parse_json bytes 4096 = Ok response /\ object response = Ok o /\ obj_size o = 2 /\
    at_integer "schemaVersion" response = Ok 1 /\ jat "command" response = Ok command /\ is_null command = false.
(** A command was accepted and the reset begun, all in one commit. *)
Definition reset_begun (s s' : Runtime) (command : Json) (now : Z) : Prop :=
  check_command (metadata s) (state s) command = Ok tt /\ command_times command now = Ok tt /\
  reset_pending (state s) = Ok false /\ metadata s' = metadata s /\
  served s' /\ engine s' = initial_engine /\
  exists o o', state s = JObject o /\ state s' = JObject o' /\
    known_command o command = Ok false /\ begun_reset (metadata s) command now o = Ok o'.
(** Runs a handler again on the results it had before. *)
Ltac reruns :=
  unfold mbind, RT_mbind, self, eval, mret, RT_mret;
  repeat (cbn beta iota; match goal with H : ?m = Ok _ |- context [?m] => rewrite H
          | H : ?b = true |- context [?b] => rewrite H | H : ?b = false |- context [?b] => rewrite H end).
Lemma reset_command_effect bytes now s v :
  served s -> object (facts s) = Ok v ->
  match demo_control_command bytes now s with
  | (s', Done _) => (s' = s /\ forall now', demo_control_command bytes now' s = (s, Done tt)) \/
      exists command, carries bytes command /\ reset_begun s s' command now
  | (s', Thrown _) => s' = s
  | (_, Stopped) => True
  end.
Proof.
  intros Hs Hv. pose proof (steps_refl s Hs) as H.
  set (E s' := exists command, carries bytes command /\ reset_begun s s' command now).
  set (Q := fun (s' : Runtime) (r : outcome unit) =>
    match r with
    | Done _ => (s' = s /\ forall now', demo_control_command bytes now' s = (s, Done tt)) \/ E s' | Thrown _ => s' = s | Stopped => True end).
  enough (W : wp (demo_control_command bytes now) Q s).
  { unfold wp in W. by destruct (demo_control_command bytes now s) as [s' [[]|e|]]. }
  assert (H1 : s = s) by done. unfold demo_control_command, raise_if. hsteps.
  1,2: left; split; [done|]; intros now'; unfold demo_control_command, raise_if; by (reruns; reflexivity).
  match goal with Hp : parse_json _ _ = Ok ?r, Hr : jat "command" ?r = Ok ?c, Hc : check_command _ _ ?c = Ok ?u,
    Ht : command_times ?c _ = Ok ?v, Hb : begun_reset _ _ _ ?o = Ok ?o', Ho : object (state s) = Ok ?o |- _ =>
    destruct u, v; pose proof (fits_parse _ _ _ Hp) as Hf; pose proof Hr as Hr';
    apply (fits_at maximum_depth) in Hr'; [|by vm_compute|exact Hf];
    apply (fits_weaken _ maximum_depth) in Hr'; [|by vm_compute];
    pose proof (command_fits _ _ _ _ (served_shape s Hs) (served_index s Hs) Hr' Hc Ht) as Hcf;
    pose proof (served_object s o Hs Ho) as [Est Hg]; pose proof (adv_object s o Hs Ho) as Ha;
    pose proof (begun_reset_good _ _ _ _ _ (served_index s Hs) Hg Hcf Hb);
    pose proof (begun_reset_adv _ _ _ _ _ _ Ha Hb) end.
  hcommit; [by eexists|done|no_messages..|]. do 2 hstep. apply wp_last.
  match goal with X : steps s (set_disk ?d s), Y : state (set_disk ?d s) = _ |- _ =>
    destruct X as (_ & Hs' & _); rename Y into Est' end.
  assert (Hfa : exists j, facts_activity "WAITING" "RESET" None (facts s) = Ok j)
    by (unfold facts_activity; rewrite Hv; by eexists). destruct Hfa as [j Hfa].
  unfold wp, mbind, RT_mbind, function. cbn [facts set_advisory set_engine set_disk]. rewrite Hfa. right.
  match goal with Hp : parse_json _ _ = Ok ?r, Hro : object ?r = Ok ?ro, Hsz : throw_if (negb (obj_size ?ro =? 2)) _ = Ok _,
    Hv1 : at_integer "schemaVersion" ?r = Ok ?n, Hn : throw_if (negb (?n =? 1)) _ = Ok _, Hr : jat "command" ?r = Ok ?c |- _ =>
    apply throw_if_Ok in Hsz, Hn; b2p; assert (n = 1) as -> by lia;
    exists c; split; [exists r, ro; split_and!; [done..|lia|done|done|done]|] end.
  match goal with Hc : check_command _ _ _ = Ok _, Hk : known_command ?o _ = Ok _, Hb : begun_reset _ _ _ _ = Ok ?o',
    Ht : command_times _ _ = Ok _, Hpd : reset_pending _ = Ok ?p, Hth : throw_if ?p _ = Ok _ |- _ =>
    apply throw_if_Ok in Hth; rewrite Hth in Hpd; subst;
    split; [exact Hc|split; [exact Ht|split; [exact Hpd|split; [done|split; [exact Hs'|split; [done|]]]]]];
    exists o, o'; split; [exact Est|split; [exact Est'|split; [exact Hk|exact Hb]]] end.
Qed.
Lemma canonical_member k o v s :
  canonical (JObject o) = Ok s -> obj_find k o = Some v -> exists c, canonical v = Ok c.
Proof.
  intros (ps & HF & _)%canonical_object_inv Hv%find_elem. apply list_elem_of_lookup in Hv as [i Hi].
  destruct (Forall2_lookup_l _ _ _ _ _ HF Hi) as (p & _ & (q & c & _ & Hc & _)%entry_text_inv). by exists c.
Qed.
Lemma served_text s : served s -> exists c, canonical (state s) = Ok c.
Proof. intros (_ & [(c & [_ Hc _ _ _] & _) _] & _). by exists c. Qed.
Lemma jat_at_string k a b s : at_string k a = Ok s -> at_string k b = Ok s -> jat k b = jat k a.
Proof.
  unfold at_string. intros (v & Hv & Hs)%bind_Ok (w & Hw & Ht)%bind_Ok. rewrite Hv, Hw.
  destruct v, w; try done. apply Ok_inj in Hs as ->, Ht as ->. done.
Qed.
Lemma control_binding_adv m a b :
  adv a b -> is_ok (at_string "producerEpoch" a) = true -> control_binding m b = control_binding m a.
Proof.
  intros [E _] [e He]%is_ok_iff. unfold control_binding. rewrite He in E. by rewrite (jat_at_string _ _ _ _ He E).
Qed.
(** The command of the reset that was begun is known from then on. *)
Lemma begun_known s m command now o o' :
  served s -> state s = JObject o' -> begun_reset m command now o = Ok o' -> known_command o' command = Ok true.
Proof.
  intros Hs Hst Hb. destruct (begun_reset_memory _ _ _ _ _ Hb) as (model & r & n & id & _ & Hid & _ & Hd & _).
  destruct (served_text s Hs) as [c Hc]. rewrite Hst in Hc. destruct (canonical_member _ _ _ _ Hc Hd) as [cd Hcd].
  assert (Hcmd : exists cc, canonical command = Ok cc).
  { apply (canonical_member "command" _ command _ Hcd). by rewrite find_obj_of. }
  destruct Hcmd as [cc Hcc]. unfold known_command, obj_count, obj_at. rewrite Hd. cbn [negb of_option mbind res_mbind].
  rewrite bool_decide_eq_true_2 by done. cbn [negb]. rewrite jat_object, find_obj_of. cbn [obj_find String.eqb Ascii.eqb Bool.eqb mbind res_mbind of_option].
  rewrite Hid. cbn [mbind res_mbind]. rewrite String.eqb_refl. cbn [negb].
  rewrite Hcc. cbn [mbind res_mbind]. by rewrite String.eqb_refl.
Qed.
(** C20: a reset command takes effect once.  Delivered again, as often as the gateway likes and at any
    time, it changes nothing; the first delivery begins the reset, with the clearing request, the
    consumed sequence and the kept model durable in the one commit, or changes nothing. *)
Theorem reset_command_once bytes now now' s s' v :
  served s -> object (facts s) = Ok v -> demo_control_command bytes now s = (s', Done tt) ->
  (s' = s \/ exists command, carries bytes command /\ reset_begun s s' command now) /\
  demo_control_command bytes now' s' = (s', Done tt).
Proof.
  intros Hs Hv H. pose proof (reset_command_effect bytes now s v Hs Hv) as He. rewrite H in He.
  destruct He as [[-> He]|(command & Hca & Hbeg)]; [split; [by left|exact (He now')]|].
  split; [right; by exists command|]. clear H.
  destruct Hca as (response & ro & Hp & Hro & Hsz & H1 & Hc & Hn).
  destruct Hbeg as (Hck & Ht & Hpd & Hm & Hs' & _ & o & o' & Est & Est' & _ & Hb).
  assert (Hck' : check_command (metadata s') (state s') command = Ok tt).
  { rewrite <- Hck, Hm. unfold check_command. erewrite control_binding_adv; [done| |].
    - rewrite Est, Est'. eapply begun_reset_adv; [|exact Hb]. rewrite <- Est. by apply adv_refl.
    - apply served_valid, validated_top in Hs as (e & _ & He & _). by rewrite He. }
  assert (Hk : known_command o' command = Ok true) by (by eapply (begun_known s')).
  pose proof Hs' as (Hok & _). assert (Hobj : object (state s') = Ok o') by (by rewrite Est').
  unfold demo_control_command, raise_if. reruns. rewrite Hsz. reflexivity.
Qed.

(** ** Witnesses *)

Lemma pending_reset_blocks_witness :
  engine (ingest_frame_at (Ok sample_source) (MkFrame [] 0) 5 sample_reset).1 = engine sample_reset /\
  apply_episode sample_features sample_exercise kModelConfigSha256 sample_reset = (sample_reset, Done false).
Proof.
  destruct (pending_reset_blocks (Ok sample_source) (MkFrame [] 0) 5 sample_features sample_exercise
    kModelConfigSha256 sample_reset) as [H1 H2]; [vm_compute; reflexivity|vm_compute; reflexivity|].
  split; [|exact H2]. destruct (ingest_frame_at _ _ _ sample_reset) as [s' r]. exact (proj1 H1).
Defined.
(** The initial state, and one whose model has consumed an exercise. *)
Definition sample_fresh : Object := catch_all (object sample_initial) [].
Definition sample_model : Json := JObject [("recentSourceExerciseIds"%string, JArray (map JString [ep_id sample_exercise]))].
Definition sample_used : Object := obj_set "model" sample_model sample_fresh.
Definition begun (o : Object) : Object := catch_all (begun_reset sample_metadata sample_command sample_now o) [].
Lemma reset_memory_witness :
  model_for sample_exercise (begun sample_used) = Ok None /\
  model_for sample_exercise (begun (begun sample_used)) = Ok (Some initial_model).
Proof.
  split.
  - apply (reset_memory sample_metadata sample_command sample_now sample_used (begun sample_used) sample_model)
      with (ids := [ep_id sample_exercise]); [vm_compute; reflexivity..|]. by left.
  - apply (reset_memory sample_metadata sample_command sample_now (begun sample_used) (begun (begun sample_used)) JNull);
      vm_compute; reflexivity.
Defined.
Lemma reset_command_once_witness :
  reset_pending (state sample_runtime) = Ok false /\ reset_pending (state sample_reset) = Ok true /\
  demo_control_command sample_response (sample_now + 100000) sample_reset = (sample_reset, Done tt).
Proof.
  split; [vm_compute; reflexivity|split; [vm_compute; reflexivity|]].
  apply (reset_command_once sample_response sample_now (sample_now + 100000) sample_runtime sample_reset
    (catch_all (object (facts sample_runtime)) []) sample_served); [vm_compute; reflexivity|exact sample_reset_run].
Defined.
