(* ===== verification/Ledger.v ===== *)
(** * The observation stream (include/aosedge/function_observation.hpp)

    [FunctionObservation]: a bounded ledger of observations in one private file.  Its constructor
    checks the whole ledger, begins a new generation and commits it; [observe] adds a message,
    [next] offers the first one after marking it attempted, [accept] removes it against its
    receipt.  A commit writes a temporary, renames it over the ledger and syncs the directory; it
    may fail at each of these, which poisons the stream, and the process may be stopped before or
    after the renaming. *)
From Stdlib Require Import ZArith Lia Bool Ascii String.
From stdpp Require Import gmap strings list.
From S2P Require Import Prelude Chars Sha256 Uuid Json JsonFacts Time Protocol Identity Messages Store Observation.
Local Open Scope Z_scope.

(** ** Messages and allocations *)

Definition message_keys : list string :=
  ["schemaVersion"; "contractVersion"; "messageType"; "unitSystemUid"; "unitRole"; "serviceVersion";
   "serviceProfile"; "serviceInstance"; "generation"; "sequence"; "observedAt"; "content"; "contentSha256"]%string.
Definition binding_keys : list string := ["serviceId"; "subjectId"; "instanceIndex"; "instanceId"]%string.
Definition brake_type : string := "BRAKE_FUNCTION_OBSERVATION".
Definition tire_type : string := "TIRE_FUNCTION_OBSERVATION".
(** The binding's three identifiers and index. *)
Definition check_binding (binding : Json) : res unit :=
  _ ← keys binding_keys binding;
  v ← jat "serviceId" binding; _ ← check_id v;
  v ← jat "subjectId" binding; _ ← check_id v;
  v ← jat "instanceId" binding; _ ← check_id v;
  v ← jat "instanceIndex" binding; check_integer false v.
Definition maximum_message : Z := 8192.
(** The message is valid; its identity is returned. *)
Definition validate (m : Json) : res string :=
  _ ← keys message_keys m;
  v ← at_integer "schemaVersion" m; _ ← fail_if (negb (v =? 3));
  cv ← at_string "contractVersion" m; _ ← fail_if (negb (String.eqb cv "3.0.0"));
  ty ← jat "messageType" m; _ ← pick [brake_type; tire_type] ty;
  tyn ← jstring ty;
  let brake := String.eqb tyn brake_type in
  uid ← jat "unitSystemUid" m; _ ← check_id uid;
  role ← jat "unitRole" m; _ ← pick ["VALIDATION"; "PRODUCTION"]%string role;
  ver ← jat "serviceVersion" m; _ ← check_version ver;
  binding ← jat "serviceInstance" m; _ ← check_binding binding;
  pj ← jat "serviceProfile" m; profile ← jstring pj; _ ← pick ["v1"; "v2"; "v3"]%string pj;
  _ ← fail_if (negb brake && negb (String.eqb profile "v1"));
  g ← jat "generation" m; _ ← check_integer true g;
  n ← jat "sequence" m; _ ← check_integer true n;
  o ← jat "observedAt" m; _ ← check_instant o;
  c ← jat "content" m; _ ← content_check profile brake c;
  t ← canonical m; _ ← fail_if (maximum_message <? ssize t);
  h ← at_string "contentSha256" m; ct ← canonical c; _ ← fail_if (negb (String.eqb h (sha256_hex ct)));
  k ← canonical (JArray [uid; ty; binding; g; n]);
  Ok (sha256_hex k).
Definition allocation_keys : list string := ["serviceId"; "subjectId"; "instanceIndex"]%string.
(** The same unit, message type, service, subject and index; the instance may differ. *)
Definition same_allocation (left right : Json) : res bool :=
  a ← array left; b ← array right;
  match a, b with
  | [a0; a1; a2], [b0; b1; b2] =>
    x ← canonical a0; y ← canonical b0;
    if negb (String.eqb x y) then Ok false else
    x ← canonical a1; y ← canonical b1;
    if negb (String.eqb x y) then Ok false else
    _ ← keys binding_keys a2; _ ← keys binding_keys b2;
    d ← differs allocation_keys a2 b2; Ok (negb d)
  | _, _ => Ok false
  end.
(** [J{A{m.at("unitSystemUid"),m.at("messageType"),m.at("serviceInstance")}}] *)
Definition allocation (m : Json) : res Json :=
  u ← jat "unitSystemUid" m; t ← jat "messageType" m; b ← jat "serviceInstance" m; Ok (JArray [u; t; b]).

(** ** The ledger *)

Definition maximum_ledger : Z := 700000.
Definition maximum_pending : Z := 64.
Definition ledger_keys : list string := ["schemaVersion"; "binding"; "generation"; "sequence"; "pending"]%string.
Definition entry_keys : list string := ["attempted"; "message"; "digest"]%string.
Definition ledger_json (binding : Json) (generation sequence : Z) (pending : list Json) : Json :=
  JObject (obj_of [("schemaVersion", JInt 1); ("binding", binding); ("generation", JInt generation);
                   ("sequence", JInt sequence); ("pending", JArray pending)]%string).
(** One retained entry; its identity is returned. *)
Definition check_retained (binding : Json) (generation sequence : Z) (seen : list string) (entry : Json) : res string :=
  _ ← keys entry_keys entry;
  _ ← at_boolean "attempted" entry;
  m ← jat "message" entry;
  key ← validate m;
  _ ← fail_if (find_string key seen);
  d ← at_string "digest" entry; t ← canonical m; _ ← fail_if (negb (String.eqb d (sha256_hex t)));
  a ← allocation m; same ← same_allocation a binding; _ ← fail_if (negb same);
  g ← at_integer "generation" m; n ← at_integer "sequence" m;
  _ ← fail_if ((generation <? g) || ((g =? generation) && (sequence <? n)));
  Ok key.
Fixpoint check_retained_all (binding : Json) (generation sequence : Z) (seen : list string) (l : list Json)
    : res (list string) :=
  match l with
  | [] => Ok seen
  | e :: l' =>
    key ← check_retained binding generation sequence seen e;
    check_retained_all binding generation sequence (key :: seen) l'
  end.
(** The constructor's check of a ledger. *)
Definition check_ledger (binding ledger : Json) : res unit :=
  _ ← keys ledger_keys ledger;
  v ← at_integer "schemaVersion" ledger; _ ← fail_if (negb (v =? 1));
  b ← jat "binding" ledger; same ← same_allocation b binding; _ ← fail_if (negb same);
  g ← jat "generation" ledger; _ ← check_integer false g;
  n ← jat "sequence" ledger; _ ← check_integer false n;
  pj ← jat "pending" ledger; pending ← array pj;
  _ ← fail_if (maximum_pending <? Z.of_nat (length pending));
  generation ← integer g; sequence ← integer n;
  _ ← check_retained_all binding generation sequence [] pending;
  Ok tt.

(** ** The stream *)

Record Stream := MkStream {
  stream_file : option entry;         (* ledger.json *)
  stream_next : option string;        (* ledger.next *)
  envelope : Json; ledger : Json; poisoned : bool; last_emit : Z; last_content : string }.
Definition ST (A : Type) : Type := Stream -> Stream * outcome A.
#[export] Instance ST_mret : MRet ST := fun A a s => (s, Done a).
#[export] Instance ST_mbind : MBind ST := fun A B k m s =>
  match m s with
  | (s', Done a) => k a s'
  | (s', Thrown e) => (s', Thrown e)
  | (s', Stopped) => (s', Stopped)
  end.
Definition st_eval {A} (m : res A) : ST A := fun s =>
  match m with Ok a => (s, Done a) | Err e => (s, Thrown e) end.
Definition st_change (f : Stream -> Stream) : ST unit := fun s => (f s, Done tt).
Definition st_self : ST Stream := fun s => (s, Done s).
Definition set_files (f : option entry) (n : option string) (s : Stream) : Stream :=
  MkStream f n (envelope s) (ledger s) (poisoned s) (last_emit s) (last_content s).
Definition set_ledger (j : Json) (s : Stream) : Stream :=
  MkStream (stream_file s) (stream_next s) (envelope s) j (poisoned s) (last_emit s) (last_content s).
Definition set_poisoned (s : Stream) : Stream :=
  MkStream (stream_file s) (stream_next s) (envelope s) (ledger s) true (last_emit s) (last_content s).
Definition set_emitted (at_ : Z) (bytes : string) (s : Stream) : Stream :=
  MkStream (stream_file s) (stream_next s) (envelope s) (ledger s) (poisoned s) at_ bytes.
(** How a commit fares: it succeeds; creating its temporary, writing, renaming or the directory's
    sync fails, [left] being what the temporary holds where the cleanup's unlink, whose result the
    code ignores, fails too; or the process is stopped before the renaming, leaving anything in the
    temporary, or after it. *)
Inductive Fate :=
  | Succeeds | CreateFails | WriteFails (left : option string) | RenameFails (left : option string) | SyncFails
  | StopsBefore (left : string) | StopsAfter.
Definition ledger_commit (fate : Fate) (next : Json) : ST unit := fun s =>
  match canonical next with
  | Err e => (s, Thrown e)
  | Ok bytes =>
    if maximum_ledger <? ssize bytes then (s, Thrown unavailable)
    else match stream_next s with
    | Some _ => (s, Thrown unavailable)
    | None =>
      let written := set_files (Some (own_file bytes)) None s in
      match fate with
      | Succeeds => (set_ledger next written, Done tt)
      | CreateFails => (s, Thrown unavailable)
      | WriteFails t | RenameFails t => (set_poisoned (set_files (stream_file s) t s), Thrown unavailable)
      | SyncFails => (set_poisoned written, Thrown unavailable)
      | StopsBefore t => (set_files (stream_file s) (Some t) s, Stopped)
      | StopsAfter => (written, Stopped)
      end
    end
  end.
(** [read]: nothing when there is no file. *)
Definition read_ledger (f : option entry) : res (option string) :=
  match f with
  | None => Ok None
  | Some e =>
    if private_entry e && (0 <? ssize (content e)) && (ssize (content e) <=? maximum_ledger)
    then Ok (Some (content e)) else Err unavailable
  end.
Definition load_ledger (f : option entry) (binding : Json) : res Json :=
  existing ← read_ledger f;
  match existing with
  | Some bytes => parse_json bytes maximum_ledger
  | None => Ok (ledger_json binding 0 0 [])
  end.
(** The ledger with the new generation. *)
Definition next_generation (binding ledger : Json) : res Json :=
  g ← at_integer "generation" ledger;
  _ ← fail_if (g =? maximum_integer);
  o ← object ledger;
  Ok (JObject (obj_set "sequence" (JInt 0) (obj_set "generation" (JInt (g + 1)) (obj_set "binding" binding o)))).
(** The constructor, once it holds the directory. *)
Definition open_stream (fate : Fate) (base : Json) (f : option entry) (n : option string) : Stream * outcome unit :=
  let fresh := MkStream f n base JNull false (-1) "" in
  (binding ← st_eval (allocation base);
   l ← st_eval (load_ledger f binding);
   _ ← st_eval (check_ledger binding l);
   next ← st_eval (next_generation binding l);
   _ ← st_change (fun s => set_files (stream_file s) None (set_ledger l s));
   ledger_commit fate next) fresh.

(** Everything but the last entry that was not attempted; nothing when all were. *)
Fixpoint evict_unsent (l : list Json) : res (option (list Json)) :=
  match l with
  | [] => Ok None
  | e :: l' =>
    r ← evict_unsent l';
    match r with
    | Some l'' => Ok (Some (e :: l''))
    | None => a ← at_boolean "attempted" e; Ok (if (a : bool) then None else Some l')
    end
  end.
Definition pending_of (ledger : Json) : res (list Json) := p ← jat "pending" ledger; array p.
Definition set_pending (entries : list Json) (ledger : Json) : res Json :=
  o ← object ledger; Ok (JObject (obj_set "pending" (JArray entries) o)).
Definition too_soon (s : Stream) (bytes : string) (mono : Z) : bool :=
  (0 <=? last_emit s) &&
  ((mono <? last_emit s) || (mono - last_emit s <? 5000)
   || (String.eqb bytes (last_content s) && (mono - last_emit s <? 30000))).
(** The message of a content. *)
Definition new_message (base ledger content : Json) (bytes : string) (wall : Z) : res Json :=
  n ← at_integer "sequence" ledger;
  _ ← fail_if (n =? maximum_integer);
  m ← object base;
  g ← jat "generation" ledger;
  t ← utc_timestamp wall;
  let m := JObject (obj_set "contentSha256" (JString (sha256_hex bytes)) (obj_set "content" content
    (obj_set "observedAt" (JString t) (obj_set "sequence" (JInt (n + 1)) (obj_set "generation" g
    (obj_set "contractVersion" (JString "3.0.0") (obj_set "schemaVersion" (JInt 3) m))))))) in
  _ ← validate m;
  Ok m.
Definition retained (attempted : bool) (m : Json) (text : string) : Json :=
  JObject (obj_of [("attempted", JBool attempted); ("message", m); ("digest", JString (sha256_hex text))]%string).
(** The entries that stay when one is to be added. *)
Definition room_for (entries : list Json) : res (option (list Json)) :=
  if Z.of_nat (length entries) =? maximum_pending then evict_unsent entries else Ok (Some entries).
(** The new message is added to the entries and all is committed. *)
Definition append_message (fate : Fate) (c : Json) (bytes : string) (wall mono : Z) (entries : list Json) : ST bool :=
  s ← st_self;
  m ← st_eval (new_message (envelope s) (ledger s) c bytes wall);
  t ← st_eval (canonical m);
  n ← st_eval (jat "sequence" m);
  o ← st_eval (object (ledger s));
  _ ← ledger_commit fate
        (JObject (obj_set "pending" (JArray (entries ++ [retained false m t])) (obj_set "sequence" n o)));
  _ ← st_change (set_emitted mono bytes);
  mret true.
Definition observe (fate : Fate) (c : Json) (wall mono : Z) : ST bool :=
  s ← st_self;
  _ ← st_eval (fail_if (poisoned s));
  profile ← st_eval (at_string "serviceProfile" (envelope s));
  ty ← st_eval (at_string "messageType" (envelope s));
  _ ← st_eval (content_check profile (String.eqb ty brake_type) c);
  bytes ← st_eval (canonical c);
  if too_soon s bytes mono then mret false
  else
    entries ← st_eval (pending_of (ledger s));
    kept ← st_eval (room_for entries);
    match kept with
    | None => mret false
    | Some entries => append_message fate c bytes wall mono entries
    end.
Definition stream_offer (fate : Fate) : ST (option string) :=
  s ← st_self;
  _ ← st_eval (fail_if (poisoned s));
  entries ← st_eval (pending_of (ledger s));
  match entries with
  | [] => mret None
  | e :: entries' =>
    attempted ← st_eval (at_boolean "attempted" e);
    e ← (if (attempted : bool) then mret e
         else
           o ← st_eval (object e);
           let e := JObject (obj_set "attempted" (JBool true) o) in
           next ← st_eval (set_pending (e :: entries') (ledger s));
           _ ← ledger_commit fate next;
           mret e);
    m ← st_eval (jat "message" e);
    t ← st_eval (canonical m);
    mret (Some t)
  end.
Definition receipt_keys : list string :=
  ["schemaVersion"; "contractVersion"; "receiptId"; "messageKeySha256"; "contentSha256"; "state"; "receivedAt"]%string.
(** The receipt of a message; anything it throws counts as no. *)
Definition receipt_matches (m : Json) (status : Z) (response : string) : res bool :=
  ack ← parse_json response 8192;
  _ ← keys receipt_keys ack;
  v ← at_integer "schemaVersion" ack;
  if negb (v =? 1) then Ok false else
  cv ← at_string "contractVersion" ack;
  if negb (String.eqb cv "1.0.0") then Ok false else
  id ← at_string "receiptId" ack;
  if negb (is_uuid id) then Ok false else
  k ← at_string "messageKeySha256" ack; key ← validate m;
  if negb (String.eqb k key) then Ok false else
  h ← at_string "contentSha256" ack; mh ← at_string "contentSha256" m;
  if negb (String.eqb h mh) then Ok false else
  st ← at_string "state" ack;
  if negb (String.eqb st (if status =? 201 then "DURABLE_ACCEPTED" else "DUPLICATE_ACCEPTED")) then Ok false else
  t ← jat "receivedAt" ack; _ ← check_instant t;
  Ok true.
Definition stream_accept (fate : Fate) (attempted : string) (status : Z) (response : string) : ST bool :=
  s ← st_self;
  _ ← st_eval (fail_if (poisoned s));
  if negb (status =? 200) && negb (status =? 201) then mret false
  else
    entries ← st_eval (pending_of (ledger s));
    match entries with
    | [] => mret false
    | e :: entries' =>
      a ← st_eval (at_boolean "attempted" e);
      if negb a then mret false
      else
        m ← st_eval (jat "message" e);
        t ← st_eval (canonical m);
        if negb (String.eqb t attempted) then mret false
        else if negb (catch_all (receipt_matches m status response) false) then mret false
        else
          next ← st_eval (set_pending entries' (ledger s));
          _ ← ledger_commit fate next;
          mret true
    end.
