(* ===== verification/LedgerSpec.v ===== *)
(** * What the observation stream promises

    The ledger a stream holds always passes the constructor's own check, and so does the file,
    whichever commit failed and wherever the process stopped; so the next process opens it, in a
    new generation, with every retained message.  [observe] never drops an entry that was
    attempted, [next] sends only what is durably marked so, and [accept] removes exactly the first
    entry against its receipt. *)
From Stdlib Require Import ZArith Lia Bool Ascii String Sorted.
From stdpp Require Import gmap strings list.
From S2P Require Import Prelude Chars Sha256 Uuid Json JsonFacts Time Protocol Identity Messages Fits Store Observation Service ResetSpec Ledger.
Local Open Scope Z_scope.

(** ** Objects with known keys *)

Lemma set_length k v o : obj_sorted o -> is_Some (obj_find k o) -> length (obj_set k v o) = length o.
Proof.
  induction 1 as [|[k' w] o Hs IH Hf]; [by intros []|]. cbn [obj_find obj_set].
  destruct (String.eqb k k') eqn:E; [done|]. intros [x Hx]. destruct (str_ltb k k') eqn:El.
  - exfalso. apply find_elem in Hx. rewrite List.Forall_forall in Hf. apply list_elem_of_In in Hx.
    specialize (Hf _ Hx). unfold key_lt in Hf. cbn in Hf. apply str_ltb_asym in El. congruence.
  - cbn [length]. by rewrite IH.
Qed.
Lemma all_at_Ok names o :
  all_at names (JObject o) = Ok tt <-> Forall (fun k => is_Some (obj_find k o)) names.
Proof.
  induction names as [|k names IH]; cbn [all_at]; [done|]. rewrite Forall_cons, <- IH, jat_object.
  destruct (obj_find k o); cbn; [|by split; [|intros [[? [=]] _]]]. split; [by split|by intros [_ ?]].
Qed.
Lemma keys_Ok names o :
  keys names (JObject o) = Ok tt <->
  length o = length names /\ Forall (fun k => is_Some (obj_find k o)) names.
Proof.
  unfold keys. cbn [object mbind res_mbind]. rewrite <- all_at_Ok. unfold fail_if, obj_size.
  destruct (_ =? _) eqn:E; cbn; [|split; [done|intros [H _]; lia]]. split; [|by intros [_ ?]]. split; [lia|done].
Qed.
Lemma keys_set names k v o :
  obj_sorted o -> k ∈ names -> keys names (JObject o) = Ok tt -> keys names (JObject (obj_set k v o)) = Ok tt.
Proof.
  intros Hs Hk. rewrite !keys_Ok. intros [Hl Hf]. rewrite Forall_forall in Hf. split.
  - rewrite set_length; [done|done|by apply Hf].
  - apply Forall_forall. intros k' Hk'. destruct (decide (k' = k)) as [->|Hn].
    + rewrite find_set_eq. by eexists.
    + rewrite find_set_ne by done. by apply Hf.
Qed.

(** ** The check of a ledger *)

Definition retained_ok (binding : Json) (g n : Z) (e : Json) (k : string) : Prop :=
  check_retained binding g n [] e = Ok k.
(** What the check of a ledger says. *)
Record view (binding : Json) (o : Object) (b : Json) (g n : Z) (p : list Json) (ks : list string) : Prop := {
  view_keys : keys ledger_keys (JObject o) = Ok tt;
  view_version : at_integer "schemaVersion" (JObject o) = Ok 1;
  view_binding : obj_find "binding" o = Some b;
  view_same : same_allocation b binding = Ok true;
  view_generation : obj_find "generation" o = Some (JInt g);
  view_generation_range : 0 <= g <= maximum_integer;
  view_sequence : obj_find "sequence" o = Some (JInt n);
  view_sequence_range : 0 <= n <= maximum_integer;
  view_pending : obj_find "pending" o = Some (JArray p);
  view_length : Z.of_nat (length p) <= maximum_pending;
  view_entries : Forall2 (retained_ok binding g n) p ks;
  view_distinct : NoDup ks }.
Lemma check_retained_seen binding g n seen e k :
  check_retained binding g n seen e = Ok k <-> retained_ok binding g n e k /\ k ∉ seen.
Proof.
  unfold retained_ok, check_retained. split.
  - intros H. do 3 (apply bind_Ok in H as (? & -> & H); cbn [mbind res_mbind]).
    apply bind_Ok in H as (key & -> & H); cbn [mbind res_mbind]. apply bind_Ok in H as ([] & Hf & H).
    unfold fail_if in Hf. apply throw_if_Ok in Hf. change (find_string key []) with false.
    cbn [fail_if throw_if]. unfold fail_if at 1. cbn [throw_if mbind res_mbind].
    assert (key = k) as -> by (do 9 apply bind_Ok in H as (? & _ & H); by apply Ok_inj in H). split; [exact H|].
    intros Hin. apply find_string_In in Hin. congruence.
  - intros [H Hn]. do 3 (apply bind_Ok in H as (? & -> & H); cbn [mbind res_mbind]).
    apply bind_Ok in H as (key & -> & H); cbn [mbind res_mbind]. apply bind_Ok in H as ([] & _ & H).
    assert (key = k) as -> by (pose proof H as H'; do 9 apply bind_Ok in H' as (? & _ & H'); by apply Ok_inj in H').
    assert (find_string k seen = false) as ->; [|exact H].
    destruct (find_string k seen) eqn:E; [|done]. apply find_string_In in E. done.
Qed.
Lemma check_all_Ok binding g n l seen ks' :
  check_retained_all binding g n seen l = Ok ks' <->
  exists ks, ks' = rev ks ++ seen /\ Forall2 (retained_ok binding g n) l ks /\ NoDup ks /\
    Forall (fun k => k ∉ seen) ks.
Proof.
  revert seen ks'. induction l as [|e l IH]; intros seen ks'; cbn [check_retained_all].
  - split; [intros [= <-]; exists []; by repeat constructor|]. intros (ks & -> & H & _). inversion H. done.
  - split.
    + intros (k & [Hk Hn]%check_retained_seen & (ks & -> & HF & Hd & Hs)%IH)%bind_Ok. exists (k :: ks).
      cbn [rev]. rewrite <- app_assoc. split; [done|]. split; [by constructor|]. split.
      * constructor; [|done]. intros Hin. rewrite Forall_forall in Hs. apply (Hs k Hin). by left.
      * constructor; [done|]. eapply Forall_impl; [exact Hs|]. cbn. intros x Hx Hin. apply Hx. by right.
    + intros (ks & -> & HF & Hd & Hs). inversion HF as [|? k ? ks0 Hk HF0]; subst.
      apply Forall_cons in Hs as [Hk1 Hs]. apply NoDup_cons in Hd as [Hk2 Hd].
      apply bind_Ok. exists k. split; [by apply check_retained_seen|]. apply IH. exists ks0.
      cbn [rev]. rewrite <- app_assoc. split; [done|]. split_and!; [done..|].
      rewrite Forall_forall in *. intros x Hx [->|Hin]%elem_of_cons; [done|by apply (Hs x)].
Qed.
Lemma check_integer_Ok positive v :
  check_integer positive v = Ok tt <->
  exists n, v = JInt n /\ (if positive then 1 else 0) <= n <= maximum_integer.
Proof.
  unfold check_integer. destruct v; cbn; try (split; [done|by intros (? & [=] & _)]).
  unfold fail_if. rewrite throw_if_Ok, orb_false_iff. split.
  - intros [H1 H2]. eexists. split; [done|]. destruct positive; lia.
  - intros (m & [= <-] & H). split; destruct positive; lia.
Qed.
Lemma fail_if_Ok b : fail_if b = Ok tt <-> b = false.
Proof. unfold fail_if. apply throw_if_Ok. Qed.
Lemma jat_find k o v : jat k (JObject o) = Ok v <-> obj_find k o = Some v.
Proof. rewrite jat_object. destruct (obj_find k o); cbn; split; congruence. Qed.
Lemma check_ledger_view binding l :
  check_ledger binding l = Ok tt <-> exists o b g n p ks, l = JObject o /\ view binding o b g n p ks.
Proof.
  split.
  - unfold check_ledger. intros H. apply bind_Ok in H as ([] & Hk & H). destruct l as [| | | | |o|]; try done.
    apply bind_Ok in H as (v & Hv & H). apply bind_Ok in H as ([] & E%fail_if_Ok & H). apply negb_false_iff, Z.eqb_eq in E as ->.
    apply bind_Ok in H as (b & Hb%jat_find & H). apply bind_Ok in H as (same & Hs & H).
    apply bind_Ok in H as ([] & E%fail_if_Ok & H). apply negb_false_iff in E as ->.
    apply bind_Ok in H as (g & Hg%jat_find & H). apply bind_Ok in H as ([] & (g' & -> & Rg)%check_integer_Ok & H).
    apply bind_Ok in H as (n & Hn%jat_find & H). apply bind_Ok in H as ([] & (n' & -> & Rn)%check_integer_Ok & H).
    apply bind_Ok in H as (pj & Hp%jat_find & H). apply bind_Ok in H as (p & Ha & H). destruct pj; try done.
    apply Ok_inj in Ha as ->. apply bind_Ok in H as ([] & E%fail_if_Ok & H). cbn [integer mbind res_mbind] in H.
    apply bind_Ok in H as (ks' & Hall & _). apply check_all_Ok in Hall as (ks & _ & HF & Hd & _).
    exists o, b, g', n', p, ks. split; [done|]. constructor; try done. lia.
  - intros (o & b & g & n & p & ks & -> & [H1 H2 H3 H4 H5 H6 H7 H8 H9 H10 H11 H12]). unfold check_ledger.
    rewrite H1, H2. cbn [mbind res_mbind Z.eqb Pos.eqb negb fail_if]. unfold fail_if at 1. cbn [throw_if mbind res_mbind].
    rewrite !jat_object, H3, H5, H7, H9. cbn [of_option mbind res_mbind]. rewrite H4. cbn [mbind res_mbind negb].
    unfold fail_if at 1. cbn [throw_if mbind res_mbind].
    assert (G : check_integer false (JInt g) = Ok tt) by (apply check_integer_Ok; by eexists). rewrite G. cbn [mbind res_mbind].
    assert (N : check_integer false (JInt n) = Ok tt) by (apply check_integer_Ok; by eexists). rewrite N. cbn [mbind res_mbind array integer].
    assert (L : (maximum_pending <? Z.of_nat (length p)) = false) by lia. rewrite L. unfold fail_if at 1. cbn [throw_if mbind res_mbind].
    assert (A : check_retained_all binding g n [] p = Ok (rev ks ++ [])).
    { apply check_all_Ok. exists ks. split_and!; try done. apply Forall_forall. intros x _ Hx. set_solver. }
    by rewrite A.
Qed.

(** ** Entries *)

(** What the check of an entry says. *)
Record entry_view (binding : Json) (g n : Z) (o : Object) (m : Json) (k : string) : Prop := {
  ev_keys : keys entry_keys (JObject o) = Ok tt;
  ev_attempted : exists a, obj_find "attempted" o = Some (JBool a);
  ev_message : obj_find "message" o = Some m;
  ev_valid : validate m = Ok k;
  ev_digest : exists t, canonical m = Ok t /\ at_string "digest" (JObject o) = Ok (sha256_hex t);
  ev_same : exists a, allocation m = Ok a /\ same_allocation a binding = Ok true;
  ev_place : exists gm nm, at_integer "generation" m = Ok gm /\ at_integer "sequence" m = Ok nm /\
    (gm < g \/ (gm = g /\ nm <= n)) }.
Lemma retained_ok_view binding g n e k :
  retained_ok binding g n e k <-> exists o m, e = JObject o /\ entry_view binding g n o m k.
Proof.
  unfold retained_ok, check_retained. split.
  - intros H. apply bind_Ok in H as ([] & Hk & H). destruct e as [| | | | |o|]; try done.
    apply bind_Ok in H as (a & Ha & H). apply bind_Ok in H as (m & Hm%jat_find & H). apply bind_Ok in H as (key & Hv & H).
    apply bind_Ok in H as ([] & _ & H). apply bind_Ok in H as (d & Hd & H). apply bind_Ok in H as (t & Ht & H).
    apply bind_Ok in H as ([] & E%fail_if_Ok & H). apply negb_false_iff, String.eqb_eq in E as ->.
    apply bind_Ok in H as (al & Hal & H). apply bind_Ok in H as (same & Hs & H).
    apply bind_Ok in H as ([] & E%fail_if_Ok & H). apply negb_false_iff in E as ->.
    apply bind_Ok in H as (gm & Hg & H). apply bind_Ok in H as (nm & Hn & H).
    apply bind_Ok in H as ([] & E%fail_if_Ok & H). apply Ok_inj in H as ->. b2p.
    exists o, m. split; [done|]. constructor; try done.
    + unfold at_boolean in Ha. apply bind_Ok in Ha as (v & Hav%jat_find & Ha). exists a. destruct v; try done.
      by apply Ok_inj in Ha as ->.
    + by exists t.
    + by exists al.
    + exists gm, nm. split_and!; [done..|]. apply andb_false_iff in H0 as [H0|H0]; lia.
  - intros (o & m & -> & [H1 [a H2] H3 H4 (t & H5 & H6) (al & H7 & H8) (gm & nm & H9 & H10 & H11)]).
    rewrite H1. cbn [mbind res_mbind]. unfold at_boolean. apply jat_find in H2, H3. rewrite H2. cbn [mbind res_mbind boolean].
    rewrite H3. cbn [mbind res_mbind]. rewrite H4. cbn [mbind res_mbind].
    change (find_string k []) with false. unfold fail_if. cbn [throw_if mbind res_mbind]. rewrite H6, H5. cbn [mbind res_mbind].
    rewrite String.eqb_refl. cbn [negb throw_if mbind res_mbind]. rewrite H7. cbn [mbind res_mbind]. rewrite H8.
    cbn [mbind res_mbind negb throw_if]. rewrite H9, H10. cbn [mbind res_mbind].
    assert ((g <? gm) || (gm =? g) && (n <? nm) = false) as ->; [|done].
    apply orb_false_iff; split; [lia|]. apply andb_false_iff. lia.
Qed.
(** An entry stays valid in a later place of the same allocation. *)
Lemma entry_later binding g n g' n' o m k :
  entry_view binding g n o m k -> g < g' \/ (g = g' /\ n <= n') -> entry_view binding g' n' o m k.
Proof.
  intros [H1 H2 H3 H4 H5 H6 (gm & nm & H7 & H8 & H9)] Hl. constructor; try done.
  exists gm, nm. split_and!; [done..|]. lia.
Qed.
Lemma retained_later binding g n g' n' p ks :
  Forall2 (retained_ok binding g n) p ks -> g < g' \/ (g = g' /\ n <= n') ->
  Forall2 (retained_ok binding g' n') p ks.
Proof.
  intros H Hl. eapply Forall2_impl; [exact H|]. intros e k (o & m & -> & Hv)%retained_ok_view.
  apply retained_ok_view. exists o, m. split; [done|by eapply entry_later].
Qed.
(** Marking an entry attempted. *)
Lemma entry_attempted binding g n o m k :
  obj_sorted o -> entry_view binding g n o m k -> entry_view binding g n (obj_set "attempted" (JBool true) o) m k.
Proof.
  intros Hs [H1 H2 H3 H4 (t & H5 & H6) H7 H8]. constructor; try done.
  - apply keys_set; [done|set_solver|done].
  - exists true. by rewrite find_set_eq.
  - by rewrite find_set_ne.
  - exists t. split; [done|]. unfold at_string in *. rewrite jat_object, find_set_ne by done. by rewrite jat_object in H6.
Qed.

(** ** Steps of the ledger *)

(** The views of the ledgers the operations commit. *)
Lemma view_set_pending binding o b g n p ks p' ks' :
  obj_sorted o -> view binding o b g n p ks -> Z.of_nat (length p') <= maximum_pending ->
  Forall2 (retained_ok binding g n) p' ks' -> NoDup ks' ->
  view binding (obj_set "pending" (JArray p') o) b g n p' ks'.
Proof.
  intros Hs [H1 H2 H3 H4 H5 H6 H7 H8 H9 H10 H11 H12] Hl HF Hd.
  constructor; try done; try (by rewrite find_set_ne); try (by rewrite find_set_eq).
  - apply keys_set; [done|set_solver|done].
  - unfold at_integer in *. rewrite jat_object, find_set_ne by done. by rewrite jat_object in H2.
Qed.
Lemma view_set_sequence binding o b g n p ks n' :
  obj_sorted o -> view binding o b g n p ks -> n <= n' <= maximum_integer ->
  view binding (obj_set "sequence" (JInt n') o) b g n' p ks.
Proof.
  intros Hs [H1 H2 H3 H4 H5 H6 H7 H8 H9 H10 H11 H12] Hl.
  constructor; try done; try (by rewrite find_set_ne); try (by rewrite find_set_eq).
  - apply keys_set; [done|set_solver|done].
  - unfold at_integer in *. rewrite jat_object, find_set_ne by done. by rewrite jat_object in H2.
  - lia.
  - eapply retained_later; [exact H11|]. lia.
Qed.
Lemma view_next_generation binding o b g n p ks :
  obj_sorted o -> view binding o b g n p ks -> g < maximum_integer -> same_allocation binding binding = Ok true ->
  view binding (obj_set "sequence" (JInt 0) (obj_set "generation" (JInt (g + 1)) (obj_set "binding" binding o)))
    binding (g + 1) 0 p ks.
Proof.
  intros Hs [H1 H2 H3 H4 H5 H6 H7 H8 H9 H10 H11 H12] Hl Hb.
  constructor; try done; try (by rewrite ?find_set_ne, ?find_set_eq by done).
  - repeat (apply keys_set; [by repeat apply set_sorted|set_solver|]). done.
  - unfold at_integer in *. rewrite jat_object, !find_set_ne by done. by rewrite jat_object in H2.
  - lia.
  - eapply retained_later; [exact H11|]. lia.
Qed.
(** Sublists of the entries: what remains after an eviction or a removal. *)
Lemma retained_sublist binding g n p ks p' :
  Forall2 (retained_ok binding g n) p ks -> p' `sublist_of` p -> NoDup ks ->
  exists ks', Forall2 (retained_ok binding g n) p' ks' /\ ks' `sublist_of` ks /\ NoDup ks'.
Proof.
  intros HF Hsub. revert ks HF. induction Hsub as [|e p' p Hsub IH|e p' p Hsub IH]; intros ks HF Hd.
  - inversion HF; subst. exists []. split_and!; [constructor|constructor|constructor].
  - inversion HF as [|? k ? ks0 Hk HF0]; subst. apply NoDup_cons in Hd as [Hn Hd].
    destruct (IH ks0 HF0 Hd) as (ks' & H1 & H2 & H3). exists (k :: ks'). split_and!.
    + by constructor.
    + by apply sublist_skip.
    + constructor; [|done]. intros Hin. apply Hn. by eapply elem_of_sublist.
  - inversion HF as [|? k ? ks0 Hk HF0]; subst. apply NoDup_cons in Hd as [_ Hd].
    destruct (IH ks0 HF0 Hd) as (ks' & H1 & H2 & H3). exists ks'. split_and!; [done|by apply sublist_cons|done].
Qed.
Lemma evict_unsent_Ok l l' :
  evict_unsent l = Ok (Some l') -> exists a e b, l = a ++ e :: b /\ l' = a ++ b /\ at_boolean "attempted" e = Ok false.
Proof.
  revert l'. induction l as [|e l IH]; intros l' H; cbn [evict_unsent] in H; [done|].
  apply bind_Ok in H as (r & Hr & H). destruct r as [l2|].
  - apply Ok_inj in H as [= <-]. destruct (IH l2 Hr) as (a & x & b & -> & -> & Hx). by exists (e :: a), x, b.
  - apply bind_Ok in H as (at_ & Ha & H). destruct at_; apply Ok_inj in H; [done|]. injection H as <-. by exists [], e, l.
Qed.
Lemma evict_sublist l l' : evict_unsent l = Ok (Some l') -> l' `sublist_of` l /\ length l = S (length l').
Proof.
  intros (a & e & b & -> & -> & _)%evict_unsent_Ok. split; [|rewrite !length_app; cbn; lia].
  apply sublist_app; [done|]. by apply sublist_cons.
Qed.

(** ** Identities *)

(** What the identity of a message is the digest of. *)
Definition identity (m : Json) : res Json :=
  u ← jat "unitSystemUid" m; t ← jat "messageType" m; b ← jat "serviceInstance" m;
  g ← jat "generation" m; n ← jat "sequence" m; Ok (JArray [u; t; b; g; n]).
Lemma validate_identity m k :
  validate m = Ok k -> exists u ty b g n t, jat "unitSystemUid" m = Ok u /\ jat "messageType" m = Ok ty /\
    jat "serviceInstance" m = Ok b /\ jat "generation" m = Ok g /\ jat "sequence" m = Ok n /\
    check_binding b = Ok tt /\ canonical (JArray [u; ty; b; g; n]) = Ok t /\ k = sha256_hex t.
Proof.
  unfold validate. intros H. do 5 apply bind_Ok in H as (? & _ & H).
  apply bind_Ok in H as (ty & Hty & H). do 2 apply bind_Ok in H as (? & _ & H). cbn zeta in H.
  apply bind_Ok in H as (u & Hu & H). apply bind_Ok in H as (? & _ & H). do 4 apply bind_Ok in H as (? & _ & H).
  apply bind_Ok in H as (b & Hb & H). apply bind_Ok in H as ([] & Hcb & H). do 4 apply bind_Ok in H as (? & _ & H).
  apply bind_Ok in H as (g & Hg & H). apply bind_Ok in H as (? & _ & H).
  apply bind_Ok in H as (n & Hn & H). apply bind_Ok in H as (? & _ & H). do 4 apply bind_Ok in H as (? & _ & H).
  do 5 apply bind_Ok in H as (? & _ & H). apply bind_Ok in H as (t & Ht & H). apply Ok_inj in H as <-.
  exists u, ty, b, g, n, t. by split_and!.
Qed.
(** Two messages with different identities have different digests. *)
Definition no_collision (m m' : Json) : Prop :=
  forall k k', validate m = Ok k -> validate m' = Ok k' -> identity m <> identity m' -> k <> k'.
Lemma canonical_element l x s : canonical (JArray l) = Ok s -> x ∈ l -> is_ok (canonical x) = true.
Proof.
  intros (ps & HF & _)%canonical_array_inv [i Hi]%list_elem_of_lookup.
  destruct (Forall2_lookup_l _ _ _ _ _ HF Hi) as (p & _ & Hp). by rewrite Hp.
Qed.
Lemma canonical_field j k v : is_ok (canonical j) = true -> jat k j = Ok v -> is_ok (canonical v) = true.
Proof.
  intros [s Hs]%is_ok_iff (o & -> & Hv)%jat_Ok. destruct (canonical_member _ _ _ _ Hs Hv) as [c Hc]. by rewrite Hc.
Qed.
Lemma differs_refl fields j :
  is_ok (canonical j) = true -> Forall (fun k => is_ok (jat k j) = true) fields -> differs fields j j = Ok false.
Proof.
  intros Hj. induction 1 as [|k fields [v Hv]%is_ok_iff _ IH]; [done|]. cbn [differs]. rewrite Hv. cbn [mbind res_mbind].
  destruct (proj1 (is_ok_iff _) (canonical_field _ _ _ Hj Hv)) as [c ->]. cbn [mbind res_mbind]. by rewrite String.eqb_refl.
Qed.
Lemma keys_object names j : keys names j = Ok tt -> exists o, j = JObject o.
Proof. unfold keys. intros (o & Ho & _)%bind_Ok. exists o. destruct j; try done. by apply Ok_inj in Ho as ->. Qed.
Lemma same_allocation_refl u t b :
  is_ok (canonical u) = true -> is_ok (canonical t) = true -> is_ok (canonical b) = true ->
  keys binding_keys b = Ok tt -> same_allocation (JArray [u; t; b]) (JArray [u; t; b]) = Ok true.
Proof.
  intros [cu Hu]%is_ok_iff [ct Ht]%is_ok_iff Hb Hk. unfold same_allocation. cbn [array mbind res_mbind].
  rewrite Hu, Ht. cbn [mbind res_mbind]. rewrite !String.eqb_refl. cbn [negb]. rewrite Hk. cbn [mbind res_mbind].
  rewrite differs_refl; [done|done|]. destruct (keys_object _ _ Hk) as [o ->]. apply keys_Ok in Hk as [_ Hk].
  apply Forall_forall. intros k Hin. rewrite Forall_forall in Hk. destruct (Hk k) as [v Hv]; [set_solver|].
  rewrite jat_object, Hv. done.
Qed.
(** An allocation that matches another matches itself. *)
Lemma same_allocation_right a b : same_allocation a b = Ok true -> same_allocation b b = Ok true.
Proof.
  unfold same_allocation. intros H. apply bind_Ok in H as (la & _ & H). apply bind_Ok in H as (lb & Hb & H).
  rewrite Hb. cbn [mbind res_mbind].
  destruct la as [|a0 [|a1 [|a2 [|]]]]; try done. destruct lb as [|b0 [|b1 [|b2 [|]]]]; try done.
  apply bind_Ok in H as (x & _ & H). apply bind_Ok in H as (y & -> & H). destruct (negb _); [done|].
  apply bind_Ok in H as (x1 & _ & H). apply bind_Ok in H as (y1 & -> & H). destruct (negb _); [done|].
  cbn [mbind res_mbind]. rewrite !String.eqb_refl. cbn [negb].
  apply bind_Ok in H as (? & _ & H). apply bind_Ok in H as ([] & -> & H). apply bind_Ok in H as (d & Hd & H). cbn [mbind res_mbind].
  apply Ok_inj, negb_true_iff in H as ->.
  enough (differs allocation_keys b2 b2 = Ok false) as -> by done.
  clear -Hd. revert Hd. generalize allocation_keys. intros fields. induction fields as [|k fields IH]; [done|]. cbn [differs].
  intros H. apply bind_Ok in H as (x & _ & H). apply bind_Ok in H as (xc & _ & H). apply bind_Ok in H as (y & -> & H).
  cbn [mbind res_mbind]. apply bind_Ok in H as (yc & -> & H). cbn [mbind res_mbind]. rewrite String.eqb_refl.
  destruct (String.eqb xc yc); [by apply IH|done].
Qed.

(** ** A new entry *)

Lemma new_message_fields base ledger c bytes wall m :
  new_message base ledger c bytes wall = Ok m ->
  exists o n g k t, base = JObject o /\ at_integer "sequence" ledger = Ok n /\ n <> maximum_integer /\
    jat "generation" ledger = Ok g /\ validate m = Ok k /\
    m = JObject (obj_set "contentSha256" (JString (sha256_hex bytes)) (obj_set "content" c
      (obj_set "observedAt" (JString t) (obj_set "sequence" (JInt (n + 1)) (obj_set "generation" g
      (obj_set "contractVersion" (JString "3.0.0") (obj_set "schemaVersion" (JInt 3) o))))))).
Proof.
  unfold new_message. intros H. apply bind_Ok in H as (n & Hn & H). apply bind_Ok in H as ([] & E%fail_if_Ok & H).
  apply bind_Ok in H as (o & Ho & H). apply bind_Ok in H as (g & Hg & H). apply bind_Ok in H as (t & Ht & H). cbn zeta in H.
  apply bind_Ok in H as (k & Hk & H). apply Ok_inj in H as <-. exists o, n, g, k, t.
  destruct base; try done. apply Ok_inj in Ho as ->. split_and!; try done. lia.
Qed.
Lemma allocation_new base binding o m :
  base = JObject o -> allocation base = Ok binding ->
  (forall k, k ∈ ["unitSystemUid"; "messageType"; "serviceInstance"]%string -> jat k m = jat k base) ->
  allocation m = Ok binding.
Proof. intros -> H Hk. unfold allocation in *. by rewrite !Hk by set_solver. Qed.
Lemma new_entry_ok binding base o b g n p ks c bytes wall m t :
  view binding o b g n p ks -> allocation base = Ok binding ->
  new_message base (JObject o) c bytes wall = Ok m -> canonical m = Ok t ->
  Forall (fun e => forall m', jat "message" e = Ok m' -> no_collision m m') p ->
  exists k, retained_ok binding g (n + 1) (retained false m t) k /\ (k ∉ ks) /\
    jat "sequence" m = Ok (JInt (n + 1)) /\ n < maximum_integer.
Proof.
  intros Hv Ha Hm Ht Hc. apply new_message_fields in Hm as (bo & n' & gj & k & tm & -> & Hn & Hmax & Hg & Hval & Em).
  pose proof Hv as [_ _ _ _ Vg _ Vn Rn _ _ VE _]. rewrite jat_object, Vg in Hg. apply Ok_inj in Hg as <-.
  unfold at_integer in Hn. rewrite jat_object, Vn in Hn. apply Ok_inj in Hn as <-.
  assert (Hseq : jat "sequence" m = Ok (JInt (n + 1))) by (rewrite Em; apply jat_find; by rewrite !find_set_ne, find_set_eq by done).
  assert (Hgen : jat "generation" m = Ok (JInt g)) by (rewrite Em; apply jat_find; by rewrite !find_set_ne, find_set_eq by done).
  assert (Hal : allocation m = Ok binding).
  { eapply allocation_new; [reflexivity|exact Ha|]. intros k' Hk'. rewrite Em, !jat_object.
    rewrite !find_set_ne; [done|set_solver..]. }
  pose proof (validate_identity m k Hval) as (u & ty & si & gj & nj & tx & I1 & I2 & I3 & I4 & I5 & Hcb & Htx & ->).
  rewrite Hgen in I4. apply Ok_inj in I4 as <-. rewrite Hseq in I5. apply Ok_inj in I5 as <-.
  assert (Eb : binding = JArray [u; ty; si]).
  { unfold allocation in Hal. rewrite I1, I2, I3 in Hal. by apply Ok_inj in Hal. }
  exists (sha256_hex tx). split; [|split; [|split; [done|lia]]].
  - apply retained_ok_view. unfold retained. eexists _, m. split; [reflexivity|]. constructor.
    + apply keys_Ok. split; [reflexivity|]. unfold entry_keys. repeat constructor; rewrite find_obj_of; by eexists.
    + exists false. by rewrite find_obj_of.
    + by rewrite find_obj_of.
    + done.
    + exists t. split; [done|]. unfold at_string. rewrite jat_object, find_obj_of. reflexivity.
    + exists binding. split; [done|]. rewrite Eb. unfold check_binding in Hcb. apply bind_Ok in Hcb as ([] & Hks & _).
      apply same_allocation_refl; [..|exact Hks]; eapply canonical_element; try exact Htx; set_solver.
    + exists g, (n + 1). unfold at_integer. rewrite Hgen, Hseq. split_and!; [done..|]. right. lia.
  - intros [i Hi]%list_elem_of_lookup. destruct (Forall2_lookup_r _ _ _ _ _ VE Hi) as (e & He & Hok).
    apply retained_ok_view in Hok as (eo & m' & -> & [_ _ E3 E4 _ _ (gm & nm & E5 & E6 & E7)]).
    rewrite Forall_forall in Hc. apply list_elem_of_lookup_2 in He. apply jat_find in E3.
    apply (Hc _ He m' E3 _ _ Hval E4); [|done]. unfold identity. rewrite I1, I2, I3, Hgen, Hseq. cbn [mbind res_mbind].
    unfold at_integer in E5, E6. apply bind_Ok in E5 as (x & Ex & E5). apply bind_Ok in E6 as (y & Ey & E6).
    destruct x; try done. destruct y; try done. apply Ok_inj in E5 as ->, E6 as ->.
    intros H. symmetry in H. apply bind_Ok in H as (? & _ & H). apply bind_Ok in H as (? & _ & H).
    apply bind_Ok in H as (? & _ & H). rewrite Ex, Ey in H. cbn [mbind res_mbind] in H. apply Ok_inj in H.
    injection H. intros. lia.
Qed.

(** ** Streams *)

(** The file holds this ledger, and the constructor will accept it. *)
Record stored (binding : Json) (f : option entry) (l : Json) : Prop := {
  stored_file : exists t, f = Some (own_file t) /\ canonical l = Ok t /\ ssize t <= maximum_ledger;
  stored_check : check_ledger binding l = Ok tt;
  stored_fits : fits maximum_depth l }.
(** A stream that works: the ledger in memory is the one in the file. *)
Record working (binding : Json) (s : Stream) : Prop := {
  working_base : allocation (envelope s) = Ok binding;
  working_envelope : fits 2 (envelope s);
  working_live : poisoned s = false;
  working_next : stream_next s = None;
  working_stored : stored binding (stream_file s) (ledger s) }.
(** After an operation that may have committed [next]. *)
Definition outcome_of {A} (binding : Json) (s : Stream) (next : Json) (s' : Stream) (r : outcome A) : Prop :=
  envelope s' = envelope s /\
  (stored binding (stream_file s') (ledger s) \/ stored binding (stream_file s') next) /\
  match r with
  | Done _ => working binding s'
  | Thrown _ => ledger s' = ledger s /\ (s' = s \/ poisoned s' = true)
  | Stopped => True
  end.
Lemma ledger_commit_run binding s fate next :
  working binding s -> check_ledger binding next = Ok tt -> fits maximum_depth next ->
  let '(s', r) := ledger_commit fate next s in
  outcome_of binding s next s' r /\
  match r with Done _ => ledger s' = next /\ last_emit s' = last_emit s | _ => True end.
Proof.
  intros [H1 H2 H3 H4 H5] Hc Hf. unfold ledger_commit.
  destruct (canonical next) as [t|e] eqn:Et; [|by (split; [split; [done|split; [by left|by split; [|left]]]|])].
  destruct (maximum_ledger <? ssize t) eqn:Es; [by (split; [split; [done|split; [by left|by split; [|left]]]|])|].
  rewrite H4. assert (Hn : stored binding (Some (own_file t)) next).
  { constructor; [|done|done]. exists t. split_and!; [done|done|lia]. }
  destruct fate; cbn; (split; [split; [done|split; [by (left + right)|]]|done]); try done; first [by split; [|right]|by split; [|left]|idtac].
Qed.
Lemma view_pending_of binding o b g n p ks : view binding o b g n p ks -> pending_of (JObject o) = Ok p.
Proof. intros [_ _ _ _ _ _ _ _ H _ _ _]. unfold pending_of. by rewrite jat_object, H. Qed.
Lemma working_view binding s :
  working binding s -> exists o b g n p ks, ledger s = JObject o /\ obj_sorted o /\ view binding o b g n p ks /\
    pending_of (ledger s) = Ok p /\ Forall (fits (maximum_depth - 2)) p /\ fits maximum_depth (JObject o).
Proof.
  intros [_ _ _ _ [_ Hc Hf]]. apply check_ledger_view in Hc as (o & b & g & n & p & ks & E & Hv).
  exists o, b, g, n, p, ks. rewrite E in *. split_and!; try done.
  - by apply fits_object in Hf as [Hs _]; [|by vm_compute].
  - by eapply view_pending_of.
  - destruct Hv as [_ _ _ _ _ _ _ _ Vp _ _ _]. assert (Hp : fits (maximum_depth - 1) (JArray p)) by (eapply fits_find; [|exact Hf|exact Vp]; by vm_compute).
    apply fits_array in Hp; [|by vm_compute]. eapply Forall_impl; [exact Hp|]. intros x Hx.
    eapply fits_weaken; [exact Hx|]. by vm_compute.
Qed.
(** The ledgers the operations commit pass the check. *)
Lemma pending_checked binding o b g n p ks p' ks' :
  view binding o b g n p ks -> fits maximum_depth (JObject o) -> Forall (fits (maximum_depth - 2)) p' ->
  Z.of_nat (length p') <= maximum_pending -> Forall2 (retained_ok binding g n) p' ks' -> NoDup ks' ->
  check_ledger binding (JObject (obj_set "pending" (JArray p') o)) = Ok tt /\
  fits maximum_depth (JObject (obj_set "pending" (JArray p') o)).
Proof.
  intros Hv Hf Hp Hl HF Hd. apply fits_object in Hf as Hs; [|by vm_compute]. destruct Hs as [Hs _]. split.
  - apply check_ledger_view. eexists _, b, g, n, p', ks'. split; [reflexivity|]. by eapply view_set_pending.
  - apply fits_set; [by vm_compute|done|]. apply fits_array; [by vm_compute|]. eapply Forall_impl; [exact Hp|].
    intros x Hx. eapply fits_weaken; [exact Hx|]. by vm_compute.
Qed.

(** What an operation leaves, whatever became of its commit. *)
Definition left_by {A} (binding : Json) (s : Stream) (x : Stream * outcome A) : Prop :=
  exists next, outcome_of binding s next x.1 x.2.
Lemma left_same {A} binding s (r : outcome A) :
  working binding s -> match r with Stopped => False | _ => True end -> left_by binding s (s, r).
Proof.
  intros Hw Hr. exists (ledger s). split; [done|]. split; [left; apply Hw|]. destruct r; [done|by split; [|left]|done].
Qed.
(** The first entry, marked attempted. *)
Lemma first_attempted binding o b g n e p ks :
  view binding o b g n (e :: p) ks -> Forall (fits (maximum_depth - 2)) (e :: p) ->
  exists eo m a t, e = JObject eo /\ at_boolean "attempted" e = Ok a /\ obj_find "message" eo = Some m /\
    canonical m = Ok t /\ is_ok (validate m) = true /\
    Forall2 (retained_ok binding g n) (JObject (obj_set "attempted" (JBool true) eo) :: p) ks /\
    Forall (fits (maximum_depth - 2)) (JObject (obj_set "attempted" (JBool true) eo) :: p).
Proof.
  intros [_ _ _ _ _ _ _ _ _ _ HF _] Hp. inversion HF as [|? k ? ks' Hk HF']; subst. apply Forall_cons in Hp as [He Hp].
  pose proof Hk as (eo & m & -> & Hev)%retained_ok_view. pose proof Hev as [_ [a Ha] Hm Hval (t & Ht & _) _ _].
  exists eo, m, a, t. apply fits_object in He as Hs; [|by vm_compute]. destruct Hs as [Hs _]. split_and!; try done.
  - unfold at_boolean. rewrite jat_object, Ha. done.
  - by rewrite Hval.
  - constructor; [|done]. apply retained_ok_view. eexists _, m. split; [reflexivity|]. by apply entry_attempted.
  - constructor; [|done]. apply fits_set; [by vm_compute|done|]. apply fits_bool. by vm_compute.
Qed.
(** The stream's first entry is this message, it is marked attempted, and the file holds that. *)
Definition offered (binding : Json) (s : Stream) (text : string) : Prop :=
  working binding s /\ exists e rest m, pending_of (ledger s) = Ok (e :: rest) /\
    at_boolean "attempted" e = Ok true /\ jat "message" e = Ok m /\ canonical m = Ok text.
Lemma offer_run binding s fate :
  working binding s ->
  left_by binding s (stream_offer fate s) /\
  match stream_offer fate s with (s', Done (Some text)) => offered binding s' text | _ => True end.
Proof.
  intros Hw. destruct (working_view _ _ Hw) as (o & b & g & n & p & ks & El & Hs & Hv & Hp & Hpf & Hf).
  pose proof Hw as [_ _ Hlive _ _]. unfold stream_offer, mbind, ST_mbind, st_self, st_eval. rewrite Hlive.
  cbn [fail_if throw_if]. unfold fail_if. cbn [throw_if]. rewrite Hp.
  destruct p as [|e p]; [split; [by apply left_same|done]|].
  destruct (first_attempted _ _ _ _ _ _ _ _ Hv Hpf) as (eo & m & a & t & -> & Ha & Hm & Ht & _ & HF & Hpf').
  rewrite Ha. pose proof Hm as Hmj. apply jat_find in Hmj. destruct a.
  { cbn [mret ST_mret]. rewrite Hmj, Ht. split; [by apply left_same|]. split; [done|].
    exists (JObject eo), p, m. by split_and!. }
  cbn [object]. unfold set_pending. rewrite El. cbn [object mbind res_mbind].
  destruct (pending_checked binding o b g n _ ks _ ks Hv Hf Hpf') as [Hc Hfn]; [by destruct Hv|done|by destruct Hv|].
  pose proof (ledger_commit_run binding s fate _ Hw Hc Hfn) as H. set (next := JObject (obj_set "pending" _ o)) in *.
  destruct (ledger_commit fate next s) as [s' [u|x|]]; destruct H as [Ho Hl].
  - destruct Hl as [Hl _]. cbn [mret ST_mret]. rewrite jat_object, find_set_ne, <- jat_object by done. rewrite Hmj, Ht. cbn [mret ST_mret].
    split; [by exists next|]. split; [by apply Ho|]. eexists _, p, m. rewrite Hl. split_and!; [|..|exact Ht].
    + unfold pending_of, next. rewrite jat_object, find_set_eq. reflexivity.
    + unfold at_boolean. by rewrite jat_object, find_set_eq.
    + rewrite jat_object, find_set_ne by done. by rewrite Hm.
  - split; [by exists next|done].
  - split; [by exists next|done].
Qed.

(** The first entry was attempted with this text, and the response is its receipt. *)
Definition receipted (text response : string) (status : Z) (e : Json) : Prop :=
  at_boolean "attempted" e = Ok true /\ (status = 200 \/ status = 201) /\
  exists m, jat "message" e = Ok m /\ canonical m = Ok text /\ receipt_matches m status response = Ok true.
Lemma accept_run binding s fate text status response :
  working binding s ->
  left_by binding s (stream_accept fate text status response s) /\
  match stream_accept fate text status response s with
  | (s', Done true) => exists e rest, pending_of (ledger s) = Ok (e :: rest) /\
      receipted text response status e /\ pending_of (ledger s') = Ok rest
  | (s', Done false) => s' = s
  | _ => True
  end.
Proof.
  intros Hw. destruct (working_view _ _ Hw) as (o & b & g & n & p & ks & El & Hs & Hv & Hp & Hpf & Hf).
  pose proof Hw as [_ _ Hlive _ _]. unfold stream_accept, mbind, ST_mbind, st_self, st_eval. rewrite Hlive.
  unfold fail_if. cbn [throw_if].
  destruct (negb (status =? 200) && negb (status =? 201)) eqn:Est; [by split; [apply left_same|]|]. rewrite Hp.
  destruct p as [|e p]; [by split; [apply left_same|]|].
  destruct (first_attempted _ _ _ _ _ _ _ _ Hv Hpf) as (eo & m & a & t & -> & Ha & Hm & Ht & _ & _ & _).
  rewrite Ha. destruct a; [|by split; [apply left_same|]]. cbn [negb]. apply jat_find in Hm. rewrite Hm, Ht.
  destruct (negb (String.eqb t text)) eqn:Et; [by split; [apply left_same|]|].
  destruct (negb (catch_all (receipt_matches m status response) false)) eqn:Er; [by split; [apply left_same|]|].
  unfold set_pending. rewrite El. cbn [object mbind res_mbind].
  pose proof Hv as [_ _ _ _ _ _ _ _ _ Vl VF Vd]. inversion VF as [|? k ? ks' Hk HF]; subst.
  apply NoDup_cons in Vd as [_ Vd]. apply Forall_cons in Hpf as [_ Hpf].
  destruct (pending_checked binding o b g n _ _ p ks' Hv Hf Hpf) as [Hc Hfn]; [cbn in Vl; lia|done..|].
  pose proof (ledger_commit_run binding s fate _ Hw Hc Hfn) as H. set (next := JObject (obj_set "pending" _ o)) in *.
  destruct (ledger_commit fate next s) as [s' [u|x|]]; destruct H as [Ho Hl].
  - cbn [mret ST_mret]. split; [by exists next|]. exists (JObject eo), p. split; [done|]. split.
    + split; [done|]. split; [lia|]. exists m. apply negb_false_iff in Et, Er. apply String.eqb_eq in Et as <-.
      split_and!; [done..|]. destruct (receipt_matches m status response) as [[]|]; done.
    + destruct Hl as [-> _]. unfold pending_of, next. by rewrite jat_object, find_set_eq.
  - split; [by exists next|done].
  - split; [by exists next|done].
Qed.

(** The entries an addition keeps: in order, and all that were attempted. *)
Definition keeps (p kept : list Json) : Prop :=
  kept `sublist_of` p /\ (forall e, e ∈ p -> at_boolean "attempted" e = Ok true -> e ∈ kept) /\
  Z.of_nat (length kept) < maximum_pending.
Lemma kept_entries p kept :
  Z.of_nat (length p) <= maximum_pending ->
  room_for p = Ok (Some kept) -> keeps p kept.
Proof.
  unfold room_for. intros Hl H. destruct (_ =? _) eqn:E.
  - destruct (evict_sublist _ _ H) as [H1 H2]. split_and!; [done| |lia]. intros e Hin Ha.
    apply evict_unsent_Ok in H as (a & x & y & -> & -> & Hx). apply elem_of_app in Hin as [Hin|Hin]; [set_solver|].
    apply elem_of_cons in Hin as [->|Hin]; [congruence|set_solver].
  - apply Ok_inj in H as [= <-]. split_and!; [done|done|lia].
Qed.
(** No message of the stream collides with the one the content would make. *)
Definition fresh_identity (s : Stream) (c : Json) (wall : Z) : Prop :=
  forall bytes m p e m', canonical c = Ok bytes -> new_message (envelope s) (ledger s) c bytes wall = Ok m ->
    pending_of (ledger s) = Ok p -> e ∈ p -> jat "message" e = Ok m' -> no_collision m m'.
Lemma new_message_fits base l c bytes wall m :
  fits 2 base -> fits 2 c -> new_message base l c bytes wall = Ok m ->
  (forall g, jat "generation" l = Ok g -> fits 0 g) -> fits 3 m.
Proof.
  intros Hb Hc Hm Hg. apply new_message_fields in Hm as (o & n & g & k & t & -> & _ & _ & Hgj & _ & ->).
  apply Hg in Hgj. fits_tac.
Qed.
Lemma retained_fits d m t : fits (d - 1) m -> 1 <= d -> fits d (retained false m t).
Proof. intros Hm Hd. unfold retained. fits_tac. Qed.
(** What adding a message to the kept entries leaves. *)
Definition added (s s' : Stream) (c : Json) (mono : Z) (kept : list Json) : Prop :=
  exists m t n, at_integer "sequence" (ledger s) = Ok n /\ at_integer "sequence" (ledger s') = Ok (n + 1) /\
    jat "content" m = Ok c /\ canonical m = Ok t /\ jat "sequence" m = Ok (JInt (n + 1)) /\
    pending_of (ledger s') = Ok (kept ++ [retained false m t]) /\ last_emit s' = mono.
Lemma append_run binding s fate c bytes wall mono p kept :
  working binding s -> fits 2 c -> canonical c = Ok bytes -> fresh_identity s c wall ->
  pending_of (ledger s) = Ok p -> keeps p kept ->
  left_by binding s (append_message fate c bytes wall mono kept s) /\
  match append_message fate c bytes wall mono kept s with
  | (s', Done r) => r = true /\ added s s' c mono kept
  | _ => True
  end.
Proof.
  intros Hw Hcf Hcb Hfr Hp (Hsub & _ & Hlk).
  destruct (working_view _ _ Hw) as (o & b & g & n & p' & ks & El & Hs & Hv & Hp' & Hpf & Hf).
  assert (p' = p) as -> by congruence. clear Hp'. pose proof Hw as [Wb We _ _ _].
  unfold append_message, mbind, ST_mbind, st_self, st_eval, st_change.
  destruct (new_message (envelope s) (ledger s) c bytes wall) as [m|] eqn:Em; [|by split; [apply left_same|]].
  destruct (canonical m) as [t|] eqn:Et; [|by split; [apply left_same|]].
  pose proof Hv as [_ _ _ _ Vg Vgr Vn Rn _ _ VF Vd].
  destruct (new_entry_ok binding (envelope s) o b g n p ks c bytes wall m t Hv Wb) as (k & Hk & Hnk & Hseq & Hmax);
    [by rewrite <- El|done| |].
  { apply Forall_forall. intros e He m' Hm'. by eapply (Hfr bytes m p e m'). }
  rewrite Hseq, El. cbn [object].
  destruct (retained_sublist _ _ _ _ _ _ VF Hsub Vd) as (ks' & HF' & Hks & Hd').
  assert (Hv1 : view binding (obj_set "sequence" (JInt (n + 1)) o) b g (n + 1) p ks) by (apply (view_set_sequence _ _ _ _ n); [done|done|lia]).
  assert (Hf1 : fits maximum_depth (JObject (obj_set "sequence" (JInt (n + 1)) o)))
    by (apply fits_set; [by vm_compute|done|apply fits_int; by vm_compute]).
  assert (Hmf : fits 3 m).
  { eapply new_message_fits; [exact We|exact Hcf|exact Em|]. rewrite El. intros x Hx%jat_find. rewrite Vg in Hx.
    injection Hx as <-. apply fits_int. lia. }
  destruct (pending_checked binding _ b g (n + 1) p ks (kept ++ [retained false m t]) (ks' ++ [k]) Hv1 Hf1) as [Hc Hfn].
  { apply Forall_app. split.
    { rewrite Forall_forall in *. intros x Hx. by eapply Hpf, elem_of_sublist. }
    constructor; [|constructor].
    apply retained_fits; [|by vm_compute]. eapply fits_weaken; [exact Hmf|]. by vm_compute. }
  { rewrite length_app. cbn. lia. }
  { apply Forall2_app; [|by constructor]. eapply retained_later; [exact HF'|]. lia. }
  { apply NoDup_app. split; [done|]. split; [|apply NoDup_singleton]. intros x Hx Hx'.
    apply list_elem_of_singleton in Hx' as ->. apply Hnk. by eapply elem_of_sublist. }
  pose proof (ledger_commit_run binding s fate _ Hw Hc Hfn) as H.
  set (next := JObject (obj_set "pending" _ _)) in *.
  destruct (ledger_commit fate next s) as [s' [u|x|]]; destruct H as [Ho Hl]; cbn [mret ST_mret].
  - destruct Hl as [Hl _]. split.
    + exists next. destruct Ho as (O1 & O2 & [O3 O4 O5 O6 O7]). by (split; [|split; [|constructor]]).
    + split; [done|]. exists m, t, n. cbn [set_emitted ledger last_emit]. rewrite Hl, El. unfold at_integer, next, pending_of.
      rewrite !jat_object, Vn, find_set_ne, !find_set_eq by done. split_and!; try done.
      apply new_message_fields in Em as (bo & ? & ? & ? & ? & _ & _ & _ & _ & _ & ->).
      apply jat_find. by rewrite find_set_ne, find_set_eq by done.
  - split; [by exists next|done].
  - split; [by exists next|done].
Qed.
Lemma observe_run binding s fate c wall mono :
  working binding s -> fits 2 c -> fresh_identity s c wall ->
  left_by binding s (observe fate c wall mono s) /\
  match observe fate c wall mono s with
  | (s', Done true) => exists p kept, pending_of (ledger s) = Ok p /\ keeps p kept /\ added s s' c mono kept
  | (s', Done false) => s' = s
  | _ => True
  end.
Proof.
  intros Hw Hcf Hfr. destruct (working_view _ _ Hw) as (o & b & g & n & p & ks & _ & _ & Hv & Hp & _ & _).
  pose proof Hw as [_ _ Hlive _ _]. unfold observe, mbind, ST_mbind, st_self, st_eval. rewrite Hlive.
  unfold fail_if at 1. cbn [throw_if].
  destruct (at_string "serviceProfile" (envelope s)) as [profile|]; [|by split; [apply left_same|]].
  destruct (at_string "messageType" (envelope s)) as [ty|]; [|by split; [apply left_same|]].
  destruct (content_check profile (String.eqb ty brake_type) c) as [[]|]; [|by split; [apply left_same|]].
  destruct (canonical c) as [bytes|] eqn:Ec; [|by split; [apply left_same|]].
  destruct (too_soon s bytes mono); [by split; [apply left_same|]|]. rewrite Hp.
  destruct (room_for p) as [[kept|]|] eqn:Ek; [|by split; [apply left_same|]..].
  pose proof (kept_entries p kept (view_length _ _ _ _ _ _ _ Hv) Ek) as Hk.
  destruct (append_run binding s fate c bytes wall mono p kept Hw Hcf Ec Hfr Hp Hk) as [H1 H2]. split; [exact H1|].
  enough (X : match append_message fate c bytes wall mono kept s with
    | (s', Done true) => exists p0 kept, Ok p = Ok p0 /\ keeps p0 kept /\ added s s' c mono kept
    | (s', Done false) => s' = s | _ => True end) by exact X.
  destruct (append_message fate c bytes wall mono kept s) as [s' [r|x|]]; [|done..]. destruct H2 as [-> H2].
  exists p, kept. split; [reflexivity|]. split; [exact Hk|exact H2].
Qed.

(** ** Operations *)

Lemma left_working {A} binding s s' (a : A) : left_by binding s (s', Done a) -> working binding s'.
Proof. by intros (next & _ & _ & H). Qed.
Lemma offer_left binding s fate : working binding s -> left_by binding s (stream_offer fate s).
Proof. intros Hw. by apply offer_run. Qed.
Lemma observe_left binding s fate c wall mono :
  working binding s -> fits 2 c -> fresh_identity s c wall -> left_by binding s (observe fate c wall mono s).
Proof. intros Hw Hc Hf. by apply observe_run. Qed.
Inductive StreamOp :=
  | Observe (c : Json) (wall mono : Z)
  | Offer
  | Receive (text : string) (status : Z) (response : string).
Definition run_op (fate : Fate) (op : StreamOp) : ST unit :=
  match op with
  | Observe c wall mono => _ ← observe fate c wall mono; mret tt
  | Offer => _ ← stream_offer fate; mret tt
  | Receive t st r => _ ← stream_accept fate t st r; mret tt
  end.
(** What the worker observes is a snapshot, and digests of different identities differ. *)
Definition op_ok (s : Stream) (op : StreamOp) : Prop :=
  match op with Observe c wall _ => fits 2 c /\ fresh_identity s c wall | _ => True end.
Lemma left_discard {A} binding s (m : ST A) :
  left_by binding s (m s) -> left_by binding s ((_ ← m; mret tt) s).
Proof.
  unfold mbind, ST_mbind. destruct (m s) as [s' [a|e|]]; intros [next H]; exists next; exact H.
Qed.
Lemma poisoned_refuses fate op s : poisoned s = true -> run_op fate op s = (s, Thrown unavailable).
Proof.
  intros Hp. destruct op; cbn; unfold observe, stream_offer, stream_accept, mbind, ST_mbind, st_self, st_eval;
    rewrite Hp; reflexivity.
Qed.

(** C22: whatever an operation does and however its commit fares, the file holds a ledger that passes
    the constructor's check: the one before or the one that was to be committed.  An operation that
    returns leaves memory and file the same; one that throws leaves everything as it was or poisons
    the stream, which then refuses every operation. *)
Theorem stream_safe binding fate op s :
  working binding s -> op_ok s op ->
  let '(s', r) := run_op fate op s in
  (exists l, stored binding (stream_file s') l) /\
  match r with
  | Done _ => working binding s'
  | Thrown _ => s' = s \/ (poisoned s' = true /\ forall fate' op', run_op fate' op' s' = (s', Thrown unavailable))
  | Stopped => True
  end.
Proof.
  intros Hw Hop.
  assert (H : left_by binding s (run_op fate op s)).
  { destruct op; cbn [run_op op_ok] in *; apply left_discard.
    - apply observe_left; tauto.
    - by apply offer_left.
    - by apply accept_run. }
  destruct (run_op fate op s) as [s' r]. destruct H as (next & _ & Hf & Hr). cbn [fst snd] in *.
  split; [destruct Hf; by eexists|]. destruct r; [done| |done]. destruct Hr as [_ [->|Hp]]; [by left|right].
  split; [done|]. intros. by apply poisoned_refuses.
Qed.
(** Durable before sent.  What [next] hands out is the text of the first message, which is marked
    attempted in the file; nothing is handed out when that cannot be committed. *)
Theorem offer_durable binding fate s :
  working binding s ->
  match stream_offer fate s with
  | (s', Done (Some text)) => offered binding s' text
  | _ => True
  end.
Proof. intros Hw. apply (offer_run binding s fate Hw). Qed.
(** C0: [accept] returns [true] only for the receipt of the first message, when that was attempted
    with this text, and removes just it; whenever it returns [false] nothing changes. *)
Theorem accept_first binding fate text status response s :
  working binding s ->
  match stream_accept fate text status response s with
  | (s', Done true) => exists e rest, pending_of (ledger s) = Ok (e :: rest) /\
      receipted text response status e /\ pending_of (ledger s') = Ok rest
  | (s', Done false) => s' = s
  | _ => True
  end.
Proof. intros Hw. apply (accept_run binding s fate text status response Hw). Qed.
(** C24: [observe] never loses what may have been sent.  When it adds a message, the message is the
    last, takes the next sequence number and carries the content; the entries before it are in
    their order and include every attempted one; there are at most sixty-four.  When it returns
    [false] nothing changes. *)
Theorem observe_keeps_attempted binding fate c wall mono s :
  working binding s -> fits 2 c -> fresh_identity s c wall ->
  match observe fate c wall mono s with
  | (s', Done true) => exists p kept, pending_of (ledger s) = Ok p /\ keeps p kept /\ added s s' c mono kept
  | (s', Done false) => s' = s
  | _ => True
  end.
Proof. intros Hw Hc Hf. apply (observe_run binding s fate c wall mono Hw Hc Hf). Qed.

(** ** Opening *)

Lemma allocation_fits base binding : fits 2 base -> allocation base = Ok binding -> fits 2 binding.
Proof.
  unfold allocation. intros Hb H. apply bind_Ok in H as (u & Hu & H). apply bind_Ok in H as (t & Ht & H).
  apply bind_Ok in H as (b & Hbb & H). apply Ok_inj in H as <-.
  apply (fits_at 2) in Hu, Ht, Hbb; try done. apply fits_array; [lia|].
  repeat (apply Forall_cons; split; [assumption|]). by constructor.
Qed.
(** Opening on a ledger that loads and passes the check. *)
Lemma open_loaded base binding f n l g t :
  fits 2 base -> allocation base = Ok binding -> load_ledger f binding = Ok l -> check_ledger binding l = Ok tt ->
  fits maximum_depth l -> at_integer "generation" l = Ok g -> g < maximum_integer ->
  (next ← next_generation binding l; canonical next) = Ok t -> ssize t <= maximum_ledger ->
  exists s, open_stream Succeeds base f n = (s, Done tt) /\ working binding s /\
    at_integer "generation" (ledger s) = Ok (g + 1) /\ at_integer "sequence" (ledger s) = Ok 0 /\
    pending_of (ledger s) = pending_of l.
Proof.
  intros Hb Ha Hl Hc Hf Hg Hgm Ht Hs. apply check_ledger_view in Hc as Hv.
  destruct Hv as (o & b & g' & n' & p & ks & -> & Hv).
  pose proof Hv as [V1 V2 V3 V4 V5 V6 V7 V8 V9 V10 V11 V12].
  unfold at_integer in Hg. rewrite jat_object, V5 in Hg. apply Ok_inj in Hg as ->.
  unfold next_generation in Ht. unfold at_integer in Ht. rewrite jat_object, V5 in Ht.
  cbn [of_option mbind res_mbind integer] in Ht.
  assert (E : (g =? maximum_integer) = false) by lia. unfold fail_if in Ht. rewrite E in Ht.
  cbn [throw_if mbind res_mbind object] in Ht.
  set (next := JObject (obj_set "sequence" (JInt 0) (obj_set "generation" (JInt (g + 1)) (obj_set "binding" binding o)))) in *.
  apply fits_object in Hf as Hso; [|by vm_compute]. destruct Hso as [Hso _].
  assert (Hvn : view binding (obj_set "sequence" (JInt 0) (obj_set "generation" (JInt (g + 1)) (obj_set "binding" binding o)))
    binding (g + 1) 0 p ks).
  { eapply view_next_generation; [done|exact Hv|lia|]. by eapply same_allocation_right. }
  assert (Hcn : check_ledger binding next = Ok tt).
  { apply check_ledger_view. eexists _, binding, (g + 1), 0, p, ks. split; [reflexivity|done]. }
  assert (Hfn : fits maximum_depth next).
  { pose proof (allocation_fits _ _ Hb Ha) as Hbf.
    repeat (apply fits_set; [by vm_compute| |apply fits_int; by vm_compute]).
    apply fits_set; [by vm_compute|done|]. eapply fits_weaken; [exact Hbf|]. by vm_compute. }
  exists (set_ledger next (set_files (Some (own_file t)) None
    (set_files f None (set_ledger (JObject o) (MkStream f n base JNull false (-1) ""))))).
  split_and!.
  - unfold open_stream, mbind, ST_mbind, st_eval, st_change. rewrite Ha, Hl, Hc. unfold next_generation, at_integer.
    rewrite jat_object, V5. cbn [of_option mbind res_mbind integer]. unfold fail_if. rewrite E.
    cbn [throw_if mbind res_mbind object]. fold next. unfold ledger_commit. rewrite Ht.
    by replace (maximum_ledger <? ssize t) with false by lia.
  - constructor; try done. constructor; [|done|done]. exists t. by split_and!.
  - destruct Hvn as [_ _ _ _ W _ _ _ _ _ _ _]. unfold at_integer. cbn [ledger set_ledger]. unfold next. by rewrite jat_object, W.
  - destruct Hvn as [_ _ _ _ _ _ W _ _ _ _ _]. unfold at_integer. cbn [ledger set_ledger]. unfold next. by rewrite jat_object, W.
  - rewrite (view_pending_of _ _ _ _ _ _ _ Hv). cbn [ledger set_ledger]. by apply (view_pending_of _ _ _ _ _ _ _ Hvn).
Qed.
Lemma stored_loads binding f l : stored binding f l -> load_ledger f binding = Ok l.
Proof.
  intros [(t & -> & Ht & Hs) _ [Hw Hd]]. unfold load_ledger, read_ledger. cbn [private_entry own_file regular private content andb].
  pose proof (canonical_nonempty _ _ Ht) as Hpos. replace (0 <? ssize t) with true by lia.
  replace (ssize t <=? maximum_ledger) with true by lia. cbn [andb mbind res_mbind]. unfold parse_json.
  replace (maximum_ledger <? ssize t) with false by lia. by apply parse_canonical.
Qed.
(** C23: a restart keeps the stream.  On the file any operation leaves, with whatever temporary a stop
    or a failed cleanup left beside it, the constructor opens in the next generation from sequence zero with every
    retained message, unless generations are exhausted or the ledger has no room for the number. *)
Theorem stream_reopens base binding f n l g t :
  stored binding f l -> fits 2 base -> allocation base = Ok binding -> at_integer "generation" l = Ok g ->
  g < maximum_integer -> (next ← next_generation binding l; canonical next) = Ok t -> ssize t <= maximum_ledger ->
  exists s, open_stream Succeeds base f n = (s, Done tt) /\ working binding s /\
    at_integer "generation" (ledger s) = Ok (g + 1) /\ at_integer "sequence" (ledger s) = Ok 0 /\
    pending_of (ledger s) = pending_of l.
Proof.
  intros Hst Hb Ha Hg Hm Ht Hs. pose proof (stored_loads _ _ _ Hst) as Hl. destruct Hst as [_ Hc Hf].
  by eapply (open_loaded base binding f n l g t).
Qed.

(** ** Witnesses: a first opening, an observation, its sending and its receipt *)

Definition sample_base : Json :=
  JObject (obj_of
    [("messageType", JString tire_type); ("unitSystemUid", JString (unit_system_uid sample_metadata));
     ("unitRole", JString (unit_role sample_metadata)); ("serviceVersion", JString (service_version sample_metadata));
     ("serviceProfile", JString "v1"); ("serviceInstance", JObject (instance_object sample_instance))]%string).
Definition sample_binding : Json :=
  JArray [JString (unit_system_uid sample_metadata); JString tire_type; JObject (instance_object sample_instance)].
Definition sample_content : Json := catch_all (snapshot 0 false (initial_facts true)) JNull.
Definition sample_wall : Z := 1767225600000.
Definition sample_stream : Stream := (open_stream Succeeds sample_base None (Some "torn"%string)).1.
Definition sample_observed : Stream := (observe Succeeds sample_content sample_wall 10 sample_stream).1.
Definition sample_offered : Stream := (stream_offer Succeeds sample_observed).1.
Definition offered_text (r : outcome (option string)) : string :=
  match r with Done (Some t) => t | _ => EmptyString end.
Definition sample_text : string := offered_text (stream_offer Succeeds sample_observed).2.
Definition sample_receipt : string :=
  catch_all (m ← parse_json sample_text 8192; k ← validate m; h ← jat "contentSha256" m;
    canonical (JObject (obj_of
      [("schemaVersion", JInt 1); ("contractVersion", JString "1.0.0"); ("receiptId", JString "6ba7b810-9dad-11d1-80b4-00c04fd430c8");
       ("messageKeySha256", JString k); ("contentSha256", h); ("state", JString "DURABLE_ACCEPTED");
       ("receivedAt", JString "2026-01-01T00:00:00.000Z")]%string))) EmptyString.
Lemma sample_instance_fits d : 1 <= d -> fits d (JObject (instance_object sample_instance)).
Proof. apply instance_fits. Qed.
Lemma sample_base_fits : fits 2 sample_base.
Proof. pose proof (sample_instance_fits 1 ltac:(lia)). unfold sample_base. fits_tac. Qed.
Lemma sample_allocation : allocation sample_base = Ok sample_binding.
Proof. vm_compute. reflexivity. Qed.
Lemma sample_first_fits : fits maximum_depth (ledger_json sample_binding 0 0 []).
Proof.
  apply (fits_weaken 3); [|by vm_compute]. pose proof (sample_instance_fits 1 ltac:(lia)).
  assert (fits 2 sample_binding).
  { apply fits_array; [lia|]. repeat (apply Forall_cons; split; [fits_tac|]). by constructor. }
  assert (fits 2 (JArray [])) by (apply fits_array; [lia|constructor]). unfold ledger_json. fits_tac.
Qed.
Lemma sample_opened : open_stream Succeeds sample_base None (Some "torn"%string) = (sample_stream, Done tt) /\
  working sample_binding sample_stream /\ pending_of (ledger sample_stream) = Ok [].
Proof.
  destruct (open_loaded sample_base sample_binding None (Some "torn"%string) (ledger_json sample_binding 0 0 []) 0
    (catch_all (next ← next_generation sample_binding (ledger_json sample_binding 0 0 []); canonical next) EmptyString)
    sample_base_fits sample_allocation) as (s & E & H & _ & _ & Hp);
    [reflexivity|vm_compute; reflexivity|exact sample_first_fits|vm_compute; reflexivity|by vm_compute
    |vm_compute; reflexivity|vm_compute; discriminate|].
  unfold sample_stream. rewrite E. split; [reflexivity|split; [exact H|]]. cbn [fst]. rewrite Hp. reflexivity.
Qed.
Lemma sample_content_fits : fits 2 sample_content.
Proof.
  split; [|vm_compute; discriminate].
  assert (H : parse_json (catch_all (canonical sample_content) EmptyString) 8192 = Ok sample_content) by (vm_compute; reflexivity).
  apply fits_parse in H. by destruct H.
Qed.
Lemma sample_fresh_identity : fresh_identity sample_stream sample_content sample_wall.
Proof.
  destruct sample_opened as (_ & _ & Hp). intros bytes m p e m' _ _ H He. rewrite Hp in H. apply Ok_inj in H as <-. by apply elem_of_nil in He.
Qed.
Lemma observe_keeps_attempted_witness :
  exists s', observe Succeeds sample_content sample_wall 10 sample_stream = (s', Done true) /\
    exists kept, keeps [] kept /\ added sample_stream s' sample_content 10 kept.
Proof.
  destruct sample_opened as (_ & Hw & Hp).
  pose proof (observe_keeps_attempted sample_binding Succeeds sample_content sample_wall 10 sample_stream Hw
    sample_content_fits sample_fresh_identity) as H.
  destruct (observe Succeeds sample_content sample_wall 10 sample_stream) as [s' r] eqn:E.
  assert (X : r = Done true) by (change r with (s', r).2; rewrite <- E; vm_compute; reflexivity). subst r.
  destruct H as (p & kept & H1 & H2 & H3). rewrite Hp in H1. apply Ok_inj in H1 as <-.
  exists s'. split; [reflexivity|]. exists kept. split; [exact H2|exact H3].
Defined.
Lemma sample_observe_run : observe Succeeds sample_content sample_wall 10 sample_stream = (sample_observed, Done true).
Proof.
  unfold sample_observed. destruct (observe _ _ _ _ sample_stream) as [s' r] eqn:E. f_equal.
  change r with (s', r).2. rewrite <- E. vm_compute. reflexivity.
Qed.
Lemma sample_observed_working : working sample_binding sample_observed.
Proof.
  destruct sample_opened as (_ & Hw & _).
  apply (left_working sample_binding sample_stream sample_observed true). rewrite <- sample_observe_run.
  exact (observe_left _ _ _ _ _ _ Hw sample_content_fits sample_fresh_identity).
Qed.
Lemma sample_offer_run : stream_offer Succeeds sample_observed = (sample_offered, Done (Some sample_text)).
Proof.
  unfold sample_offered, sample_text. destruct (stream_offer Succeeds sample_observed) as [s' r] eqn:E. f_equal.
  assert (X : match r with Done (Some _) => True | _ => False end) by (change r with (s', r).2; rewrite <- E; vm_compute; exact I).
  destruct r as [[t|]|e|]; [reflexivity|destruct X..].
Qed.
Lemma offer_durable_witness : offered sample_binding sample_offered sample_text.
Proof.
  pose proof (offer_durable sample_binding Succeeds sample_observed sample_observed_working) as H.
  rewrite sample_offer_run in H. exact H.
Defined.
Lemma sample_offered_working : working sample_binding sample_offered.
Proof.
  apply (left_working sample_binding sample_observed sample_offered (Some sample_text)). rewrite <- sample_offer_run.
  exact (offer_left _ _ _ sample_observed_working).
Qed.
Lemma accept_first_witness :
  exists s' e rest, stream_accept Succeeds sample_text 201 sample_receipt sample_offered = (s', Done true) /\
    receipted sample_text sample_receipt 201 e /\ pending_of (ledger s') = Ok rest.
Proof.
  pose proof (accept_first sample_binding Succeeds sample_text 201 sample_receipt sample_offered sample_offered_working) as H.
  destruct (stream_accept Succeeds sample_text 201 sample_receipt sample_offered) as [s' r] eqn:E.
  assert (X : r = Done true) by (change r with (s', r).2; rewrite <- E; vm_compute; reflexivity). subst r.
  destruct H as (e & rest & _ & H2 & H3). exists s', e, rest. split; [reflexivity|split; [exact H2|exact H3]].
Defined.
(** The sync fails: the file has the new ledger, the stream is poisoned. *)
Lemma stream_safe_witness :
  let s' := (run_op SyncFails Offer sample_observed).1 in
  poisoned s' = true /\ exists l, stored sample_binding (stream_file s') l.
Proof.
  pose proof (stream_safe sample_binding SyncFails Offer sample_observed sample_observed_working I) as H.
  cbv zeta. split; [vm_compute; reflexivity|]. destruct (run_op SyncFails Offer sample_observed) as [s' r]. exact (proj1 H).
Defined.
Lemma stream_reopens_witness :
  exists s, open_stream Succeeds sample_base (stream_file sample_observed) None = (s, Done tt) /\
    at_integer "generation" (ledger s) = Ok 2 /\ pending_of (ledger s) = pending_of (ledger sample_observed).
Proof.
  destruct (stream_reopens sample_base sample_binding (stream_file sample_observed) None (ledger sample_observed) 1
    (catch_all (next ← next_generation sample_binding (ledger sample_observed); canonical next) EmptyString)
    (working_stored _ _ sample_observed_working) sample_base_fits sample_allocation) as (s & H1 & _ & H2 & _ & H3);
    [vm_compute; reflexivity|by vm_compute|vm_compute; reflexivity|vm_compute; discriminate|].
  exists s. split; [exact H1|split; [exact H2|exact H3]].
Defined.
