(* ===== verification/FactsSpec.v ===== *)
(** * What the snapshot of the function keeps

    The contract of [FunctionFacts] with the stream: whatever its setters are given from the
    vocabulary, the snapshot passes the check of an observation's content, so [observe] does not
    refuse it. *)
From Stdlib Require Import ZArith Lia Bool Ascii String.
From stdpp Require Import gmap strings list.
From S2P Require Import Prelude Chars Sha256 Uuid Json JsonFacts Time Protocol Identity Messages Fits Store StoreFacts OutboxFacts Observation Ledger LedgerSpec.
Local Open Scope Z_scope.

(** ** The content, field by field *)

Definition content_keys : list string := ["connection"; "input"; "activity"; "delivery"; "advisory"; "lastResult"]%string.
(** The check of each field, for a service with advisories. *)
Definition field_check (k : string) (v : Json) : res unit :=
  if String.eqb k "connection" then pick connections v
  else if String.eqb k "input" then check_input v
  else if String.eqb k "activity" then check_activity v
  else if String.eqb k "delivery" then check_delivery v
  else if String.eqb k "advisory" then check_advisory "v1" false v
  else unless_null check_result v.
Definition field_ok (o : Object) (k : string) : Prop := exists v, obj_find k o = Some v /\ field_check k v = Ok tt.
Lemma content_fields o :
  content_check "v1" false (JObject o) = Ok tt <->
  keys content_keys (JObject o) = Ok tt /\ Forall (field_ok o) content_keys.
Proof.
  unfold content_check. change ["connection"; "input"; "activity"; "delivery"; "advisory"; "lastResult"]%string with content_keys.
  assert (F : forall k (f : Json -> res unit) (r : res unit), field_check k = f ->
    (v ← jat k (JObject o); _ ← f v; r) = Ok tt <-> field_ok o k /\ r = Ok tt).
  { intros k f r <-. split.
    - intros (v & Hv%jat_find & H)%bind_Ok. apply bind_Ok in H as ([] & Hc & H). split; [by exists v|done].
    - intros [(v & Hv & Hc) ->]. apply jat_find in Hv. by rewrite Hv; cbn [mbind res_mbind]; rewrite Hc. }
  assert (F' : (v ← jat "lastResult" (JObject o); unless_null check_result v) = Ok tt <-> field_ok o "lastResult").
  { split.
    - intros (v & Hv%jat_find & H)%bind_Ok. by exists v.
    - intros (v & Hv & Hc). apply jat_find in Hv. by rewrite Hv. }
  unfold content_keys at 3. rewrite !Forall_cons.
  destruct (keys content_keys (JObject o)) as [[]|e]; cbn [mbind res_mbind]; [|naive_solver].
  rewrite (F "connection"%string _ _ eq_refl), (F "input"%string _ _ eq_refl), (F "activity"%string _ _ eq_refl),
    (F "delivery"%string _ _ eq_refl), (F "advisory"%string _ _ eq_refl), F'.
  rewrite Forall_nil. tauto.
Qed.
(** A snapshot value: its fields pass their checks, its objects are ordered. *)
Definition typed (j : Json) : Prop :=
  exists o d, j = JObject o /\ obj_sorted o /\ obj_find "delivery" o = Some (JObject d) /\ obj_sorted d /\
    content_check "v1" false j = Ok tt.
Lemma content_set k v o :
  obj_sorted o -> k ∈ content_keys -> field_check k v = Ok tt ->
  content_check "v1" false (JObject o) = Ok tt -> content_check "v1" false (JObject (obj_set k v o)) = Ok tt.
Proof.
  rewrite !content_fields. intros Hs Hk Hv [H1 H2]. split; [by apply keys_set|]. eapply Forall_impl; [exact H2|].
  intros k' (v' & Hf & Hc). unfold field_ok. destruct (decide (k' = k)) as [->|Hn].
  - exists v. by rewrite find_set_eq.
  - exists v'. by rewrite find_set_ne.
Qed.
Lemma typed_set k v j :
  typed j -> k ∈ ["connection"; "input"; "activity"; "advisory"; "lastResult"]%string -> field_check k v = Ok tt ->
  exists o, j = JObject o /\ typed (JObject (obj_set k v o)).
Proof.
  intros (o & d & -> & Hs & Hd & Hsd & Hc) Hk Hv. exists o. split; [done|]. exists (obj_set k v o), d.
  split_and!; [done|by apply set_sorted| |done|apply content_set; [done|set_solver|done|done]].
  rewrite find_set_ne; [done|]. intros <-. set_solver.
Qed.

(** ** The operations *)

Definition id_ok (id : option string) : Prop := match id with Some s => native_identifier s = true | None => True end.
Inductive FactsOp :=
  | SetInput (connection state reason : string)
  | SetActivity (state reason : string) (id : option string)
  | Interrupt (reason : string)
  | SetAdvisory (state : string) (request : option string)
  | SetResult (kind id source version : string)
  | SetDelivery (accepted : bool) (status : Z) (receipt : string).
Definition run_facts (op : FactsOp) (j : Json) : res Json :=
  match op with
  | SetInput c s r => facts_input c s r j
  | SetActivity s r id => facts_activity s r id j
  | Interrupt r => facts_interruption r j
  | SetAdvisory s r => facts_advisory true s r j
  | SetResult k i s v => facts_result k i s v j
  | SetDelivery a s r => facts_delivery a s r j
  end.
(** Arguments from the vocabulary. *)
Definition vocabulary (op : FactsOp) : Prop :=
  match op with
  | SetInput c s r => c ∈ connections /\ s ∈ input_states /\ r ∈ input_reasons /\ (s = "RECEIVING" <-> r = "NONE")%string
  | SetActivity s r id => s ∈ activity_states /\ r ∈ activity_reasons /\ id_ok id /\ (s = "SKIPPED" -> r <> "NONE")%string
  | Interrupt r => r ∈ activity_reasons /\ r <> "NONE"%string
  | SetAdvisory s r => s ∈ advisory_states /\ s <> "NOT_SUPPORTED"%string /\ id_ok r /\ (s = "CONFIRMED"%string -> r <> None)
  | SetResult k i s v => k ∈ ["WINDOW"; "ASSESSMENT"]%string /\ native_identifier i = true /\
      check_instant (JString s) = Ok tt /\ check_version (JString v) = Ok tt
  | SetDelivery _ _ _ => True
  end.
Lemma pick_string values s : s ∈ values -> pick values (JString s) = Ok tt.
Proof. intros H. unfold pick. cbn [jstring mbind res_mbind]. apply find_string_In in H. by rewrite H. Qed.
Lemma check_id_string s : native_identifier s = true -> check_id (JString s) = Ok tt.
Proof. intros H. unfold check_id. cbn [jstring mbind res_mbind]. by rewrite H. Qed.
Lemma id_checked id : id_ok id -> unless_null check_id (id_json id) = Ok tt.
Proof. destruct id as [s|]; [|done]. cbn. intros H. by apply check_id_string. Qed.
Lemma input_checked s r :
  s ∈ input_states -> r ∈ input_reasons -> (s = "RECEIVING" <-> r = "NONE")%string -> check_input (facts_input_json s r) = Ok tt.
Proof.
  intros H1 H2 H3. unfold check_input, facts_input_json. rewrite (proj2 (keys_Ok _ _)) by (split; [done|repeat constructor; by eexists]).
  cbn [mbind res_mbind]. rewrite !jat_object, !find_obj_of. cbn [obj_find String.eqb Ascii.eqb Bool.eqb of_option mbind res_mbind].
  rewrite !pick_string by done. unfold at_string. rewrite !jat_object, !find_obj_of.
  cbn [obj_find String.eqb Ascii.eqb Bool.eqb of_option mbind res_mbind jstring].
  destruct (String.eqb_spec s "RECEIVING"), (String.eqb_spec r "NONE"); try done; exfalso; tauto.
Qed.
Lemma activity_checked s r id :
  s ∈ activity_states -> r ∈ activity_reasons -> id_ok id -> (s = "SKIPPED" -> r <> "NONE")%string ->
  check_activity (activity_json s r id) = Ok tt.
Proof.
  intros H1 H2 H3 H4. unfold check_activity, activity_json. rewrite (proj2 (keys_Ok _ _)) by (split; [done|repeat constructor; by eexists]).
  cbn [mbind res_mbind]. rewrite !jat_object, !find_obj_of. cbn [obj_find String.eqb Ascii.eqb Bool.eqb of_option mbind res_mbind].
  rewrite !pick_string by done. cbn [mbind res_mbind]. rewrite id_checked by done. unfold at_string. rewrite !jat_object, !find_obj_of.
  cbn [obj_find String.eqb Ascii.eqb Bool.eqb of_option mbind res_mbind jstring].
  destruct (String.eqb_spec s "SKIPPED") as [->|]; [|done]. destruct (String.eqb_spec r "NONE") as [->|]; [|done]. by destruct H4.
Qed.
Lemma advisory_checked s id :
  s ∈ advisory_states -> s <> "NOT_SUPPORTED"%string -> id_ok id -> (s = "CONFIRMED"%string -> id <> None) ->
  check_advisory "v1" false (advisory_json s id) = Ok tt.
Proof.
  intros H1 H2 H3 H4. unfold check_advisory, advisory_json. rewrite (proj2 (keys_Ok _ _)) by (split; [done|repeat constructor; by eexists]).
  cbn [mbind res_mbind]. rewrite !jat_object, !find_obj_of. cbn [obj_find String.eqb Ascii.eqb Bool.eqb of_option mbind res_mbind].
  rewrite !pick_string by done. cbn [mbind res_mbind]. rewrite id_checked by done. unfold at_string. rewrite !jat_object, !find_obj_of.
  cbn [obj_find String.eqb Ascii.eqb Bool.eqb of_option mbind res_mbind jstring andb].
  assert (E : String.eqb s "CONFIRMED" && is_null (id_json id) = false).
  { destruct (String.eqb_spec s "CONFIRMED") as [->|]; [|done]. destruct id; [done|]. by destruct H4. }
  rewrite E. unfold fail_if at 1. cbn [throw_if mbind res_mbind]. by destruct (String.eqb_spec s "NOT_SUPPORTED").
Qed.
Lemma result_checked k i s v :
  k ∈ ["WINDOW"; "ASSESSMENT"]%string -> native_identifier i = true -> check_instant (JString s) = Ok tt ->
  check_version (JString v) = Ok tt ->
  check_result (JObject (obj_of [("kind", JString k); ("id", JString i); ("sourceTime", JString s); ("serviceVersion", JString v)]%string)) = Ok tt.
Proof.
  intros H1 H2 H3 H4. unfold check_result. rewrite (proj2 (keys_Ok _ _)) by (split; [done|repeat constructor; by eexists]).
  cbn [mbind res_mbind]. rewrite !jat_object, !find_obj_of. cbn [obj_find String.eqb Ascii.eqb Bool.eqb of_option mbind res_mbind].
  rewrite pick_string by done. cbn [mbind res_mbind]. rewrite check_id_string by done. cbn [mbind res_mbind]. by rewrite H3, H4.
Qed.

(** ** The delivery object *)

Definition delivery_keys : list string := ["state"; "queuedMessages"; "lastReceiptAt"]%string.
Definition delivery_field (k : string) (v : Json) : res unit :=
  if String.eqb k "state" then pick delivery_states v
  else if String.eqb k "queuedMessages" then check_integer false v else unless_null check_instant v.
Definition delivery_ok (d : Object) : Prop :=
  obj_sorted d /\ keys delivery_keys (JObject d) = Ok tt /\
  Forall (fun k => exists v, obj_find k d = Some v /\ delivery_field k v = Ok tt) delivery_keys.
Lemma delivery_fields d :
  check_delivery (JObject d) = Ok tt <->
  keys delivery_keys (JObject d) = Ok tt /\
  Forall (fun k => exists v, obj_find k d = Some v /\ delivery_field k v = Ok tt) delivery_keys.
Proof.
  unfold check_delivery. change ["state"; "queuedMessages"; "lastReceiptAt"]%string with delivery_keys.
  unfold delivery_keys at 3. rewrite !Forall_cons, Forall_nil.
  destruct (keys delivery_keys (JObject d)) as [[]|e]; cbn [mbind res_mbind]; [|naive_solver]. rewrite !jat_object. split.
  - destruct (obj_find "state" d) as [v|]; [|done]. cbn [of_option mbind res_mbind].
    intros ([] & H1 & H)%bind_Ok. destruct (obj_find "queuedMessages" d) as [n|]; [|done]. cbn [of_option mbind res_mbind] in H.
    apply bind_Ok in H as ([] & H2 & H). destruct (obj_find "lastReceiptAt" d) as [t|]; [|done]. cbn [of_option mbind res_mbind] in H.
    split_and!; [done|by exists v|by exists n|by exists t|done].
  - intros (_ & (v & -> & H1) & (n & -> & H2) & (t & -> & H3) & _). cbn [of_option mbind res_mbind].
    cbn in H1, H2, H3. rewrite H1. cbn [mbind res_mbind]. rewrite H2. cbn [mbind res_mbind]. exact H3.
Qed.
Lemma delivery_set k v d : delivery_ok d -> k ∈ delivery_keys -> delivery_field k v = Ok tt -> delivery_ok (obj_set k v d).
Proof.
  intros (Hs & Hk & Hf) Hin Hv. split; [by apply set_sorted|]. split; [by apply keys_set|].
  eapply Forall_impl; [exact Hf|]. intros k' (v' & H & Hc). destruct (decide (k' = k)) as [->|Hn].
  - exists v. by rewrite find_set_eq.
  - exists v'. by rewrite find_set_ne.
Qed.
(** A snapshot and its delivery object. *)
Lemma typed_delivery j :
  typed j -> exists o d, j = JObject o /\ obj_at "delivery" o = Ok (JObject d) /\ delivery_ok d /\
    forall d', delivery_ok d' -> typed (JObject (obj_set "delivery" (JObject d') o)).
Proof.
  intros (o & d & -> & Hs & Hd & Hsd & Hc). exists o, d. split; [done|]. split; [by unfold obj_at; rewrite Hd|].
  assert (Hok : delivery_ok d).
  { split; [done|]. apply delivery_fields. apply content_fields in Hc as [_ Hf]. rewrite Forall_forall in Hf.
    destruct (Hf "delivery"%string ltac:(set_solver)) as (v & Hv & Hc). rewrite Hd in Hv. injection Hv as <-. exact Hc. }
  split; [done|]. intros d' (Hs' & Hd'). exists (obj_set "delivery" (JObject d') o), d'.
  split_and!; [done|by apply set_sorted|by rewrite find_set_eq|done|].
  apply content_set; [done|set_solver| |done]. apply delivery_fields. exact Hd'.
Qed.
Lemma receipt_time_instant r t : receipt_time r = Some t -> check_instant t = Ok tt.
Proof.
  unfold receipt_time. destruct (_ ≫= _) as [v|e] eqn:E; [|done]. intros [= <-].
  apply bind_Ok in E as (a & _ & E). apply bind_Ok in E as (u & _ & E). apply bind_Ok in E as ([] & E & [= <-]). exact E.
Qed.
Lemma instant_unless t : check_instant t = Ok tt -> unless_null check_instant t = Ok tt.
Proof. intros H. unfold unless_null. by destruct (is_null t). Qed.
Lemma delivery_typed a st r j : typed j -> exists j', facts_delivery a st r j = Ok j' /\ typed j'.
Proof.
  intros (o & d & -> & Hd & Hok & Hset)%typed_delivery. unfold facts_delivery. cbn [object mbind res_mbind]. rewrite Hd.
  cbn [object mbind res_mbind]. eexists. split; [reflexivity|]. apply Hset.
  assert (H1 : forall s, s ∈ delivery_states -> delivery_ok (obj_set "state" (JString s) d)).
  { intros s Hs. apply delivery_set; [done|set_solver|by apply pick_string]. }
  destruct a.
  - destruct (receipt_time r) as [t|] eqn:Et; [|apply H1; set_solver]. apply receipt_time_instant in Et.
    apply delivery_set; [apply H1; set_solver|set_solver|by apply instant_unless].
  - apply H1. destruct (_ || _); set_solver.
Qed.
(** The activity of a snapshot: its phase, and an identifier or none. *)
Lemma activity_view a :
  check_activity a = Ok tt -> exists ph id v, at_string "state" a = Ok ph /\ jat "episodeId" a = Ok v /\ v = id_json id /\ id_ok id.
Proof.
  unfold check_activity. intros H. apply bind_Ok in H as ([] & _ & H). apply bind_Ok in H as (sv & Hsv & H).
  apply bind_Ok in H as ([] & Hp & H). apply bind_Ok in H as (rv & _ & H). apply bind_Ok in H as ([] & _ & H).
  apply bind_Ok in H as (v & Hv & H). apply bind_Ok in H as ([] & Hid & _). unfold pick in Hp. apply bind_Ok in Hp as (ph & Hph & _).
  exists ph. unfold unless_null in Hid. destruct (is_null v) eqn:En.
  - exists None, v. split_and!; [unfold at_string; by rewrite Hsv|done|by destruct v|done].
  - unfold check_id in Hid. apply bind_Ok in Hid as (ix & Hix & Hid%fail_if_Ok). apply negb_false_iff in Hid.
    exists (Some ix), v. split_and!; [unfold at_string; by rewrite Hsv|done| |done]. destruct v; try done. by injection Hix as <-.
Qed.
Lemma activity_typed s r id j :
  typed j -> s ∈ activity_states -> r ∈ activity_reasons -> id_ok id -> (s = "SKIPPED" -> r <> "NONE")%string ->
  exists j', facts_activity s r id j = Ok j' /\ typed j'.
Proof.
  intros Hj H1 H2 H3 H4. destruct (typed_set "activity" (activity_json s r id) j Hj) as (o & -> & H);
    [set_solver|by apply activity_checked|]. by eexists.
Qed.
Lemma interruption_typed r j :
  typed j -> r ∈ activity_reasons -> r <> "NONE"%string -> exists j', facts_interruption r j = Ok j' /\ typed j'.
Proof.
  intros Hj H1 H2. pose proof Hj as (o & d & -> & _ & _ & _ & Hc). apply content_fields in Hc as [_ Hf]. rewrite Forall_forall in Hf.
  destruct (Hf "activity"%string ltac:(set_solver)) as (a & Ha & Hca). destruct (activity_view a Hca) as (ph & id & v & Hph & Hv & -> & Hid).
  unfold facts_interruption. apply jat_find in Ha. rewrite Ha. cbn [mbind res_mbind]. rewrite Hph. cbn [mbind res_mbind].
  destruct (find_string ph _); [|by eexists]. rewrite Hv. cbn [mbind res_mbind].
  destruct id as [s|]; cbn [id_json is_null jstring mbind res_mbind]; by apply activity_typed; [..|set_solver| | |].
Qed.
Lemma run_facts_typed op j : typed j -> vocabulary op -> exists j', run_facts op j = Ok j' /\ typed j'.
Proof.
  intros Hj Hv. assert (Hset : forall k v, k ∈ ["connection"; "input"; "activity"; "advisory"; "lastResult"]%string ->
    field_check k v = Ok tt -> exists o, j = JObject o /\ typed (JObject (obj_set k v o))) by (intros k v; by apply typed_set).
  destruct op as [c s r|s r id|r|s r|k i s v|a st r]; cbn [run_facts vocabulary] in *.
  - destruct Hv as (H1 & H2 & H3 & H4). destruct (Hset "connection"%string (JString c)) as (o & -> & H); [set_solver|by apply pick_string|].
    destruct (typed_set "input" (facts_input_json s r) _ H) as (o' & E & H'); [set_solver|by apply input_checked|].
    injection E as <-. by eexists.
  - destruct Hv as (H1 & H2 & H3 & H4). by apply activity_typed.
  - destruct Hv as [H1 H2]. by apply interruption_typed.
  - destruct Hv as (H1 & H2 & H3 & H4). destruct (Hset "advisory"%string (advisory_json s r)) as (o & -> & H); [set_solver|by apply advisory_checked|].
    by eexists.
  - destruct Hv as (H1 & H2 & H3 & H4). pose proof (result_checked k i s v H1 H2 H3 H4) as R.
    match type of R with check_result ?x = _ => destruct (Hset "lastResult"%string x ltac:(set_solver) R) as (o & -> & H) end. by eexists.
  - by apply delivery_typed.
Qed.
Lemma snapshot_typed queued blocked j :
  typed j -> 0 <= queued <= maximum_integer -> exists c, snapshot queued blocked j = Ok c /\ typed c.
Proof.
  intros (o & d & -> & Hd & Hok & Hset)%typed_delivery Hq. unfold snapshot. cbn [object mbind res_mbind]. rewrite Hd.
  cbn [object mbind res_mbind].
  assert (H1 : delivery_ok (obj_set "queuedMessages" (JInt queued) d)).
  { apply delivery_set; [done|set_solver|]. apply check_integer_Ok. by eexists. }
  assert (H2 : forall s, s ∈ delivery_states -> delivery_ok (obj_set "state" (JString s) (obj_set "queuedMessages" (JInt queued) d))).
  { intros s Hs. apply delivery_set; [done|set_solver|by apply pick_string]. }
  destruct blocked; [eexists; split; [reflexivity|apply Hset, H2; set_solver]|].
  destruct (queued =? 0); [eexists; split; [reflexivity|apply Hset, H2; set_solver]|].
  destruct H1 as (Hs1 & Hk1 & Hf1). pose proof Hf1 as Hf. rewrite Forall_forall in Hf.
  destruct (Hf "state"%string ltac:(set_solver)) as (v & Hv & Hc). unfold obj_at. rewrite Hv. cbn [of_option mbind res_mbind].
  cbn in Hc. unfold pick in Hc. apply bind_Ok in Hc as (st & -> & _). cbn [mbind res_mbind].
  destruct (String.eqb st "IDLE"); (eexists; split; [reflexivity|apply Hset]); [apply H2; set_solver|by split].
Qed.

(** C16: the snapshot is well typed.  From the initial snapshot, any calls of the setters with arguments
    of the vocabulary succeed, and the snapshot taken with any number of queued messages, blocked
    or not, passes the check every observation must pass. *)
Theorem facts_typed ops queued blocked :
  Forall vocabulary ops -> 0 <= queued <= maximum_integer ->
  exists j c, foldr (fun op r => v ← r; run_facts op v) (Ok (initial_facts true)) ops = Ok j /\
    snapshot queued blocked j = Ok c /\ content_check "v1" false c = Ok tt.
Proof.
  intros Hops Hq. assert (H : exists j, foldr (fun op r => v ← r; run_facts op v) (Ok (initial_facts true)) ops = Ok j /\ typed j).
  { induction Hops as [|op ops Hop _ (j & Hj & IH)]; cbn [foldr].
    - exists (initial_facts true). split; [done|]. eexists _, _. split; [reflexivity|]. split; [apply obj_of_sorted|].
      split; [reflexivity|]. split; [apply obj_of_sorted|]. vm_compute. reflexivity.
    - rewrite Hj. cbn [mbind res_mbind]. by apply run_facts_typed. }
  destruct H as (j & Hj & Ht). destruct (snapshot_typed queued blocked j Ht Hq) as (c & Hc & (o & d & -> & _ & _ & _ & Hck)).
  exists j, (JObject o). by split_and!.
Qed.
Definition sample_ops : list FactsOp :=
  [SetDelivery true 201 "not a receipt"; Interrupt "RESET"; SetActivity "ACTIVE" "NONE" (Some "exercise-1");
   SetAdvisory "CONFIRMED" (Some "request-1"); SetInput "CONNECTED" "RECEIVING" "NONE"]%string.
Lemma facts_typed_witness :
  exists j c, foldr (fun op r => v ← r; run_facts op v) (Ok (initial_facts true)) sample_ops = Ok j /\
    snapshot 2 false j = Ok c /\ content_check "v1" false c = Ok tt.
Proof.
  apply (facts_typed sample_ops 2 false); [|vm_compute; split; discriminate].
  unfold sample_ops. repeat constructor; cbn [vocabulary]; try exact I; try set_solver; try discriminate; try reflexivity.
  all: intros; discriminate.
Defined.

(** ** What the snapshot says of a delivery *)

(** The state of the delivery after a response that was not an acknowledgement. *)
Definition reported_after (status : Z) : res string :=
  j ← facts_delivery false status "" (initial_facts true); d ← jat "delivery" j; at_string "state" d.
(** The two classifications differ: the outbox blocks a message refused with 501, which is reported as
    being retried, and goes on retrying one refused with 425, which is reported as blocked. *)
Example delivery_misreported :
  (rejects (MkHttpResponse 501 "" 0) = true /\ reported_after 501 = Ok "RETRYING"%string) /\
  (rejects (MkHttpResponse 425 "" 0) = false /\ reported_after 425 = Ok "BLOCKED"%string).
Proof. vm_compute. by split_and!. Qed.
