(* ===== verification/Session.v ===== *)
(** * Sessions (include/tire_health/runtime/session_reconnect.hpp, readiness_publication.hpp,
    src/runtime/token_session.cpp, inspect_session_inputs of src/runtime/application.cpp)

    What ends a subscription and how it is reported, when readiness is published, and the names
    and the number of token directories.  The directories themselves are Tokens'. *)
From Stdlib Require Import ZArith Lia Bool Ascii String.
From stdpp Require Import gmap strings list.
From S2P Require Import Prelude Chars Protocol.
Local Open Scope Z_scope.

(** ** Changes of a session's inputs *)

Inductive SessionInputChange := NoChange | TokenReplaced | Unavailable.
#[export] Instance SessionInputChange_eq_dec : EqDecision SessionInputChange.
Proof. solve_decision. Defined.
(** The order of the enumeration. *)
Definition rank (c : SessionInputChange) : Z :=
  match c with NoChange => 0 | TokenReplaced => 1 | Unavailable => 2 end.
(** The reads of the token, the metadata and the trust anchor against what the session started
    with; a read that throws makes the inputs unavailable. *)
Definition inspect_session_inputs (current_token current_metadata current_ca : res string)
    (token metadata ca : string) : SessionInputChange :=
  match (t ← current_token; m ← current_metadata; c ← current_ca; Ok (t, m, c)) with
  | Err _ => Unavailable
  | Ok (t, m, c) =>
    if negb (String.eqb m metadata) || negb (String.eqb c ca) then Unavailable
    else if String.eqb t token then NoChange else TokenReplaced
  end.
(** [SessionInterruption]: the cause; [observe] is one successful compare-and-exchange. *)
Definition interruption_observe (cause change : SessionInputChange) : SessionInputChange :=
  if rank cause <? rank change then change else cause.
Definition cancelled (cause : SessionInputChange) : bool := negb (bool_decide (cause = NoChange)).
Definition token_replaced (cause : SessionInputChange) : bool := bool_decide (cause = TokenReplaced).

(** ** How a failed subscription is reported *)

Record SubscriptionFailureObservation := MkFailureObservation {
  failed_connection : string; failed_input : string; failed_reason : string }.
Definition subscription_failure_observation (code : string) : SubscriptionFailureObservation :=
  if String.eqb code "KUKSA_AUTH_PENDING" then MkFailureObservation "STARTING" "WAITING" "AWAITING_INPUT"
  else if String.eqb code "KUKSA_AUTH_UNAVAILABLE" then MkFailureObservation "ACCESS_DENIED" "ACCESS_DENIED" "ACCESS_DENIED"
  else if String.eqb code "VDP_INCOMPATIBLE" then MkFailureObservation "DISCONNECTED" "INVALID" "INVALID_SAMPLE"
  else MkFailureObservation "DISCONNECTED" "DISCONNECTED" "TRANSPORT_LOST".

(** ** When readiness is published *)

Record ReadinessPublication := MkReadiness {
  accepted_ready : option bool; next_readiness : Z; next_heartbeat : Z }.
Definition initial_readiness : ReadinessPublication := MkReadiness None 0 0.
Definition due (p : ReadinessPublication) (ready : bool) (now : Z) : bool :=
  (next_readiness p <=? now)
  && match accepted_ready p with
     | None => true
     | Some r => negb (Bool.eqb r ready) || (next_heartbeat p <=? now)
     end.
Definition completed (ready : bool) (now : Z) (accepted : bool) (p : ReadinessPublication) : ReadinessPublication :=
  if accepted then MkReadiness (Some ready) (now + 100) (now + 5000)
  else MkReadiness (accepted_ready p) (now + 1000) (next_heartbeat p).

(** ** Token directories *)

Definition session_prefix : string := "session-".
Definition session_name (name : string) : bool :=
  (ssize name =? 14) && String.eqb (substr 0 8 name) session_prefix
  && forallb alnum (drop 8 (chars name)).
Definition capacity_exceeded : exn := RuntimeError "TOKEN_SESSION_CAPACITY_EXCEEDED".
(** The names of the root directory, and the one [mkdtemp] makes. *)
Definition new_session (names : list string) (made : string) : res string :=
  let sessions := length (List.filter (fun n => String.eqb (substr 0 8 n) session_prefix) names) in
  if 8 <=? Z.of_nat sessions then Err capacity_exceeded
  else if negb (session_name made) then Err (RuntimeError "TOKEN_DIRECTORY_INVALID")
  else Ok made.

(** ** Properties *)

Definition interruptions : list SessionInputChange -> SessionInputChange -> SessionInputChange :=
  fun l cause => fold_left interruption_observe l cause.
Lemma interruptions_rank l cause :
  rank (interruptions l cause) = fold_right (fun c r => Z.max (rank c) r) (rank cause) l.
Proof.
  unfold interruptions. revert cause. induction l as [|c l IH]; intros cause; [done|]. cbn [fold_left fold_right].
  rewrite IH. assert (E : rank (interruption_observe cause c) = Z.max (rank c) (rank cause)).
  { unfold interruption_observe. destruct (rank cause <? rank c) eqn:E; lia. }
  rewrite E. clear. induction l as [|d l IH]; cbn [fold_right]; lia.
Qed.
Lemma rank_fold_max l r c : c ∈ l -> rank c <= fold_right (fun c r => Z.max (rank c) r) r l.
Proof.
  induction l as [|d l IH]; [by intros ?%elem_of_nil|]. cbn [fold_right]. intros [->|H]%elem_of_cons; [lia|].
  specialize (IH H). lia.
Qed.
Lemma rank_fold_in l r :
  0 <= r -> fold_right (fun c r => Z.max (rank c) r) r l = r \/
    exists c, c ∈ l /\ rank c = fold_right (fun c r => Z.max (rank c) r) r l.
Proof.
  intros Hr. induction l as [|d l IH]; [by left|]. cbn [fold_right].
  destruct (Z.max_spec (rank d) (fold_right (fun c r => Z.max (rank c) r) r l)) as [[H E]|[H E]]; rewrite E.
  - destruct IH as [IH|(c & Hc & IH)]; [by left|right]. exists c. split; [by right|done].
  - right. exists d. split; [by left|done].
Qed.
Lemma interruptions_observed l :
  let cause := interruptions l NoChange in
  (cancelled cause = true <-> exists c, c ∈ l /\ c <> NoChange) /\
  (token_replaced cause = true <-> TokenReplaced ∈ l /\ (Unavailable ∉ l)).
Proof.
  intros cause. pose proof (interruptions_rank l NoChange) as Hr. fold cause in Hr.
  pose proof (rank_fold_max l (rank NoChange)) as Hmax.
  destruct (rank_fold_in l (rank NoChange) ltac:(cbn; lia)) as [Hin|(c & Hc & Hin)]; rewrite <- Hr in *.
  - assert (E : cause = NoChange) by (destruct cause; cbn in Hin; [done|lia..]). rewrite E in *. split.
    + split; [done|]. intros (c & H1 & H2). specialize (Hmax c H1). destruct c; cbn in Hmax; [done|lia..].
    + split; [done|]. intros [H1 _]. specialize (Hmax _ H1). cbn in Hmax. lia.
  - assert (E : c = cause) by (destruct c, cause; cbn in Hin; try done; lia). subst c. split.
    + unfold cancelled. rewrite negb_true_iff, bool_decide_eq_false. split; [by exists cause|].
      intros (c & H1 & H2) E. specialize (Hmax c H1). rewrite E in Hmax. destruct c; cbn in Hmax; [done|lia..].
    + unfold token_replaced. rewrite bool_decide_eq_true. split.
      * intros E. split; [by rewrite <- E|]. intros Hu. specialize (Hmax _ Hu). rewrite E in Hmax. cbn in Hmax. lia.
      * intros [H1 H2]. destruct cause; [|done|done]. specialize (Hmax _ H1). cbn in Hmax. lia.
Qed.
Lemma token_replaced_iff l :
  token_replaced (interruptions l NoChange) = true <-> TokenReplaced ∈ l /\ (Unavailable ∉ l).
Proof. apply interruptions_observed. Qed.
(** A session's interruption is sticky.  Over any sequence of observations, in any order, the
    session is cancelled exactly when some observation was a change, and it counts as a planned
    token replacement exactly when some observation was one and none found the inputs
    unavailable: nothing seen later takes an unavailability back. *)
Theorem interruption_sticky l :
  let cause := interruptions l NoChange in
  (cancelled cause = true <-> exists c, c ∈ l /\ c <> NoChange) /\
  (token_replaced cause = true <-> TokenReplaced ∈ l /\ (Unavailable ∉ l)) /\
  (forall l', interruptions (l ++ l') NoChange = interruptions l' cause).
Proof.
  intros cause. destruct (interruptions_observed l) as [H1 H2]. split_and!; [exact H1|exact H2|].
  intros l'. unfold interruptions, cause. by rewrite fold_left_app.
Qed.

(** Readiness is published soon, and not too often.  Just after an accepted publication nothing is
    due for 100 ms, then a change is, and without one a heartbeat is from 5000 ms on; after a
    refused one nothing is due for 1000 ms, then whatever was still is. *)
Theorem readiness_due p ready now ok ready' now' :
  let p' := completed ready now ok p in
  due p' ready' now' =
    (if ok then (now + 100 <=? now') && (negb (Bool.eqb ready ready') || (now + 5000 <=? now'))
     else (now + 1000 <=? now') && match accepted_ready p with
                                   | None => true
                                   | Some r => negb (Bool.eqb r ready') || (next_heartbeat p <=? now')
                                   end) /\
  (ok = true -> now + 5000 <= now' -> due p' ready' now' = true) /\
  (ok = false -> due p ready' now' = true -> now + 1000 <= now' -> due p' ready' now' = true).
Proof.
  cbn zeta. unfold due, completed. destruct ok; cbn [accepted_ready next_readiness next_heartbeat]; split_and!; try done.
  - intros _ H. replace (now + 100 <=? now') with true by lia. replace (now + 5000 <=? now') with true by lia.
    by rewrite orb_true_r.
  - intros _ [_ H]%andb_true_iff H'. replace (now + 1000 <=? now') with true by lia. done.
Qed.
Lemma readiness_due_witness :
  due (completed true 20 true initial_readiness) true 119 = false /\
  due (completed true 20 true initial_readiness) true 5020 = true.
Proof.
  split; [reflexivity|].
  exact (proj1 (proj2 (readiness_due initial_readiness true 20 true true 5020)) eq_refl ltac:(lia)).
Defined.
