(* ===== verification/Bootstrap.v ===== *)
(** * The credential loop (src/runtime/bootstrap_main.cpp)

    The process that owns the token: it starts the analytics process, exchanges credentials in the
    background, writes and removes the token file and reports the authentication state.  One
    iteration of its loop is a step; the clocks, the child's exit, the result of an exchange that
    has become ready, the jitter and whether the token could be written and removed are its inputs.  The process
    around the loop is Process'; the sleep between iterations is not modelled. *)
From Stdlib Require Import ZArith Lia Bool Ascii String.
From stdpp Require Import gmap strings list.
From S2P Require Import Prelude Chars Float64 Time Protocol Identity.
Local Open Scope Z_scope.

(** The loop's variables, the token file, and what [auth_state] has printed. *)
Record Loop := MkLoop {
  lease : Lease; has_token : bool; terminal : bool; next_attempt : Z; failures : Z; in_flight : bool;
  token_file : option string; reported : string; reports : list string }.
Record Tick := MkTick {
  tick_boot : Z; tick_wall : Z; child_exit : option Z; exchanged : option (res Credential);
  tick_jitter : double; token_written : bool; token_removed : bool }.
(** How an iteration ends: with an exception, [running] is whether the child may still run. *)
Inductive LoopEnd := Continues | Exits (code : Z) | Fails (e : exn) (running : bool).

Definition unavailable_reason : string := "KUKSA_AUTH_UNAVAILABLE".
(** [auth_state]: a line is printed when the reason changes. *)
Definition auth_state (ready : bool) (rejection : string) (s : Loop) : Loop :=
  let reason := (if ready then "NONE" else rejection)%string in
  if String.eqb reason (reported s) then s
  else MkLoop (lease s) (has_token s) (terminal s) (next_attempt s) (failures s) (in_flight s)
         (token_file s) reason (reports s ++ [reason]).
Definition remove_token (s : Loop) : Loop :=
  MkLoop (lease s) (has_token s) (terminal s) (next_attempt s) (failures s) (in_flight s) None (reported s) (reports s).
Definition drop_token (s : Loop) : Loop :=
  MkLoop (lease s) false (terminal s) (next_attempt s) (failures s) (in_flight s) (token_file s) (reported s) (reports s).
Definition set_terminal (s : Loop) : Loop :=
  MkLoop (lease s) (has_token s) true (next_attempt s) (failures s) (in_flight s) (token_file s) (reported s) (reports s).
Definition set_flight (b : bool) (s : Loop) : Loop :=
  MkLoop (lease s) (has_token s) (terminal s) (next_attempt s) (failures s) b (token_file s) (reported s) (reports s).
(** [next_attempt = boot + retry_delay(failures++, jitter) * 1000]; [failures] is unsigned. *)
Definition schedule_retry (t : Tick) (s : Loop) : res Loop :=
  d ← retry_delay (failures s) (tick_jitter t) 0;
  Ok (MkLoop (lease s) (has_token s) (terminal s) (tick_boot t + d * 1000) ((failures s + 1) mod 2 ^ 32)
        (in_flight s) (token_file s) (reported s) (reports s)).
Definition install_token (c : Credential) (t : Tick) (s : Loop) : Loop :=
  let l := issued c (tick_wall t) (tick_boot t) in
  MkLoop l (has_token s) (terminal s) (renew_boot l) 0 (in_flight s) (Some (token c)) (reported s) (reports s).
Definition hold_token (s : Loop) : Loop :=
  MkLoop (lease s) true (terminal s) (next_attempt s) (failures s) (in_flight s) (token_file s) (reported s) (reports s).
(** The destructor of the session removes the token, if it can. *)
Definition unwind (t : Tick) (s : Loop) (e : exn) : Loop * LoopEnd :=
  ((if token_removed t then remove_token s else s), Fails e true).
Definition token_remove_failed : exn := RuntimeError "TOKEN_REMOVE_FAILED".

(** [if (has_token && lease.expired(wall, boot))] *)
Definition expire_token (t : Tick) (s : Loop) : Loop * LoopEnd :=
  if has_token s && expired (lease s) (tick_wall t) (tick_boot t) then
    if negb (token_removed t) then unwind t s token_remove_failed
    else (auth_state false unavailable_reason (drop_token (remove_token s)), Continues)
  else (s, Continues).
(** A credential that was received. *)
Definition receive (c : Credential) (t : Tick) (s : Loop) : Loop * LoopEnd :=
  let issued_one := negb (String.eqb (token c) "") in
  let s := if issued_one then s else auth_state false (cred_code c) s in
  if issued_one then
    if (expires c <=? tick_wall t) || (renew_after c <=? tick_wall t) then unwind t s (RuntimeError "KAC_RESPONSE_EXPIRED")
    else if negb (token_written t) then unwind t s (RuntimeError "TOKEN_WRITE_FAILED")
    else
      let s := install_token c t s in
      let s := if has_token s then s else auth_state true unavailable_reason s in
      (hold_token s, Continues)
  else if negb (retryable c) then
    if negb (token_removed t) then unwind t s token_remove_failed else
    let s := set_terminal (remove_token s) in
    let s := if has_token s then auth_state false unavailable_reason s else s in
    (drop_token s, Continues)
  else match schedule_retry t s with Ok s' => (s', Continues) | Err e => unwind t s e end.
(** [if (issue.valid() && ... ready)] *)
Definition take_exchange (t : Tick) (s : Loop) : Loop * LoopEnd :=
  match exchanged t with
  | Some r =>
    if in_flight s then
      let s := set_flight false s in
      match r with
      | Err _ => match schedule_retry t s with Ok s' => (s', Continues) | Err e => unwind t s e end
      | Ok c => receive c t s
      end
    else (s, Continues)
  | None => (s, Continues)
  end.
Definition begin_exchange (t : Tick) (s : Loop) : Loop :=
  if negb (in_flight s) && negb (terminal s) && (next_attempt s <=? tick_boot t) then set_flight true s else s.
Definition iteration (t : Tick) (s : Loop) : Loop * LoopEnd :=
  match child_exit t with
  | Some status => if token_removed t then (remove_token s, Exits status) else (s, Fails token_remove_failed false)
  | None =>
    match expire_token t s with
    | (s, Continues) =>
      match take_exchange t s with
      | (s, Continues) => (begin_exchange t s, Continues)
      | r => r
      end
    | r => r
    end
  end.
(** Before the loop; [auth_state(false)] is called once. *)
Definition initial_loop : Loop :=
  auth_state false unavailable_reason (MkLoop no_lease false false 0 0 false None "" []).
(** The iterations up to the first that ends the loop. *)
Fixpoint run_loop (l : list Tick) (s : Loop) : Loop * LoopEnd :=
  match l with
  | [] => (s, Continues)
  | t :: l' => match iteration t s with (s', Continues) => run_loop l' s' | r => r end
  end.

(** ** What the loop keeps *)

(** The token is in its file exactly while the loop holds one, and once the rejection was final
    there is no token and nothing in flight. *)
Record kept (s : Loop) : Prop := {
  kept_file : is_Some (token_file s) <-> has_token s = true;
  kept_terminal : terminal s = true -> has_token s = false /\ in_flight s = false }.
(** The token in the file, if there is one, is within its lease on both clocks. *)
Definition within_lease (t : Tick) (s : Loop) : Prop :=
  token_file s <> None -> has_token s = true /\ expired (lease s) (tick_wall t) (tick_boot t) = false.
Lemma auth_state_same b r s :
  lease (auth_state b r s) = lease s /\ has_token (auth_state b r s) = has_token s /\
  terminal (auth_state b r s) = terminal s /\ token_file (auth_state b r s) = token_file s /\
  in_flight (auth_state b r s) = in_flight s.
Proof. unfold auth_state. by destruct (String.eqb _ _). Qed.
(** What a step leaves: an exception ends the loop without the token, when it can be removed. *)
Definition good (t : Tick) (r : Loop * LoopEnd) : Prop :=
  match r.2 with Continues => kept r.1 /\ within_lease t r.1 | _ => token_removed t = true -> token_file r.1 = None end.
Lemma unwind_good t s e : good t (unwind t s e).
Proof. unfold unwind, good. cbn [fst snd]. by intros ->. Qed.
Lemma kept_expire t s : kept s -> good t (expire_token t s).
Proof.
  intros [H1 H2]. unfold expire_token. destruct (has_token s && _) eqn:E.
  - destruct (token_removed t); cbn [negb]; [|apply unwind_good].
    destruct (auth_state_same false unavailable_reason (drop_token (remove_token s))) as (E1 & E2 & E3 & E4 & E5).
    cbn in E1, E2, E3, E4, E5. split; cbn [fst].
    + constructor; rewrite E2, ?E3, ?E4, ?E5; [split; [by intros []|done]|]. intros Ht. split; [done|by apply H2].
    + intros H. by rewrite E4 in H.
  - split; [by constructor|]. cbn [fst]. intros H. assert (Ht : has_token s = true).
    { apply H1. destruct (token_file s); [by eexists|done]. }
    split; [done|]. rewrite Ht in E. exact E.
Qed.
Lemma schedule_retry_same t s s' :
  schedule_retry t s = Ok s' -> lease s' = lease s /\ has_token s' = has_token s /\ terminal s' = terminal s /\
    token_file s' = token_file s /\ in_flight s' = in_flight s /\ tick_boot t < next_attempt s'.
Proof.
  unfold schedule_retry. intros (d & Hd & H)%bind_Ok. apply Ok_inj in H as <-. cbn. split_and!; try done.
  unfold retry_delay in Hd. destruct (_ || _) eqn:Eb; [done|]. apply Ok_inj in Hd as <-. b2p.
  match goal with |- context [clamp ?v 1 30] => assert (1 <= clamp v 1 30); [|lia] end.
  unfold clamp. destruct (_ <? 1) eqn:E1; [lia|]. destruct (30 <? _); lia.
Qed.
Lemma receive_good c t s :
  0 <= tick_wall t -> kept s -> within_lease t s -> in_flight s = false -> terminal s = false -> good t (receive c t s).
Proof.
  intros Hw [H1 H2] Hl Hf Hn. unfold receive, good. cbn zeta. destruct (negb (String.eqb (token c) "")) eqn:Et.
  - destruct (_ || _) eqn:Ee; [apply (unwind_good t)|]. destruct (negb (token_written t)); [apply (unwind_good t)|]. cbn [fst snd]. b2p.
    assert (Hx : expired (issued c (tick_wall t) (tick_boot t)) (tick_wall t) (tick_boot t) = false).
    { unfold expired, issued. cbn [expires_wall expires_boot]. rewrite !orb_false_iff. split_and!; lia. }
    destruct (has_token (install_token c t s)).
    + split; [constructor; cbn; [split; [done|by eexists]|by rewrite Hn]|]. intros _. by split.
    + destruct (auth_state_same true unavailable_reason (install_token c t s)) as (E1 & E2 & E3 & E4 & E5).
      split; [constructor; cbn; rewrite ?E3, ?E4; cbn; [split; [done|by eexists]|by rewrite Hn]|].
      intros _. split; [done|]. cbn. by rewrite E1.
  - destruct (auth_state_same false (cred_code c) s) as (E1 & E2 & E3 & E4 & E5).
    destruct (negb (retryable c)).
    + destruct (negb (token_removed t)); [exact (unwind_good t _ _)|].
      cbn [fst snd]. set (s1 := set_terminal (remove_token (auth_state false (cred_code c) s))).
      destruct (auth_state_same false unavailable_reason s1) as (F1 & F2 & F3 & F4 & F5).
      assert (X : forall s2, token_file s2 = None -> in_flight s2 = false -> kept (drop_token s2) /\ within_lease t (drop_token s2)).
      { intros s2 G1 G2. split; [constructor; cbn; [rewrite G1; split; [by intros []|done]|done]|].
        intros H. cbn in H. by rewrite G1 in H. }
      destruct (has_token s1); apply X; rewrite ?F4, ?F5; cbn; try done; by rewrite E5.
    + destruct (schedule_retry t (auth_state false (cred_code c) s)) as [s'|] eqn:Es; [|exact (unwind_good t _ _)].
      apply schedule_retry_same in Es as (G1 & G2 & G3 & G4 & G5 & _). cbn [fst snd].
      rewrite E1 in G1. rewrite E2 in G2. rewrite E3 in G3. rewrite E4 in G4. rewrite E5 in G5.
      split; [constructor; rewrite ?G2, ?G3, ?G4, ?G5; [done|by rewrite Hn]|].
      unfold within_lease. by rewrite G1, G2, G4.
Qed.
Lemma take_exchange_good t s : 0 <= tick_wall t -> kept s -> within_lease t s -> good t (take_exchange t s).
Proof.
  intros Hw Hk Hl. unfold take_exchange. destruct (exchanged t) as [r|]; [|by split].
  destruct (in_flight s) eqn:Ef; [|by split]. cbn zeta.
  assert (Ht : terminal s = false) by (destruct (terminal s) eqn:E; [|done]; destruct Hk as [_ H]; by apply H in E as [_ ?]; congruence).
  assert (Hk' : kept (set_flight false s)) by (destruct Hk as [H1 H2]; constructor; cbn; [done|by rewrite Ht]).
  destruct r as [c|e]; [by apply receive_good|].
  destruct (schedule_retry t (set_flight false s)) as [s'|] eqn:Es; [|apply unwind_good].
  apply schedule_retry_same in Es as (G1 & G2 & G3 & G4 & G5 & _). cbn in G1, G2, G3, G4, G5. split; cbn [fst snd].
  - constructor; rewrite ?G2, ?G3, ?G4; [by destruct Hk|by rewrite Ht].
  - unfold within_lease. by rewrite G1, G2, G4.
Qed.
Lemma iteration_good t s : 0 <= tick_wall t -> kept s -> good t (iteration t s).
Proof.
  intros Hw Hk. unfold iteration.
  destruct (child_exit t); [unfold good; destruct (token_removed t); cbn; [done|by intros [=]]|].
  pose proof (kept_expire t s Hk) as He. destruct (expire_token t s) as [s1 [| |]]; [|exact He..]. destruct He as [H1 H2].
  pose proof (take_exchange_good t s1 Hw H1 H2) as H. destruct (take_exchange t s1) as [s' [| |]]; [|exact H..]. destruct H as [[H3 H4] H5].
  unfold begin_exchange, good. cbn [fst snd]. destruct (_ && _) eqn:E; [|by split; [constructor|]].
  split; [constructor; cbn; [done|]|exact H5]. intros Ht. b2p. congruence.
Qed.
Lemma initial_kept : kept initial_loop.
Proof. constructor; [split; [by intros []|done]|done]. Qed.
Definition can_remove (l : list Tick) : Prop := Forall (fun t => token_removed t = true) l.
Lemma run_loop_good l t s :
  Forall (fun t => 0 <= tick_wall t) (l ++ [t]) -> kept s ->
  let r := run_loop (l ++ [t]) s in
  match r.2 with Continues => kept r.1 /\ within_lease t r.1 | _ => can_remove (l ++ [t]) -> token_file r.1 = None end.
Proof.
  revert s. induction l as [|u l IH]; intros s Hw Hk r; subst r; cbn [app run_loop] in *; apply Forall_cons in Hw as [Hu Hw].
  - pose proof (iteration_good t s Hu Hk) as H.
    destruct (iteration t s) as [s' [| |]]; [exact H|intros [Hr _]%Forall_cons; by apply H..].
  - pose proof (iteration_good u s Hu Hk) as H.
    destruct (iteration u s) as [s' [| |]]; [|intros [Hr _]%Forall_cons; by apply H..].
    destruct H as [H _]. specialize (IH s' Hw H). cbv zeta in IH.
    destruct (run_loop (l ++ [t]) s') as [s2 [| |]]; [exact IH|intros [_ Hr]%Forall_cons; by apply IH..].
Qed.
(** C33: no token outlives its lease or the loop.  After any iterations, whatever was exchanged and
    whichever removals failed, the token file exists only while the loop holds a token whose lease
    has expired on neither clock at the last iteration; after a final rejection there is none; and
    when the loop has ended, for whatever reason, there is none, as long as the file can be
    removed. *)
Theorem token_within_lease l t :
  Forall (fun t => 0 <= tick_wall t) (l ++ [t]) ->
  let '(s, e) := run_loop (l ++ [t]) initial_loop in
  match e with
  | Continues =>
    (token_file s <> None -> has_token s = true /\ expired (lease s) (tick_wall t) (tick_boot t) = false) /\
    (terminal s = true -> token_file s = None /\ in_flight s = false)
  | _ => can_remove (l ++ [t]) -> token_file s = None
  end.
Proof.
  intros Hw. pose proof (run_loop_good l t initial_loop Hw initial_kept) as H. cbv zeta in H.
  destruct (run_loop (l ++ [t]) initial_loop) as [s [| |]]; [|exact H..]. destruct H as [[H1 H2] H3]. split; [exact H3|].
  intros Ht. apply H2 in Ht as [Ht Hf]. split; [|done]. cbn [fst] in *. destruct (token_file s); [|done].
  assert (E : has_token s = true) by (apply H1; by eexists). congruence.
Qed.
(** However the loop ends, the token is gone if it could be removed. *)
Lemma iteration_ended t s :
  token_removed t = true -> match (iteration t s).2 with Continues => True | _ => token_file (iteration t s).1 = None end.
Proof.
  intros H. unfold iteration, expire_token, take_exchange, receive, unwind. cbv zeta. rewrite H. cbn [negb].
  repeat (case_match; simplify_eq/=; try done).
Qed.
Lemma run_loop_ended l s :
  can_remove l -> match (run_loop l s).2 with Continues => True | _ => token_file (run_loop l s).1 = None end.
Proof.
  revert s. induction l as [|t l IH]; intros s; cbn [run_loop]; [done|]. intros [Ht Hl]%Forall_cons.
  pose proof (iteration_ended t s Ht) as H. destruct (iteration t s) as [s' [| |]]; [by apply IH|exact H..].
Qed.
(** The final rejection is final: nothing is exchanged any more. *)
Lemma terminal_stays t s : kept s -> terminal s = true -> iteration t s = (s, Continues) \/ exists c, child_exit t = Some c.
Proof.
  intros [H1 H2] Ht. destruct (H2 Ht) as [Hn Hf]. unfold iteration. destruct (child_exit t); [right; by eexists|left].
  unfold expire_token. rewrite Hn. cbn [andb]. unfold take_exchange. rewrite Hf.
  destruct (exchanged t); unfold begin_exchange; by rewrite Hf, Ht.
Qed.

(** ** Reports *)

Definition tick (boot : Z) (r : option (res Credential)) : Tick := MkTick boot (boot / 1000) None r zero true true.
Definition sample_credential (wall : Z) : Credential := MkCredential "a.b.c" (wall + 300) (wall + 180) "" false.
Definition busy : Credential := MkCredential "" 0 0 "BUSY" true.
(** A token is issued; its renewal is first refused as busy and then granted. *)
Definition busy_renewal : list Tick :=
  [tick 1000 None; tick 2000 (Some (Ok (sample_credential 2))); tick 200000 None; tick 201000 (Some (Ok busy));
   tick 240000 None; tick 241000 (Some (Ok (sample_credential 241)))].
(** The report stays at the refusal, although the token was renewed and is within its lease. *)
Example busy_renewal_reported :
  let '(s, e) := run_loop busy_renewal initial_loop in
  e = Continues /\ token_file s = Some "a.b.c"%string /\ expired (lease s) 241 241000 = false /\
  reports s = [unavailable_reason; "NONE"; "BUSY"]%string.
Proof. vm_compute. by split_and!. Qed.
Lemma token_within_lease_witness :
  Forall (fun t => 0 <= tick_wall t) (busy_renewal ++ [tick 242000 None]) /\
  let s := (run_loop (busy_renewal ++ [tick 242000 None]) initial_loop).1 in
  token_file s = Some "a.b.c"%string /\ has_token s = true /\ expired (lease s) 242 242000 = false.
Proof.
  assert (Hw : Forall (fun t => 0 <= tick_wall t) (busy_renewal ++ [tick 242000 None]))
    by (repeat (constructor; [vm_compute; discriminate|]); constructor).
  split; [exact Hw|]. pose proof (token_within_lease busy_renewal (tick 242000 None) Hw) as H. cbv zeta.
  assert (E : (run_loop (busy_renewal ++ [tick 242000 None]) initial_loop).2 = Continues) by (vm_compute; reflexivity).
  assert (T : token_file (run_loop (busy_renewal ++ [tick 242000 None]) initial_loop).1 = Some "a.b.c"%string) by (vm_compute; reflexivity).
  destruct (run_loop (busy_renewal ++ [tick 242000 None]) initial_loop) as [s e]. cbn [fst snd] in *. subst e.
  split; [exact T|]. apply (proj1 H). rewrite T. discriminate.
Defined.
