(* ===== verification/QueueSpec.v ===== *)
(** * What the service never does to its outbox

    Whoever calls which handler in whatever order: a queued message stays, with its bytes, until
    it is acknowledged, and is blocked only when it is rejected.  Unlike the invariant of
    [service_history] this holds of every state, a damaged store included, because it follows
    from where the code writes. *)
From Stdlib Require Import ZArith Lia Bool Ascii String.
From stdpp Require Import gmap strings list relations.
From S2P Require Import Prelude Chars Sha256 Uuid Json JsonFacts Time Protocol Identity Model Messages Fits StateCheck Store StoreFacts OutboxFacts StoreSpec Observation Service ServiceFacts ServiceSpec.
Local Open Scope Z_scope.

(** ** Queued messages stay *)

Record grows (d d' : dir) : Prop := {
  grows_keeps : forall k e, d !! message_name k = Some e -> d' !! message_name k = Some e;
  grows_blocks : forall k, blocked_in d' k -> blocked_in d k }.
#[export] Instance grows_preorder : PreOrder grows.
Proof.
  constructor; [by constructor|]. intros a b c [H1 H2] [H3 H4]. constructor; [intros k e H; by apply H3, H1|].
  intros k H. by apply H2, H4.
Qed.
Lemma last_app l c : last (l ++ [c]) = Some (c : ascii).
Proof. apply last_snoc. Qed.
Lemma message_last k : last (chars (message_name k)) = Some "n"%char.
Proof. unfold message_name. rewrite chars_app. change (chars ".json") with (chars ".jso" ++ ["n"%char]). by rewrite app_assoc, last_app. Qed.
Lemma blocked_last k : last (chars (blocked_name k)) = Some "d"%char.
Proof. unfold blocked_name. rewrite chars_app. change (chars ".blocked") with (chars ".blocke" ++ ["d"%char]). by rewrite app_assoc, last_app. Qed.
Lemma next_last n : last (chars (next_name n)) = Some "t"%char.
Proof. unfold next_name. rewrite chars_app. change (chars ".next") with (chars ".nex" ++ ["t"%char]). by rewrite app_assoc, last_app. Qed.
Lemma message_blocked k k' : message_name k <> blocked_name k'.
Proof. intros E. pose proof (message_last k) as H. by rewrite E, blocked_last in H. Qed.
Lemma message_next k n : message_name k <> next_name n.
Proof. intros E. pose proof (message_last k) as H. by rewrite E, next_last in H. Qed.
Lemma blocked_next k n : blocked_name k <> next_name n.
Proof. intros E. pose proof (blocked_last k) as H. by rewrite E, next_last in H. Qed.
Lemma grows_temporary d n e : grows d (<[next_name n := e]> d).
Proof.
  constructor.
  - intros k e' H. by rewrite lookup_insert_ne by (intros E; by apply (message_next k n)).
  - intros k. unfold blocked_in. by rewrite lookup_insert_ne by (intros E; by apply (blocked_next k n)).
Qed.
Lemma grows_no_temporary d n : grows d (delete (next_name n) d).
Proof.
  constructor.
  - intros k e' H. by rewrite lookup_delete_ne by (intros E; by apply (message_next k n)).
  - intros k. unfold blocked_in. by rewrite lookup_delete_ne by (intros E; by apply (blocked_next k n)).
Qed.
Lemma grows_message d k e : d !! message_name k = None -> grows d (<[message_name k := e]> d).
Proof.
  intros Hn. constructor.
  - intros k' e' H. rewrite lookup_insert_ne; [done|]. intros E. congruence.
  - intros k'. unfold blocked_in. by rewrite lookup_insert_ne by (intros E; by apply (message_blocked k k')).
Qed.

(** ** Computations of the store that let it grow only *)

Definition growing {A} (m : IO A) : Prop := forall s, grows (outbox s) (outbox (m s).1).
Section Growing.
Context {A B : Type}.
Lemma growing_bind (m : IO A) (k : A -> IO B) : growing m -> (forall a, growing (k a)) -> growing (m ≫= k).
Proof.
  intros Hm Hk s. unfold mbind, IO_mbind. pose proof (Hm s) as H. destruct (m s) as [s' [a|e|]]; [|exact H..].
  etrans; [exact H|apply Hk].
Qed.
Lemma growing_still (m : IO A) : (forall s, outbox (m s).1 = outbox s) -> growing m.
Proof. intros H s. by rewrite H. Qed.
End Growing.
Lemma growing_pure {A} (m : res A) : growing (pure m).
Proof. apply growing_still. intros s. unfold pure. by destruct m. Qed.
Lemma growing_tick : growing tick.
Proof. apply growing_still. intros s. unfold tick. by destruct (ticks s). Qed.
Lemma growing_read p n l : growing (read_file p n l).
Proof. intros s. apply growing_pure. Qed.
Lemma growing_root f : growing (change_dir Root f).
Proof. by apply growing_still. Qed.
Create HintDb growing.
#[local] Hint Resolve growing_pure growing_tick growing_read growing_root : growing.
Ltac growing_step :=
  lazymatch goal with
  | |- growing (mbind _ _) => apply growing_bind; [|intros ?]
  | |- growing (if ?b then _ else _) => destruct b
  | |- growing (match ?x with _ => _ end) => destruct x
  | |- growing _ => first [solve [auto with growing nocore] | assumption | by apply growing_still]
  end.
Ltac growing_tac := repeat growing_step.
Lemma growing_open_temporary p n r : growing (open_temporary p n r).
Proof. unfold open_temporary. growing_tac. Qed.
#[local] Hint Resolve growing_open_temporary : growing.
Lemma growing_write_root n b r : growing (write_durable_file Root n b r).
Proof. unfold write_durable_file. growing_tac. Qed.
Lemma growing_remove_root n : growing (remove_durable Root n).
Proof. unfold remove_durable. growing_tac. Qed.
#[local] Hint Resolve growing_write_root growing_remove_root : growing.
(** A message is written where there was none: until the renaming there is none. *)
Definition growing_from {A} (P : dir -> Prop) (m : IO A) : Prop :=
  forall s, P (outbox s) -> grows (outbox s) (outbox (m s).1) /\
    match m s with (s', Done _) => P (outbox s') | _ => True end.
Lemma growing_from_bind {A B} P (m : IO A) (k : A -> IO B) s :
  growing_from P m -> (forall a s', P (outbox s') -> grows (outbox s') (outbox (k a s').1)) -> P (outbox s) ->
  grows (outbox s) (outbox ((m ≫= k) s).1).
Proof.
  intros Hm Hk Hs. unfold mbind, IO_mbind. destruct (Hm s Hs) as [H1 H2]. destruct (m s) as [s' [a|e|]]; [|exact H1..].
  etrans; [exact H1|by apply Hk].
Qed.
Lemma growing_from_same {A} P (m : IO A) : (forall s, outbox (m s).1 = outbox s) -> growing_from P m.
Proof. intros H s Hs. specialize (H s). destruct (m s) as [s' r]. cbn in H. cbn [fst]. rewrite H. by destruct r. Qed.
Lemma tick_outbox s : outbox (tick s).1 = outbox s.
Proof. unfold tick. by destruct (ticks s). Qed.
Lemma grows_write k b r s :
  outbox s !! message_name k = None -> grows (outbox s) (outbox (write_durable_file Outbox (message_name k) b r s).1).
Proof.
  set (P := fun d : dir => d !! message_name k = None). intros Hs. unfold write_durable_file.
  apply (growing_from_bind P); [| |exact Hs].
  { apply growing_from_same. intros s'. unfold open_temporary, mbind, IO_mbind, read_dir. by repeat case_match. }
  intros _ s1 H1. apply (growing_from_bind P); [apply growing_from_same, tick_outbox| |exact H1].
  intros _ s2 H2. apply (growing_from_bind P); [by apply growing_from_same| |exact H2].
  intros t s3 H3. apply (growing_from_bind P); [|intros _ s4 H4|exact H3].
  { intros s' Hs'. split; [apply grows_temporary|]. unfold P. cbn. rewrite lookup_insert_ne; [done|].
    intros E. by apply (message_next k (message_name k)). }
  apply (growing_from_bind P); [apply growing_from_same, tick_outbox|intros _ s5 H5|exact H4].
  unfold mbind, IO_mbind, change_dir. rewrite tick_outbox. cbn [set_dir outbox dir_of].
  etrans; [apply grows_no_temporary|]. apply grows_message. apply lookup_delete_None. by right.
Qed.
Lemma growing_replay_message m : growing (replay_message m).
Proof.
  unfold replay_message. apply growing_bind; [apply growing_pure|intros k]. apply growing_bind; [apply growing_pure|intros b].
  intros s. unfold mbind, IO_mbind, read_dir. cbn [dir_of]. destruct (outbox s !! message_name k) as [e|] eqn:E.
  - enough (G : growing (if negb (private_entry e) then fail (RuntimeError "STATE_FILE_INVALID")
      else old ← read_file Outbox (message_name k) 16384; if String.eqb old b then mret tt else fail not_ready))
      by apply G. growing_tac.
  - by apply grows_write.
Qed.
#[local] Hint Resolve growing_replay_message : growing.
Lemma growing_replay_messages l : growing (replay_messages l).
Proof. induction l; cbn [replay_messages]; growing_tac. Qed.
#[local] Hint Resolve growing_replay_messages : growing.
Lemma growing_replay uid txn : growing (replay uid txn).
Proof. unfold replay. growing_tac. Qed.
#[local] Hint Resolve growing_replay : growing.
Lemma growing_commit uid next l : growing (commit uid next l).
Proof. unfold commit, durable_file. growing_tac. Qed.
Lemma growing_open uid epoch : growing (open_store uid epoch).
Proof. unfold open_store, recover, load_state, durable_file. growing_tac. Qed.

(** ** Handlers *)

(** What a handler does to the outbox, wherever it stops. *)
Definition retains {A} (m : RT A) : Prop := forall s, grows (outbox (disk s)) (outbox (disk (m s).1)).
Section Retains.
Context {A B : Type}.
Lemma retains_bind (m : RT A) (k : A -> RT B) : retains m -> (forall a, retains (k a)) -> retains (m ≫= k).
Proof.
  intros Hm Hk s. unfold mbind, RT_mbind. pose proof (Hm s) as H. destruct (m s) as [s' [a|e|]]; [|exact H..].
  etrans; [exact H|apply Hk].
Qed.
Lemma retains_still (m : RT A) : (forall s, disk (m s).1 = disk s) -> retains m.
Proof. intros H s. by rewrite H. Qed.
End Retains.
Lemma retains_eval {A} (m : res A) : retains (eval m).
Proof. apply retains_still. intros s. unfold eval. by destruct m. Qed.
Lemma retains_function f : retains (function f).
Proof. apply retains_still. intros s. unfold function. by destruct (f (facts s)). Qed.
Lemma retains_commit next l : retains (store_commit next l).
Proof.
  intros s. unfold store_commit, store_io. pose proof (growing_commit (unit_system_uid (metadata s)) next l (disk s)) as H.
  by destruct (commit _ next l (disk s)) as [d r].
Qed.
Create HintDb retains.
#[local] Hint Resolve retains_eval retains_function retains_commit : retains.
Ltac retains_step :=
  lazymatch goal with
  | |- retains (mbind _ _) => apply retains_bind; [|intros ?]
  | |- retains (if ?b then _ else _) => destruct b
  | |- retains (match ?x with _ => _ end) => destruct x
  | |- retains (let _ := _ in _) => cbv zeta
  | |- retains _ => first [solve [auto with retains nocore] | assumption | by apply retains_still]
  end.
Ltac retains_tac := repeat retains_step.
Lemma retains_next_advisory now : retains (next_advisory now).
Proof. unfold next_advisory, next_reset_advisory, send_request, function_advisory. retains_tac. Qed.
Lemma retains_apply f ep d : retains (apply_episode f ep d).
Proof. unfold apply_episode, raise_if. retains_tac. Qed.
Lemma retains_gateway b now : retains (gateway_status b now).
Proof. unfold gateway_status, reset_status, request_status, raise_if, function_advisory. retains_tac. Qed.
Lemma retains_command b now : retains (demo_control_command b now).
Proof. unfold demo_control_command, raise_if. retains_tac. Qed.
Lemma retains_handle e : match e with Accept _ _ => True | _ => retains (handle e) end.
Proof.
  destruct e; cbn [handle]; unfold discard; try exact I; try (apply retains_bind; [|intros ?; by apply retains_still]).
  all: first [apply retains_next_advisory|apply retains_apply|apply retains_gateway|apply retains_command|idtac].
  all: unfold ingest_frame_at, expire_input, disconnect, stop, reauthenticate, update_vdp_metadata, function_status,
    next_message, demo_control_poll, demo_control_ack, demo_control_accepted, advisory_readiness, observation_binding,
    function_observation, input_observation, advisory_observation, function_advisory, abort_engine, raise, raise_if.
  all: retains_tac.
Qed.
Lemma retains_start m epoch d : grows (outbox d) (outbox (disk (start m epoch d).1)).
Proof.
  unfold start. pose proof (growing_open (unit_system_uid m) epoch d) as H.
  destruct (open_store _ epoch d) as [d' [u|e|]]; cbn [fst] in *; [|exact H..].
  assert (G : retains (pending ← eval (reset_pending (memory d')); if (pending : bool) then reject_foreign_reset else mret tt)).
  { unfold reject_foreign_reset. retains_tac. }
  specialize (G (initial_runtime m d')). etrans; [exact H|exact G].
Qed.

(** ** Delivery *)

Definition holds (d : dir) (k : string) (en : entry) : Prop := d !! message_name k = Some en.
(** A response [r] to the message of [p] that acknowledges what is queued as [en] under [k]. *)
Definition acknowledged (p : Pending) (r : HttpResponse) (k : string) (en : entry) : Prop :=
  pending_key p = k /\ content en = pending_bytes p /\ matches_ack (content en) r = true.
Definition rejected (d : dir) (p : Pending) (r : HttpResponse) (k : string) : Prop :=
  pending_key p = k /\ rejects r = true /\ exists en, holds d k en /\ content en = pending_bytes p /\ matches_ack (content en) r = false.
Lemma remove_outbox k s :
  outbox (remove_durable Outbox (message_name k) s).1 = outbox s \/
  outbox (remove_durable Outbox (message_name k) s).1 = delete (message_name k) (outbox s).
Proof.
  unfold remove_durable, mbind, IO_mbind. pose proof (tick_outbox s) as H. destruct (tick s) as [s1 [u|e|]]; cbn [fst] in *; [|by left..].
  unfold change_dir. rewrite tick_outbox. cbn. rewrite H. by right.
Qed.
(** A file of another name is written: the other entries stay. *)
Lemma write_elsewhere n b r s m :
  m <> n -> m <> next_name n -> outbox (write_durable_file Outbox n b r s).1 !! m = outbox s !! m.
Proof.
  intros H1 H2. unfold write_durable_file. set (P := fun x : machine => outbox x !! m = outbox s !! m).
  assert (Hb : forall A B (x : IO A) (k : A -> IO B) s0, P s0 -> (forall s, P s -> P (x s).1) ->
    (forall a s, P s -> P (k a s).1) -> P ((x ≫= k) s0).1).
  { intros A B x k s0 H0 Hx Hk. unfold mbind, IO_mbind. specialize (Hx s0 H0).
    destruct (x s0) as [s' [a|e|]]; [by apply Hk|exact Hx..]. }
  assert (Ht : forall s, P s -> P (tick s).1) by (intros s' H; unfold P; by rewrite tick_outbox).
  change (P (write_durable_file Outbox n b r s).1). unfold write_durable_file. apply Hb; [done| |intros _ s1 G1].
  { intros s' H. unfold open_temporary, mbind, IO_mbind, read_dir. by repeat case_match. }
  apply Hb; [done|exact Ht|intros _ s2 G2]. apply Hb; [done|by intros|intros t s3 G3].
  apply Hb; [done| |intros _ s4 G4].
  { intros s' H. unfold P. cbn. by rewrite lookup_insert_ne. }
  apply Hb; [done|exact Ht|intros _ s5 G5]. apply Hb; [done| |intros _ s6 G6; by apply Ht].
  intros s' H. unfold P. cbn. by rewrite lookup_insert_ne, lookup_delete_ne.
Qed.
Lemma then_return {A B} (m : IO A) (b : B) s : (((_ ← m; mret b) : IO B) s).1 = (m s).1.
Proof. unfold mbind, IO_mbind. by destruct (m s) as [s' [a|e|]]. Qed.
Lemma blocked_name_inj k k' : blocked_name k = blocked_name k' -> k = k'.
Proof. intros E. by eapply ssize_inj_app. Qed.
Lemma acknowledge_removes p r s k en' :
  holds (outbox s) (pending_key p) en' -> content en' = pending_bytes p -> matches_ack (pending_bytes p) r = true ->
  let s' := (remove_durable Outbox (message_name (pending_key p)) s).1 in
  (forall en, holds (outbox s) k en -> holds (outbox s') k en \/ acknowledged p r k en) /\
  (blocked_in (outbox s') k -> blocked_in (outbox s) k).
Proof.
  intros H1 H2 H3. cbn zeta. destruct (remove_outbox (pending_key p) s) as [->| ->]; [split; [by left|done]|].
  unfold holds, blocked_in in *. split; [|rewrite lookup_delete_ne; [done|apply message_blocked]].
  intros en H. destruct (decide (pending_key p = k)) as [<-|Hk].
  - right. assert (en' = en) as <- by congruence. split_and!; [done|done|by rewrite H2].
  - left. by rewrite lookup_delete_ne by (intros E%message_name_inj; done).
Qed.
Lemma acknowledge_blocks p r s k en' b :
  holds (outbox s) (pending_key p) en' -> content en' = pending_bytes p -> matches_ack (pending_bytes p) r = false ->
  rejects r = true ->
  let s' := (durable_file Outbox (blocked_name (pending_key p)) b s).1 in
  (forall en, holds (outbox s) k en -> holds (outbox s') k en) /\
  (blocked_in (outbox s') k -> blocked_in (outbox s) k \/ rejected (outbox s) p r k).
Proof.
  intros H1 H2 H3 H4. cbn zeta. unfold durable_file. pose proof (write_elsewhere (blocked_name (pending_key p)) b false s) as Hw.
  split; [intros en H; unfold holds; by rewrite Hw by (apply message_blocked || apply message_next)|].
  intros H. destruct (decide (pending_key p = k)) as [<-|Hk].
  - right. split; [done|]. split; [done|]. exists en'. split_and!; [done|done|by rewrite H2].
  - left. unfold blocked_in in *. rewrite Hw in H; [done| |apply blocked_next]. by intros E%blocked_name_inj.
Qed.
Lemma acknowledge_outbox p r s k :
  (forall en, holds (outbox s) k en -> holds (outbox (acknowledge p r s).1) k en \/ acknowledged p r k en) /\
  (blocked_in (outbox (acknowledge p r s).1) k -> blocked_in (outbox s) k \/ rejected (outbox s) p r k).
Proof.
  assert (Hstill : forall s', s' = s -> (forall en, holds (outbox s) k en -> holds (outbox s') k en \/ acknowledged p r k en) /\
    (blocked_in (outbox s') k -> blocked_in (outbox s) k \/ rejected (outbox s) p r k)) by (intros s' ->; split; by left).
  enough (G : forall x, x = (acknowledge p r s).1 ->
    (forall en, holds (outbox s) k en -> holds (outbox x) k en \/ acknowledged p r k en) /\
    (blocked_in (outbox x) k -> blocked_in (outbox s) k \/ rejected (outbox s) p r k)) by by apply G.
  intros x. unfold acknowledge. unfold mbind at 1, IO_mbind at 1, exists_in at 1. cbn [dir_of].
  destruct (negb (is_sha256 (pending_key p)) || negb _) eqn:E1; [by apply Hstill|].
  unfold mbind at 1, IO_mbind at 1, read_file, pure. cbn [dir_of].
  destruct (outbox s !! message_name (pending_key p)) as [en'|] eqn:E2; [|by apply Hstill].
  destruct (read_entry (Some en') 16384) as [b|] eqn:E3; [|by apply Hstill]. apply read_entry_content in E3. subst b.
  destruct (negb (String.eqb (content en') (pending_bytes p))) eqn:E4; [by apply Hstill|].
  apply negb_false_iff, String.eqb_eq in E4. destruct (matches_ack (pending_bytes p) r) eqn:E5.
  - rewrite then_return. intros ->. destruct (acknowledge_removes p r s k en' E2 E4 E5) as [H1 H2]. split; [exact H1|intros H; left; by apply H2].
  - destruct (_ && negb (retryable_http _)) eqn:E6; [|by apply Hstill]. rewrite then_return. intros ->.
    destruct (acknowledge_blocks p r s k en' "DELIVERY_CONFLICT" E2 E4 E5 E6) as [H1 H2]. split; [intros en H; left; by apply H1|exact H2].
Qed.
Lemma accept_outbox p r s :
  (accept p r s).1.(disk) = disk s \/ disk (accept p r s).1 = (acknowledge p r (disk s)).1.
Proof.
  unfold accept, self, mbind, RT_mbind, store_io. destruct (store_ok s).
  - right. destruct (acknowledge p r (disk s)) as [d [a|e|]]; [|done..].
    unfold function. cbn. by destruct (facts_delivery _ _ _ _).
  - left. unfold function. cbn. by destruct (facts_delivery _ _ _ _).
Qed.

(** The outbox of a system, and a step in which a response is accepted for a message. *)
Definition queue_of (sys : System) : dir := match sys with Up s => outbox (disk s) | Down d => outbox d end.
Definition delivers (a b : System) (p : Pending) (r : HttpResponse) : Prop :=
  exists s, a = Up s /\ enabled s (Accept p r) /\
    disk (handle (Accept p r) s).1 = (match b with Up s' => disk s' | Down d => d end).
Lemma handle_queue e s k :
  let d := outbox (disk s) in let d' := outbox (disk (handle e s).1) in
  (forall en, holds d k en -> holds d' k en \/ exists p r, e = Accept p r /\ acknowledged p r k en) /\
  (blocked_in d' k -> blocked_in d k \/ exists p r, e = Accept p r /\ rejected d p r k).
Proof.
  cbn zeta. pose proof (retains_handle e) as H. destruct e; cbn beta iota in H.
  10: { cbn [handle]. assert (E : disk (discard (accept p response) s).1 = disk (accept p response s).1).
        { unfold discard, mbind, RT_mbind. by destruct (accept p response s) as [s' [a|e|]]. }
        rewrite E. destruct (accept_outbox p response s) as [-> | ->]; [by split; [left|left]|].
        destruct (acknowledge_outbox p response (disk s) k) as [H1 H2]. split.
        - intros en Hen. destruct (H1 en Hen); [by left|right]. by exists p, response.
        - intros Hb. destruct (H2 Hb); [by left|right]. by exists p, response. }
  all: destruct (H s) as [H1 H2]; split; [intros en Hen; left; by apply H1|by left; apply H2].
Qed.

Definition disk_of (sys : System) : machine := match sys with Up s => disk s | Down d => d end.
Lemma event_queue e s s' r b k :
  enabled s e -> handle e s = (s', r) -> disk s' = disk_of b ->
  (forall en, holds (outbox (disk s)) k en -> holds (queue_of b) k en \/
     exists p r, delivers (Up s) b p r /\ acknowledged p r k en) /\
  (blocked_in (queue_of b) k -> blocked_in (outbox (disk s)) k \/
     exists p r, delivers (Up s) b p r /\ rejected (outbox (disk s)) p r k).
Proof.
  intros He Hh Hd. pose proof (handle_queue e s k) as [G1 G2]. rewrite Hh in G1, G2. cbn [fst] in *.
  assert (Hq : outbox (disk s') = queue_of b) by (rewrite Hd; by destruct b). rewrite Hq in G1, G2.
  assert (D : forall p0 r0, e = Accept p0 r0 -> delivers (Up s) b p0 r0).
  { intros p0 r0 ->. exists s. split_and!; [done|done|]. by rewrite Hh. }
  split.
  - intros en Hen. destruct (G1 en Hen) as [G|(p0 & r0 & E & G)]; [by left|right]. exists p0, r0. auto.
  - intros Hb. destruct (G2 Hb) as [G|(p0 & r0 & E & G)]; [by left|right]. exists p0, r0. auto.
Qed.
Lemma step_queue uid a b k :
  step uid a b ->
  (forall en, holds (queue_of a) k en -> holds (queue_of b) k en \/
     exists p r, delivers a b p r /\ acknowledged p r k en) /\
  (blocked_in (queue_of b) k -> blocked_in (queue_of a) k \/
     exists p r, delivers a b p r /\ rejected (queue_of a) p r k).
Proof.
  assert (Hs : forall m epoch n t d s' r b, start m epoch (restart n t d) = (s', r) -> queue_of b = outbox (disk s') ->
    (forall en, holds (outbox d) k en -> holds (queue_of b) k en \/
       exists p r, delivers (Down d) b p r /\ acknowledged p r k en) /\
    (blocked_in (queue_of b) k -> blocked_in (outbox d) k \/
       exists p r, delivers (Down d) b p r /\ rejected (outbox d) p r k)).
  { intros m epoch n t d s' r b' Hh ->. pose proof (retains_start m epoch (restart n t d)) as [G1 G2]. rewrite Hh in G1, G2.
    split; [intros en Hen; left; by apply G1|left; by apply G2]. }
  intros [e s s' r He Hh Hr|e s s' He Hh|s|m epoch n t d s' <- Hi Hh|m epoch n t d s' r <- Hi Hh Hr].
  - exact (event_queue e s s' r (Up s') k He Hh eq_refl).
  - exact (event_queue e s s' Stopped (Down (disk s')) k He Hh eq_refl).
  - split; by left.
  - exact (Hs m epoch n t d s' (Done tt) (Up s') Hh eq_refl).
  - exact (Hs m epoch n t d s' r (Down (disk s')) Hh eq_refl).
Qed.

(** C2: no message is lost.  Through any events, stops and starts, a queued message keeps its bytes
    until an acknowledgement that names it is accepted: if it is gone at the end, there was a
    step of the history where it was queued and [accept] was given a response that matches it;
    and a message is blocked only where [accept] was given a response that finally rejects it. *)
Theorem messages_kept uid sys sys' k :
  rtc (step uid) sys sys' ->
  (forall en, holds (queue_of sys) k en ->
     holds (queue_of sys') k en \/
     exists a b p r, rtc (step uid) sys a /\ step uid a b /\ rtc (step uid) b sys' /\
       delivers a b p r /\ holds (queue_of a) k en /\ acknowledged p r k en) /\
  (blocked_in (queue_of sys') k ->
     blocked_in (queue_of sys) k \/
     exists a b p r, rtc (step uid) sys a /\ step uid a b /\ rtc (step uid) b sys' /\
       delivers a b p r /\ rejected (queue_of a) p r k).
Proof.
  induction 1 as [|a b c Hab Hbc [IH1 IH2]]; [split; by left|]. destruct (step_queue uid a b k Hab) as [G1 G2]. split.
  - intros en Hen. destruct (G1 en Hen) as [Hb|(p & r & Hd & Ha)].
    + destruct (IH1 en Hb) as [Hc|(x & y & p & r & X1 & X2 & X3 & X4)]; [by left|right].
      exists x, y, p, r. split; [by eapply rtc_l|auto].
    + right. exists a, b, p, r. split; [apply rtc_refl|auto].
  - intros Hc. destruct (IH2 Hc) as [Hb|(x & y & p & r & X1 & X2 & X3 & X4)].
    + destruct (G2 Hb) as [Ha|(p & r & Hd & Ha)]; [by left|right]. exists a, b, p, r. split; [apply rtc_refl|auto].
    + right. exists x, y, p, r. split; [by eapply rtc_l|auto].
Qed.

(** ** A status message that is queued and acknowledged *)

Definition queued_runtime : Runtime := (handle (FunctionStatus "READY" sample_now []) sample_runtime).1.
Definition queued_pending : Pending :=
  match pending (outbox (disk queued_runtime)) with Ok (Some p) => p | _ => MkPending "" "" end.
Definition queued_ack : string :=
  catch_all (m ← parse_json (pending_bytes queued_pending) 16384; h ← jat "contentSha256" m;
    canonical (JObject (obj_of [("schemaVersion", JInt 1); ("contractVersion", JString "1.0.0");
      ("receiptId", JString sample_source); ("receivedAt", JString (time_text sample_now));
      ("state", JString "DURABLE_ACCEPTED"); ("messageKeySha256", JString (pending_key queued_pending));
      ("contentSha256", h)]%string))) ""%string.
Definition queued_response : HttpResponse := MkHttpResponse 201 queued_ack 0.
Definition delivered_runtime : Runtime := (handle (Accept queued_pending queued_response) queued_runtime).1.
Definition queued_entry : entry := own_file (pending_bytes queued_pending).
Definition holds_b (d : dir) (k : string) (en : entry) : bool :=
  match d !! message_name k with
  | Some e => Bool.eqb (regular e) (regular en) && Bool.eqb (private e) (private en) && String.eqb (content e) (content en)
  | None => false
  end.
Lemma holds_b_true d k en : holds_b d k en = true <-> holds d k en.
Proof.
  unfold holds_b, holds. destruct (d !! message_name k) as [[a b c]|]; [|done]. destruct en as [a' b' c']. cbn [regular private content].
  rewrite !andb_true_iff, !eqb_true_iff, String.eqb_eq. naive_solver.
Qed.
Lemma queued_history : rtc (step sample_uid) (Up queued_runtime) (Up delivered_runtime).
Proof.
  apply rtc_once. unfold delivered_runtime. destruct (handle (Accept queued_pending queued_response) queued_runtime) as [s' r] eqn:E.
  eapply (step_event sample_uid (Accept queued_pending queued_response)); [|exact E|].
  - cbn [enabled]. unfold blocked_in.
    assert (X : outbox (disk queued_runtime) !! blocked_name (pending_key queued_pending) = None) by (vm_compute; reflexivity).
    rewrite X. by intros [].
  - assert (X : (match (handle (Accept queued_pending queued_response) queued_runtime).2 with Stopped => false | _ => true end) = true)
      by (vm_compute; reflexivity).
    rewrite E in X. intros ->. exact (Bool.diff_false_true X).
Qed.
Lemma messages_kept_witness :
  exists a b p r, rtc (step sample_uid) (Up queued_runtime) a /\ step sample_uid a b /\
    rtc (step sample_uid) b (Up delivered_runtime) /\ delivers a b p r /\
    acknowledged p r (pending_key queued_pending) queued_entry.
Proof.
  destruct (messages_kept sample_uid _ _ (pending_key queued_pending) queued_history) as [H _].
  destruct (H queued_entry) as [Hk|(a & b & p & r & H1 & H2 & H3 & H4 & _ & H5)].
  - apply holds_b_true. vm_compute. reflexivity.
  - exfalso. apply holds_b_true in Hk.
    assert (X : holds_b (queue_of (Up delivered_runtime)) (pending_key queued_pending) queued_entry = false) by (vm_compute; reflexivity).
    exact (Bool.diff_true_false (eq_trans (eq_sym Hk) X)).
  - exists a, b, p, r. split; [exact H1|split; [exact H2|split; [exact H3|split; [exact H4|exact H5]]]].
Defined.
