(* ===== verification/Analytics.v ===== *)
(** * The analytics process: its log, its clocks and its network (src/runtime/grpc_main.cpp)

    What the threads of the process share: the runtime, whose handlers each run alone, and the
    log.  A thread's code is a computation over the shared state and the thread's own variables;
    everything it asks of the world (clocks, jitter, random identifiers, answers of the network,
    the fate of a file operation) is an argument, and between two handlers of one thread the
    other threads may run any of theirs. *)
From Stdlib Require Import ZArith Lia Bool Ascii String.
From stdpp Require Import gmap strings list.
From S2P Require Import Prelude Chars Float64 Json JsonFacts Time Protocol Http Model Store Service ServiceSpec Ledger.
Local Open Scope Z_scope.

(** ** The log *)

(** A printed line; [line_source] is empty where there is no source event. *)
Record Line := MkLine {
  line_event : string; line_at : string; line_state : string; line_reason : string;
  line_count : Z; line_source : string }.
Record Log := MkLog {
  previous : gmap string string; minute : Z; emitted : Z; suppressed : Z; lines : list Line }.
Definition initial_log : Log := MkLog ∅ 0 0 0 [].
Definition exercise_event : string := "EXERCISE_COMPLETED".
Definition state_key (st why : string) : string := st +:+ ":" +:+ why.
(** Whether [state] returns at once: the event's state is the one last printed. *)
Definition repeated (event st why : string) (l : Log) : bool :=
  negb (String.eqb event exercise_event)
  && String.eqb (default ""%string (previous l !! event)) (state_key st why).
(** [Log::state] at the boot time [boot] and the wall time [wall]: at most sixty lines a minute; a
    line says how many states were not printed before it.  A time that has no timestamp throws
    after the counters have changed. *)
Definition log_state (boot wall : Z) (event st why source : string) (l : Log) : Log * res unit :=
  if repeated event st why l then (l, Ok tt)
  else
    let m := Z.quot boot 60000 in
    let emitted := if m =? minute l then emitted l else 0 in
    if 60 <=? emitted
    then (MkLog (previous l) m emitted ((suppressed l + 1) mod 2 ^ 32) (lines l), Ok tt)
    else
      let counted := MkLog (<[event := state_key st why]> (previous l)) m (emitted + 1) (suppressed l) (lines l) in
      match utc_timestamp wall with
      | Err e => (counted, Err e)
      | Ok t => (MkLog (previous counted) m (emitted + 1) 0
                   (lines l ++ [MkLine event t st why ((1 + suppressed l) mod 2 ^ 32) source]), Ok tt)
      end.

(** A call of [state]. *)
Record LogCall := MkLogCall {
  call_boot : Z; call_wall : Z; call_event : string; call_state : string; call_reason : string; call_source : string }.
Definition log_call (c : LogCall) (l : Log) : Log * res unit :=
  log_state (call_boot c) (call_wall c) (call_event c) (call_state c) (call_reason c) (call_source c) l.
Definition log_calls (cs : list LogCall) (l : Log) : Log := fold_left (fun l c => (log_call c l).1) cs l.

(** ** The process *)

(** What a thread is given; the number counts what was asked so far. *)
Record World := MkWorld {
  boot_clock : nat -> Z; wall_clock : nat -> Z; jitter_at : nat -> double; uuid_at : nat -> res string;
  network : nat -> string -> Z -> string -> Z -> Z -> res string;
  set_accepted : nat -> bool; fate_at : nat -> Fate;
  others : nat -> Runtime -> list Event; others_log : nat -> list LogCall }.
(** The shared state, the variables of the thread, and what it has sent. *)
Record App (L : Type) := MkApp { service : Runtime; log : Log; locals : L; asked : nat; sent : list (string * string) }.
Arguments MkApp {L} _ _ _ _ _.
Arguments service {L} _.
Arguments log {L} _.
Arguments locals {L} _.
Arguments asked {L} _.
Arguments sent {L} _.
Definition AM (L A : Type) : Type := App L -> App L * outcome A.
#[export] Instance AM_mret {L} : MRet (AM L) := fun A a s => (s, Done a).
#[export] Instance AM_mbind {L} : MBind (AM L) := fun A B k m s =>
  match m s with
  | (s', Done a) => k a s'
  | (s', Thrown e) => (s', Thrown e)
  | (s', Stopped) => (s', Stopped)
  end.
(** [try { m } catch (...) { h }] *)
Definition attempt {L A} (m : AM L A) (h : AM L A) : AM L A := fun s =>
  match m s with
  | (s', Thrown _) => h s'
  | x => x
  end.
Definition compute {L A} (m : res A) : AM L A := fun s =>
  match m with Ok a => (s, Done a) | Err e => (s, Thrown e) end.
Definition local {L} : AM L L := fun s => (s, Done (locals s)).
Definition set_local {L} (f : L -> L) : AM L unit := fun s =>
  (MkApp (service s) (log s) (f (locals s)) (asked s) (sent s), Done tt).
Definition set_service {L} (r : Runtime) (s : App L) : App L := MkApp r (log s) (locals s) (asked s) (sent s).
Definition set_log {L} (l : Log) (s : App L) : App L := MkApp (service s) l (locals s) (asked s) (sent s).
Definition add_sent {L} (where_ bytes : string) (s : App L) : App L :=
  MkApp (service s) (log s) (locals s) (asked s) (sent s ++ [(where_, bytes)]).
Definition asked_once {L} (s : App L) : App L := MkApp (service s) (log s) (locals s) (S (asked s)) (sent s).

(** Handlers of other threads, one after the other; an exception stays in its thread. *)
Fixpoint run_others (l : list Event) (s : Runtime) : Runtime * outcome unit :=
  match l with
  | [] => (s, Done tt)
  | e :: l' => match handle e s with
               | (s', Stopped) => (s', Stopped)
               | (s', _) => run_others l' s'
               end
  end.

Section Threads.
Context {L : Type} (w : World).

(** Asks the world. *)
Definition ask {A} (f : nat -> A) : AM L A := fun s => (asked_once s, Done (f (asked s))).
Definition boot_milliseconds : AM L Z := ask (boot_clock w).
Definition wall_milliseconds : AM L Z := ask (wall_clock w).
(** A handler, once the other threads are done with theirs. *)
Definition serve {A} (m : RT A) : AM L A := fun s =>
  match run_others (others w (asked s) (service s)) (service s) with
  | (r, Stopped) => (set_service r s, Stopped)
  | (r, _) => let '(r', out) := m r in (set_service r' (asked_once s), out)
  end.
(** The log takes the calls of the other threads, then this one. *)
Definition logged (c : LogCall) : AM L unit := fun s =>
  let '(l, r) := log_call c (log_calls (others_log w (asked s)) (log s)) in
  (set_log l s, match r with Ok u => Done u | Err e => Thrown e end).
(** [log.state(...)] *)
Definition report_from (event st why source : string) : AM L unit :=
  boot ← boot_milliseconds; wall ← wall_milliseconds; logged (MkLogCall boot wall event st why source).
Definition report (event st why : string) : AM L unit := report_from event st why "".
(** A request to the backend; what it is for and its bytes are kept in [sent]. *)
Definition posted {A} (where_ bytes : string) (post : (string -> Z -> string -> Z -> Z -> res string) -> res A) : AM L A :=
  fun s => compute (post (network w (asked s))) (add_sent where_ bytes (asked_once s)).
End Threads.

(** ** What the log promises *)

Section LogFacts.
Implicit Types (l : Log) (c : LogCall) (cs : list LogCall).
Definition printed l : Z := Z.of_nat (length (lines l)).
(** The calls that are not repetitions where they are made. *)
Definition is_new c l : bool := negb (repeated (call_event c) (call_state c) (call_reason c) l).
Fixpoint new_calls cs l : Z :=
  match cs with
  | [] => 0
  | c :: cs' => (if is_new c l then 1 else 0) + new_calls cs' (log_call c l).1
  end.
Definition counted l : Z := fold_right (fun x n => line_count x + n) 0 (lines l) + suppressed l.
Record log_ok l : Prop := { log_emitted : 0 <= emitted l <= 60; log_suppressed : 0 <= suppressed l < 2 ^ 32 }.
(** The cases of a call. *)
Inductive log_case c l : Log * res unit -> Prop :=
  | log_repeated : is_new c l = false -> log_case c l (l, Ok tt)
  | log_full m n :
      is_new c l = true -> m = Z.quot (call_boot c) 60000 -> n = (if m =? minute l then emitted l else 0) -> 60 <= n ->
      log_case c l (MkLog (previous l) m n ((suppressed l + 1) mod 2 ^ 32) (lines l), Ok tt)
  | log_failed p m n e :
      is_new c l = true -> m = Z.quot (call_boot c) 60000 -> n = (if m =? minute l then emitted l else 0) -> n < 60 ->
      utc_timestamp (call_wall c) = Err e ->
      log_case c l (MkLog p m (n + 1) (suppressed l) (lines l), Err e)
  | log_printed p m n t :
      is_new c l = true -> m = Z.quot (call_boot c) 60000 -> n = (if m =? minute l then emitted l else 0) -> n < 60 ->
      utc_timestamp (call_wall c) = Ok t ->
      log_case c l (MkLog p m (n + 1) 0 (lines l ++ [MkLine (call_event c) t (call_state c) (call_reason c)
        ((1 + suppressed l) mod 2 ^ 32) (call_source c)]), Ok tt).
Lemma log_call_case c l : log_case c l (log_call c l).
Proof.
  unfold log_call, log_state. destruct (repeated _ _ _ l) eqn:Er.
  { apply log_repeated. unfold is_new. by rewrite Er. }
  assert (Hn : is_new c l = true) by (unfold is_new; by rewrite Er). cbv zeta.
  destruct (60 <=? _) eqn:E; [b2p; by eapply log_full|]. b2p.
  destruct (utc_timestamp (call_wall c)) as [t|e] eqn:Et; [by eapply log_printed|by eapply log_failed].
Qed.
Lemma log_call_ok c l : log_ok l -> log_ok (log_call c l).1.
Proof.
  intros [H1 H2]. assert (H3 : 0 <= (suppressed l + 1) mod 2 ^ 32 < 2 ^ 32) by (apply Z.mod_pos_bound; lia).
  destruct (log_call_case c l) as [Hn|m n Hn -> -> Hf|p m n e Hn -> -> Hf He|p m n t Hn -> -> Hf Ht]; cbn [fst]; [done|..];
    (constructor; cbn [emitted suppressed]; [|lia]); destruct (_ =? minute l); lia.
Qed.
Lemma log_calls_ok cs l : log_ok l -> log_ok (log_calls cs l).
Proof. revert l. induction cs as [|c cs IH]; intros l H; [done|]. by apply IH, log_call_ok. Qed.
Lemma initial_log_ok : log_ok initial_log.
Proof. by constructor. Qed.
(** What may still be printed in the minute [m]. *)
Definition budget (m : Z) l : Z := if m =? minute l then 60 - emitted l else 60.
Lemma log_call_budget c l :
  let m := Z.quot (call_boot c) 60000 in
  log_ok l -> budget m (log_call c l).1 + printed (log_call c l).1 <= budget m l + printed l.
Proof.
  intros m [H1 H2]. unfold budget, printed.
  destruct (log_call_case c l) as [Hn|m' n Hn -> -> Hf|p m' n e Hn -> -> Hf He|p m' n t Hn -> -> Hf Ht]; cbn [fst minute emitted lines];
    fold m; rewrite ?Z.eqb_refl, ?length_app; cbn [length]; destruct (m =? minute l) eqn:E; lia.
Qed.
Lemma log_calls_budget m cs l :
  log_ok l -> Forall (fun c => Z.quot (call_boot c) 60000 = m) cs ->
  budget m (log_calls cs l) + printed (log_calls cs l) <= budget m l + printed l.
Proof.
  revert l. induction cs as [|c cs IH]; intros l Hl Hm; [done|]. apply Forall_cons in Hm as [<- Hm].
  specialize (IH _ (log_call_ok c l Hl) Hm). pose proof (log_call_budget c l Hl) as H. cbv zeta in H.
  change (log_calls (c :: cs) l) with (log_calls cs (log_call c l).1). lia.
Qed.
Lemma fold_counts_app (a b : list Line) :
  fold_right (fun x n => line_count x + n) 0 (a ++ b) =
  fold_right (fun x n => line_count x + n) 0 a + fold_right (fun x n => line_count x + n) 0 b.
Proof. induction a as [|x a IH]; cbn [app fold_right]; lia. Qed.
Lemma log_call_counted c l :
  log_ok l -> suppressed l + 1 < 2 ^ 32 -> is_ok (utc_timestamp (call_wall c)) = true ->
  counted (log_call c l).1 = counted l + (if is_new c l then 1 else 0) /\ suppressed (log_call c l).1 <= suppressed l + 1.
Proof.
  intros [H1 H2] Hs Hw. unfold counted.
  destruct (log_call_case c l) as [Hn|m n Hn -> -> Hf|p m n e Hn -> -> Hf He|p m n t Hn -> -> Hf Ht]; cbn [fst suppressed lines]; rewrite Hn.
  - lia.
  - rewrite Z.mod_small by lia. lia.
  - by rewrite He in Hw.
  - rewrite fold_counts_app. cbn [fold_right line_count]. rewrite Z.mod_small by lia. lia.
Qed.
Lemma log_calls_counted cs l :
  log_ok l -> suppressed l + Z.of_nat (length cs) < 2 ^ 32 -> Forall (fun c => is_ok (utc_timestamp (call_wall c)) = true) cs ->
  counted (log_calls cs l) = counted l + new_calls cs l.
Proof.
  revert l. induction cs as [|c cs IH]; intros l Hl Hs Hw; [cbn; lia|]. apply Forall_cons in Hw as [Hc Hw].
  cbn [length new_calls] in *. destruct (log_call_counted c l Hl ltac:(lia) Hc) as [E Hs'].
  change (log_calls (c :: cs) l) with (log_calls cs (log_call c l).1).
  rewrite IH; [lia|by apply log_call_ok|lia|done].
Qed.
End LogFacts.

(** C17: the log is bounded and accounts for what it leaves out.  However the threads call it, at most
    sixty lines are printed by calls of one minute; and with a clock that has a timestamp, the
    counts on the printed lines and the suppressed ones add up to the calls that were not
    repetitions. *)
Theorem log_bounded before cs m :
  Forall (fun c => Z.quot (call_boot c) 60000 = m) cs ->
  printed (log_calls (before ++ cs) initial_log) <= printed (log_calls before initial_log) + 60 /\
  (Z.of_nat (length (before ++ cs)) < 2 ^ 32 ->
   Forall (fun c => is_ok (utc_timestamp (call_wall c)) = true) (before ++ cs) ->
   counted (log_calls (before ++ cs) initial_log) = new_calls (before ++ cs) initial_log).
Proof.
  intros Hm. split.
  - unfold log_calls at 1. rewrite fold_left_app. fold (log_calls before initial_log).
    change (fold_left _ cs ?x) with (log_calls cs x).
    pose proof (log_calls_ok before _ initial_log_ok) as Hok. pose proof (log_calls_budget m cs _ Hok Hm) as H.
    pose proof (log_calls_ok cs _ Hok) as [H1 _]. destruct Hok as [H2 _]. unfold budget in H.
    destruct (m =? _), (m =? _); lia.
  - intros Hl Hw. rewrite (log_calls_counted _ _ initial_log_ok); [done|cbn [suppressed initial_log]; lia|done].
Qed.
(** Two states in turn, a hundred times in one minute, and one in the next. *)
Definition sample_calls (n : nat) : list LogCall :=
  map (fun i => MkLogCall 1000 1767225600000 "READINESS_CHANGED" (if Nat.even i then "READY" else "NOT_READY") "NONE" "") (seq 0 n).
Definition next_minute : LogCall := MkLogCall 61000 1767225661000 "READINESS_CHANGED" "READY" "NONE" "".
Lemma log_bounded_witness :
  printed (log_calls (sample_calls 100) initial_log) <= 60 /\
  map line_count (drop 60 (lines (log_calls (sample_calls 100 ++ [next_minute]) initial_log))) = [21] /\
  counted (log_calls (sample_calls 100 ++ [next_minute]) initial_log) = 81.
Proof.
  split; [|split].
  - refine (proj1 (log_bounded [] (sample_calls 100) 0 _)). unfold sample_calls. apply Forall_map, Forall_forall. intros i _. reflexivity.
  - vm_compute. reflexivity.
  - rewrite (proj2 (log_bounded (sample_calls 100) [next_minute] 1 ltac:(by repeat constructor))).
    + vm_compute. reflexivity.
    + vm_compute. reflexivity.
    + apply Forall_app. split; [|by repeat constructor].
      unfold sample_calls. apply Forall_map, Forall_forall. intros i _. vm_compute. reflexivity.
Defined.
