(* ===== verification/Texts.v ===== *)
(** * JSON texts the service puts together itself ([Log::state] of src/runtime/grpc_main.cpp,
    [credential_request] of src/runtime/protocol.cpp)

    A line of the log and the request for a token are made of literals and quoted texts, not by
    [canonical].  The theorems: whatever the texts hold, each is one line, which the service's own
    parser reads as the object that was meant.  A log line is written piece by piece. *)
From Stdlib Require Import ZArith Lia Bool Ascii String.
From stdpp Require Import base strings list.
From S2P Require Import Prelude Chars Json JsonFacts Time Protocol Identity Analytics.
Local Open Scope Z_scope.

(** [std::cout << a << b << ...]: an operand is evaluated when those before it have been written,
    so what an exception finds written stays. *)
Fixpoint print (pieces : list (res string)) : string * res unit :=
  match pieces with
  | [] => (""%string, Ok tt)
  | Ok text :: l => let '(rest, r) := print l in (text +:+ rest, r)
  | Err e :: _ => (""%string, Err e)
  end.
(** [observed] is the timestamp, which may throw. *)
Definition line_pieces (event : string) (observed : res string) (st why : string) (count : Z) (source : string) : list (res string) :=
  [Ok (quoted "{'schemaVersion':1,'eventType':"); quote_json event;
   Ok (quoted ",'severity':'INFO','observedAt':"); t ← observed; quote_json t;
   Ok (quoted ",'currentState':"); quote_json st; Ok (quoted ",'reasonCode':"); quote_json why;
   Ok (quoted ",'count':"); Ok (to_string count)]
  ++ (if String.eqb source "" then [] else [Ok (quoted ",'sourceEventId':"); quote_json source])
  ++ [Ok "}"%string; Ok newline].
Definition line_text (l : Line) : string * res unit :=
  print (line_pieces (line_event l) (Ok (line_at l)) (line_state l) (line_reason l) (line_count l) (line_source l)).
(** What the lines of a log have written. *)
Definition output (ls : list Line) : string := fold_right (fun l out => (line_text l).1 +:+ out) ""%string ls.

(** ** What a line says *)

Definition line_fields (l : Line) : list (string * Json) :=
  [("schemaVersion", JInt 1); ("eventType", JString (line_event l)); ("severity", JString "INFO");
   ("observedAt", JString (line_at l)); ("currentState", JString (line_state l));
   ("reasonCode", JString (line_reason l)); ("count", JInt (line_count l))]%string
  ++ (if String.eqb (line_source l) "" then [] else [("sourceEventId"%string, JString (line_source l))]).
(** Texts of UTF-8 and a count that is one. *)
Definition line_ok (l : Line) : Prop :=
  Forall (fun t => validate_utf8 (chars t) = true) [line_event l; line_at l; line_state l; line_reason l; line_source l] /\
  0 <= line_count l <= maximum_integer.
#[export] Instance line_ok_dec l : Decision (line_ok l) := _.
(** No control character, so no end of a line. *)
Definition one_line (t : string) : Prop := Forall (fun c => 32 <= code c) (chars t).

Lemma print_app l k t : print l = (t, Ok tt) -> print (l ++ k) = (t +:+ (print k).1, (print k).2).
Proof.
  revert t. induction l as [|[p|e] l IH]; intros t; cbn [print app]; [|destruct (print l) as [rest r] eqn:E|done].
  - intros [= <-]. by destruct (print k).
  - intros [= <- ->]. rewrite (IH rest eq_refl). cbn. f_equal. apply chars_inj. rewrite !chars_app. by rewrite app_assoc.
Qed.
Lemma quote_valid t : validate_utf8 (chars t) = true -> exists q, quote_json t = Ok q.
Proof. unfold quote_json. intros ->. by eexists. Qed.
Lemma one_line_eval t : forallb (fun c => 32 <=? code c) (chars t) = true -> one_line t.
Proof. intros H. apply Forall_forall. intros c Hin%list_elem_of_In. rewrite forallb_forall in H. specialize (H c Hin). lia. Qed.
Lemma escape_printable c : Forall (fun c => 32 <= code c) (escape c).
Proof.
  assert (H : forallb (fun c => 32 <=? code c) (escape c) = true) by (destruct c as [[] [] [] [] [] [] [] []]; reflexivity).
  apply Forall_forall. intros d Hin%list_elem_of_In. rewrite forallb_forall in H. specialize (H d Hin). lia.
Qed.
Lemma quote_printable t q : quote_json t = Ok q -> one_line q.
Proof.
  intros (E & _)%quote_json_chars. unfold one_line. rewrite E. clear E. constructor; [by vm_compute|].
  apply Forall_app. split; [|repeat constructor; by vm_compute].
  induction (chars t) as [|c l IH]; cbn [flat_map]; [constructor|]. apply Forall_app. split; [apply escape_printable|exact IH].
Qed.
Lemma digits_printable n : 0 <= n -> one_line (to_string n).
Proof.
  intros Hn. unfold one_line, to_string, to_chars. rewrite chars_str. replace (n <? 0) with false by lia.
  eapply Forall_impl; [apply dec_is_digits, Hn|]. intros c Hc%is_digit_code. cbn in *. lia.
Qed.
Lemma one_line_app a b : one_line a -> one_line b -> one_line (a +:+ b).
Proof. unfold one_line. rewrite chars_app. intros. by apply Forall_app. Qed.

(** The members of a line's text: a key's text is the key between quotation marks. *)
Definition member (key value : string) : string := quoted ("'" +:+ key +:+ "':") +:+ value.
Lemma member_entry key x c :
  all_of (fun c => code c <? 128) key = true -> quote_json key = Ok (quoted ("'" +:+ key +:+ "'")) -> canonical x = Ok c ->
  entry_text key x = Ok (member key c).
Proof.
  unfold entry_text, member. intros -> -> ->. cbn [negb mbind res_mbind]. f_equal. apply chars_inj. rewrite !chars_app. unfold quoted.
  rewrite !chars_str, !chars_app, !map_app. cbn. by rewrite <- !app_assoc.
Qed.
(** Evaluates the literals and writes nested concatenations in one row. *)
Ltac flatten :=
  repeat match goal with |- context [chars (quoted ?s)] =>
    let v := eval vm_compute in (chars (quoted s)) in change (chars (quoted s)) with v end;
  cbn [app]; rewrite ?chars_app; repeat (progress (rewrite <- ?app_assoc; cbn [app])); rewrite ?app_nil_r.
(** The line's text is the members' between braces. *)
Lemma line_pieces_text l :
  line_ok l ->
  exists ps, Forall2 (fun kv p => entry_text kv.1 kv.2 = Ok p) (line_fields l) ps /\
    line_text l = (str (braced ps) +:+ newline, Ok tt) /\ Forall one_line ps.
Proof.
  intros [Hv Hc]. repeat apply Forall_cons in Hv as [? Hv].
  destruct (quote_valid (line_event l)) as [qe Ee]; [done|]. destruct (quote_valid (line_at l)) as [qa Ea]; [done|].
  destruct (quote_valid (line_state l)) as [qs Es]; [done|]. destruct (quote_valid (line_reason l)) as [qr Er]; [done|].
  destruct (quote_valid (line_source l)) as [qo Eo]; [done|].
  assert (En : canonical (JInt (line_count l)) = Ok (to_string (line_count l))).
  { cbn [canonical]. unfold maximum_integer in *. by replace (_ || _) with false by lia. }
  set (ps := [member "schemaVersion" "1"; member "eventType" qe; member "severity" (quoted "'INFO'"); member "observedAt" qa;
              member "currentState" qs; member "reasonCode" qr; member "count" (to_string (line_count l))]).
  exists (ps ++ (if String.eqb (line_source l) "" then [] else [member "sourceEventId" qo])). split_and!.
  - unfold line_fields. apply Forall2_app; [|destruct (String.eqb _ _); repeat constructor; by apply member_entry].
    repeat constructor; apply member_entry; done.
  - unfold line_text, line_pieces. rewrite Ee, Es, Er, Eo. cbn [mbind res_mbind]. rewrite Ea.
    destruct (String.eqb (line_source l) ""); cbn [app print]; f_equal; apply chars_inj; unfold braced, ps, member; cbn [app comma_texts flat_map];
      rewrite ?chars_app, ?chars_str; flatten; reflexivity.
  - assert (Hm : forall k v, one_line (quoted ("'" +:+ k +:+ "':")) -> one_line v -> one_line (member k v)) by (intros; by apply one_line_app).
    unfold ps. rewrite Forall_app. destruct (String.eqb _ _); rewrite !Forall_cons, Forall_nil; split_and!; try exact I.
    all: apply Hm; [by apply one_line_eval|].
    all: first [by eapply quote_printable | by apply one_line_eval | apply digits_printable; lia].
Qed.

(** ** What the log writes *)

(** A text is the line [l]: one line, and the parser reads the fields from it. *)
Definition says (l : Line) (text : string) : Prop :=
  one_line text /\
  forall limit, ssize text <= limit -> parse_json text limit = Ok (JObject (obj_of (line_fields l))).
Definition unlines (texts : list string) : string := fold_right (fun t out => t +:+ newline +:+ out) ""%string texts.

Lemma adds_fields l : adds (line_fields l) [] = Some (obj_of (line_fields l)).
Proof. unfold line_fields. by destruct (String.eqb (line_source l) ""). Qed.
Lemma fields_scalar l : Forall (fun kv => wf kv.2 /\ depth kv.2 = 0) (line_fields l).
Proof. unfold line_fields. destruct (String.eqb (line_source l) ""); repeat constructor. Qed.
Lemma braced_one_line ps : Forall one_line ps -> one_line (str (braced ps)).
Proof.
  assert (Hc : Forall one_line ps -> Forall (fun c => 32 <= code c) (comma_texts ps)).
  { induction 1 as [|p l Hp _ IH]; cbn; [constructor|]. constructor; [by vm_compute|]. by apply Forall_app. }
  unfold one_line. rewrite chars_str. unfold braced. intros H. constructor; [by vm_compute|].
  apply Forall_app. split; [|repeat constructor; by vm_compute]. destruct H as [|p l Hp Hl]; [constructor|]. apply Forall_app. split; [done|].
  clear Hc. induction Hl as [|q k Hq _ IH]; cbn; [constructor|]. constructor; [by vm_compute|]. by apply Forall_app.
Qed.
Lemma line_says l : line_ok l -> exists text, line_text l = (text +:+ newline, Ok tt) /\ says l text.
Proof.
  intros Hl. destruct (line_pieces_text l Hl) as (ps & Hps & Ht & Ho). exists (str (braced ps)). split; [done|].
  split; [by apply braced_one_line|]. intros limit Hlim. unfold parse_json. replace (limit <? _) with false by lia.
  rewrite chars_str. unfold parse. pose proof (fields_scalar l) as Hs.
  rewrite <- (app_nil_r (braced ps)) at 2. rewrite (braced_read (line_fields l) ps (obj_of (line_fields l))).
  - done.
  - apply Forall_forall. intros. apply reads_back_all.
  - eapply Forall_impl; [exact Hs|]. by intros x [? _].
  - eapply Forall_impl; [exact Hs|]. intros x [_ ->]. by vm_compute.
  - by vm_compute.
  - done.
  - apply adds_fields.
  - rewrite app_nil_r. lia.
Qed.
Lemma output_says ls :
  Forall line_ok ls -> exists texts, output ls = unlines texts /\ Forall2 says ls texts.
Proof.
  induction 1 as [|l ls Hl _ (texts & E & H)]; [by exists []|].
  destruct (line_says l Hl) as (text & Et & Ht). exists (text :: texts). split; [|by constructor].
  cbn [output unlines fold_right]. rewrite Et. cbn [fst]. change (fold_right _ _ ls) with (output ls). rewrite E. apply chars_inj. by rewrite !chars_app, app_assoc.
Qed.

(** A call whose texts are UTF-8, at a time before the year 10000. *)
Definition call_ok (c : LogCall) : Prop :=
  Forall (fun t => validate_utf8 (chars t) = true) [call_event c; call_state c; call_reason c; call_source c] /\
  0 <= call_wall c < year_10000_ms.
Lemma timestamp_valid ms : 0 <= ms < year_10000_ms -> exists t, utc_timestamp ms = Ok t /\ validate_utf8 (chars t) = true.
Proof.
  intros H. destruct (utc_timestamp_text ms H) as [_ ->]. eexists. split; [done|]. rewrite chars_str.
  apply utf8_valid_ascii; [done|]. unfold timestamp_text.
  assert (Hp : forall w n, Forall (fun c => code c < 128) (pad w n)).
  { intros w n. eapply Forall_impl; [apply pad_digits|]. intros c Hc%is_digit_code. cbn in *. lia. }
  repeat first [apply Forall_app; split; [apply Hp|] | apply Forall_cons; split; [by vm_compute|] | apply Forall_nil; exact I].
Qed.
Lemma log_lines_ok cs l : Forall call_ok cs -> Forall line_ok (lines l) -> Forall line_ok (lines (log_calls cs l)).
Proof.
  unfold log_calls. intros Hcs. revert l. induction Hcs as [|c cs [Hc Hw] _ IH]; intros l Hl; [done|]. cbn [fold_left]. apply IH.
  destruct (timestamp_valid _ Hw) as (t & Et & Hv).
  destruct (log_call_case c l) as [Hn|m n Hn _ _ _|p m n e Hn _ _ _ He|p m n t' Hn _ _ _ Ht]; cbn [fst lines]; [done..|].
  apply Forall_app. split; [done|]. apply Forall_cons. split; [|done]. replace t' with t by congruence.
  rewrite !Forall_cons in Hc. split; cbn; [rewrite !Forall_cons; naive_solver|].
  pose proof (Z.mod_pos_bound (1 + suppressed l) (2 ^ 32)). unfold maximum_integer. lia.
Qed.

(** C18: no text breaks out of the log.  Whatever states are reported with texts of UTF-8 (identifiers
    that came over the network among them), what the process has written is exactly one line for
    each line of the log, without control characters, and the service's own parser reads from it
    the object with that line's event, time, state, reason, count and source event. *)
Theorem log_output_read cs :
  Forall call_ok cs ->
  exists texts, output (lines (log_calls cs initial_log)) = unlines texts /\ Forall2 says (lines (log_calls cs initial_log)) texts.
Proof. intros H. apply output_says, log_lines_ok; [done|constructor]. Qed.
(** A clock that has no timestamp leaves a line without its end. *)
Lemma torn_line event e st why count source q :
  quote_json event = Ok q ->
  print (line_pieces event (Err e) st why count source) =
  (quoted "{'schemaVersion':1,'eventType':" +:+ q +:+ quoted ",'severity':'INFO','observedAt':", Err e).
Proof.
  intros E. unfold line_pieces. rewrite E. cbn [app print mbind res_mbind]. reflexivity.
Qed.

(** A state and a source event that try to forge a line. *)
Definition forging : list LogCall :=
  [MkLogCall 0 1709210096789 "READINESS_CHANGED" (str [quote_char; "}"%char; chr 10; "{"%char]) "NONE" "";
   MkLogCall 5 1709210096790 "EXERCISE_COMPLETED" "READY" "NONE" (str [quote_char; ","%char])].
Lemma log_output_read_witness :
  length (lines (log_calls forging initial_log)) = 2%nat /\
  exists texts, output (lines (log_calls forging initial_log)) = unlines texts /\ Forall2 says (lines (log_calls forging initial_log)) texts.
Proof.
  split; [vm_compute; reflexivity|]. apply (log_output_read forging).
  repeat (apply Forall_cons; split); [..|by apply Forall_nil]; split; repeat constructor; vm_compute; done.
Defined.

(** ** The request for a token *)

Definition request_fields (secret : string) : list (string * Json) :=
  [("protocol", JString "aos-kuksa-auth-compat/v1"); ("operation", JString "issue"); ("aosSecret", JString secret)]%string.
(** No secret breaks out of the request: what is sent is one line, and is read as the request for a
    token with exactly this secret. *)
Theorem credential_request_read secret r :
  credential_request secret = Ok r ->
  exists text, r = text +:+ newline /\ one_line text /\
    parse_json r 16384 = Ok (JObject (obj_of (request_fields secret))).
Proof.
  unfold credential_request. destruct (ssize secret =? 0); [done|]. intros (q & Hq & H)%bind_Ok. destruct (16384 <? _) eqn:Hl; [done|].
  b2p. apply Ok_inj in H as <-.
  set (ps := [member "protocol" (quoted "'aos-kuksa-auth-compat/v1'"); member "operation" (quoted "'issue'"); member "aosSecret" q]).
  assert (E : quoted "{'protocol':'aos-kuksa-auth-compat/v1','operation':'issue','aosSecret':" +:+ q +:+ "}" +:+ newline = str (braced ps) +:+ newline).
  { apply chars_inj. unfold braced, ps, member; cbn [app comma_texts flat_map]. rewrite ?chars_app, ?chars_str; flatten; reflexivity. }
  rewrite E in *. exists (str (braced ps)). split; [done|]. split.
  - apply braced_one_line. unfold ps. rewrite !Forall_cons, Forall_nil. split_and!; try exact I; apply one_line_app;
      first [by apply one_line_eval|by eapply quote_printable].
  - unfold parse_json. replace (16384 <? _) with false by lia. rewrite chars_app, chars_str. unfold parse.
    rewrite (braced_read (request_fields secret) ps (obj_of (request_fields secret))); [done|..|done|].
    + apply Forall_forall. intros. apply reads_back_all.
    + repeat constructor.
    + repeat constructor; by vm_compute.
    + by vm_compute.
    + repeat constructor; by apply member_entry.
    + lia.
Qed.
Lemma credential_request_read_witness :
  let secret := str [quote_char; ","%char; quote_char; chr 10] in
  let r := catch_all (credential_request secret) "" in
  exists text, r = text +:+ newline /\ one_line text /\
    parse_json r 16384 = Ok (JObject (obj_of (request_fields secret))).
Proof. cbn zeta. apply credential_request_read. vm_compute. reflexivity. Defined.
