(* ===== verification/Delivery.v ===== *)
(** * The delivery thread ([deliver] of src/runtime/grpc_main.cpp)

    One iteration of the thread that carries everything to the backend: the observation stream
    and its receipts, the demo control's poll and acknowledgement, and the outbox.  The sleeps
    between iterations are not modelled; the loop is its iteration, again and again. *)
From Stdlib Require Import ZArith Lia Bool Ascii String.
From stdpp Require Import gmap strings list relations.
From S2P Require Import Prelude Chars Float64 Sha256 Json JsonFacts Time Protocol Http Identity Model Messages Store StoreFacts OutboxFacts StoreSpec Observation Service ServiceFacts ServiceSpec Ledger QueueSpec Analytics.
Local Open Scope Z_scope.

(** The variables of [deliver]; [stream] is [observations]. *)
Record Delivery := MkDelivery {
  tries : Z; next_control : Z; next_delivery : Z;
  stream : option Stream; stream_tries : Z; next_observation : Z; next_stream_delivery : Z }.
Definition set_delivery (n at_ : Z) (d : Delivery) : Delivery :=
  MkDelivery n (next_control d) at_ (stream d) (stream_tries d) (next_observation d) (next_stream_delivery d).
Definition set_control (at_ : Z) (d : Delivery) : Delivery :=
  MkDelivery (tries d) at_ (next_delivery d) (stream d) (stream_tries d) (next_observation d) (next_stream_delivery d).
Definition set_stream (s : option Stream) (d : Delivery) : Delivery :=
  MkDelivery (tries d) (next_control d) (next_delivery d) s (stream_tries d) (next_observation d) (next_stream_delivery d).
Definition set_stream_delivery (n at_ : Z) (d : Delivery) : Delivery :=
  MkDelivery (tries d) (next_control d) (next_delivery d) (stream d) n (next_observation d) at_.
Definition set_observation (at_ : Z) (d : Delivery) : Delivery :=
  MkDelivery (tries d) (next_control d) (next_delivery d) (stream d) (stream_tries d) at_ (next_stream_delivery d).
(** [attempt++] of an unsigned. *)
Definition increment (n : Z) : Z := (n + 1) mod 2 ^ 32.
(** [HttpResponse response;] *)
Definition no_response : HttpResponse := MkHttpResponse 0 "" 0.

Section Deliver.
Context (w : World).
Implicit Types (d : Delivery).

(** An operation of the stream the thread holds. *)
Definition with_stream {A} (op : Fate -> Stream -> Stream * outcome A) : AM Delivery A := fun s =>
  match stream (locals s) with
  | None => (s, Thrown unavailable)
  | Some st =>
    let '(st', r) := op (fate_at w (asked s)) st in
    (MkApp (service s) (log s) (set_stream (Some st') (locals s)) (S (asked s)) (sent s), r)
  end.
(** A request whose failure counts as no response. *)
Definition try_post (bytes : string) : AM Delivery HttpResponse :=
  attempt (posted w "messages" bytes (fun net => post_backend net bytes false)) (mret no_response).
Definition stream_unavailable : AM Delivery unit :=
  _ ← set_local (set_stream None);
  report w "FUNCTION_OBSERVATION_CHANGED" "UNAVAILABLE" "OBSERVATION_STORAGE_UNAVAILABLE".
(** Before the loop; [ledger_files] is what the stream's directory holds once it is open. *)
Definition open_observations (ledger_files : res (option entry * option string)) : AM Delivery unit :=
  attempt
    (binding ← serve w observation_binding;
     match binding with
     | None => mret tt
     | Some base =>
       '(f, n) ← compute ledger_files;
       _ ← set_local (set_stream (Some (MkStream f n base JNull false (-1) "")));
       with_stream (fun fate _ => open_stream fate base f n)
     end)
    stream_unavailable.
Definition observe_turn : AM Delivery unit :=
  t ← boot_milliseconds w; d ← local;
  if next_observation d <=? t then
    content ← serve w function_observation;
    wall ← wall_milliseconds w; mono ← boot_milliseconds w;
    _ ← with_stream (fun fate => observe fate content wall mono);
    t ← boot_milliseconds w; set_local (set_observation (t + 5000))
  else mret tt.
Definition stream_turn : AM Delivery unit :=
  t ← boot_milliseconds w; d ← local;
  if next_stream_delivery d <=? t then
    pending ← with_stream stream_offer;
    match pending with
    | None => mret tt
    | Some bytes =>
      response ← try_post bytes;
      accepted ← with_stream (fun fate => stream_accept fate bytes (status response) (body response));
      t ← boot_milliseconds w;
      if (accepted : bool) then set_local (set_stream_delivery 0 (t + 100))
      else
        jitter ← ask (jitter_at w); d ← local;
        _ ← set_local (set_stream_delivery (increment (stream_tries d)) (next_stream_delivery d));
        delay ← compute (retry_delay (stream_tries d) jitter (retry_after response));
        set_local (fun d => set_stream_delivery (stream_tries d) (t + delay * 1000) d)
    end
  else mret tt.
Definition observation_turn : AM Delivery unit :=
  d ← local;
  match stream d with
  | None => mret tt
  | Some _ => attempt (_ ← observe_turn; stream_turn) stream_unavailable
  end.

Definition acknowledge_control : AM Delivery unit :=
  wall ← wall_milliseconds w;
  ack ← serve w (demo_control_ack wall);
  match ack with
  | None => mret tt
  | Some bytes =>
    response ← posted w "control/ack" bytes (fun net => post_demo_control net bytes true);
    if status response =? 200 then serve w (demo_control_accepted (body response)) else mret tt
  end.
Definition poll_control : AM Delivery unit :=
  poll ← serve w demo_control_poll;
  match poll with
  | None => mret tt
  | Some bytes =>
    response ← posted w "control/poll" bytes (fun net => post_demo_control net bytes false);
    if status response =? 200 then
      wall ← wall_milliseconds w; serve w (demo_control_command (body response) wall)
    else mret tt
  end.
Definition control_turn : AM Delivery unit :=
  t ← boot_milliseconds w; d ← local;
  if next_control d <=? t then
    _ ← attempt (_ ← acknowledge_control; poll_control)
          (report w "DEMO_CONTROL_CHANGED" "UNAVAILABLE" "RESET_CONTROL_UNAVAILABLE");
    t ← boot_milliseconds w; set_local (set_control (t + 5000))
  else mret tt.

(** The response to the message [p], or that there was none. *)
Definition answered (p : Pending) (response : HttpResponse) : AM Delivery unit :=
  accepted ← serve w (accept p response);
  if (accepted : bool) then
    d ← local; _ ← set_local (set_delivery 0 (next_delivery d));
    report w "BACKEND_CONNECTION_CHANGED" "CONNECTED" "NONE"
  else
    _ ← report w "BACKEND_CONNECTION_CHANGED" "BACKLOG" "NONE";
    t ← boot_milliseconds w; jitter ← ask (jitter_at w); d ← local;
    _ ← set_local (set_delivery (increment (tries d)) (next_delivery d));
    delay ← compute (retry_delay (tries d) jitter (retry_after response));
    set_local (fun d => set_delivery (tries d) (t + delay * 1000) d).
Definition deliver_message (p : Pending) : AM Delivery unit :=
  response ← try_post (pending_bytes p); answered p response.
Definition message_turn : AM Delivery unit :=
  t ← boot_milliseconds w; d ← local;
  if t <? next_delivery d then mret tt
  else
    attempt
      (pending ← serve w next_message;
       match pending with
       | None => set_local (set_delivery 0 (next_delivery d))
       | Some p => deliver_message p
       end)
      (report w "READINESS_CHANGED" "NOT_READY" "STORAGE_UNAVAILABLE").
(** One iteration of the loop. *)
Definition deliver_once : AM Delivery unit :=
  _ ← observation_turn; _ ← control_turn; message_turn.
(** The thread: it opens the stream, then iterates; [stops] is what the loop's condition
    [stop || interrupted] reads before each iteration. *)
Fixpoint deliver_loop (stops : list bool) : AM Delivery unit :=
  match stops with
  | [] => mret tt
  | stopping :: stops' => if stopping then mret tt else _ ← deliver_once; deliver_loop stops'
  end.
Definition deliver (ledger_files : res (option entry * option string)) (stops : list bool) : AM Delivery unit :=
  _ ← open_observations ledger_files; deliver_loop stops.
End Deliver.

(** ** Histories *)

(** The other threads only run what is enabled; for the delivery thread they also leave the outbox's
    delivery to it. *)
Fixpoint lawful_order (l : list Event) (s : Runtime) : Prop :=
  match l with
  | [] => True
  | e :: l' => enabled s e /\ lawful_order l' (handle e s).1
  end.
Definition lawful (w : World) : Prop := forall n s, lawful_order (others w n s) s.
Fixpoint in_order (l : list Event) (s : Runtime) : Prop :=
  match l with
  | [] => True
  | e :: l' => enabled s e /\ match e with Accept _ _ => False | _ => True end /\ in_order l' (handle e s).1
  end.
Definition polite (w : World) : Prop := forall n s, in_order (others w n s) s.
Lemma in_order_lawful l s : in_order l s -> lawful_order l s.
Proof. revert s. induction l as [|e l IH]; intros s; cbn [in_order lawful_order]; [done|]. intros (He & _ & H). split; [done|by apply IH]. Qed.
Lemma polite_lawful w : polite w -> lawful w.
Proof. intros H n s. by apply in_order_lawful. Qed.
Lemma others_grow l s : in_order l s -> grows (outbox (disk s)) (outbox (disk (run_others l s).1)).
Proof.
  revert s. induction l as [|e l IH]; intros s; cbn [in_order run_others]; [done|]. intros (_ & Hn & Hl).
  assert (Hg : grows (outbox (disk s)) (outbox (disk (handle e s).1))).
  { pose proof (retains_handle e) as G. destruct e; try done; exact (G s). }
  specialize (IH _ Hl). destruct (handle e s) as [s' [u|x|]]; cbn [fst] in *; [by etrans..|done].
Qed.

Section History.
Context {L : Type} (w : World) (uid : string) (Hw : lawful w).

(** Where the service of a thread stands in a history from [a]. *)
Definition History {A} (a : System) (s : App L) (r : outcome A) : Prop :=
  match r with
  | Stopped => rtc (step uid) a (Down (disk (service s)))
  | _ => rtc (step uid) a (Up (service s))
  end.
(** A computation that makes a history of the service. *)
Definition runs {A} (m : AM L A) : Prop := forall s : App L, History (Up (service s)) (m s).1 (m s).2.
Lemma history_trans {A} a (s s' : App L) (r : outcome A) :
  rtc (step uid) a (Up (service s)) -> History (Up (service s)) s' r -> History a s' r.
Proof. unfold History. intros H1 H2. destruct r; by etrans. Qed.
Lemma runs_bind {A B} (m : AM L A) (k : A -> AM L B) : runs m -> (forall a, runs (k a)) -> runs (m ≫= k).
Proof.
  intros Hm Hk s. unfold mbind, AM_mbind. specialize (Hm s). destruct (m s) as [s' [a|e|]]; [|exact Hm..].
  eapply history_trans; [exact Hm|apply Hk].
Qed.
Lemma runs_attempt {A} (m h : AM L A) : runs m -> runs h -> runs (attempt m h).
Proof.
  intros Hm Hh s. unfold attempt. specialize (Hm s). destruct (m s) as [s' [a|e|]]; [exact Hm| |exact Hm].
  eapply history_trans; [exact Hm|apply Hh].
Qed.
(** A computation that leaves the service alone and is not stopped. *)
Lemma runs_aside {A} (m : AM L A) : (forall s : App L, service (m s).1 = service s /\ (m s).2 <> Stopped) -> runs m.
Proof.
  intros H s. destruct (H s) as [H1 H2]. unfold History. destruct (m s) as [s' [a|e|]]; cbn in *; rewrite ?H1; try apply rtc_refl.
  by destruct H2.
Qed.
Lemma runs_compute {A} (m : res A) : runs (compute m).
Proof. apply runs_aside. intros s. unfold compute. by destruct m. Qed.
Lemma runs_posted {A} b bytes (f : _ -> res A) : runs (posted w b bytes f).
Proof. apply runs_aside. intros s. unfold posted, compute. by destruct (f _). Qed.
Lemma runs_report e st why src : runs (report_from w e st why src).
Proof.
  unfold report_from. apply runs_bind; [by apply runs_aside|intros boot]. apply runs_bind; [by apply runs_aside|intros wall].
  apply runs_aside. intros s. unfold logged. destruct (log_call _ _) as [l [u|x]]; done.
Qed.
Lemma others_run l s :
  lawful_order l s ->
  match run_others l s with
  | (s', Stopped) => rtc (step uid) (Up s) (Down (disk s'))
  | (s', _) => rtc (step uid) (Up s) (Up s')
  end.
Proof.
  revert s. induction l as [|e l IH]; intros s; cbn [lawful_order run_others]; [done|]. intros (He & Hl).
  destruct (handle e s) as [s' r] eqn:Eh. cbn [fst] in Hl. destruct r as [u|x|].
  1,2: specialize (IH s' Hl); destruct (run_others l s') as [s'' [v|y|]];
    (eapply rtc_l; [exact (step_event uid e s s' _ He Eh ltac:(discriminate))|exact IH]).
  apply rtc_once. by eapply step_stopped.
Qed.
(** A handler of the runtime is an event of it. *)
Definition event_of {A} (e : Event) (m : RT A) : Prop :=
  forall s, (handle e s).1 = (m s).1 /\ ((handle e s).2 = Stopped <-> (m s).2 = Stopped).
Lemma event_step {A} (m : RT A) e s s' r :
  event_of e m -> enabled s e -> m s = (s', r) ->
  match r with Stopped => step uid (Up s) (Down (disk s')) | _ => step uid (Up s) (Up s') end.
Proof.
  intros He Hen Hm. destruct (He s) as [H1 H2]. rewrite Hm in H1, H2. cbn in H1, H2.
  destruct (handle e s) as [x y] eqn:Eh. cbn in H1, H2. subst x. destruct r as [a|e'|].
  - eapply step_event; [exact Hen|exact Eh|]. intros ->. discriminate (proj1 H2 eq_refl).
  - eapply step_event; [exact Hen|exact Eh|]. intros ->. discriminate (proj1 H2 eq_refl).
  - eapply step_stopped; [exact Hen|]. rewrite Eh. f_equal. by apply H2.
Qed.
Lemma runs_serve {A} (m : RT A) e : event_of e m -> (forall s, enabled s e) -> runs (serve w m).
Proof.
  intros He Hen s. unfold serve. pose proof (others_run _ _ (Hw (asked s) (service s))) as Ho.
  destruct (run_others _ _) as [r [u|x|]]; [..|exact Ho].
  all: destruct (m r) as [r' out] eqn:Em; pose proof (event_step m e r r' out He (Hen r) Em) as Hs; unfold History; cbn [fst snd service set_service];
    destruct out; (eapply rtc_r; [exact Ho|exact Hs]).
Qed.
End History.
Lemma event_discard {A} e (m : RT A) : handle e = discard m -> event_of e m.
Proof. intros E s. rewrite E. unfold discard, mbind, RT_mbind. by destruct (m s) as [s' [a|x|]]. Qed.
Lemma event_same e (m : RT unit) : handle e = m -> event_of e m.
Proof. by intros <-. Qed.

(** ** One iteration is a history *)

Lemma steps_sound uid st a b : rtc (step uid) a b -> sound uid st a -> sound uid st b.
Proof. induction 1 as [|a b c Hab _ IH]; [done|]. intros H. apply IH. by eapply step_sound. Qed.
(** [next_message] leaves the service alone, and what it offers is not blocked. *)
Lemma next_message_offers uid st s :
  sound uid st (Up s) ->
  (next_message s).1 = s /\
  match (next_message s).2 with Done (Some p) => ~ blocked_in (outbox (disk s)) (pending_key p) | _ => True end.
Proof.
  intros [_ [[Hs _]|[Hoff _]]]; unfold next_message, mbind, RT_mbind, self.
  - pose proof Hs as (Hok & (_ & _ & Hq) & _). rewrite Hok. apply validate_queue_Ok in Hq.
    destruct (pending_run _ _ Hq) as (r & E & H). unfold eval. rewrite E. split; [done|]. cbn. destruct r as [p|]; [apply H|done].
  - rewrite Hoff. by split.
Qed.

Section DeliverHistory.
Context (w : World) (uid : string) (Hw : polite w).
Abbreviation Hist m s := (History uid (Up (service s)) (m s).1 (m s).2) (only parsing).

Lemma history_bind {L A B} (m : AM L A) (k : A -> AM L B) (s : App L) :
  Hist m s -> (forall b s', m s = (s', Done b) -> Hist (k b) s') -> Hist (m ≫= k) s.
Proof.
  intros Hm Hk. unfold mbind, AM_mbind. destruct (m s) as [s' [b|e|]] eqn:E; [|exact Hm..].
  eapply history_trans; [exact Hm|by apply Hk].
Qed.
Lemma history_attempt {L A} (m h : AM L A) (s : App L) :
  Hist m s -> runs uid h -> Hist (attempt m h) s.
Proof.
  intros Hm Hh. unfold attempt. destruct (m s) as [s' [b|e|]] eqn:E; [exact Hm| |exact Hm].
  eapply history_trans; [exact Hm|apply Hh].
Qed.
Lemma runs_stream {A} (op : Fate -> Stream -> Stream * outcome A) : runs uid (with_stream w op).
Proof.
  intros s. unfold with_stream. destruct (stream (locals s)) as [st|]; [|apply rtc_refl].
  destruct (op _ st) as [st' [a|e|]]; [apply rtc_refl..|]. apply rtc_once, step_exit.
Qed.
Create HintDb runs.
#[local] Hint Resolve runs_compute runs_posted runs_report runs_stream : runs.
Lemma runs_offer f : runs uid (with_stream w f : AM Delivery (option string)).
Proof. apply runs_stream. Qed.
Ltac runs_step :=
  lazymatch goal with
  | |- runs _ (mbind _ _) => apply runs_bind; [|intros ?]
  | |- runs _ (attempt _ _) => apply runs_attempt
  | |- runs _ (if ?b then _ else _) => destruct b
  | |- runs _ (match ?x with _ => _ end) => destruct x
  | |- runs _ (report _ _ _ _) => apply runs_report
  | |- runs _ (serve _ (demo_control_ack ?t)) => apply (runs_serve w uid (polite_lawful w Hw) _ (DemoControlAck t)); [by apply event_discard|done]
  | |- runs _ (serve _ (demo_control_accepted ?t)) => apply (runs_serve w uid (polite_lawful w Hw) _ (DemoControlAccepted t)); [by apply event_same|done]
  | |- runs _ (serve _ demo_control_poll) => apply (runs_serve w uid (polite_lawful w Hw) _ DemoControlPoll); [by apply event_discard|done]
  | |- runs _ (serve _ (demo_control_command ?b ?t)) =>
    apply (runs_serve w uid (polite_lawful w Hw) _ (DemoControlCommand b t)); [by apply event_same|done]
  | |- runs _ (serve _ function_observation) => apply (runs_serve w uid (polite_lawful w Hw) _ FunctionObservation); [by apply event_discard|done]
  | |- runs _ (serve _ observation_binding) => apply (runs_serve w uid (polite_lawful w Hw) _ ObservationBinding); [by apply event_discard|done]
  | |- runs _ _ => first [solve [auto with runs nocore] | by apply runs_aside]
  end.
Ltac runs_tac := repeat runs_step.
Lemma runs_unavailable : runs uid (stream_unavailable w).
Proof. unfold stream_unavailable. runs_tac. Qed.
Lemma runs_try_post b : runs uid (try_post w b).
Proof. unfold try_post. runs_tac. Qed.
#[local] Hint Resolve runs_unavailable runs_try_post : runs.
Lemma runs_observation_turn : runs uid (observation_turn w).
Proof. unfold observation_turn, observe_turn, stream_turn. runs_tac. Qed.
Lemma runs_control_turn : runs uid (control_turn w).
Proof. unfold control_turn, acknowledge_control, poll_control. runs_tac. Qed.
Lemma serve_accept {L} p r (s : App L) :
  ~ blocked_in (outbox (disk (service s))) (pending_key p) -> Hist (serve w (accept p r)) s.
Proof.
  intros Hb. unfold serve. pose proof (others_run uid _ _ (polite_lawful w Hw (asked s) (service s))) as Ho.
  pose proof (others_grow _ _ (Hw (asked s) (service s))) as Hg.
  destruct (run_others _ _) as [q [u|x|]]; [..|exact Ho].
  all: assert (He : enabled q (Accept p r)) by (cbn [enabled]; intros H; apply Hb; by apply (grows_blocks _ _ Hg)).
  all: destruct (accept p r q) as [q' out] eqn:Em.
  all: pose proof (event_step uid _ (Accept p r) q q' out (event_discard (Accept p r) _ eq_refl) He Em) as Hs.
  all: unfold History; cbn [fst snd service set_service]; destruct out; (eapply rtc_r; [exact Ho|exact Hs]).
Qed.
Lemma try_post_service b s : service (try_post w b s).1 = service s /\ (try_post w b s).2 <> Stopped.
Proof. unfold try_post, attempt, posted, compute. by destruct (post_backend _ _ _). Qed.
Lemma deliver_message_history p (s : App Delivery) :
  ~ blocked_in (outbox (disk (service s))) (pending_key p) -> Hist (deliver_message w p) s.
Proof.
  intros Hb. unfold deliver_message. apply history_bind; [apply runs_try_post|]. intros r s1 E1.
  assert (Es : service s1 = service s) by (destruct (try_post_service (pending_bytes p) s) as [H _]; by rewrite E1 in H).
  unfold answered. apply history_bind; [apply serve_accept; by rewrite Es|]. intros ok s2 _. revert s2.
  match goal with |- forall s2, History _ _ (?m s2).1 _ => enough (G : runs uid m) by exact G end. runs_tac.
Qed.
Lemma serve_next {L} st (s s' : App L) o :
  sound uid st (Up (service s)) -> serve w next_message s = (s', Done o) ->
  match o with Some p => ~ blocked_in (outbox (disk (service s'))) (pending_key p) | None => True end.
Proof.
  intros Hs E. unfold serve in E. pose proof (others_run uid _ _ (polite_lawful w Hw (asked s) (service s))) as Ho.
  destruct (run_others _ _) as [q [u|x|]]; [..|done].
  all: destruct (next_message_offers uid st q (steps_sound _ _ _ _ Ho Hs)) as [H1 H2].
  all: destruct (next_message q) as [q' out]; injection E as <- ->; cbn in *; subst q'; by destruct o.
Qed.
Lemma message_turn_history st (s : App Delivery) : sound uid st (Up (service s)) -> Hist (message_turn w) s.
Proof.
  intros Hs. unfold message_turn. apply history_bind; [apply rtc_refl|intros t s1 E1].
  apply history_bind; [apply rtc_refl|intros d s2 E2].
  assert (Es : service s2 = service s) by (injection E1 as <- _; injection E2 as <- _; done).
  destruct (t <? next_delivery d); [apply rtc_refl|]. apply history_attempt; [|apply runs_report].
  apply history_bind; [by apply (runs_serve w uid (polite_lawful w Hw) _ NextMessage); [by apply event_discard|]|intros o s3 E3].
  pose proof (serve_next st s2 s3 o ltac:(by rewrite Es) E3) as Hoff. destruct o as [p|]; [by apply deliver_message_history|apply rtc_refl].
Qed.
Lemma deliver_once_history st (s : App Delivery) : sound uid st (Up (service s)) -> Hist (deliver_once w) s.
Proof.
  intros Hs. unfold deliver_once. apply history_bind; [by apply runs_observation_turn|intros [] s1 E1].
  assert (H1 : sound uid st (Up (service s1))).
  { pose proof (runs_observation_turn s) as H. rewrite E1 in H. exact (steps_sound _ _ _ _ H Hs). }
  apply history_bind; [by apply runs_control_turn|intros [] s2 E2].
  apply (message_turn_history st).
  pose proof (runs_control_turn s1) as H. rewrite E2 in H. exact (steps_sound _ _ _ _ H H1).
Qed.
Lemma runs_open files : runs uid (open_observations w files).
Proof. unfold open_observations. runs_tac. Qed.
Lemma deliver_loop_history st stops (s : App Delivery) : sound uid st (Up (service s)) -> Hist (deliver_loop w stops) s.
Proof.
  revert s. induction stops as [|[] stops IH]; intros s Hs; cbn [deliver_loop]; [apply rtc_refl..|].
  apply history_bind; [by eapply deliver_once_history|]. intros [] s' E. apply IH.
  pose proof (deliver_once_history st s Hs) as H. rewrite E in H. exact (steps_sound _ _ _ _ H Hs).
Qed.
End DeliverHistory.

(** C3: the delivery thread keeps the runtime's contract.  Started on a service in a sound state, the
    whole thread, from the opening of its observation stream through any number of iterations,
    whatever the clocks, the network and the files do and whatever the other threads run in
    between, is a history of the service, so [accept] is only ever called for a message that is
    not blocked; everything the histories promise holds of it. *)
Theorem deliver_history w uid st files stops (s : App Delivery) :
  polite w -> sound uid st (Up (service s)) ->
  let '(s', r) := deliver w files stops s in
  match r with
  | Stopped => rtc (step uid) (Up (service s)) (Down (disk (service s'))) /\ sound uid st (Down (disk (service s')))
  | _ => rtc (step uid) (Up (service s)) (Up (service s')) /\ sound uid st (Up (service s'))
  end.
Proof.
  intros Hw Hs.
  assert (H : History uid (Up (service s)) (deliver w files stops s).1 (deliver w files stops s).2).
  { unfold deliver. apply history_bind; [by apply runs_open|]. intros [] s1 E1. apply (deliver_loop_history w uid Hw st).
    pose proof (runs_open w uid Hw files s) as H. rewrite E1 in H. exact (steps_sound _ _ _ _ H Hs). }
  destruct (deliver w files stops s) as [s' r]. unfold History in H. cbn [fst snd] in H.
  destruct r; (split; [exact H|exact (steps_sound _ _ _ _ H Hs)]).
Qed.

(** ** The backend out of reach *)

Section OutOfReach.
Context (w : World) (Hw : polite w).
(** No message gets a response. *)
Context (Hdown : forall n bytes, is_ok (post_backend (network w n) bytes false) = false).
Definition queue (s : App Delivery) : dir := outbox (disk (service s)).
Definition safe {A} (m : AM Delivery A) : Prop := forall s, grows (queue s) (queue (m s).1).
Lemma safe_bind {A B} (m : AM Delivery A) (k : A -> AM Delivery B) : safe m -> (forall a, safe (k a)) -> safe (m ≫= k).
Proof.
  intros Hm Hk s. unfold mbind, AM_mbind. pose proof (Hm s) as H. destruct (m s) as [s' [a|e|]]; [|exact H..].
  etrans; [exact H|apply Hk].
Qed.
Lemma safe_attempt {A} (m h : AM Delivery A) : safe m -> safe h -> safe (attempt m h).
Proof.
  intros Hm Hh s. unfold attempt. pose proof (Hm s) as H. destruct (m s) as [s' [a|e|]]; [exact H| |exact H].
  etrans; [exact H|apply Hh].
Qed.
Lemma safe_aside {A} (m : AM Delivery A) : (forall s, service (m s).1 = service s) -> safe m.
Proof. intros H s. unfold queue. by rewrite H. Qed.
Lemma safe_serve {A} (m : RT A) : retains m -> safe (serve w m).
Proof.
  intros Hm s. unfold serve, queue. pose proof (others_grow _ _ (Hw (asked s) (service s))) as Ho.
  destruct (run_others _ _) as [q [u|x|]]; cbn [fst] in *; [..|exact Ho].
  all: specialize (Hm q); destruct (m q) as [q' out]; cbn [fst service set_service] in *; by etrans.
Qed.
Lemma retains_event {A} e (m : RT A) : event_of e m -> (match e with Accept _ _ => False | _ => True end) -> retains m.
Proof. intros He Hn s. destruct (He s) as [<- _]. pose proof (retains_handle e) as G. destruct e; try done; exact (G s). Qed.
Lemma retains_no_response p : retains (accept p no_response).
Proof.
  intros s. destruct (accept_outbox p no_response s) as [-> | ->]; [done|].
  constructor.
  - intros k en H. destruct (acknowledge_outbox p no_response (disk s) k) as [G _].
    destruct (G en H) as [X|(_ & _ & X)]; [exact X|done].
  - intros k H. destruct (acknowledge_outbox p no_response (disk s) k) as [_ G].
    destruct (G H) as [X|(_ & X & _)]; [exact X|done].
Qed.
Lemma try_post_down b s : (try_post w b s).2 = Done no_response.
Proof.
  unfold try_post, attempt, posted, compute. pose proof (Hdown (asked s) b) as H.
  by destruct (post_backend _ _ _).
Qed.
Lemma safe_stream {A} (op : Fate -> Stream -> Stream * outcome A) : safe (with_stream w op).
Proof. apply safe_aside. intros s. unfold with_stream. destruct (stream (locals s)) as [st|]; [|done]. by destruct (op _ st). Qed.
Ltac safe_serve e := apply safe_serve, (retains_event e); [first [by apply event_discard|by apply event_same]|exact I].
Ltac safe_step :=
  lazymatch goal with
  | |- safe (mbind _ _) => apply safe_bind; [|intros ?]
  | |- safe (attempt _ _) => apply safe_attempt
  | |- safe (if ?b then _ else _) => destruct b
  | |- safe (match ?x with _ => _ end) => destruct x
  | |- safe (serve _ (demo_control_ack ?t)) => safe_serve (DemoControlAck t)
  | |- safe (serve _ (demo_control_accepted ?t)) => safe_serve (DemoControlAccepted t)
  | |- safe (serve _ demo_control_poll) => safe_serve DemoControlPoll
  | |- safe (serve _ (demo_control_command ?b ?t)) => safe_serve (DemoControlCommand b t)
  | |- safe (serve _ function_observation) => safe_serve FunctionObservation
  | |- safe (serve _ next_message) => safe_serve NextMessage
  | |- safe (compute ?m) => apply safe_aside; intros ?; unfold compute; by destruct m
  | |- safe (logged _ _) => apply safe_aside; intros ?; unfold logged; by destruct (log_call _ _)
  | |- safe (posted _ _ _ _) => apply safe_aside; intros ?; unfold posted, compute; by destruct (_ (network w _))
  | |- safe (with_stream _ _) => apply safe_stream
  | |- safe _ => by apply safe_aside
  end.
Ltac safe_tac := unfold report, report_from; repeat safe_step.
Lemma safe_deliver p : safe (deliver_message w p).
Proof.
  intros s. unfold deliver_message, mbind, AM_mbind. pose proof (try_post_down (pending_bytes p) s) as Hr.
  destruct (try_post_service w (pending_bytes p) s) as [Hs _]. destruct (try_post w (pending_bytes p) s) as [s1 r]. cbn in Hr, Hs. subst r.
  assert (E : queue s = queue s1) by (unfold queue; by rewrite Hs). rewrite E. revert s1 Hs E. intros s1 _ _. revert s1.
  enough (G : safe (answered w p no_response)) by exact G. unfold answered.
  apply safe_bind; [apply safe_serve, retains_no_response|intros ok]. safe_tac.
Qed.
Lemma safe_deliver_once : safe (deliver_once w).
Proof.
  unfold deliver_once. apply safe_bind; [|intros _; apply safe_bind; [|intros _]].
  - unfold observation_turn, observe_turn, stream_turn, stream_unavailable, try_post. safe_tac.
  - unfold control_turn, acknowledge_control, poll_control. safe_tac.
  - unfold message_turn. safe_step; [by apply safe_aside|]. safe_step; [by apply safe_aside|]. safe_step; [by apply safe_aside|].
    safe_step; [|safe_tac]. safe_step; [safe_step|]. safe_step; [apply safe_deliver|by apply safe_aside].
Qed.
Lemma safe_deliver_thread files stops : safe (deliver w files stops).
Proof.
  unfold deliver. apply safe_bind; [unfold open_observations, stream_unavailable; safe_tac; safe_serve ObservationBinding|intros _].
  induction stops as [|[] stops IH]; cbn [deliver_loop]; [by apply safe_aside..|].
  apply safe_bind; [apply safe_deliver_once|by intros _].
Qed.
End OutOfReach.

(** C15: an unreachable backend loses nothing.  While no message gets a response, the delivery thread,
    through any number of iterations, with whatever the other threads run in between and wherever
    it is stopped, leaves every queued message with its bytes and blocks none. *)
Theorem backend_unreachable w files stops (s : App Delivery) :
  polite w -> (forall n bytes, is_ok (post_backend (network w n) bytes false) = false) ->
  let d := outbox (disk (service s)) in let d' := outbox (disk (service (deliver w files stops s).1)) in
  (forall k en, holds d k en -> holds d' k en) /\ (forall k, blocked_in d' k -> blocked_in d k).
Proof. intros Hw Hdown. destruct (safe_deliver_thread w Hw Hdown files stops s) as [H1 H2]. by split. Qed.

(** ** An iteration that delivers, and one that cannot *)

Definition http_reply (status bytes : string) : string :=
  "HTTP/1.1 " +:+ status +:+ " Ok" +:+ line_end +:+ "Content-Length: " +:+ to_string (ssize bytes) +:+ line_end +:+ line_end +:+ bytes.
(** The backend answers with [reply]; another thread reports in between. *)
Definition sample_world (reply : res string) : World :=
  MkWorld (fun n => 60000 + 10 * Z.of_nat n) (fun n => sample_now + 10 * Z.of_nat n) (fun _ => zero) (fun _ => Ok sample_source)
    (fun _ _ _ _ _ _ => reply) (fun _ => true) (fun _ => Succeeds)
    (fun n _ => if (n =? 7)%nat then [AdvisoryObservation "UNAVAILABLE"; ExpireInput 61000] else []) (fun _ => []).
Definition sample_app : App Delivery := MkApp queued_runtime initial_log (MkDelivery 3 0 0 None 0 0 0) 0 [].
Definition sample_reply : res string := Ok (http_reply "201" queued_ack).
Lemma sample_polite reply : polite (sample_world reply).
Proof. intros n s. cbn [others sample_world]. destruct (n =? 7)%nat; cbn; auto. Qed.
Lemma queued_sound : sound sample_uid (state sample_runtime) (Up queued_runtime).
Proof.
  apply (service_history_sound sample_uid sample_runtime); [reflexivity|exact sample_served|]. apply rtc_once.
  unfold queued_runtime. destruct (handle (FunctionStatus "READY" sample_now []) sample_runtime) as [s' r] eqn:E.
  eapply (step_event sample_uid (FunctionStatus "READY" sample_now [])); [exact I|exact E|].
  assert (X : (match (handle (FunctionStatus "READY" sample_now []) sample_runtime).2 with Stopped => false | _ => true end) = true)
    by (vm_compute; reflexivity).
  rewrite E in X. intros ->. exact (Bool.diff_false_true X).
Qed.
(** What is left of an iteration: its end, the message, the requests and the next delivery. *)
Definition summary (x : App Delivery * outcome unit) : bool * bool * list string * Z :=
  (match x.2 with Done _ => true | _ => false end,
   holds_b (outbox (disk (service x.1))) (pending_key queued_pending) queued_entry,
   map fst (sent x.1), next_delivery (locals x.1)).
Definition no_ledger : res (option entry * option string) := Ok (None, None).
(** The thread: the opened stream offers its first message too. *)
Definition run_thread (reply : res string) (stops : list bool) : App Delivery * outcome unit :=
  deliver (sample_world reply) no_ledger stops sample_app.
Lemma delivered_summary :
  (summary (run_thread sample_reply [false; true])).1.1 = (true, false).
Proof. vm_compute. reflexivity. Qed.
Lemma deliver_history_witness :
  exists s', rtc (step sample_uid) (Up queued_runtime) (Up s') /\ sound sample_uid (state sample_runtime) (Up s') /\ holds_b (outbox (disk s')) (pending_key queued_pending) queued_entry = false.
Proof.
  pose proof (deliver_history (sample_world sample_reply) sample_uid (state sample_runtime) no_ledger [false; true] sample_app
    (sample_polite sample_reply) queued_sound) as H.
  pose proof delivered_summary as E. unfold run_thread in E.
  destruct (deliver (sample_world sample_reply) no_ledger [false; true] sample_app) as [s' r].
  unfold summary in E. cbn [fst snd] in E. injection E as E1 E2. exists (service s').
  destruct r as [u|e|]; [|exfalso; exact (Bool.diff_false_true E1)..].
  destruct H as [H1 H2]. split; [exact H1|split; [exact H2|exact E2]].
Defined.
Definition unreachable : res string := Err (RuntimeError "TRANSPORT_UNAVAILABLE").
Lemma unreachable_summary :
  summary (deliver_once (sample_world unreachable) sample_app) = (true, true, ["control/poll"; "messages"]%string, 68140).
Proof. vm_compute. reflexivity. Qed.
Lemma backend_unreachable_witness :
  holds (outbox (disk (service (deliver (sample_world unreachable) no_ledger [false; false] sample_app).1))) (pending_key queued_pending) queued_entry.
Proof.
  assert (Hdown : forall n bytes, is_ok (post_backend (network (sample_world unreachable) n) bytes false) = false).
  { intros n bytes. unfold post_backend. destruct (_ || _); reflexivity. }
  apply (proj1 (backend_unreachable (sample_world unreachable) no_ledger [false; false] sample_app (sample_polite unreachable) Hdown)).
  apply holds_b_true. vm_compute. reflexivity.
Defined.
