(* ===== verification/Subscription.v ===== *)
(** * The subscription ([subscribe] and the session loop of src/runtime/grpc_main.cpp)

    What the analytics process does with what the data broker sends: the check of the broker's
    metadata, one update of the subscribed values, one turn of the advisory thread, and what a
    session's end does to the runtime.  The broker's messages are the generated protobuf classes;
    they are records here with the fields the code reads.  MainLoop puts the pieces together; the
    threads' start, their calls' contexts and their end are in Contexts. *)
From Stdlib Require Import ZArith Lia Bool Ascii String.
From stdpp Require Import gmap strings list relations.
From S2P Require Import Prelude Chars Float64 Json JsonFacts Time Protocol Identity Model Messages Store StoreFacts StoreSpec Observation Service ServiceFacts ServiceSpec Session Ledger QueueSpec Analytics Delivery.
Local Open Scope Z_scope.

(** ** Paths *)

Definition paths : list string :=
  ["Vehicle.Speed"; "Vehicle.Acceleration.Lateral"; "Vehicle.Chassis.Axle.Row1.SteeringAngle";
   "Vehicle.Chassis.Axle.Row1.Wheel.Left.Speed"; "Vehicle.Chassis.Axle.Row1.Wheel.Right.Speed";
   "Vehicle.Chassis.Axle.Row2.Wheel.Left.Speed"; "Vehicle.Chassis.Axle.Row2.Wheel.Right.Speed";
   "Vehicle.CarlaSimulation.ChaosWheel.Row1.Left.LongitudinalSlip";
   "Vehicle.CarlaSimulation.ChaosWheel.Row1.Right.LongitudinalSlip";
   "Vehicle.CarlaSimulation.ChaosWheel.Row2.Left.LongitudinalSlip";
   "Vehicle.CarlaSimulation.ChaosWheel.Row2.Right.LongitudinalSlip";
   "Vehicle.CarlaSimulation.ChaosWheel.Row1.Left.LateralSlipAngle";
   "Vehicle.CarlaSimulation.ChaosWheel.Row1.Right.LateralSlipAngle";
   "Vehicle.CarlaSimulation.ChaosWheel.Row2.Left.LateralSlipAngle";
   "Vehicle.CarlaSimulation.ChaosWheel.Row2.Right.LateralSlipAngle"]%string.
Definition request_path : string := "Vehicle.OEM.TireHealth.Advisory.Request".
Definition status_path : string := "Vehicle.OEM.TireHealth.Advisory.GatewayStatus".
Definition readiness_path : string := "Vehicle.OEM.TireHealth.Advisory.Readiness".
(** [std::find] *)
Fixpoint position (path : string) (l : list string) : option nat :=
  match l with
  | [] => None
  | p :: l' => if String.eqb p path then Some O else S <$> position path l'
  end.
Definition path_index (path : string) : res nat := of_option (RuntimeError "KUKSA_UNREQUESTED_PATH") (position path paths).

(** ** The broker's messages *)

Inductive DataType := DATA_TYPE_STRING | DATA_TYPE_FLOAT | OtherDataType.
Inductive EntryType := ENTRY_TYPE_SENSOR | ENTRY_TYPE_ACTUATOR | OtherEntryType.
#[export] Instance DataType_eq_dec : EqDecision DataType.
Proof. solve_decision. Defined.
#[export] Instance EntryType_eq_dec : EqDecision EntryType.
Proof. solve_decision. Defined.
Record EntryMetadata := MkEntryMetadata { data_type : DataType; entry_type : EntryType; unit_of : option string }.
(** A float is the double of the same value. *)
Inductive DatapointValue := FloatValue (v : double) | StringValue (s : string) | OtherValue.
(** [timestamp] is the seconds and nanoseconds. *)
Record Datapoint := MkDatapoint { timestamp : option (Z * Z); point : DatapointValue }.
Record DataEntry := MkDataEntry { path : string; metadata_of : option EntryMetadata; value_of : option Datapoint }.
Record GetResponse := MkGetResponse { has_error : bool; errors_size : Z; entries : list DataEntry }.
Definition incompatible : exn := RuntimeError "VDP_INCOMPATIBLE".
(** What the accessors of an absent message yield. *)
Definition no_metadata : EntryMetadata := MkEntryMetadata OtherDataType OtherEntryType None.
Definition expected_unit (index : nat) : string :=
  if (index =? 0)%nat || ((3 <=? index)%nat && (index <? 7)%nat) then "km/h"
  else if (index =? 1)%nat then "m/s^2"
  else if (index =? 2)%nat || (11 <=? index)%nat then "degrees" else "".
Definition has_metadata (e : DataEntry) : bool := is_some (metadata_of e).
Definition inserted (index : nat) (seen : list nat) : bool := negb (existsb (Nat.eqb index) seen).
(** One entry; the indexes seen are returned. *)
Definition verify_entry (e : DataEntry) (seen : list nat) : res (list nat) :=
  let metadata := default no_metadata (metadata_of e) in
  if String.eqb (path e) request_path || String.eqb (path e) status_path || String.eqb (path e) readiness_path then
    let index := if String.eqb (path e) request_path then 15%nat else if String.eqb (path e) status_path then 16%nat else 17%nat in
    if negb (inserted index seen) || negb (has_metadata e)
       || negb (bool_decide (data_type metadata = DATA_TYPE_STRING))
       || negb (bool_decide (entry_type metadata = if (index =? 16)%nat then ENTRY_TYPE_SENSOR else ENTRY_TYPE_ACTUATOR))
    then Err incompatible else Ok (index :: seen)
  else
    index ← path_index (path e);
    let unit := expected_unit index in
    if negb (inserted index seen) || negb (has_metadata e)
       || negb (bool_decide (entry_type metadata = ENTRY_TYPE_SENSOR))
       || negb (bool_decide (data_type metadata = DATA_TYPE_FLOAT))
       || (if String.eqb unit "" then is_some (unit_of metadata)
           else negb (is_some (unit_of metadata)) || negb (String.eqb (default ""%string (unit_of metadata)) unit))
    then Err incompatible else Ok (index :: seen).
Fixpoint verify_entries (l : list DataEntry) (seen : list nat) : res (list nat) :=
  match l with
  | [] => Ok seen
  | e :: l' => seen ← verify_entry e seen; verify_entries l' seen
  end.
Definition verify_metadata (r : GetResponse) : res unit :=
  if has_error r || negb (errors_size r =? 0) || negb (Z.of_nat (length (entries r)) =? 18) then Err incompatible
  else _ ← verify_entries (entries r) []; Ok tt.
Definition no_signal : Signal := MkSignal zero 0 false.
Definition signal (e : DataEntry) : Signal :=
  match value_of e with
  | Some (MkDatapoint (Some (seconds, nanos)) v) =>
    if (seconds <? 0) || (253402300799 <? seconds) || (nanos <? 0) || (1000000000 <=? nanos) then no_signal
    else match v with
         | FloatValue x => MkSignal x (seconds * 1000 + Z.quot nanos 1000000) true
         | _ => no_signal
         end
  | _ => no_signal
  end.

(** ** An update *)

(** The variables of the reading loop. *)
Record Reading := MkReading { values : list Signal; previous_epoch : Z }.
Definition first_reading : Reading := MkReading (repeat no_signal 15) (-1).
Definition set_value (i : nat) (x : Signal) (r : Reading) : Reading := MkReading (<[i := x]> (values r)) (previous_epoch r).
Definition set_previous (t : Z) (r : Reading) : Reading := MkReading (values r) t.

(** [SessionTransport]: the trust anchor of the channel that is kept. *)
Abbreviation Transport := (option string).

Section Threads.
Context (w : World).

(** [serve] without waiting for the others: [state_ready] takes no lock. *)
Definition state_ready {L} : AM L bool := fun s => (s, Done (store_ok (service s))).
Definition gateway_value (e : DataEntry) : AM Reading unit :=
  match value_of e with
  | Some (MkDatapoint _ (StringValue text)) =>
    attempt (wall ← wall_milliseconds w; serve w (gateway_status text wall))
      (_ ← serve w (advisory_observation "UNAVAILABLE");
       report w "ADVISORY_STATUS_CHANGED" "UNAVAILABLE" "GATEWAY_STATUS_INVALID")
  | _ => mret tt
  end.
Fixpoint update_entries (l : list DataEntry) (seen : list nat) : AM Reading unit :=
  match l with
  | [] => mret tt
  | e :: l' =>
    if String.eqb (path e) status_path then _ ← gateway_value e; update_entries l' seen
    else
      index ← compute (path_index (path e));
      if negb (inserted index seen) then compute (Err (RuntimeError "KUKSA_DUPLICATE_UPDATE"))
      else _ ← set_local (set_value index (signal e)); update_entries l' (index :: seen)
  end.
(** What follows an exercise the engine reported. *)
Definition assess_exercise (ep : Episode) : AM Reading unit :=
  accepted ← match extract_features ep with
             | None => mret false
             | Some features => serve w (apply_episode features ep kModelConfigSha256)
             end;
  report_from w (if (accepted : bool) then "EXERCISE_COMPLETED" else "EXERCISE_SKIPPED")
    (if accepted then "READY" else "NOT_READY") (if accepted then "NONE" else "ASSESSMENT_SKIPPED_INPUT_QUALITY") (ep_id ep).
(** The body of the reading loop, for the updates of one message. *)
Definition frame_update (updates : list DataEntry) : AM Reading unit :=
  _ ← update_entries updates [];
  now ← boot_milliseconds w; wall ← wall_milliseconds w; r ← local;
  match complete_frame (values r) wall with
  | None => mret tt
  | Some frame =>
    if frame_epoch frame =? previous_epoch r then mret tt
    else
      uuid ← ask (uuid_at w);
      result ← serve w (ingest_frame_at uuid frame now);
      _ ← set_local (set_previous (frame_epoch frame));
      wall ← wall_milliseconds w;
      _ ← serve w (function_status "READY" wall []);
      ready ← state_ready;
      _ ← report w "READINESS_CHANGED" (if (ready : bool) then "READY" else "NOT_READY")
            (if ready then "NONE" else "STORAGE_UNAVAILABLE");
      match result with
      | None => mret tt
      | Some ep => assess_exercise ep
      end
  end.

(** ** The advisory thread *)

(** [stub->Set]; whether it was accepted is asked. *)
Definition set_target (where_ bytes : string) : AM ReadinessPublication unit := fun s => (add_sent where_ bytes s, Done tt).
Definition request_turn : AM ReadinessPublication unit :=
  wall ← wall_milliseconds w;
  bytes ← serve w (next_advisory wall);
  match bytes with
  | None => mret tt
  | Some text => _ ← set_target request_path text; report w "ADVISORY_REQUESTED" "REQUESTED" "NONE"
  end.
Definition readiness_turn : AM ReadinessPublication unit :=
  wall ← wall_milliseconds w;
  value ← serve w (advisory_readiness wall);
  ready ← compute (j ← parse_json value default_limit; b ← jat "ready" j; boolean b);
  now ← boot_milliseconds w; p ← local;
  if due p ready now then
    _ ← set_target readiness_path value;
    accepted ← ask (set_accepted w);
    now ← boot_milliseconds w;
    _ ← set_local (completed ready now accepted);
    report w "ADVISORY_READINESS_PUBLICATION"
      (if (accepted : bool) then (if (ready : bool) then "READY" else "NOT_READY") else "FAILED")
      (if accepted then "NONE" else "KUKSA_SET_NOT_ACCEPTED")
  else mret tt.
Definition advisory_turn : AM ReadinessPublication unit :=
  attempt (_ ← request_turn; readiness_turn)
    (_ ← serve w (advisory_observation "UNAVAILABLE");
     report w "ADVISORY_STATUS_CHANGED" "UNAVAILABLE" "ADVISORY_UNAVAILABLE").

(** ** The watcher thread *)

(** [interruption] and [invalid] of a session; an invalid session's calls are cancelled. *)
Record Watch := MkWatch { cause : SessionInputChange; invalid : bool }.
Definition watch_observe (c : SessionInputChange) (v : Watch) : Watch := MkWatch (interruption_observe (cause v) c) (invalid v).
Definition invalidate (v : Watch) : Watch := MkWatch (cause v) true.
(** One turn; [change] is what [inspect_session_inputs] found, [stopping] is [stop || interrupted]. *)
Definition watch_turn (change : SessionInputChange) (stopping : bool) : AM Watch unit :=
  _ ← set_local (if stopping then watch_observe Unavailable else id);
  _ ← set_local (watch_observe change);
  _ ← set_local (fun v => if cancelled (cause v) then invalidate v else v);
  attempt
    (now ← boot_milliseconds w; expired ← serve w (expire_input now);
     if (expired : bool) then report w "READINESS_CHANGED" "NOT_READY" "KUKSA_DATA_UNAVAILABLE" else mret tt)
    (set_local (fun v => invalidate (watch_observe Unavailable v))).

(** ** The end of a session *)

(** How [subscribe] ends: it returns, asks to authenticate again, or throws. *)
Inductive SessionEnd := Returned | Reauthenticating | Failed (code : string).
(** The status of a call that ended. *)
Inductive CallStatus := CallOk | CallCancelled | CallDenied | CallFailed.
#[export] Instance CallStatus_eq_dec : EqDecision CallStatus.
Proof. solve_decision. Defined.
(** After [Get] failed; [stopping] is [stop || interrupted]. *)
Definition get_failed (status : CallStatus) (cause : SessionInputChange) (stopping : bool) : SessionEnd :=
  match status with
  | CallCancelled => if token_replaced cause && negb stopping then Reauthenticating else Failed "KUKSA_DATA_UNAVAILABLE"
  | CallDenied => Failed "KUKSA_AUTH_UNAVAILABLE"
  | _ => Failed "KUKSA_DATA_UNAVAILABLE"
  end.
(** After the reading loop: the end of the stream, as far as it is a return or a renewal. *)
Definition stream_ended {L} (status : CallStatus) (cause : SessionInputChange) (stopping : bool) : AM L SessionEnd :=
  if (match status with CallOk | CallCancelled => true | _ => false end) && token_replaced cause && negb stopping
  then mret Reauthenticating
  else
    _ ← serve w disconnect;
    _ ← report w "KUKSA_CONNECTION_CHANGED" "NOT_READY" "KUKSA_DATA_UNAVAILABLE";
    mret Returned.
(** [channel]: whether a new one is made. *)
Definition channel (ca : string) (t : Transport) : Transport * bool :=
  if bool_decide (t = Some ca) then (t, false) else (Some ca, true).
Definition clear_transport : AM Transport unit := set_local (fun _ => None).
Definition failure_reason (code : string) : string :=
  if String.eqb code "KUKSA_AUTH_PENDING" then "KUKSA_AUTH_PENDING"
  else if String.eqb code "KUKSA_AUTH_UNAVAILABLE" then "KUKSA_AUTH_UNAVAILABLE"
  else if String.eqb code "VDP_INCOMPATIBLE" then "VDP_INCOMPATIBLE"
  else if String.eqb code "IMMUTABLE_IDENTITY_CHANGED" || String.eqb code "INPUT_FILE_UNAVAILABLE" then "STATE_INVALID"
  else "KUKSA_DATA_UNAVAILABLE".
Definition failed_status (code : string) : string * list string :=
  if String.eqb code "VDP_INCOMPATIBLE" then ("INCOMPATIBLE_VDP"%string, paths)
  else if String.eqb code "KUKSA_AUTH_UNAVAILABLE" then ("SERVICE_ACCESS_DENIED"%string, [])
  else ("TELEMETRY_DISCONNECTED"%string, []).
(** What the session loop does when [subscribe] has ended. *)
Definition after_session (e : SessionEnd) : AM Transport unit :=
  match e with
  | Returned => clear_transport
  | Reauthenticating =>
    _ ← serve w reauthenticate;
    report w "KUKSA_CONNECTION_CHANGED" "REAUTHENTICATING" "TOKEN_REPLACED"
  | Failed code =>
    _ ← clear_transport;
    _ ← serve w disconnect;
    let o := subscription_failure_observation code in
    _ ← serve w (input_observation (failed_connection o) (failed_input o) (failed_reason o));
    _ ← serve w (advisory_observation "UNAVAILABLE");
    _ ← report w "READINESS_CHANGED" "NOT_READY" (failure_reason code);
    wall ← wall_milliseconds w;
    serve w (function_status (failed_status code).1 wall (failed_status code).2)
  end.
End Threads.

(** ** The accepted metadata *)

(** What the broker must publish: the path, its type, its kind and its unit. *)
Definition catalogue : list (string * EntryMetadata) :=
  let sensor u := MkEntryMetadata DATA_TYPE_FLOAT ENTRY_TYPE_SENSOR u in
  zip paths (map sensor [Some "km/h"; Some "m/s^2"; Some "degrees"; Some "km/h"; Some "km/h"; Some "km/h"; Some "km/h";
                         None; None; None; None; Some "degrees"; Some "degrees"; Some "degrees"; Some "degrees"]%string)
  ++ [(request_path, MkEntryMetadata DATA_TYPE_STRING ENTRY_TYPE_ACTUATOR None);
      (status_path, MkEntryMetadata DATA_TYPE_STRING ENTRY_TYPE_SENSOR None);
      (readiness_path, MkEntryMetadata DATA_TYPE_STRING ENTRY_TYPE_ACTUATOR None)].
(** An entry that is as its row says; the unit of a text is not looked at. *)
Definition as_published (e : DataEntry) : Prop :=
  exists row md, row ∈ catalogue /\ metadata_of e = Some md /\ path e = row.1 /\
    data_type md = data_type row.2 /\ entry_type md = entry_type row.2 /\
    (data_type md = DATA_TYPE_FLOAT -> unit_of md = unit_of row.2).
(** The index of an entry's path among all eighteen. *)
Definition entry_index (p : string) : option nat :=
  if String.eqb p request_path || String.eqb p status_path || String.eqb p readiness_path
  then Some (if String.eqb p request_path then 15%nat else if String.eqb p status_path then 16%nat else 17%nat)
  else position p paths.
Lemma position_lookup p l i : position p l = Some i -> l !! i = Some p.
Proof.
  revert i. induction l as [|q l IH]; intros i; cbn [position]; [done|]. destruct (String.eqb q p) eqn:E.
  - intros [= <-]. apply String.eqb_eq in E. by subst.
  - destruct (position p l) as [j|]; [|done]. intros [= <-]. by apply IH.
Qed.
Lemma entry_index_row p i : entry_index p = Some i -> exists md, catalogue !! i = Some (p, md).
Proof.
  unfold entry_index. destruct (_ || _) eqn:E.
  - intros [= <-]. apply orb_true_iff in E as [E|E]; [apply orb_true_iff in E as [E|E]|]; apply String.eqb_eq in E; subst p; by eexists.
  - intros H%position_lookup. assert (i < 15)%nat by (apply lookup_lt_Some in H; exact H).
    do 15 (destruct i as [|i]; [injection H as <-; by eexists|]). lia.
Qed.
Lemma entry_index_inj p q i : entry_index p = Some i -> entry_index q = Some i -> p = q.
Proof. intros (m & H1)%entry_index_row (m' & H2)%entry_index_row. congruence. Qed.
Lemma catalogue_indexed row : row ∈ catalogue -> exists i, entry_index row.1 = Some i /\ catalogue !! i = Some row.
Proof.
  intros (i & H)%list_elem_of_lookup. exists i. split; [|done].
  assert (i < 18)%nat by (apply lookup_lt_Some in H; exact H). do 18 (destruct i as [|i]; [injection H as <-; reflexivity|]). lia.
Qed.
Lemma inserted_spec i seen : inserted i seen = true <-> i ∉ seen.
Proof.
  unfold inserted. rewrite negb_true_iff, <- not_true_iff_false, existsb_exists. split; intros H X; apply H.
  - exists i. split; [by apply list_elem_of_In|apply Nat.eqb_refl].
  - destruct X as (j & Hj & ->%Nat.eqb_eq). by apply list_elem_of_In.
Qed.
(** What the check asks of the metadata of the entry with the index [i]. *)
Definition entry_right (i : nat) (md : EntryMetadata) : bool :=
  if (15 <=? i)%nat then
    bool_decide (data_type md = DATA_TYPE_STRING)
    && bool_decide (entry_type md = if (i =? 16)%nat then ENTRY_TYPE_SENSOR else ENTRY_TYPE_ACTUATOR)
  else
    bool_decide (entry_type md = ENTRY_TYPE_SENSOR) && bool_decide (data_type md = DATA_TYPE_FLOAT)
    && (if String.eqb (expected_unit i) "" then negb (is_some (unit_of md))
        else is_some (unit_of md) && String.eqb (default ""%string (unit_of md)) (expected_unit i)).
Lemma verify_entry_index e seen :
  verify_entry e seen =
  match entry_index (path e) with
  | None => Err (RuntimeError "KUKSA_UNREQUESTED_PATH")
  | Some i => if inserted i seen && match metadata_of e with Some md => entry_right i md | None => false end
              then Ok (i :: seen) else Err incompatible
  end.
Proof.
  unfold verify_entry, entry_index, path_index, has_metadata. destruct (_ || String.eqb (path e) readiness_path) eqn:E.
  - set (i := if String.eqb (path e) request_path then _ else _). assert (Hi : (15 <=? i)%nat = true) by (unfold i; by repeat case_match).
    unfold entry_right. rewrite Hi. destruct (metadata_of e) as [md|]; cbn [default is_some from_option id negb]; [|by rewrite orb_true_r, andb_false_r].
    destruct (inserted i seen), (bool_decide (data_type md = _)), (bool_decide (entry_type md = _)); reflexivity.
  - destruct (position (path e) paths) as [i|] eqn:Ep; [|done]. cbn [of_option mbind res_mbind].
    assert (Hi : (15 <=? i)%nat = false).
    { apply position_lookup, lookup_lt_Some in Ep. apply Nat.leb_gt. exact Ep. }
    unfold entry_right. rewrite Hi. destruct (metadata_of e) as [md|]; cbn [default is_some from_option id negb]; [|by rewrite orb_true_r, andb_false_r].
    destruct (inserted i seen), (bool_decide (entry_type md = _)), (bool_decide (data_type md = _)); try reflexivity.
    cbn [negb andb orb]. destruct (String.eqb (expected_unit i) ""); [by destruct (is_some (unit_of md))|].
    by destruct (is_some (unit_of md)), (String.eqb _ (expected_unit i)).
Qed.
Lemma entry_right_row i md row :
  catalogue !! i = Some row ->
  entry_right i md = true <->
  data_type md = data_type row.2 /\ entry_type md = entry_type row.2 /\ (data_type md = DATA_TYPE_FLOAT -> unit_of md = unit_of row.2).
Proof.
  intros H. assert (i < 18)%nat by (apply lookup_lt_Some in H; exact H). destruct md as [dt et u].
  do 18 (destruct i as [|i]; [injection H as <-; unfold entry_right; cbn [Nat.leb Nat.eqb data_type entry_type unit_of snd];
    repeat match goal with |- context [expected_unit ?k] => let x := eval vm_compute in (expected_unit k) in change (expected_unit k) with x end;
    cbn [String.eqb Ascii.eqb Bool.eqb]; rewrite ?andb_true_iff, ?bool_decide_eq_true;
    destruct u as [u|]; cbn [is_some negb default from_option id]; rewrite ?String.eqb_eq; naive_solver|]). lia.
Qed.
Lemma verify_entry_Ok e seen seen' :
  verify_entry e seen = Ok seen' <->
  exists i, entry_index (path e) = Some i /\ (i ∉ seen) /\ as_published e /\ seen' = i :: seen.
Proof.
  rewrite verify_entry_index. split.
  - destruct (entry_index (path e)) as [i|] eqn:Ei; [|done]. destruct (inserted i seen && _) eqn:E; [|done].
    intros <-%Ok_inj. apply andb_true_iff in E as [Hs%inserted_spec E]. exists i. split_and!; [done..| |done].
    destruct (metadata_of e) as [md|] eqn:Em; [|done]. destruct (entry_index_row _ _ Ei) as (m & Hr).
    pose proof (proj1 (entry_right_row _ _ _ Hr) E) as (E1 & E2 & E3). exists (path e, m), md. split_and!; try done.
    by eapply list_elem_of_lookup_2.
  - intros (i & Ei & Hs & (row & md & Hrow & Hm & Hp & E) & ->). rewrite Ei, Hm.
    destruct (catalogue_indexed row Hrow) as (j & Hj & Hl). rewrite <- Hp, Ei in Hj. injection Hj as <-.
    apply (entry_right_row _ _ _ Hl) in E. apply inserted_spec in Hs. by rewrite E, Hs.
Qed.
Lemma verify_entries_Ok l seen :
  is_ok (verify_entries l seen) = true <->
  Forall as_published l /\ NoDup (omap (fun e => entry_index (path e)) l) /\
  (forall i, i ∈ omap (fun e => entry_index (path e)) l -> i ∉ seen).
Proof.
  revert seen. induction l as [|e l IH]; intros seen; cbn [verify_entries].
  - split; [intros _; split_and!; [constructor|apply NoDup_nil_2|intros i Hi; by apply elem_of_nil in Hi]|done].
  - rewrite is_ok_iff. split.
    + intros (x & (seen' & (i & Ei & Hs & Hp & ->)%verify_entry_Ok & H)%bind_Ok).
      assert (Hok : is_ok (verify_entries l (i :: seen)) = true) by (apply is_ok_iff; by eexists).
      apply IH in Hok as (H1 & H2 & H3). cbn [omap list_omap]. rewrite Ei. split_and!; [by constructor| |].
      * apply NoDup_cons. split; [|done]. intros Hi. apply (H3 i Hi). by left.
      * intros j [->|Hj]%elem_of_cons; [done|]. intros X. apply (H3 j Hj). by right.
    + intros (H1 & H2 & H3). apply Forall_cons in H1 as [Hp H1]. destruct Hp as (row & md & Hrow & Hm & Hpath & E) eqn:Hpub.
      destruct (catalogue_indexed row Hrow) as (i & Ei & _). rewrite <- Hpath in Ei. cbn [omap list_omap] in H2, H3. rewrite Ei in H2, H3.
      apply NoDup_cons in H2 as [Hn H2].
      assert (Hok : is_ok (verify_entries l (i :: seen)) = true).
      { apply IH. split_and!; [done..|]. intros j Hj [->|X]%elem_of_cons; [done|]. apply (H3 j); [by right|done]. }
      apply is_ok_iff in Hok as [x Hx]. exists x. apply bind_Ok. exists (i :: seen). split; [|done].
      apply verify_entry_Ok. exists i. split_and!; [done|apply H3; by left|by exists row, md|done].
Qed.

(** C13: the metadata the service accepts.  A response is accepted exactly when it carries no error and
    its entries are, in any order, one for each of the eighteen paths, each published with the
    type, the kind and the unit of the catalogue; a path outside the catalogue, a repeated one and
    a missing one are all refused. *)
Theorem verify_metadata_exact r :
  verify_metadata r = Ok tt <->
  has_error r = false /\ errors_size r = 0 /\
  Permutation (map path (entries r)) (map fst catalogue) /\ Forall as_published (entries r).
Proof.
  unfold verify_metadata. set (l := entries r).
  assert (Hidx : forall l, Forall as_published l ->
    map Some (omap (fun e => entry_index (path e)) l) = map entry_index (map path l)).
  { clear. induction 1 as [|e l He _ IH]; [done|]. cbn [omap list_omap map]. destruct He as (row & md & Hrow & _ & Hp & _).
    destruct (catalogue_indexed row Hrow) as (i & Ei & _). rewrite Hp, Ei. cbn [map]. f_equal. by rewrite IH. }
  assert (Hlen : length (map fst catalogue) = 18%nat) by reflexivity.
  split.
  - destruct (_ || _) eqn:E; [done|]. b2p. intros (x & Hx & _)%bind_Ok.
    assert (Hok : is_ok (verify_entries l []) = true) by (apply is_ok_iff; by eexists).
    apply verify_entries_Ok in Hok as (Hpub & Hnd & _). split_and!; [done..| |done].
    apply submseteq_length_Permutation; [|rewrite Hlen, length_map; lia].
    apply NoDup_submseteq.
    + apply NoDup_fmap_1 with (f := entry_index). change (NoDup (map entry_index (map path l))). rewrite <- Hidx by done.
      apply NoDup_fmap_2; [|done]. by intros ?? [= ->].
    + intros p (e & -> & He)%list_elem_of_fmap. rewrite Forall_forall in Hpub. destruct (Hpub e He) as (row & md & Hrow & _ & -> & _).
      by apply list_elem_of_fmap_2.
  - intros (-> & Hs & Hp & H1). pose proof (Permutation_length Hp) as Hl. rewrite Hlen, length_map in Hl.
    cbn [orb]. rewrite Hs. replace (Z.of_nat (length l) =? 18) with true by lia. cbn [Z.eqb negb orb].
    assert (Hok : is_ok (verify_entries l []) = true).
    { apply verify_entries_Ok. split_and!; [done| |by intros i _ ?%elem_of_nil].
      apply NoDup_fmap_1 with (f := Some). change (NoDup (map Some (omap (fun e => entry_index (path e)) l))).
      rewrite Hidx by done. unfold l in *. rewrite Hp. exact (proj1 (bool_decide_eq_true (NoDup (map entry_index (map fst catalogue)))) eq_refl). }
    apply is_ok_iff in Hok as [x Hx]. by rewrite Hx.
Qed.

(** ** The collected values *)

Section Collected.
Context (w : World).
(** The index of a subscribed value; a gateway status has none. *)
Definition signal_index (e : DataEntry) : option nat :=
  if String.eqb (path e) status_path then None else position (path e) paths.
Definition telemetry (l : list DataEntry) : list DataEntry := List.filter (fun e => negb (String.eqb (path e) status_path)) l.
(** The value of the index [i] after the updates. *)
Definition collected (l : list DataEntry) (old : list Signal) (i : nat) : option Signal :=
  match List.find (fun e => bool_decide (signal_index e = Some i)) l with
  | Some e => Some (signal e)
  | None => old !! i
  end.
Lemma gateway_value_locals e s : locals (gateway_value w e s).1 = locals s.
Proof.
  assert (Hserve : forall A (m : RT A) (s : App Reading), locals (serve w m s).1 = locals s).
  { intros A m x. unfold serve. destruct (run_others _ _) as [r [u|y|]]; [| |done]; by destruct (m r). }
  assert (Hreport : forall a b c (s : App Reading), locals (report w a b c s).1 = locals s).
  { intros a b c x. unfold report, report_from, mbind, AM_mbind, boot_milliseconds, wall_milliseconds, ask, logged. by destruct (log_call _ _). }
  unfold gateway_value. destruct (value_of e) as [[ts [v|text|]]|]; try done.
  unfold attempt, mbind, AM_mbind, wall_milliseconds, ask.
  pose proof (Hserve _ (gateway_status text (wall_clock w (asked s))) (asked_once s)) as H.
  destruct (serve w (gateway_status _ _) _) as [s1 [u|x|]]; cbn [fst] in *; [exact H| |exact H].
  pose proof (Hserve _ (advisory_observation "UNAVAILABLE") s1) as H1.
  destruct (serve w (advisory_observation _) s1) as [s2 [u|y|]]; cbn [fst] in *; [rewrite Hreport|..]; (etrans; [exact H1|exact H]).
Qed.
Lemma update_entries_run l seen s s' :
  length (values (locals s)) = 15%nat -> update_entries w l seen s = (s', Done tt) ->
  NoDup (map path (telemetry l)) /\
  (forall e, e ∈ telemetry l -> exists i, signal_index e = Some i /\ i ∉ seen) /\
  (forall i, values (locals s') !! i = collected l (values (locals s)) i) /\
  previous_epoch (locals s') = previous_epoch (locals s).
Proof.
  revert seen s. induction l as [|e l IH]; intros seen s Hlen; cbn [update_entries].
  { intros [= <-]. split_and!; [apply NoDup_nil_2|by intros e ?%elem_of_nil|done|done]. }
  unfold telemetry, collected, signal_index. cbn [List.filter List.find]. destruct (String.eqb (path e) status_path) eqn:Es; cbn [negb].
  - unfold mbind, AM_mbind. pose proof (gateway_value_locals e s) as Hg.
    destruct (gateway_value w e s) as [s1 [u|x|]]; cbn [fst] in Hg; [|done..]. rewrite <- Hg in Hlen. intros H.
    destruct (IH seen s1 Hlen H) as (H1 & H2 & H3 & H4). rewrite Hg in H3, H4. split_and!; [done..| |done].
    intros i. by rewrite bool_decide_eq_false_2 by done.
  - unfold path_index. destruct (position (path e) paths) as [i|] eqn:Ep; [|done]. cbn [of_option].
    unfold mbind at 1, AM_mbind at 1, compute at 1. destruct (inserted i seen) eqn:Ei; cbn [negb]; [|done].
    apply inserted_spec in Ei. unfold mbind, AM_mbind, set_local. cbn beta iota. set (s1 := MkApp _ _ _ _ _). intros H.
    assert (Hl1 : length (values (locals s1)) = 15%nat) by (cbn; by rewrite length_insert).
    destruct (IH (i :: seen) s1 Hl1 H) as (H1 & H2 & H3 & H4).
    assert (Hi : (i < 15)%nat) by (apply position_lookup, lookup_lt_Some in Ep; exact Ep). split_and!.
    + apply NoDup_cons. split; [|exact H1]. intros (e' & Hp & He')%list_elem_of_fmap. destruct (H2 e' He') as (j & Hj & Hn).
      apply Hn. unfold signal_index in Hj. rewrite <- Hp, Es, Ep in Hj. injection Hj as <-. by left.
    + intros e' [->|He']%elem_of_cons; [exists i; by rewrite Es|]. destruct (H2 e' He') as (j & Hj & Hn). exists j.
      split; [exact Hj|]. intros X. apply Hn. by right.
    + intros j. rewrite H3. unfold collected. cbn [s1 locals set_value values]. destruct (decide (i = j)) as [<-|Hne].
      * rewrite bool_decide_eq_true_2 by done. destruct (List.find _ l) as [e'|] eqn:Ef.
        -- apply find_some in Ef as [He' Hi'%bool_decide_eq_true]. exfalso.
           assert (Ht : e' ∈ telemetry l).
           { apply list_elem_of_In, filter_In. split; [done|]. unfold signal_index in Hi'. by destruct (String.eqb (path e') status_path). }
           destruct (H2 e' Ht) as (k & Hk & Hn). apply Hn. rewrite Hi' in Hk. injection Hk as <-. by left.
        -- by rewrite list_lookup_insert_eq by lia.
      * rewrite bool_decide_eq_false_2 by congruence. destruct (List.find _ l); [done|]. by rewrite list_lookup_insert_ne.
    + exact H4.
Qed.
End Collected.

(** The values of one message.  An update that is accepted names each path at most once and only
    subscribed ones, and afterwards every one of the fifteen values is the signal the message
    carries for its path, or the value it had; gateway statuses among the entries change none. *)
Theorem update_collects w l s s' :
  length (values (locals s)) = 15%nat -> update_entries w l [] s = (s', Done tt) ->
  NoDup (map path (telemetry l)) /\ (forall e, e ∈ telemetry l -> path e ∈ paths) /\
  length (values (locals s')) = 15%nat /\
  (forall i, values (locals s') !! i = collected l (values (locals s)) i).
Proof.
  intros Hlen H. destruct (update_entries_run w l [] s s' Hlen H) as (H1 & H2 & H3 & _). split_and!; [done| | |done].
  - intros e He. destruct (H2 e He) as (i & Hi & _). unfold signal_index in Hi. destruct (String.eqb _ _); [done|].
    apply position_lookup in Hi. by eapply list_elem_of_lookup_2.
  - assert (Hsame : forall i, is_Some (values (locals s') !! i) <-> (i < 15)%nat).
    { intros i. rewrite H3. unfold collected. destruct (List.find _ l) as [e|] eqn:Ef; [|by rewrite lookup_lt_is_Some, Hlen].
      apply find_some in Ef as [_ Hi%bool_decide_eq_true]. split; [|by eexists]. intros _. unfold signal_index in Hi.
      destruct (String.eqb _ _); [done|]. apply position_lookup, lookup_lt_Some in Hi. exact Hi. }
    set (n := length (values (locals s'))) in *. destruct (lt_eq_lt_dec n 15) as [[Hl|Hl]|Hl]; [|exact Hl|].
    + exfalso. assert (X : is_Some (values (locals s') !! n)) by by apply Hsame. apply lookup_lt_is_Some in X. unfold n in X. lia.
    + exfalso. assert (X : is_Some (values (locals s') !! 15%nat)) by (apply lookup_lt_is_Some; unfold n in Hl; lia).
      apply Hsame in X. lia.
Qed.

(** ** The advisory thread and the end of a session *)

Section AdvisoryHistory.
Context (w : World) (uid : string) (Hw : lawful w).
Implicit Types (s : App ReadinessPublication).
(** The durable request of a runtime of the history. *)
Definition durable_in (a : System) (text : string) : Prop :=
  exists x q, rtc (step uid) a (Up x) /\ served x /\ jat "lastRequest" (state x) = Ok q /\ canonical q = Ok text.
Definition requests {L} (s : App L) : list string := map snd (List.filter (fun m => String.eqb m.1 request_path) (sent s)).
(** A turn adds requests that are durable, and makes a history. *)
Definition durable {A} (m : AM ReadinessPublication A) (s : App ReadinessPublication) : Prop :=
  History uid (Up (service s)) (m s).1 (m s).2 /\
  exists l, requests (m s).1 = requests s ++ l /\ Forall (durable_in (Up (service s))) l.
Lemma durable_in_trans a b t : rtc (step uid) a b -> durable_in b t -> durable_in a t.
Proof. intros H (x & q & H1 & H2). exists x, q. split; [by etrans|done]. Qed.
Lemma durable_bind {A B} (m : AM ReadinessPublication A) (k : A -> AM ReadinessPublication B) s :
  durable m s -> (forall a s', m s = (s', Done a) -> durable (k a) s') -> durable (m ≫= k) s.
Proof.
  intros [H1 (l & Hl & Hf)] Hk. unfold durable, mbind, AM_mbind. destruct (m s) as [s' [a|e|]] eqn:E.
  2,3: split; [exact H1|by exists l]. destruct (Hk a s' eq_refl) as [K1 (l' & Kl & Kf)]. cbn [fst snd] in *. split; [by eapply history_trans|].
  exists (l ++ l'). rewrite Kl, Hl, app_assoc. split; [done|]. apply Forall_app. split; [exact Hf|].
  eapply Forall_impl; [exact Kf|]. intros t. by apply durable_in_trans.
Qed.
Lemma durable_attempt {A} (m h : AM ReadinessPublication A) s :
  durable m s -> (forall s', durable h s') -> durable (attempt m h) s.
Proof.
  intros [H1 (l & Hl & Hf)] Hh. unfold durable, attempt. destruct (m s) as [s' [a|e|]] eqn:E.
  1,3: split; [exact H1|by exists l]. destruct (Hh s') as [K1 (l' & Kl & Kf)]. cbn [fst snd] in *. split; [by eapply history_trans|].
  exists (l ++ l'). rewrite Kl, Hl, app_assoc. split; [done|]. apply Forall_app. split; [exact Hf|].
  eapply Forall_impl; [exact Kf|]. intros t. by apply durable_in_trans.
Qed.
(** A computation that sends nothing. *)
Lemma durable_quiet {A} (m : AM ReadinessPublication A) s : runs uid m -> sent (m s).1 = sent s -> durable m s.
Proof. intros Hm Hs. split; [apply Hm|]. exists []. unfold requests. rewrite Hs, app_nil_r. by split. Qed.
Lemma serve_sent {A} (m : RT A) s : sent (serve w m s).1 = sent s.
Proof. unfold serve. destruct (run_others _ _) as [r [u|x|]]; [| |done]; by destruct (m r). Qed.
Lemma report_sent a b c s : sent (report w a b c s).1 = sent s.
Proof. unfold report, report_from, mbind, AM_mbind, boot_milliseconds, wall_milliseconds, ask, logged. by destruct (log_call _ _). Qed.
Lemma durable_report a b c s : durable (report w a b c) s.
Proof. apply durable_quiet; [apply runs_report|apply report_sent]. Qed.
Lemma durable_serve {A} (m : RT A) e s : event_of e m -> (forall q, enabled q e) -> durable (serve w m) s.
Proof. intros He Hen. apply durable_quiet; [by eapply runs_serve|apply serve_sent]. Qed.
Lemma durable_aside {A} (m : AM ReadinessPublication A) s :
  (forall s, service (m s).1 = service s /\ (m s).2 <> Stopped) -> sent (m s).1 = sent s -> durable m s.
Proof. intros H. apply durable_quiet. by apply runs_aside. Qed.
Lemma durable_readiness_turn s : durable (readiness_turn w) s.
Proof.
  unfold readiness_turn. apply durable_bind; [by apply durable_aside|intros wall s1 _].
  apply durable_bind; [apply (durable_serve _ (AdvisoryReadiness wall)); [by apply event_discard|done]|intros value s2 _].
  apply durable_bind; [apply durable_aside; intros; unfold compute; by destruct (_ ≫= _)|intros ready s3 _].
  apply durable_bind; [by apply durable_aside|intros now s4 _]. apply durable_bind; [by apply durable_aside|intros p s5 _].
  destruct (due p ready now); [|by apply durable_aside]. apply durable_bind.
  { split; [apply rtc_refl|]. exists []. unfold requests. cbn [set_target fst add_sent sent].
    rewrite List.filter_app, map_app. by split. }
  intros _ s6 _. apply durable_bind; [by apply durable_aside|intros ok s7 _]. apply durable_bind; [by apply durable_aside|intros t s8 _].
  apply durable_bind; [by apply durable_aside|intros _ s9 _]. apply durable_report.
Qed.
Lemma served_request_durable st x now :
  sound uid st (Up x) ->
  match next_advisory now x with
  | (x', Done (Some text)) => served x' /\ exists q, jat "lastRequest" (state x') = Ok q /\ canonical q = Ok text
  | _ => True
  end.
Proof.
  intros [_ [[Hs _]|[Hoff _]]].
  - pose proof (next_advisory_Durable now x Hs) as W. unfold wp in W. by destruct (next_advisory now x) as [x' [[t|]|e|]].
  - unfold next_advisory, mbind, RT_mbind, self. by rewrite Hoff.
Qed.
Lemma durable_request_turn st s : sound uid st (Up (service s)) -> durable (request_turn w) s.
Proof.
  intros Hs. unfold request_turn. apply durable_bind; [by apply durable_aside|intros wall s1 E1].
  assert (Es : service s1 = service s) by (by injection E1 as <- _).
  apply durable_bind; [apply (durable_serve _ (NextAdvisory wall)); [by apply event_discard|done]|intros bytes s2 E2].
  destruct bytes as [text|]; [|by apply durable_aside].
  apply durable_bind; [|intros _ s3 _; apply durable_report]. split; [apply rtc_refl|]. exists [text].
  split; [unfold requests; cbn [set_target fst add_sent sent]; by rewrite List.filter_app, map_app|].
  apply Forall_singleton. unfold serve in E2. pose proof (others_run uid _ _ (Hw (asked s1) (service s1))) as Ho. rewrite Es in *.
  destruct (run_others _ _) as [q [u|x|]]; [..|done].
  all: pose proof (served_request_durable st q wall (steps_sound _ _ _ _ Ho Hs)) as Hd.
  all: destruct (next_advisory wall q) as [q' out]; injection E2 as <- ->; destruct Hd as (Hsv & r & H1 & H2).
  all: exists q', r; split; [apply rtc_refl|by split].
Qed.
End AdvisoryHistory.

(** C12: only durable requests are sent.  Started on a service in a sound state, a turn of the advisory
    thread, with whatever the other threads run in between, is a history of the service, and every
    request it hands to the broker is the canonical text of the request the store at rest held at
    that point of the history. *)
Theorem advisory_turn_durable w uid st (s : App ReadinessPublication) :
  lawful w -> sound uid st (Up (service s)) ->
  let '(s', r) := advisory_turn w s in
  History uid (Up (service s)) s' r /\
  exists l, requests s' = requests s ++ l /\ Forall (durable_in uid (Up (service s))) l.
Proof.
  intros Hw Hs. enough (H : durable uid (advisory_turn w) s).
  { unfold durable in H. by destruct (advisory_turn w s) as [s' r]. }
  unfold advisory_turn. apply durable_attempt.
  - apply durable_bind; [by eapply durable_request_turn|intros _ s1 _; by apply durable_readiness_turn].
  - intros s'. apply durable_bind; [|intros _ s1 _; apply durable_report].
    apply (durable_serve w uid Hw _ (AdvisoryObservation "UNAVAILABLE")); [by apply event_same|done].
Qed.

Lemma report_parts {L} w a b c (s : App L) : service (report w a b c s).1 = service s /\ locals (report w a b c s).1 = locals s.
Proof. unfold report, report_from, mbind, AM_mbind, boot_milliseconds, wall_milliseconds, ask, logged. by destruct (log_call _ _). Qed.
(** A cancelled session is invalid after each turn of its watcher, and neither is ever taken back. *)
Lemma watch_turn_invalidates w change stopping (s s' : App Watch) r :
  watch_turn w change stopping s = (s', r) ->
  (invalid (locals s) = true -> invalid (locals s') = true) /\
  (r <> Stopped -> cancelled (cause (locals s')) = true -> invalid (locals s') = true) /\
  rank (cause (locals s)) <= rank (cause (locals s')) /\ rank change <= rank (cause (locals s')).
Proof.
  unfold watch_turn, set_local. unfold mbind, AM_mbind. cbn beta iota.
  set (v := locals s). set (v1 := (if stopping then watch_observe Unavailable else id) v).
  assert (H1 : invalid v1 = invalid v /\ rank (cause v) <= rank (cause v1)).
  { unfold v1. destruct stopping; [|done]. split; [done|]. cbn. unfold interruption_observe. destruct (_ <? _) eqn:E; lia. }
  set (v2 := watch_observe change v1).
  assert (H2 : invalid v2 = invalid v1 /\ rank (cause v1) <= rank (cause v2) /\ rank change <= rank (cause v2)).
  { split; [done|]. cbn. unfold interruption_observe. destruct (_ <? _) eqn:E; lia. }
  cbn [locals service log asked sent]. fold v v1. fold v2. set (v3 := if cancelled (cause v2) then invalidate v2 else v2).
  assert (H3 : cause v3 = cause v2 /\ (invalid v2 = true -> invalid v3 = true) /\ (cancelled (cause v3) = true -> invalid v3 = true)).
  { unfold v3. destruct (cancelled (cause v2)) eqn:E; [done|]. split_and!; [done|done|congruence]. }
  clearbody v3. clearbody v2. clearbody v1. unfold attempt, boot_milliseconds, ask. cbn beta iota.
  assert (Hserve : forall A (m : RT A) (x : App Watch), locals (serve w m x).1 = locals x).
  { intros A m x. unfold serve. destruct (run_others _ _) as [q [u|y|]]; [| |done]; by destruct (m q). }
  assert (Hend : forall x, locals x = v3 ->
    (invalid v = true -> invalid (locals x) = true) /\ (cancelled (cause (locals x)) = true -> invalid (locals x) = true) /\
    rank (cause v) <= rank (cause (locals x)) /\ rank change <= rank (cause (locals x))).
  { intros x ->. destruct H3 as (-> & H3 & H4). split_and!; [intros H; apply H3; destruct H1, H2; congruence|exact H4|lia|lia]. }
  assert (Hun : forall x, locals x = v3 -> let x' := invalidate (watch_observe Unavailable (locals x)) in
    (invalid v = true -> invalid x' = true) /\ (cancelled (cause x') = true -> invalid x' = true) /\
    rank (cause v) <= rank (cause x') /\ rank change <= rank (cause x')).
  { intros x ->. cbn [invalidate watch_observe cause invalid]. destruct H3 as (-> & _). unfold interruption_observe.
    assert (Hr : rank Unavailable = 2) by done. destruct (rank (cause v2) <? rank Unavailable) eqn:E; split_and!; try done; lia. }
  match goal with |- context [serve w ?m ?x] => pose proof (Hserve _ m x) as Hl; destruct (serve w m x) as [s1 [b|e|]] end; cbn [fst] in Hl.
  - destruct b; [|intros [= <- <-]; destruct (Hend s1 Hl) as (A & B & C & D); by split_and!].
    match goal with |- context [report w ?a ?b ?c ?t] => destruct (report_parts w a b c t) as [_ P2]; destruct (report w a b c t) as [t' [u|e|]] end; cbn [fst] in P2.
    + intros [= <- <-]. destruct (Hend t' (eq_trans P2 Hl)) as (A & B & C & D). by split_and!.
    + intros [= <- <-]. destruct (Hun t' (eq_trans P2 Hl)) as (A & B & C & D). by split_and!.
    + intros [= <- <-]. destruct (Hend t' (eq_trans P2 Hl)) as (A & B & C & D). by split_and!.
  - intros [= <- <-]. destruct (Hun s1 Hl) as (A & B & C & D). by split_and!.
  - intros [= <- <-]. destruct (Hend s1 Hl) as (A & B & C & D). by split_and!.
Qed.

(** ** Witnesses *)

Definition at_second (n : Z) (v : DatapointValue) : option Datapoint := Some (MkDatapoint (Some (n, 250000000)) v).
Definition sample_updates : list DataEntry :=
  [MkDataEntry "Vehicle.Acceleration.Lateral" None (at_second 1767225600 (FloatValue fifth));
   MkDataEntry status_path None (at_second 1767225600 (StringValue "not a status"));
   MkDataEntry "Vehicle.Speed" None None].
Definition reading_app : App Reading := MkApp sample_runtime initial_log first_reading 0 [].
Definition updated : App Reading * outcome unit := update_entries (sample_world unreachable) sample_updates [] reading_app.
Lemma update_collects_witness :
  values (locals updated.1) !! 1%nat = Some (MkSignal fifth 1767225600250 true) /\
  values (locals updated.1) !! 0%nat = Some no_signal.
Proof.
  assert (E : update_entries (sample_world unreachable) sample_updates [] reading_app = (updated.1, Done tt)).
  { unfold updated. destruct (update_entries _ _ _ _) as [s' r] eqn:E. f_equal. change r with (s', r).2. rewrite <- E.
    vm_compute. reflexivity. }
  destruct (update_collects (sample_world unreachable) sample_updates reading_app updated.1 eq_refl E) as (_ & _ & _ & H).
  split; rewrite H; vm_compute; reflexivity.
Defined.
Definition advisory_app : App ReadinessPublication := MkApp sample_restarted initial_log initial_readiness 0 [].
Definition later_world : World :=
  MkWorld (fun n => 60000 + 10 * Z.of_nat n) (fun n => sample_now + 1000 + 10 * Z.of_nat n) (fun _ => zero) (fun _ => Ok sample_source)
    (fun _ _ _ _ _ _ => unreachable) (fun _ => true) (fun _ => Succeeds)
    (fun n _ => if (n =? 2)%nat then [NextMessage] else []) (fun _ => []).
Lemma later_lawful : lawful later_world.
Proof. intros n s. cbn [others later_world]. destruct (n =? 2)%nat; cbn; auto. Qed.
Lemma restarted_sound : sound sample_uid (state sample_runtime) (Up sample_restarted).
Proof. exact (service_history_sound sample_uid sample_runtime (Up sample_restarted) eq_refl sample_served sample_history). Qed.
Lemma advisory_turn_durable_witness :
  exists text, requests (advisory_turn later_world advisory_app).1 = [text] /\
    durable_in sample_uid (Up sample_restarted) text.
Proof.
  pose proof (advisory_turn_durable later_world sample_uid (state sample_runtime) advisory_app later_lawful restarted_sound) as H.
  assert (E : length (requests (advisory_turn later_world advisory_app).1) = 1%nat) by (vm_compute; reflexivity).
  destruct (advisory_turn later_world advisory_app) as [s' r]. cbn [fst] in *. destruct H as (_ & l & Hl & Hf).
  change (requests advisory_app) with (@nil string) in Hl. cbn [app] in Hl. rewrite Hl in *.
  destruct l as [|text [|]]; [discriminate E| |discriminate E]. exists text. split; [reflexivity|].
  exact (Forall_inv Hf).
Defined.
Definition quiet_world : World :=
  MkWorld (fun n => 60000 + 10 * Z.of_nat n) (fun n => sample_now + 10 * Z.of_nat n) (fun _ => zero) (fun _ => Ok sample_source)
    (fun _ _ _ _ _ _ => unreachable) (fun _ => true) (fun _ => Succeeds) (fun _ _ => []) (fun _ => []).
