(* ===== verification/MainLoop.v ===== *)
(** * The main thread of the analytics process ([subscribe] and [main] of src/runtime/grpc_main.cpp)

    Subscription has the pieces of a session; here they are put together: a whole session, from
    the reads of its inputs to the end of its stream, the session loop around it, and the process
    from its start-up checks to its exit code.  What the files, the environment and the broker
    yield in a session is its script.  The watcher's and the advisory thread's turns are among
    the handlers other threads run in between.  [renewal_keeps_work] says what each way a session
    can end keeps of its exercise and its transport. *)
From Stdlib Require Import ZArith Lia Bool Ascii String.
From stdpp Require Import gmap strings list relations.
From S2P Require Import Prelude Chars Sha256 Float64 Json JsonFacts Time Protocol Identity Model Messages Store StoreFacts StoreSpec Observation Service ServiceFacts ServiceSpec Session Ledger QueueSpec Analytics Delivery Subscription.
Local Open Scope Z_scope.

(** What a session meets: what reading the metadata, the trust anchor and the token gives, how
    [Get] ends and what it answers, the messages [Read] yields with what [stop], [interrupted] or
    [invalid] say after each, how the stream ends, the observed interruption and whether the
    process is stopping then. *)
Record SessionScript := MkScript {
  metadata_read : res string; ca_read : res string; token_read : res string;
  get_status : CallStatus; get_response : GetResponse; messages : list (list DataEntry * bool);
  stream_status : CallStatus; interruption : SessionInputChange; stopping : bool }.

(** The text [what()] of an exception; the library's own texts are none of the codes. *)
Definition what (e : exn) : string :=
  match e with
  | InvalidArgument text | RuntimeError text => text
  | BadVariantAccess => "std::get: wrong index for variant"
  | OutOfRange => "map::at"
  | FuelExhausted => ""
  end.
(** A block with variables of its own. *)
Definition scoped {L L' A} (l : L') (m : AM L' A) : AM L A := fun s =>
  let '(s', r) := m (MkApp (service s) (log s) l (asked s) (sent s)) in
  (MkApp (service s') (log s') (locals s) (asked s') (sent s'), r).

Section Main.
Context (w : World).

Fixpoint reading_loop (l : list (list DataEntry * bool)) : AM Reading unit :=
  match l with
  | [] => mret tt
  | (updates, ending) :: l' => if (ending : bool) then mret tt else _ ← frame_update w updates; reading_loop l'
  end.
(** [subscribe]; an exception is what it throws. *)
Definition subscribe (inputs : ApplicationInputs) (x : SessionScript) : AM Transport SessionEnd :=
  metadata_bytes ← compute (metadata_read x);
  m ← compute (runtime_metadata inputs metadata_bytes);
  _ ← serve w (update_vdp_metadata m);
  ca ← compute (ca_read x);
  _ ← compute (token_read x);
  _ ← set_local (fun t => (channel ca t).1);
  if negb (bool_decide (get_status x = CallOk)) then mret (get_failed (get_status x) (interruption x) (stopping x))
  else
    _ ← compute (verify_metadata (get_response x));
    _ ← serve w (input_observation "CONNECTED" "WAITING" "AWAITING_INPUT");
    _ ← report w "VDP_COMPATIBILITY_CHANGED" "READY" "NONE";
    _ ← scoped first_reading (reading_loop (messages x));
    stream_ended w (stream_status x) (interruption x) (stopping x).
(** The clauses of the session loop that catch what [subscribe] throws. *)
Definition session (inputs : ApplicationInputs) (x : SessionScript) : AM Transport unit :=
  fun s => match subscribe inputs x s with
           | (s', Done e) => after_session w e s'
           | (s', Thrown e) => after_session w (Failed (what e)) s'
           | (s', Stopped) => (s', Stopped)
           end.
(** [while (!interrupted)], for the sessions until then. *)
Fixpoint session_loop (inputs : ApplicationInputs) (l : list SessionScript) : AM Transport unit :=
  match l with [] => mret tt | x :: l' => _ ← session inputs x; session_loop inputs l' end.
(** [main] from the start of the delivery thread on: the exit code. *)
Definition analytics_run (inputs : ApplicationInputs) (l : list SessionScript) : AM Transport Z :=
  attempt
    (_ ← report w "SERVICE_STARTED" "RUNNING" "NONE";
     _ ← session_loop inputs l;
     _ ← serve w stop;
     _ ← report w "SERVICE_STOPPED" "STOPPED" "NONE";
     mret 0)
    (_ ← report w "READINESS_CHANGED" "NOT_READY" "STATE_INVALID"; mret 2).
End Main.
(** [main] up to there: what it starts the runtime with.  [token_file] is what
    [token_file_from_environment] gives, [read] the reader of files. *)
Definition analytics_start (argv : list string) (getenv : string -> option string) (token_file : res unit)
    (read : string -> Z -> res string) : res (ApplicationInputs * Metadata) :=
  inputs ← parse_arguments argv;
  inputs ← initialize_service_inputs getenv (read "/usr/share/aosedge/service-release.json"%string 1024) inputs;
  _ ← throw_if (is_some (getenv "AOS_SECRET"%string)) (RuntimeError "CREDENTIAL_BOUNDARY_INVALID");
  _ ← token_file;
  bytes ← read (metadata_file inputs) 8192;
  m ← runtime_metadata inputs bytes;
  Ok (inputs, m).

(** [main]: the catch clause without a runtime, or the runtime and the threads.  [d] is the store's
    disk, [epoch] what the random source gives a new one. *)
Definition analytics_main (w : World) (argv : list string) (getenv : string -> option string) (token_file : res unit)
    (read : string -> Z -> res string) (epoch : string) (d : machine) (l : list SessionScript) : machine * outcome Z :=
  match analytics_start argv getenv token_file read with
  | Err _ => (d, Done 2)
  | Ok (inputs, m) =>
    match start m epoch d with
    | (s, Stopped) => (disk s, Stopped)
    | (s, Thrown _) => (disk s, Done 2)
    | (s, Done _) =>
      let '(a, r) := analytics_run w inputs l (MkApp s initial_log None 0 []) in (disk (service a), r)
    end
  end.

(** ** The main thread is a history *)

#[export] Instance distinct_keys_dec messages : Decision (distinct_keys messages).
Proof.
  induction messages as [|m l IH]; cbn [distinct_keys]; [apply _|]. apply and_dec; [|exact IH]. apply Forall_dec. intros m'.
  destruct (message_key m) as [k|e].
  - destruct (decide (message_key m' = Ok k)) as [E|E]; [right|left; congruence]. intros H. by apply (H k).
  - left. discriminate.
Defined.
#[export] Instance planned_distinct_dec s f ep d : Decision (planned_distinct s f ep d).
Proof.
  unfold planned_distinct. destruct (planned s f ep d) as [l|e]; [|left; discriminate].
  destruct (decide (distinct_keys l)); [left; congruence|right; intros H; by apply n, H].
Defined.

Section Told.
Context (w : World) (uid digest : string) (Hw : lawful w).
(** Somewhere in a history the digests of an assessment's key and its event's collide; [digest] is
    the model configuration the assessments are made with. *)
Definition collision (a : System) : Prop :=
  exists q f ep, rtc (step uid) a (Up q) /\ ~ planned_distinct q f ep digest.
(** A computation that makes a history of the service, or meets a collision. *)
Definition told_at {L A} (m : AM L A) (s : App L) : Prop :=
  History uid (Up (service s)) (m s).1 (m s).2 \/ collision (Up (service s)).
Definition told {L A} (m : AM L A) : Prop := forall s, told_at m s.
Lemma collision_trans a b : rtc (step uid) a b -> collision b -> collision a.
Proof. intros H (q & f & ep & Hq & Hn). exists q, f, ep. split; [by etrans|done]. Qed.
Lemma told_runs {L A} (m : AM L A) : runs uid m -> told m.
Proof. intros H s. left. apply H. Qed.
Lemma told_at_bind {L A B} (m : AM L A) (k : A -> AM L B) s :
  told_at m s ->
  (forall a s', m s = (s', Done a) -> rtc (step uid) (Up (service s)) (Up (service s')) -> told_at (k a) s') ->
  told_at (m ≫= k) s.
Proof.
  intros Hm Hk. unfold told_at, mbind, AM_mbind in *. destruct Hm as [H|H]; [|by right].
  destruct (m s) as [s' [a|e|]]; [|by left..]. cbn [History fst snd] in H.
  destruct (Hk a s' eq_refl H) as [H'|H']; [left; by eapply history_trans|right; by eapply collision_trans].
Qed.
Lemma told_bind {L A B} (m : AM L A) (k : A -> AM L B) : told m -> (forall a, told (k a)) -> told (m ≫= k).
Proof. intros Hm Hk s. apply told_at_bind; [apply Hm|]. intros a s' _ _. apply Hk. Qed.
Lemma told_attempt {L A} (m h : AM L A) : told m -> told h -> told (attempt m h).
Proof.
  intros Hm Hh s. unfold told_at, attempt. destruct (Hm s) as [H|H]; [|by right].
  destruct (m s) as [s' [a|e|]]; [by left| |by left]. cbn [History fst snd] in H.
  destruct (Hh s') as [H'|H']; [left; by eapply history_trans|right; by eapply collision_trans].
Qed.
Lemma told_scoped {L L' A} (l : L') (m : AM L' A) : told m -> told (scoped l m : AM L A).
Proof.
  intros Hm s. specialize (Hm (MkApp (service s) (log s) l (asked s) (sent s))). unfold told_at, scoped in *.
  destruct (m _) as [s' r]. exact Hm.
Qed.
Lemma told_compute {L A} (m : res A) : told (compute m : AM L A).
Proof. apply told_runs, runs_compute. Qed.
Lemma told_report {L} e st why src : told (report_from w e st why src : AM L unit).
Proof. apply told_runs, runs_report. Qed.
Lemma told_aside {L A} (m : AM L A) : (forall s : App L, service (m s).1 = service s /\ (m s).2 <> Stopped) -> told m.
Proof. intros H. by apply told_runs, runs_aside. Qed.
Lemma told_serve {L A} (m : RT A) e : event_of e m -> (forall s, enabled s e) -> told (serve w m : AM L A).
Proof. intros He Hen. apply told_runs. by eapply runs_serve. Qed.
(** The exercise is applied unless the keys of its messages collide. *)
Lemma told_apply {L} f ep : told (serve w (apply_episode f ep digest) : AM L bool).
Proof.
  intros s. unfold told_at, serve. pose proof (others_run uid _ _ (Hw (asked s) (service s))) as Ho.
  destruct (run_others _ _) as [q [u|x|]]; [..|left; exact Ho].
  all: destruct (decide (planned_distinct q f ep digest)) as [Hd|Hd]; [|right; by exists q, f, ep].
  all: destruct (apply_episode f ep digest q) as [q' out] eqn:Em; left.
  all: pose proof (event_step uid _ (ApplyEpisode f ep digest) q q' out (event_discard (ApplyEpisode f ep digest) _ eq_refl) Hd Em) as Hs.
  all: unfold History; cbn [fst snd service set_service]; destruct out; (eapply rtc_r; [exact Ho|exact Hs]).
Qed.
End Told.
Ltac told_event Hw e := apply (told_serve _ _ _ Hw _ e); [first [by apply event_discard|by apply event_same]|done].
Ltac told_step Hw :=
  lazymatch goal with
  | |- told _ _ (mbind _ _) => apply told_bind; [|intros ?]
  | |- told _ _ (attempt _ _) => apply told_attempt
  | |- told _ _ (if ?b then _ else _) => destruct b
  | |- told _ _ (match ?x with _ => _ end) => destruct x
  | |- told _ _ (report _ _ _ _) => apply told_report
  | |- told _ _ (report_from _ _ _ _ _) => apply told_report
  | |- told _ _ (compute _) => apply told_compute
  | |- told _ _ (serve _ (apply_episode _ _ _)) => apply (told_apply _ _ _ Hw)
  | |- told _ _ (serve _ (gateway_status ?b ?t)) => told_event Hw (GatewayStatus b t)
  | |- told _ _ (serve _ (advisory_observation ?b)) => told_event Hw (AdvisoryObservation b)
  | |- told _ _ (serve _ (ingest_frame_at ?u ?f ?t)) => told_event Hw (IngestFrame u f t)
  | |- told _ _ (serve _ (function_status ?y ?t ?l)) => told_event Hw (FunctionStatus y t l)
  | |- told _ _ (serve _ (input_observation ?a ?b ?c)) => told_event Hw (InputObservation a b c)
  | |- told _ _ (serve _ next_message) => told_event Hw NextMessage
  | |- told _ _ (serve _ disconnect) => told_event Hw Disconnect
  | |- told _ _ (serve _ reauthenticate) => told_event Hw Reauthenticate
  | |- told _ _ (serve _ stop) => told_event Hw StopInput
  | |- told _ _ _ => by apply told_aside
  end.
Ltac told_tac Hw := repeat told_step Hw.

Section MainHistory.
Context (w : World) (uid : string) (Hw : lawful w).
Abbreviation told := (told uid kModelConfigSha256).
Lemma told_update_entries l seen : told (update_entries w l seen).
Proof.
  revert seen. induction l as [|e l IH]; intros seen; cbn [update_entries]; [by apply told_aside|].
  destruct (String.eqb _ _).
  - apply told_bind; [|by intros _]. unfold gateway_value. told_tac Hw.
  - told_step Hw; [told_tac Hw|]. destruct (negb _); [told_tac Hw|]. told_step Hw; [told_tac Hw|]. apply IH.
Qed.
Lemma told_frame_update updates : told (frame_update w updates).
Proof. unfold frame_update. told_step Hw; [apply told_update_entries|]. unfold assess_exercise. told_tac Hw. Qed.
Lemma told_reading_loop l : told (reading_loop w l).
Proof.
  induction l as [|[updates []] l IH]; cbn [reading_loop]; [by apply told_aside..|].
  told_step Hw; [apply told_frame_update|exact IH].
Qed.
Lemma told_after_session e : told (after_session w e).
Proof. unfold after_session, clear_transport. destruct e; told_tac Hw. Qed.
Lemma told_compute_bind {L A B} (r : res A) (k : A -> AM L B) : (forall a, r = Ok a -> told (k a)) -> told (compute r ≫= k).
Proof.
  intros H s. unfold told_at, mbind, AM_mbind, compute. destruct r as [a|e]; [by apply H|left; apply rtc_refl].
Qed.
Lemma told_subscribe inputs x : native_nonneg inputs -> told (subscribe w inputs x).
Proof.
  intros Hn. unfold subscribe. told_step Hw; [told_tac Hw|]. apply told_compute_bind. intros m Hm.
  told_step Hw; [apply (told_serve _ _ _ Hw _ (UpdateVdpMetadata m)); [by apply event_same|intros s; by eapply runtime_metadata_nonneg]|].
  told_step Hw; [told_tac Hw|]. told_step Hw; [told_tac Hw|]. told_step Hw; [told_tac Hw|]. destruct (negb _); [told_tac Hw|].
  told_step Hw; [told_tac Hw|]. told_step Hw; [told_tac Hw|]. told_step Hw; [told_tac Hw|].
  told_step Hw; [apply told_scoped, told_reading_loop|]. unfold stream_ended. told_tac Hw.
Qed.
Lemma told_session inputs x : native_nonneg inputs -> told (session w inputs x).
Proof.
  intros Hn s. unfold told_at, session. destruct (told_subscribe inputs x Hn s) as [H|H]; [|by right].
  destruct (subscribe w inputs x s) as [s' [e|e|]]; [..|by left]; cbn [History fst snd] in H.
  - destruct (told_after_session e s') as [H'|H']; [left; by eapply history_trans|right; by eapply collision_trans].
  - destruct (told_after_session (Failed (what e)) s') as [H'|H']; [left; by eapply history_trans|right; by eapply collision_trans].
Qed.
Lemma told_session_loop inputs l : native_nonneg inputs -> told (session_loop w inputs l).
Proof.
  intros Hn. induction l as [|x l IH]; cbn [session_loop]; [by apply told_aside|].
  told_step Hw; [by apply told_session|exact IH].
Qed.
Lemma told_analytics_run inputs l : native_nonneg inputs -> told (analytics_run w inputs l).
Proof.
  intros Hn. unfold analytics_run. told_step Hw; [|told_tac Hw]. told_step Hw; [told_tac Hw|].
  told_step Hw; [by apply told_session_loop|]. told_tac Hw.
Qed.
End MainHistory.

Lemma start_checked argv getenv token_file read inputs m :
  analytics_start argv getenv token_file read = Ok (inputs, m) -> native_nonneg inputs /\ index_nonneg m.
Proof.
  unfold analytics_start. intros H. apply bind_Ok in H as (i & _ & H). apply bind_Ok in H as (i' & Hi & H).
  apply bind_Ok in H as (u & _ & H). apply bind_Ok in H as (u' & _ & H). apply bind_Ok in H as (b & _ & H).
  apply bind_Ok in H as (m' & Hm & H). apply Ok_inj in H. injection H as <- <-.
  assert (Hn : native_nonneg i') by (by eapply initialized_nonneg). split; [exact Hn|by eapply runtime_metadata_nonneg].
Qed.
(** Started on a service in a sound state with the inputs its start-up checked, the whole main
    thread is a history of the service and leaves it sound, or meets a collision. *)
Lemma main_thread_history w uid st argv getenv token_file read inputs m l (s : App Transport) :
  lawful w -> sound uid st (Up (service s)) -> analytics_start argv getenv token_file read = Ok (inputs, m) ->
  let '(s', r) := analytics_run w inputs l s in
  (History uid (Up (service s)) s' r /\
   sound uid st (match r with Stopped => Down (disk (service s')) | _ => Up (service s') end)) \/
  collision uid kModelConfigSha256 (Up (service s)).
Proof.
  intros Hw Hs Hstart. destruct (start_checked _ _ _ _ _ _ Hstart) as [Hn _].
  pose proof (told_analytics_run w uid Hw inputs l Hn s) as H. unfold told_at in H.
  destruct (analytics_run w inputs l s) as [s' r]. cbn [fst snd] in H. destruct H as [H|H]; [left|by right].
  split; [exact H|]. destruct r; exact (steps_sound _ _ _ _ H Hs).
Qed.

(** C4: the analytics process keeps the store's contract from its start to its end.  On a store at
    rest or left by a stopped process: when its start-up refuses its inputs the store is untouched
    and the exit code is 2; otherwise the whole process, whatever the files, the broker's answers
    and messages and the clocks are, however calls and streams end, whatever the other threads run
    in between and wherever it is stopped, is a history of the service, and leaves the store sound
    for the next one; unless somewhere in it the digests of an assessment and its event collide. *)
Theorem analytics_main_history w uid st argv getenv token_file read epoch k t d l :
  lawful w -> halted uid st d ->
  (forall inputs m, analytics_start argv getenv token_file read = Ok (inputs, m) -> unit_system_uid m = uid) ->
  let '(d', r) := analytics_main w argv getenv token_file read epoch (restart k t d) l in
  match analytics_start argv getenv token_file read with
  | Err _ => d' = restart k t d /\ r = Done 2
  | Ok _ => (rtc (step uid) (Down d) (Down d') /\ halted uid st d') \/ collision uid kModelConfigSha256 (Down d)
  end.
Proof.
  intros Hw Hd Huid. unfold analytics_main. destruct (analytics_start _ _ _ _) as [[inputs m]|e] eqn:Estart; [|done].
  destruct (start_checked _ _ _ _ _ _ Estart) as [_ Hi].
  assert (Hend : forall x, rtc (step uid) (Down d) (Down x) -> rtc (step uid) (Down d) (Down x) /\ halted uid st x)
    by (intros x Hx; split; [done|exact (steps_sound _ st _ _ Hx Hd)]).
  destruct (start m epoch (restart k t d)) as [s r] eqn:Es. specialize (Huid inputs m eq_refl). destruct r as [[]|e|].
  - assert (Hup : step uid (Down d) (Up s)) by (by eapply step_start).
    pose proof (main_thread_history w uid st argv getenv token_file read inputs m l (MkApp s initial_log None 0 []) Hw
      (step_sound uid st _ _ Hup Hd) Estart) as H.
    destruct (analytics_run w inputs l _) as [a o]. cbn [service] in H. destruct H as [[H _]|H].
    + left. apply Hend. eapply rtc_l; [exact Hup|]. destruct o; [eapply rtc_r; [exact H|apply step_exit]..|exact H].
    + right. eapply collision_trans; [apply rtc_once; exact Hup|exact H].
  - left. apply Hend, rtc_once. by eapply step_start_stopped.
  - left. apply Hend, rtc_once. by eapply step_start_stopped.
Qed.

(** ** The end of a session *)

(** What the delivery thread runs; the other threads of a session are joined before [subscribe] ends. *)
Definition delivery_event (e : Event) : bool :=
  match e with
  | NextMessage | Accept _ _ | DemoControlPoll | DemoControlCommand _ _ | DemoControlAck _ | DemoControlAccepted _
  | ObservationBinding | FunctionObservation => true
  | _ => false
  end.
(** Its only handler that ends an exercise: the command of a demo reset. *)
Definition command_event (e : Event) : bool := match e with DemoControlCommand _ _ => true | _ => false end.
(** The session's call was cancelled, or its stream finished or cancelled; the token was replaced,
    nothing was ever found unavailable and the process is not stopping. *)
Definition renewal (x : SessionScript) (changes : list SessionInputChange) : Prop :=
  (get_status x = CallCancelled \/ (get_status x = CallOk /\ (stream_status x = CallOk \/ stream_status x = CallCancelled))) /\
  TokenReplaced ∈ changes /\ (Unavailable ∉ changes) /\ stopping x = false.

(** Handlers that keep a property of the exercise engine. *)
Section Engines.
Context (P : Engine -> Prop).
Abbreviation keeping := (fun (q : Runtime) _ => P (engine q)).
Lemma wp_store_engine {A B} (m : IO A) (k : A -> RT B) s :
  P (engine s) -> (forall a s', P (engine s') -> wp (k a) keeping s') -> wp (store_io m ≫= k) keeping s.
Proof. intros He Hk. unfold wp, mbind, RT_mbind, store_io. destruct (m (disk s)) as [d [a|e|]]; [by apply Hk|exact He..]. Qed.
Lemma wp_commit_engine {B} next messages (k : bool -> RT B) s :
  P (engine s) -> (forall a s', P (engine s') -> wp (k a) keeping s') -> wp (store_commit next messages ≫= k) keeping s.
Proof. exact (wp_store_engine (commit (uid_of s) next messages) k s). Qed.
Ltac engine_step :=
  lazymatch goal with
  | |- wp (mbind _ (store_commit _ _)) _ _ => apply wp_commit_engine; [assumption|intros ? ? ?]
  | |- wp (mbind _ (store_io _)) _ _ => apply wp_store_engine; [assumption|intros ? ? ?]
  | |- _ => hstep
  end.
Lemma delivery_engine e q :
  delivery_event e = true -> (command_event e = true -> P initial_engine) -> P (engine q) -> P (engine (handle e q).1).
Proof.
  intros He Hc H. enough (X : wp (handle e) keeping q) by (unfold wp in X; by destruct (handle e q)).
  destruct e; try done; cbn [handle]; try specialize (Hc eq_refl).
  all: unfold discard, next_message, accept, demo_control_poll, demo_control_command, demo_control_ack,
    demo_control_accepted, observation_binding, function_observation; repeat engine_step.
Qed.
Lemma others_keep l q :
  Forall (fun e => delivery_event e = true) l -> (Exists (fun e => command_event e = true) l -> P initial_engine) ->
  P (engine q) -> P (engine (run_others l q).1).
Proof.
  intros Hl. revert q. induction Hl as [|e l He _ IH]; intros q Hc H; [exact H|]. cbn [run_others].
  pose proof (delivery_engine e q He (fun X => Hc (Exists_cons_hd _ _ _ X)) H) as H1.
  destruct (handle e q) as [q' [u|x|]]; [apply IH..|exact H1]; try done; intros X; apply Hc; by apply Exists_cons_tl.
Qed.
Lemma status_engine why now missing q : P (engine q) -> P (engine (function_status why now missing q).1).
Proof.
  intros H. enough (X : wp (function_status why now missing) keeping q) by (unfold wp in X; by destruct (function_status _ _ _ q)).
  unfold function_status. repeat engine_step.
Qed.
Lemma input_engine a b c q : P (engine q) -> P (engine (input_observation a b c q).1).
Proof.
  intros H. enough (X : wp (input_observation a b c) keeping q) by (unfold wp in X; by destruct (input_observation _ _ _ q)).
  unfold input_observation. repeat engine_step.
Qed.
Lemma advisory_engine a q : P (engine q) -> P (engine (advisory_observation a q).1).
Proof.
  intros H. enough (X : wp (advisory_observation a) keeping q) by (unfold wp in X; by destruct (advisory_observation _ q)).
  unfold advisory_observation, function_advisory. repeat engine_step.
Qed.
End Engines.

Section Ends.
Context (w : World).
Abbreviation deliveries_from n := (forall k q, (n <= k)%nat -> Forall (fun e => delivery_event e = true) (others w k q)).
(** A computation during which, once only the delivery thread runs, no exercise begins. *)
Definition idles {L A} (m : AM L A) : Prop := forall s,
  deliveries_from (asked s) -> engine (service s) = initial_engine ->
  (asked s <= asked (m s).1)%nat /\ engine (service (m s).1) = initial_engine /\ locals (m s).1 = locals s.
Lemma idles_bind {L A B} (m : AM L A) (k : A -> AM L B) : idles m -> (forall a, idles (k a)) -> idles (m ≫= k).
Proof.
  intros Hm Hk s Hd He. destruct (Hm s Hd He) as (H1 & H2 & H3). unfold mbind, AM_mbind.
  destruct (m s) as [s1 [a|e|]]; cbn [fst] in *; [|done..].
  destruct (Hk a s1) as (K1 & K2 & K3); [intros n q Hn; apply Hd; lia|done|]. split_and!; [lia|done|by rewrite K3].
Qed.
Lemma report_asked {L} a b c (s : App L) : asked (report w a b c s).1 = S (S (asked s)).
Proof. unfold report, report_from, mbind, AM_mbind, boot_milliseconds, wall_milliseconds, ask, logged. by destruct (log_call _ _). Qed.
Lemma idles_report {L} a b c : idles (report w a b c : AM L unit).
Proof.
  intros s _ He. destruct (report_parts w a b c s) as [P1 P2]. rewrite report_asked, P1, P2. split_and!; [lia|done|done].
Qed.
Lemma idles_wall {L} : idles (wall_milliseconds w : AM L Z).
Proof. intros s _ He. unfold wall_milliseconds, ask. cbn. split_and!; [lia|done|done]. Qed.
Lemma serve_locals {L A} (m : RT A) (s : App L) : locals (serve w m s).1 = locals s.
Proof. unfold serve. destruct (run_others _ _) as [q [u|y|]]; [| |done]; by destruct (m q). Qed.
Lemma serve_asked {L A} (m : RT A) (s : App L) : (asked s <= asked (serve w m s).1)%nat.
Proof. unfold serve. destruct (run_others _ _) as [q [u|y|]]; [| |done]; destruct (m q); cbn; lia. Qed.
Lemma idles_serve {L A} (m : RT A) :
  (forall q, engine q = initial_engine -> engine (m q).1 = initial_engine) -> idles (serve w m : AM L A).
Proof.
  intros Hm s Hd He. rewrite serve_locals. split_and!; [apply serve_asked| |done].
  pose proof (others_keep (fun e => e = initial_engine) _ (service s) (Hd (asked s) (service s) (le_n _)) (fun _ => eq_refl) He) as Ho.
  unfold serve. destruct (run_others _ _) as [q [u|y|]]; cbn [fst] in Ho; [..|exact Ho].
  all: specialize (Hm q Ho); by destruct (m q).
Qed.
(** Disconnecting drops the exercise whatever else runs. *)
Lemma disconnect_initial q : engine (disconnect q).1 = initial_engine.
Proof.
  enough (H : wp disconnect (fun q' _ => engine q' = initial_engine) q) by (unfold wp in H; by destruct (disconnect q)).
  unfold disconnect, abort_engine. do 3 apply wp_change_bind. cbv beta.
  match goal with |- wp _ _ ?x => assert (H : engine x = initial_engine) by done end. hsteps.
Qed.
Lemma reauthenticate_keeps q : engine (reauthenticate q).1 = engine q /\ disk (reauthenticate q).1 = disk q.
Proof.
  unfold reauthenticate, function_advisory, function, mbind, RT_mbind. destruct (facts_input _ _ _ _) as [j|]; [|done].
  by destruct (facts_advisory _ _ _ _).
Qed.
Lemma am_bind_done {L A B} (m : AM L A) (k : A -> AM L B) s s' b :
  (m ≫= k) s = (s', Done b) -> exists a s1, m s = (s1, Done a) /\ k a s1 = (s', Done b).
Proof. unfold mbind, AM_mbind. destruct (m s) as [s1 [a|e|]]; [|done..]. intros H. by exists a, s1. Qed.
Lemma compute_done {L A} (r : res A) (s s' : App L) a : compute r s = (s', Done a) -> r = Ok a /\ s' = s.
Proof. unfold compute. destruct r; [|done]. by intros [= <- ->]. Qed.
Lemma serve_done {L A} (m : RT A) (s s' : App L) a :
  serve w m s = (s', Done a) -> m (run_others (others w (asked s) (service s)) (service s)).1 = (service s', Done a).
Proof.
  unfold serve. destruct (run_others _ _) as [q [u|y|]]; [| |done]; cbn [fst]; destruct (m q) as [q' r]; by intros [= <- ->].
Qed.
Lemma after_failed_idle code (s s' : App Transport) :
  deliveries_from (asked s) -> after_session w (Failed code) s = (s', Done tt) ->
  engine (service s') = initial_engine /\ locals s' = None.
Proof.
  intros Hd H. unfold after_session in H. apply am_bind_done in H as (u & s0 & [= <- <-] & H).
  apply am_bind_done in H as (v & s1 & H1 & H). pose proof (serve_done _ _ _ _ H1) as E1.
  match type of H1 with serve w _ ?x = _ => pose proof (serve_asked disconnect x) as A1; pose proof (serve_locals disconnect x) as L1 end.
  rewrite H1 in A1, L1. cbn [fst asked locals] in A1, L1.
  pose proof (disconnect_initial (run_others (others w (asked s) (service s)) (service s)).1) as I1.
  cbn [asked service] in E1. rewrite E1 in I1. cbn [fst] in I1. cbv zeta in H.
  match type of H with ?m s1 = _ => assert (X : idles m) end.
  { repeat lazymatch goal with
      | |- idles (mbind _ _) => apply idles_bind; [|intros ?]
      | |- idles (report _ _ _ _) => apply idles_report
      | |- idles (wall_milliseconds _) => apply idles_wall
      | |- idles (serve _ _) => apply idles_serve; intros q Hq
      end.
    - by apply (input_engine (fun e => e = initial_engine)).
    - by apply (advisory_engine (fun e => e = initial_engine)).
    - by apply (status_engine (fun e => e = initial_engine)). }
  destruct (X s1) as (_ & X2 & X3); [intros n q Hn; apply Hd; lia|done|]. rewrite H in X2, X3. cbn [fst] in X2, X3.
  split; [done|by rewrite X3].
Qed.
Lemma renewal_iff x changes : interruption x = interruptions changes NoChange ->
  renewal x changes <->
  (get_status x = CallCancelled \/ (get_status x = CallOk /\ (stream_status x = CallOk \/ stream_status x = CallCancelled))) /\
  token_replaced (interruption x) = true /\ stopping x = false.
Proof. intros ->. unfold renewal. rewrite token_replaced_iff. tauto. Qed.
Lemma scoped_locals {L L' A} (l : L') (m : AM L' A) (s : App L) : locals (scoped l m s).1 = locals s.
Proof. unfold scoped. by destruct (m _). Qed.
Lemma stream_ended_done status cause stopping (s s' : App Transport) e :
  stream_ended w status cause stopping s = (s', Done e) ->
  locals s' = locals s /\
  (e = Reauthenticating <-> (status = CallOk \/ status = CallCancelled) /\ token_replaced cause = true /\ stopping = false) /\
  (e = Returned -> engine (service s') = initial_engine).
Proof.
  unfold stream_ended. destruct (_ && negb stopping) eqn:E.
  - intros [= <- <-]. rewrite !andb_true_iff, negb_true_iff in E. split_and!; [done| |done]. destruct status; naive_solver.
  - intros H. apply am_bind_done in H as (u & s1 & H1 & H). apply am_bind_done in H as (v & s2 & H2 & [= <- <-]).
    pose proof (serve_locals disconnect s) as L1. rewrite H1 in L1.
    pose proof (report_parts w "KUKSA_CONNECTION_CHANGED" "NOT_READY" "KUKSA_DATA_UNAVAILABLE" s1) as [P1 P2]. rewrite H2 in P1, P2.
    cbn [fst] in *. split_and!; [by rewrite P2| |].
    + split; [done|]. intros (Hs & Ht & Hst). rewrite Ht, Hst in E. destruct Hs as [->| ->]; done.
    + intros _. apply serve_done in H1. pose proof (disconnect_initial (run_others (others w (asked s) (service s)) (service s)).1) as I1.
      rewrite H1 in I1. by rewrite P1.
Qed.
(** How a call that ends without an exception ends. *)
Lemma subscribe_done inputs x changes (s s1 : App Transport) e :
  subscribe w inputs x s = (s1, Done e) -> interruption x = interruptions changes NoChange ->
  (e = Reauthenticating <-> renewal x changes) /\
  (exists ca, ca_read x = Ok ca /\ locals s1 = Some ca) /\
  (e = Returned -> engine (service s1) = initial_engine).
Proof.
  intros H Hi. unfold subscribe in H.
  apply am_bind_done in H as (mb & t1 & H1 & H). apply compute_done in H1 as [_ ->].
  apply am_bind_done in H as (m & t2 & H1 & H). apply compute_done in H1 as [_ ->].
  apply am_bind_done in H as (u & t3 & _ & H).
  apply am_bind_done in H as (ca & t4 & H1 & H). apply compute_done in H1 as [Hca ->].
  apply am_bind_done in H as (tok & t5 & H1 & H). apply compute_done in H1 as [_ ->].
  apply am_bind_done in H as (v & t6 & [= <- <-] & H).
  set (t := MkApp _ _ _ _ _) in H.
  assert (Ht : locals t = Some ca).
  { unfold t, channel. cbn [locals]. by destruct (bool_decide_reflect (locals t3 = Some ca)). }
  clearbody t. rewrite renewal_iff by done.
  destruct (bool_decide_reflect (get_status x = CallOk)) as [Hg|Hg]; cbn [negb] in H.
  - apply am_bind_done in H as (m1 & t7 & H1 & H). apply compute_done in H1 as [_ ->].
    apply am_bind_done in H as (m2 & t8 & H1 & H). apply (f_equal fst) in H1.
    pose proof (serve_locals (input_observation "CONNECTED" "WAITING" "AWAITING_INPUT") t) as L1. rewrite H1 in L1.
    apply am_bind_done in H as (m3 & t9 & H2 & H). apply (f_equal fst) in H2.
    pose proof (report_parts w "VDP_COMPATIBILITY_CHANGED" "READY" "NONE" t8) as [_ L2]. rewrite H2 in L2.
    apply am_bind_done in H as (m4 & t10 & H3 & H). apply (f_equal fst) in H3.
    pose proof (scoped_locals first_reading (reading_loop w (messages x)) t9) as L3. rewrite H3 in L3. cbn [fst] in *.
    apply stream_ended_done in H as (L4 & Hiff & Hret). split_and!; [|exists ca; split; [done|congruence]|exact Hret].
    rewrite Hiff, Hg. naive_solver.
  - injection H as <- <-. split_and!; [|by exists ca|].
    + unfold get_failed. destruct (get_status x), (token_replaced (interruption x)), (stopping x); naive_solver.
    + unfold get_failed. destruct (get_status x); [done| |done..]. by destruct (_ && _).
Qed.

End Ends.

(** ** A process with two sessions *)

Definition sample_getenv (key : string) : option string :=
  list_to_map (M := gmap string string)
    [("AOS_ITEM_ID", "tire"); ("AOS_SUBJECT_ID", "subject-1"); ("AOS_INSTANCE_INDEX", "0"); ("AOS_INSTANCE_ID", "i:7")]%string !! key.
Definition release_text : string := quoted "{'schemaVersion':1,'serviceVersion':'1.2.3'}".
Definition metadata_text : string :=
  quoted "{'schemaVersion':2,'unitSystemUid':'unit-1','unitRole':'validation','vdpContractVersion':'1.0.0','vdpContractSha256':'"
  +:+ sha256_hex "contract" +:+ quoted "'}".
Definition sample_read (file : string) (limit : Z) : res string :=
  if String.eqb file "/usr/share/aosedge/service-release.json" then Ok release_text
  else if String.eqb file "/data/metadata.json" then Ok metadata_text else Err (RuntimeError "INPUT_FILE_UNAVAILABLE").
Definition sample_argv : list string := ["--metadata-file"; "/data/metadata.json"; "--ca-file"; "/data/ca.pem"]%string.
Definition sample_inputs : ApplicationInputs :=
  MkInputs "/data/metadata.json" "/data/ca.pem" (Some (MkNative "1.2.3" sample_instance)).
Lemma sample_start : analytics_start sample_argv sample_getenv (Ok tt) sample_read = Ok (sample_inputs, sample_metadata).
Proof. vm_compute. reflexivity. Qed.
(** The start-up refuses an environment that still holds the secret. *)
Example secret_refused :
  analytics_start sample_argv (fun key => if String.eqb key "AOS_SECRET" then Some "s"%string else sample_getenv key) (Ok tt) sample_read =
  Err (RuntimeError "CREDENTIAL_BOUNDARY_INVALID").
Proof. vm_compute. reflexivity. Qed.
(** The token is not there yet; then it is, and it is replaced while the stream is read. *)
Definition sample_sessions : list SessionScript :=
  [MkScript (Ok metadata_text) (Ok "ca"%string) (Err (RuntimeError "KUKSA_AUTH_PENDING")) CallOk (MkGetResponse false 0 []) [] CallOk NoChange false;
   MkScript (Ok metadata_text) (Ok "ca"%string) (Ok "a.b.c"%string) CallOk
     (MkGetResponse false 0 (map (fun row => MkDataEntry row.1 (Some row.2) None) catalogue))
     [(sample_updates, false); ([], true)] CallCancelled TokenReplaced false].
Definition main_app : App Transport := MkApp sample_runtime initial_log None 0 [].
Lemma sample_run_ends : (analytics_run quiet_world sample_inputs sample_sessions main_app).2 = Done 0.
Proof. vm_compute. reflexivity. Qed.
Lemma sample_run_log :
  map (fun x => (line_event x, line_state x, line_reason x)) (lines (log (analytics_run quiet_world sample_inputs sample_sessions main_app).1)) =
  [("SERVICE_STARTED", "RUNNING", "NONE"); ("READINESS_CHANGED", "NOT_READY", "KUKSA_AUTH_PENDING");
   ("VDP_COMPATIBILITY_CHANGED", "READY", "NONE");
   ("KUKSA_CONNECTION_CHANGED", "REAUTHENTICATING", "TOKEN_REPLACED"); ("SERVICE_STOPPED", "STOPPED", "NONE")]%string.
Proof. vm_compute. reflexivity. Qed.
(** The process on the store an earlier one has left. *)
Lemma sample_halted : halted sample_uid (state sample_runtime) (disk sample_runtime).
Proof. exact (served_halted sample_uid (state sample_runtime) sample_runtime eq_refl sample_served (adv_refl _ sample_served)). Qed.
Definition sample_process : machine * outcome Z :=
  analytics_main quiet_world sample_argv sample_getenv (Ok tt) sample_read sample_source (restart 1000 "" (disk sample_runtime)) sample_sessions.
Lemma sample_process_ends : sample_process.2 = Done 0.
Proof. vm_compute. reflexivity. Qed.
Lemma analytics_main_history_witness :
  sample_process.2 = Done 0 /\
  ((rtc (step sample_uid) (Down (disk sample_runtime)) (Down sample_process.1) /\ halted sample_uid (state sample_runtime) sample_process.1) \/
   collision sample_uid kModelConfigSha256 (Down (disk sample_runtime))).
Proof.
  split; [exact sample_process_ends|].
  assert (Hw : lawful quiet_world) by (intros n s; exact I).
  assert (Hu : forall inputs m, analytics_start sample_argv sample_getenv (Ok tt) sample_read = Ok (inputs, m) -> unit_system_uid m = sample_uid).
  { intros inputs m H. rewrite sample_start in H. injection H as _ <-. reflexivity. }
  pose proof (analytics_main_history quiet_world sample_uid (state sample_runtime) sample_argv sample_getenv (Ok tt) sample_read
    sample_source 1000 "" (disk sample_runtime) sample_sessions Hw sample_halted Hu) as H.
  rewrite sample_start in H. unfold sample_process.
  destruct (analytics_main _ _ _ _ _ _ _ _) as [d r]. exact H.
Defined.

(** *** Sessions that end *)

(** A service with an exercise in progress. *)
Definition renewing_app : App Transport :=
  MkApp (set_engine (MkEngine (Some (MkEpisode sample_source 1500 1500 [turning 1500] "")) 1000 (-1) 1500 1500 false) sample_runtime)
    initial_log (Some "ca"%string) 0 [].
(** The second of the sessions above with other observations, and with another answer to [Get]. *)
Definition ending_session (status : CallStatus) (changes : list SessionInputChange) : SessionScript :=
  MkScript (Ok metadata_text) (Ok "ca"%string) (Ok "a.b.c"%string) status
    (MkGetResponse false 0 (map (fun row => MkDataEntry row.1 (Some row.2) None) catalogue))
    [(sample_updates, false); ([], true)] CallCancelled (interruptions changes NoChange) false.
Definition ended (x : SessionScript) : App Transport := (session later_world sample_inputs x renewing_app).1.
Lemma later_deliveries n k q : (n <= k)%nat -> Forall (fun e => delivery_event e = true) (others later_world k q).
Proof. intros _. cbn [others later_world]. destruct (k =? 2)%nat; repeat constructor. Qed.
Lemma ended_done x : (session later_world sample_inputs x renewing_app).2 = Done tt ->
  session later_world sample_inputs x renewing_app = (ended x, Done tt).
Proof. unfold ended. destruct (session _ _ _ _) as [s r]. cbn. by intros ->. Qed.
