(* ===== verification/Contexts.v ===== *)
(** * The threads of a session and their calls ([subscribe] of src/runtime/grpc_main.cpp)

    A session has three threads: the one that runs [subscribe], the watcher, which cancels the
    calls of the others when the session's inputs are lost or replaced, and the advisory thread.
    They share the mutex [context_mutex], the two contexts of calls it protects, and three flags.
    A state has one program counter per thread; a step is one access to what is shared, or a piece
    of a thread's own work between two of them, which Subscription and MainLoop model.  What a
    step depends on and the state does not hold is in its [Choice].

    Of gRPC this uses that a call whose context is cancelled or has a deadline ends, and that a
    cancelled context stays so: such a call is never [blocked] here, any other may be for good. *)
From Stdlib Require Import ZArith Lia Bool.
From stdpp Require Import base option list tactics.
From S2P Require Import Prelude Session.
Local Open Scope nat_scope.

(** ** Data *)

Inductive Thread := SessionThread | WatcherThread | AdvisoryThread.
#[export] Instance Thread_eq_dec : EqDecision Thread.
Proof. solve_decision. Defined.
(** [grpc::ClientContext]: whether [TryCancel] was called on it and whether it has a deadline. *)
Record ClientContext := MkContext { try_cancelled : bool; with_deadline : bool }.
(** What [make_context] is called for. *)
Inductive Purpose := ForGet | ForStream.
(** Destructors still to run, with what they do: of [Cancel], of [AdvisoryJoin] and of [Join]. *)
Inductive Destructor := CancelContext (id : nat) | SetFinished | JoinAdvisory | JoinWatcher.
Definition unwind_join : list Destructor := [SetFinished; JoinWatcher].
Definition unwind_advisory : list Destructor := SetFinished :: JoinAdvisory :: unwind_join.
Definition unwind_stream (id : nat) : list Destructor := CancelContext id :: unwind_advisory.

Inductive SessionAt :=
  | SMake (p : Purpose)
  | SLock (p : Purpose) (id : nat) | SStore (p : Purpose) (id : nat) | SCheck (p : Purpose) (id : nat) | SUnlock (p : Purpose) (id : nat)
  | SDeadline (id : nat) | SGet (id : nat) | SGetFailed | SGetOutcome | SVerify | SStart
  | SSubscribe (id : nat) | SRead (id : nat) | SStopping (id : nat) | SInvalid (id : nat) | SHandle (id : nat)
  | SCancel (id : nat) | SFinish (id : nat) | SObserve (id : nat) | SOutcome (id : nat)
  | SUnwind (l : list Destructor) | SEnded.
(** [caught] says which of the two places that invalidate the session it is. *)
Inductive WatcherAt :=
  | WFinished | WStopping | WInspect | WCancelled
  | WInvalidate (caught : bool) | WLock (caught : bool) | WCancelActive (caught : bool) | WCancelAdvisory (caught : bool) | WUnlock (caught : bool)
  | WExpire | WObserve | WSleep | WEnded.
Inductive Update := RequestUpdate | ReadinessUpdate.
Inductive AdvisoryAt :=
  | ANone | AFinished | AInvalid | ANext | AMake (u : Update)
  | ALock (u : Update) (id : nat) | AStore (u : Update) (id : nat) | ACheck (u : Update) (id : nat) | AUnlock (u : Update) (id : nat)
  | ASet (u : Update) (id : nat) | ARequested
  | AResetLock (u : Update) | AReset (u : Update) | AResetUnlock (u : Update)
  | AReadiness | APublished | ACaught | ASleep | AEnded.

(** [terminated]: an exception has left a thread; [renewing]: [ReauthenticationRequired] is thrown. *)
Record State := MkState {
  cause : SessionInputChange; invalid : bool; finished : bool; terminated : bool; renewing : bool;
  context_mutex : option Thread; active : option nat; advisory_context : option nat;
  contexts : list ClientContext;
  session_at : SessionAt; watcher_at : WatcherAt; advisory_at : AdvisoryAt }.
(** Where the watcher has been started. *)
Definition first_state : State := MkState NoChange false false false false None None None [] (SMake ForGet) WFinished ANone.
(** What the work between two shared accesses comes to: [fine] that it does not throw or that the
    call succeeds, [more] that it yields something, [stopping] is [stop || interrupted] and
    [change] the result of [inspect_session_inputs]. *)
Record Choice := MkChoice { fine : bool; more : bool; stopping : bool; change : SessionInputChange }.

(** ** Updates *)

Definition observe_change (c : SessionInputChange) (s : State) : State :=
  MkState (interruption_observe (cause s) c) (invalid s) (finished s) (terminated s) (renewing s) (context_mutex s) (active s) (advisory_context s) (contexts s) (session_at s) (watcher_at s) (advisory_at s).
Definition set_invalid (s : State) : State :=
  MkState (cause s) true (finished s) (terminated s) (renewing s) (context_mutex s) (active s) (advisory_context s) (contexts s) (session_at s) (watcher_at s) (advisory_at s).
Definition raise_finished (s : State) : State :=
  MkState (cause s) (invalid s) true (terminated s) (renewing s) (context_mutex s) (active s) (advisory_context s) (contexts s) (session_at s) (watcher_at s) (advisory_at s).
Definition terminate (s : State) : State :=
  MkState (cause s) (invalid s) (finished s) true (renewing s) (context_mutex s) (active s) (advisory_context s) (contexts s) (session_at s) (watcher_at s) (advisory_at s).
Definition throw_reauthentication (s : State) : State :=
  MkState (cause s) (invalid s) (finished s) (terminated s) true (context_mutex s) (active s) (advisory_context s) (contexts s) (session_at s) (watcher_at s) (advisory_at s).
Definition set_mutex (m : option Thread) (s : State) : State :=
  MkState (cause s) (invalid s) (finished s) (terminated s) (renewing s) m (active s) (advisory_context s) (contexts s) (session_at s) (watcher_at s) (advisory_at s).
Definition set_active (c : option nat) (s : State) : State :=
  MkState (cause s) (invalid s) (finished s) (terminated s) (renewing s) (context_mutex s) c (advisory_context s) (contexts s) (session_at s) (watcher_at s) (advisory_at s).
Definition set_advisory_context (c : option nat) (s : State) : State :=
  MkState (cause s) (invalid s) (finished s) (terminated s) (renewing s) (context_mutex s) (active s) c (contexts s) (session_at s) (watcher_at s) (advisory_at s).
Definition set_contexts (l : list ClientContext) (s : State) : State :=
  MkState (cause s) (invalid s) (finished s) (terminated s) (renewing s) (context_mutex s) (active s) (advisory_context s) l (session_at s) (watcher_at s) (advisory_at s).
Definition session_to (pc : SessionAt) (s : State) : State :=
  MkState (cause s) (invalid s) (finished s) (terminated s) (renewing s) (context_mutex s) (active s) (advisory_context s) (contexts s) pc (watcher_at s) (advisory_at s).
Definition watcher_to (pc : WatcherAt) (s : State) : State :=
  MkState (cause s) (invalid s) (finished s) (terminated s) (renewing s) (context_mutex s) (active s) (advisory_context s) (contexts s) (session_at s) pc (advisory_at s).
Definition advisory_to (pc : AdvisoryAt) (s : State) : State :=
  MkState (cause s) (invalid s) (finished s) (terminated s) (renewing s) (context_mutex s) (active s) (advisory_context s) (contexts s) (session_at s) (watcher_at s) pc.
(** [std::make_shared<grpc::ClientContext>()]: its name is the number of contexts made before. *)
Definition add_context (deadline : bool) (s : State) : State := set_contexts (contexts s ++ [MkContext false deadline]) s.
Definition TryCancel (id : nat) (s : State) : State :=
  set_contexts (alter (fun x => MkContext true (with_deadline x)) id (contexts s)) s.
Definition set_deadline (id : nat) (s : State) : State :=
  set_contexts (alter (fun x => MkContext (try_cancelled x) true) id (contexts s)) s.
(** [if (c) c->TryCancel();] *)
Definition cancel_if (c : option nat) (s : State) : State := match c with Some id => TryCancel id s | None => s end.
(** Waits while another thread holds the mutex. *)
Definition lock (t : Thread) (s : State) : option State :=
  match context_mutex s with None => Some (set_mutex (Some t) s) | Some _ => None end.

(** ** The threads *)

Definition advisory_over (s : State) : bool := match advisory_at s with AEnded => true | _ => false end.
Definition watcher_over (s : State) : bool := match watcher_at s with WEnded => true | _ => false end.
(** A destructor, and the rest of the unwinding. *)
Definition destruct_step (d : Destructor) (l : list Destructor) (s : State) : option State :=
  let next := session_to (SUnwind l) in
  match d with
  | CancelContext id => Some (next (TryCancel id s))
  | SetFinished => Some (next (raise_finished s))
  | JoinAdvisory => if advisory_over s then Some (next s) else None
  | JoinWatcher => if watcher_over s then Some (next s) else None
  end.
(** Whether a session whose call has ended is to be renewed; [fine] is that the call was cancelled
    (or, for the stream, ended well). *)
Definition renews (c : Choice) (s : State) : bool := fine c && token_replaced (cause s) && negb (stopping c).
Definition session_step (c : Choice) (s : State) : option State :=
  let goto pc := Some (session_to pc s) in
  match session_at s with
  | SMake p => Some (session_to (SLock p (length (contexts s))) (add_context false s))
  | SLock p id => session_to (SStore p id) <$> lock SessionThread s
  | SStore p id => Some (session_to (SCheck p id) (set_active (Some id) s))
  | SCheck p id => Some (session_to (SUnlock p id) (if invalid s then TryCancel id s else s))
  | SUnlock p id => Some (session_to (match p with ForGet => SDeadline id | ForStream => SSubscribe id end) (set_mutex None s))
  | SDeadline id => Some (session_to (SGet id) (set_deadline id s))
  | SGet id => goto (if fine c then SVerify else SGetFailed)
  | SGetFailed => Some (session_to SGetOutcome (observe_change (change c) s))
  | SGetOutcome => Some (session_to (SUnwind unwind_join) (if renews c s then throw_reauthentication s else s))
  | SVerify => goto (if fine c then SStart else SUnwind unwind_join)
  | SStart => if fine c then Some (session_to (SMake ForStream) (advisory_to AFinished s)) else goto (SUnwind unwind_join)
  | SSubscribe id => goto (SRead id)
  | SRead id => goto (if more c then SStopping id else SCancel id)
  | SStopping id => goto (if stopping c then SCancel id else SInvalid id)
  | SInvalid id => goto (if invalid s then SCancel id else SHandle id)
  | SHandle id => goto (if fine c then SRead id else SUnwind (unwind_stream id))
  | SCancel id => Some (session_to (SFinish id) (TryCancel id s))
  | SFinish id => goto (SObserve id)
  | SObserve id => Some (session_to (SOutcome id) (observe_change (change c) s))
  | SOutcome id => Some (session_to (SUnwind (unwind_stream id)) (if renews c s then throw_reauthentication s else s))
  | SUnwind (d :: l) => destruct_step d l s
  | SUnwind [] => goto SEnded
  | SEnded => None
  end.
Definition watcher_step (c : Choice) (s : State) : option State :=
  let goto pc := Some (watcher_to pc s) in
  match watcher_at s with
  | WFinished => goto (if finished s then WEnded else WStopping)
  | WStopping => Some (watcher_to WInspect (if stopping c then observe_change Unavailable s else s))
  | WInspect => Some (watcher_to WCancelled (observe_change (change c) s))
  | WCancelled => goto (if cancelled (cause s) then WInvalidate false else WExpire)
  | WInvalidate caught => Some (watcher_to (WLock caught) (set_invalid s))
  | WLock caught => watcher_to (WCancelActive caught) <$> lock WatcherThread s
  | WCancelActive caught => Some (watcher_to (WCancelAdvisory caught) (cancel_if (active s) s))
  | WCancelAdvisory caught => Some (watcher_to (WUnlock caught) (cancel_if (advisory_context s) s))
  | WUnlock caught => Some (watcher_to (if (caught : bool) then WSleep else WExpire) (set_mutex None s))
  | WExpire => goto (if fine c then WSleep else WObserve)
  | WObserve => Some (watcher_to (WInvalidate true) (observe_change Unavailable s))
  | WSleep => goto WFinished
  | WEnded => None
  end.
Definition advisory_step (c : Choice) (s : State) : option State :=
  let goto pc := Some (advisory_to pc s) in
  match advisory_at s with
  | ANone => None
  | AFinished => goto (if finished s || stopping c then AEnded else AInvalid)
  | AInvalid => goto (if invalid s then AEnded else ANext)
  | ANext => goto (if fine c then (if more c then AMake RequestUpdate else AReadiness) else ACaught)
  | AMake u => Some (advisory_to (ALock u (length (contexts s))) (add_context true s))
  | ALock u id => advisory_to (AStore u id) <$> lock AdvisoryThread s
  | AStore u id => Some (advisory_to (ACheck u id) (set_advisory_context (Some id) s))
  | ACheck u id => Some (advisory_to (AUnlock u id) (if invalid s then TryCancel id s else s))
  | AUnlock u id => Some (advisory_to (ASet u id) (set_mutex None s))
  | ASet u id => goto (match u with RequestUpdate => ARequested | ReadinessUpdate => AResetLock ReadinessUpdate end)
  | ARequested => goto (if fine c then AResetLock RequestUpdate else ACaught)
  | AResetLock u => advisory_to (AReset u) <$> lock AdvisoryThread s
  | AReset u => Some (advisory_to (AResetUnlock u) (set_advisory_context None s))
  | AResetUnlock u => Some (advisory_to (match u with RequestUpdate => AReadiness | ReadinessUpdate => APublished end) (set_mutex None s))
  | AReadiness => goto (if fine c then (if more c then AMake ReadinessUpdate else ASleep) else ACaught)
  | APublished => goto (if fine c then ASleep else ACaught)
  | ACaught => if fine c then goto ASleep else Some (terminate s)
  | ASleep => goto AFinished
  | AEnded => None
  end.
(** One step of a thread, if it can make one. *)
Definition step (x : Thread * Choice) (s : State) : option State :=
  if terminated s then None
  else match x.1 with
       | SessionThread => session_step x.2 s
       | WatcherThread => watcher_step x.2 s
       | AdvisoryThread => advisory_step x.2 s
       end.
Fixpoint exec (l : list (Thread * Choice)) (s : State) : option State :=
  match l with [] => Some s | x :: l' => step x s ≫= exec l' end.
Definition reachable (s : State) : Prop := exists l, exec l first_state = Some s.

(** ** Calls *)

(** The context of the call a thread is in. *)
Definition in_flight (t : Thread) (s : State) : option nat :=
  match t with
  | SessionThread => match session_at s with SGet id | SSubscribe id | SRead id | SFinish id => Some id | _ => None end
  | WatcherThread => None
  | AdvisoryThread => match advisory_at s with ASet _ id => Some id | _ => None end
  end.
Definition context_is (f : ClientContext -> bool) (id : nat) (s : State) : bool := from_option f false (contexts s !! id).
Definition is_cancelled (id : nat) (s : State) : bool := context_is try_cancelled id s.
Definition has_deadline (id : nat) (s : State) : bool := context_is with_deadline id s.
(** Whether a thread waits for the mutex, for another's end or for a call that may never end; an
    ended one and one that was not started make no step either. *)
Definition waits_mutex (s : State) : bool := bool_decide (context_mutex s <> None).
Definition waits_call (t : Thread) (s : State) : bool :=
  match in_flight t s with Some id => negb (is_cancelled id s || has_deadline id s) | None => false end.
Definition blocked (t : Thread) (s : State) : bool :=
  waits_call t s ||
  match t with
  | SessionThread =>
    match session_at s with
    | SLock _ _ => waits_mutex s
    | SUnwind (JoinAdvisory :: _) => negb (advisory_over s)
    | SUnwind (JoinWatcher :: _) => negb (watcher_over s)
    | SEnded => true
    | _ => false
    end
  | WatcherThread => match watcher_at s with WLock _ => waits_mutex s | WEnded => true | _ => false end
  | AdvisoryThread => match advisory_at s with ALock _ _ | AResetLock _ => waits_mutex s | ANone | AEnded => true | _ => false end
  end.
(** Whether a thread is between its locking and its unlocking. *)
Definition in_section (t : Thread) (s : State) : bool :=
  match t with
  | SessionThread => match session_at s with SStore _ _ | SCheck _ _ | SUnlock _ _ => true | _ => false end
  | WatcherThread => match watcher_at s with WCancelActive _ | WCancelAdvisory _ | WUnlock _ => true | _ => false end
  | AdvisoryThread => match advisory_at s with AStore _ _ | ACheck _ _ | AUnlock _ _ | AReset _ | AResetUnlock _ => true | _ => false end
  end.
(** Where the session has been declared invalid and its calls are not all cancelled yet. *)
Definition in_window (s : State) : bool :=
  match watcher_at s with WLock _ | WCancelActive _ | WCancelAdvisory _ => true | _ => false end.
(** Every thread that was started has ended. *)
Definition all_ended (s : State) : bool :=
  match session_at s, watcher_at s, advisory_at s with SEnded, WEnded, (ANone | AEnded) => true | _, _, _ => false end.
Definition steps_of (t : Thread) (l : list (Thread * Choice)) : nat := length (filter (fun x => x.1 = t) l).

(** ** Contexts only gain cancellations and deadlines *)

Definition gains (a b : list ClientContext) : Prop :=
  forall id x, a !! id = Some x ->
  exists y, b !! id = Some y /\ (try_cancelled x = true -> try_cancelled y = true) /\ (with_deadline x = true -> with_deadline y = true).
#[export] Instance gains_preorder : PreOrder gains.
Proof.
  split.
  - intros a id x H. exists x. tauto.
  - intros a b c Hab Hbc id x H. destruct (Hab id x H) as (y & Hy & H1 & H2). destruct (Hbc id y Hy) as (z & Hz & H3 & H4).
    exists z. tauto.
Qed.
Lemma gains_alter f i l :
  (forall x, (try_cancelled x = true -> try_cancelled (f x) = true) /\ (with_deadline x = true -> with_deadline (f x) = true)) ->
  gains l (alter f i l).
Proof.
  intros Hf id x H. destruct (decide (i = id)) as [->|Hn].
  - exists (f x). rewrite list_lookup_alter_eq, H. destruct (Hf x). done.
  - exists x. rewrite list_lookup_alter_ne by done. done.
Qed.
Lemma gains_app l k : gains l (l ++ k).
Proof. intros id x H. exists x. split; [by apply lookup_app_l_Some|done]. Qed.
Lemma gains_length a b : gains a b -> length a <= length b.
Proof.
  intros H. destruct (decide (length a <= length b)) as [|Hn]; [done|].
  destruct (lookup_lt_is_Some_2 a (length b)) as [x Hx]; [lia|]. destruct (H _ _ Hx) as (y & Hy & _).
  apply lookup_lt_Some in Hy. lia.
Qed.
Lemma gains_cancelled id s s' : gains (contexts s) (contexts s') -> is_cancelled id s = true -> is_cancelled id s' = true.
Proof.
  unfold is_cancelled, context_is. intros H. destruct (contexts s !! id) as [x|] eqn:E; [|done].
  destruct (H id x E) as (y & -> & Hy & _). exact Hy.
Qed.
Lemma gains_deadline id s s' : gains (contexts s) (contexts s') -> has_deadline id s = true -> has_deadline id s' = true.
Proof.
  unfold has_deadline, context_is. intros H. destruct (contexts s !! id) as [x|] eqn:E; [|done].
  destruct (H id x E) as (y & -> & _ & Hy). exact Hy.
Qed.
Lemma gains_cancel id s : gains (contexts s) (contexts (TryCancel id s)).
Proof. apply gains_alter. done. Qed.
Lemma gains_set_deadline id s : gains (contexts s) (contexts (set_deadline id s)).
Proof. apply gains_alter. done. Qed.
Lemma gains_add d s : gains (contexts s) (contexts (add_context d s)).
Proof. apply gains_app. Qed.
Lemma gains_cancel_if c s : gains (contexts s) (contexts (cancel_if c s)).
Proof. destruct c; [apply gains_cancel|reflexivity]. Qed.
Lemma cancel_cancels id s : id < length (contexts s) -> is_cancelled id (TryCancel id s) = true.
Proof.
  intros [x Hx]%lookup_lt_is_Some_2. unfold is_cancelled, context_is, TryCancel; cbn [contexts set_contexts].
  by rewrite list_lookup_alter_eq, Hx.
Qed.
Lemma set_deadline_sets id s : id < length (contexts s) -> has_deadline id (set_deadline id s) = true.
Proof.
  intros [x Hx]%lookup_lt_is_Some_2. unfold has_deadline, context_is, set_deadline; cbn [contexts set_contexts].
  by rewrite list_lookup_alter_eq, Hx.
Qed.
Lemma add_context_has d s : has_deadline (length (contexts s)) (add_context d s) = d.
Proof. unfold has_deadline, context_is, add_context; cbn [contexts set_contexts]. by rewrite lookup_app_r, Nat.sub_diag by done. Qed.
Lemma deadline_known id s : has_deadline id s = true -> id < length (contexts s).
Proof. unfold has_deadline, context_is. destruct (contexts s !! id) eqn:E; [intros _; by eapply lookup_lt_Some|done]. Qed.
Create HintDb contexts.
#[export] Hint Resolve gains_cancel gains_set_deadline gains_add gains_cancel_if cancel_cancels set_deadline_sets add_context_has : contexts.
#[export] Hint Extern 5 (gains _ _) => reflexivity : contexts.

(** The fields of an updated state. *)
Ltac fields :=
  cbn [cause invalid finished terminated renewing context_mutex active advisory_context contexts session_at watcher_at advisory_at
       observe_change set_invalid raise_finished terminate throw_reauthentication set_mutex set_active set_advisory_context session_to watcher_to advisory_to] in *.
Lemma lock_Some t s s' : lock t s = Some s' <-> context_mutex s = None /\ s' = set_mutex (Some t) s.
Proof. unfold lock. destruct (context_mutex s); naive_solver. Qed.
(** The cases of a thread's step [H]. *)
Ltac step_cases H :=
  unfold session_step, watcher_step, advisory_step, destruct_step, cancel_if in H; try discriminate H;
  repeat match type of H with context [match ?x with _ => _ end] => destruct x eqn:?; try discriminate H end;
  try (apply fmap_Some in H as (? & (? & ->)%lock_Some & ->)); try (injection H as <-).
Lemma step_inv x s s' :
  step x s = Some s' ->
  terminated s = false /\
  match x.1 with SessionThread => session_step x.2 s | WatcherThread => watcher_step x.2 s | AdvisoryThread => advisory_step x.2 s end = Some s'.
Proof. unfold step. by destruct (terminated s). Qed.
(** The step [H] of the thread that [Ex] says. *)
Ltac own_step H Ex := apply step_inv in H as [_ H]; rewrite Ex in H.
Lemma step_gains x s s' : step x s = Some s' -> gains (contexts s) (contexts s').
Proof.
  destruct x as [[] c]; intros [_ H]%step_inv; cbn [fst snd] in H; step_cases H; fields; auto with contexts.
Qed.

(** ** What every reachable state satisfies *)

(** The context a thread works with, and whether it has stored it in the shared variable. *)
Definition session_id (pc : SessionAt) : option (nat * bool) :=
  match pc with
  | SLock _ id | SStore _ id => Some (id, false)
  | SCheck _ id | SUnlock _ id | SDeadline id | SGet id | SSubscribe id | SRead id | SStopping id | SInvalid id
  | SHandle id | SCancel id | SFinish id | SObserve id | SOutcome id => Some (id, true)
  | _ => None
  end.
Definition advisory_id (pc : AdvisoryAt) : option (nat * bool) :=
  match pc with
  | ALock _ id | AStore _ id => Some (id, false)
  | ACheck _ id | AUnlock _ id | ASet _ id => Some (id, true)
  | _ => None
  end.
(** Before the advisory thread is started. *)
Definition early (pc : SessionAt) : bool :=
  match pc with
  | SMake ForGet | SLock ForGet _ | SStore ForGet _ | SCheck ForGet _ | SUnlock ForGet _
  | SDeadline _ | SGet _ | SGetFailed | SGetOutcome | SVerify | SStart => true
  | _ => false
  end.
Definition started (s : State) : bool := match advisory_at s with ANone => false | _ => true end.
Definition quiet (s : State) : bool := negb (started s) || advisory_over s.
(** How far the unwinding is. *)
Inductive unwinding (s : State) : list Destructor -> Prop :=
  | unwinding_stream id : started s = true -> unwinding s (unwind_stream id)
  | unwinding_advisory : started s = true -> unwinding s unwind_advisory
  | unwinding_join_advisory : started s = true -> finished s = true -> unwinding s (JoinAdvisory :: unwind_join)
  | unwinding_join : quiet s = true -> unwinding s unwind_join
  | unwinding_join_watcher : quiet s = true -> finished s = true -> unwinding s [JoinWatcher]
  | unwinding_over : quiet s = true -> watcher_at s = WEnded -> unwinding s [].
Definition phase (s : State) : Prop :=
  match session_at s with
  | SUnwind l => unwinding s l
  | SEnded => quiet s = true /\ watcher_at s = WEnded
  | pc => finished s = false /\ started s = negb (early pc)
  end.
Record wf (s : State) : Prop := {
  wf_mutex : forall t, in_section t s = true <-> context_mutex s = Some t;
  wf_session : forall id stored, session_id (session_at s) = Some (id, stored) ->
    id < length (contexts s) /\ (stored = true -> active s = Some id);
  wf_advisory : forall id stored, advisory_id (advisory_at s) = Some (id, stored) ->
    has_deadline id s = true /\ (stored = true -> advisory_context s = Some id);
  wf_get : forall id, session_at s = SGet id -> has_deadline id s = true;
  wf_finish : forall id, session_at s = SFinish id -> is_cancelled id s = true;
  wf_active : forall id, active s = Some id -> id < length (contexts s);
  wf_advisory_context : forall id, advisory_context s = Some id -> id < length (contexts s);
  wf_phase : phase s;
  wf_watcher : watcher_at s = WEnded -> finished s = true }.

Lemma wf_initial : wf first_state.
Proof. by split; cbn; try done; intros []. Qed.
(** A step leaves the mutex, takes it or gives it back. *)
Lemma step_sections x s s' :
  phase s -> step x s = Some s' ->
  (forall t, t <> x.1 -> in_section t s' = in_section t s) /\
  ((in_section x.1 s' = in_section x.1 s /\ context_mutex s' = context_mutex s)
   \/ (context_mutex s = None /\ context_mutex s' = Some x.1 /\ in_section x.1 s' = true)
   \/ (in_section x.1 s = true /\ context_mutex s' = None /\ in_section x.1 s' = false)).
Proof.
  intros Hp. assert (Hs : session_at s = SStart -> advisory_at s = ANone).
  { intros E. unfold phase, started in Hp. rewrite E in Hp. by destruct Hp as [_ Hp]; destruct (advisory_at s). }
  clear Hp. destruct x as [[] c]; intros [_ H]%step_inv; cbn [fst snd] in *; step_cases H; unfold in_section; fields;
    (split; [intros []; try reflexivity; intros; try congruence; by rewrite Hs by done|]);
    repeat match goal with
    | E : session_at _ = _ |- _ => rewrite E
    | E : watcher_at _ = _ |- _ => rewrite E
    | E : advisory_at _ = _ |- _ => rewrite E
    end; cbn; tauto.
Qed.
Lemma mutex_step x s s' :
  wf s -> step x s = Some s' -> forall t, in_section t s' = true <-> context_mutex s' = Some t.
Proof.
  intros Hw H t. pose proof (wf_mutex s Hw) as Hm. destruct (step_sections x s s' (wf_phase s Hw) H) as [Ho Hx].
  pose proof (Hm t) as Ht. pose proof (Hm x.1) as Hmx.
  destruct (decide (t = x.1)) as [->|Hn].
  - destruct Hx as [(-> & ->)|[(_ & -> & ->)|(_ & -> & ->)]]; [done|done|]. split; [done|congruence].
  - rewrite (Ho t Hn). destruct Hx as [(_ & ->)|[(E & -> & _)|(E & -> & _)]]; [done| |].
    + rewrite Ht, E. split; congruence.
    + apply Hmx in E. rewrite Ht, E. split; congruence.
Qed.
(** What a step leaves of the other threads. *)
Lemma step_others x s s' :
  step x s = Some s' ->
  (x.1 <> SessionThread -> session_at s' = session_at s /\ active s' = active s /\ finished s' = finished s) /\
  (x.1 <> WatcherThread -> watcher_at s' = watcher_at s /\ invalid s' = invalid s) /\
  (x.1 <> AdvisoryThread ->
    advisory_context s' = advisory_context s /\ (advisory_at s' = advisory_at s \/ (x.1 = SessionThread /\ session_at s = SStart) /\ advisory_at s' = AFinished)).
Proof.
  destruct x as [[] c]; intros [_ H]%step_inv; cbn [fst snd] in *; step_cases H; fields;
    (split; [|split]); try (intros X; contradict X; reflexivity); intros _; repeat split; solve [reflexivity|assumption|left; reflexivity|right; repeat split; congruence].
Qed.
(** What an ended or unstarted advisory thread and an ended watcher leave. *)
Lemma quiet_step x s s' : wf s -> session_at s <> SStart -> quiet s = true -> step x s = Some s' -> quiet s' = true /\ advisory_at s' = advisory_at s.
Proof.
  unfold quiet, started, advisory_over. intros Hw Hn Hq H. destruct (step_others x s s' H) as (_ & _ & Ha).
  destruct (decide (x.1 = AdvisoryThread)) as [E|E].
  - apply step_inv in H as [_ H]. rewrite E in H. unfold advisory_step in H. destruct (advisory_at s); done.
  - destruct (Ha E) as [_ [->|[[_ ?] _]]]; [done|contradiction].
Qed.
Lemma started_step x s s' : step x s = Some s' -> started s = true -> started s' = true.
Proof.
  unfold started. intros H. destruct (decide (x.1 = AdvisoryThread)) as [Ex|Ex].
  - own_step H Ex. step_cases H; fields; cbn;
      repeat match goal with E : advisory_at _ = _ |- _ => rewrite E end; done.
  - destruct (step_others x s s' H) as (_ & _ & Ha). by destruct (Ha Ex) as [_ [->|[_ ->]]].
Qed.
Lemma started_other x s s' : step x s = Some s' -> x.1 <> SessionThread -> started s' = started s.
Proof.
  intros H Hx. destruct (started s) eqn:E; [by apply (started_step x s s' H)|]. unfold started in *.
  destruct (decide (x.1 = AdvisoryThread)) as [Ex|Ex].
  - own_step H Ex. unfold advisory_step in H. by destruct (advisory_at s).
  - destruct (step_others x s s' H) as (_ & _ & Ha). by destruct (Ha Ex) as [_ [->|[[? _] _]]].
Qed.
Lemma finished_step x s s' : step x s = Some s' -> finished s = true -> finished s' = true.
Proof.
  intros H E. destruct (decide (x.1 = SessionThread)) as [Ex|Ex].
  - own_step H Ex. by step_cases H; fields.
  - destruct (step_others x s s' H) as (Ho & _). by destruct (Ho Ex) as (_ & _ & ->).
Qed.
Lemma watcher_over_step x s s' : step x s = Some s' -> watcher_at s = WEnded -> watcher_at s' = WEnded.
Proof.
  intros H E. destruct (decide (x.1 = WatcherThread)) as [Ex|Ex].
  - own_step H Ex. unfold watcher_step in H. by rewrite E in H.
  - destruct (step_others x s s' H) as (_ & Hx & _). by destruct (Hx Ex) as [-> _].
Qed.
Lemma session_fields_step x s s' :
  wf s -> step x s = Some s' -> forall id stored, session_id (session_at s') = Some (id, stored) ->
  id < length (contexts s') /\ (stored = true -> active s' = Some id).
Proof.
  intros Hw H id stored E. pose proof (step_gains x s s' H) as Hg. pose proof (wf_session s Hw) as Hs.
  destruct (decide (x.1 = SessionThread)) as [Ex|Ex].
  - own_step H Ex. apply gains_length in Hg.
    step_cases H; fields; try discriminate E; injection E as <- <-;
      try (specialize (Hs _ _ eq_refl) as [Hl Ha]; split; [lia|done || (intros _; exact (Ha eq_refl))]).
    split; [|done]. unfold add_context, set_contexts; cbn [contexts]. rewrite length_app. cbn. lia.
  - destruct (step_others x s s' H) as (Ho & _). destruct (Ho Ex) as (E1 & -> & _). rewrite E1 in E.
    destruct (Hs id stored E) as [Hl Ha]. split; [|done]. apply gains_length in Hg. lia.
Qed.
Lemma advisory_fields_step x s s' :
  wf s -> step x s = Some s' -> forall id stored, advisory_id (advisory_at s') = Some (id, stored) ->
  has_deadline id s' = true /\ (stored = true -> advisory_context s' = Some id).
Proof.
  intros Hw H id stored E. pose proof (step_gains x s s' H) as Hg. pose proof (wf_advisory s Hw) as Hs.
  assert (Hd : forall id, has_deadline id s = true -> has_deadline id s' = true) by (intros; by eapply gains_deadline).
  destruct (decide (x.1 = AdvisoryThread)) as [Ex|Ex].
  - own_step H Ex. clear Hg.
    step_cases H; fields; try match goal with X : advisory_at _ = _ |- _ => rewrite X in E end; try discriminate E; injection E as <- <-;
      try (specialize (Hs _ _ eq_refl) as [Hl Ha]; split; [apply Hd, Hl|done || (intros _; exact (Ha eq_refl))]).
    split; [|done]. exact (add_context_has true s).
  - destruct (step_others x s s' H) as (_ & _ & Ho). destruct (Ho Ex) as (-> & [E1|[_ E1]]); rewrite E1 in E; [|discriminate E].
    destruct (Hs id stored E) as [Hl Ha]. split; [apply Hd, Hl|done].
Qed.
Lemma phase_step x s s' : wf s -> step x s = Some s' -> phase s'.
Proof.
  intros Hw H. pose proof (wf_phase s Hw) as Hp. pose proof (started_step x s s' H) as Hst.
  pose proof (finished_step x s s' H) as Hf. pose proof (watcher_over_step x s s' H) as Hwo.
  destruct (decide (x.1 = SessionThread)) as [Ex|Ex].
  - own_step H Ex. unfold phase in Hp. destruct (session_at s) as [| | | | | | | | | | | | | | | | | | | |l|] eqn:E.
    21: { destruct l as [|d l]; unfold session_step in H; rewrite E in H.
      - injection H as <-. by inversion Hp.
      - inversion Hp; subst; unfold destruct_step in H; step_cases H; unfold phase; fields; constructor; try done;
          unfold quiet in *; fields; rewrite ?orb_true_iff; auto.
        by destruct (watcher_over s) eqn:Eo; [unfold watcher_over in Eo; destruct (watcher_at s)|]. }
    all: unfold session_step in H; rewrite E in H; step_cases H; unfold phase; fields; try (destruct Hp as [Hp1 Hp2]; unfold started, quiet in *; fields; cbn [early negb] in *);
      try (split; [exact Hp1|exact Hp2]); try (constructor; unfold quiet, started; fields; rewrite ?Hp2; done).
    all: try (split; [exact Hp1|reflexivity]).
  - destruct (step_others x s s' H) as (Ho & _). destruct (Ho Ex) as (E1 & _ & E2). unfold phase in *. rewrite E1.
    assert (Hq : session_at s <> SStart -> quiet s = true -> quiet s' = true) by (intros H1 H2; by destruct (quiet_step x s s' Hw H1 H2 H)).
    destruct (session_at s) as [| | | | | | | | | | | | | | | | | | | |l|] eqn:E.
    21: { inversion Hp; subst; constructor; auto. }
    21: { destruct Hp. split; auto. }
    all: destruct Hp as [Hp1 Hp2]; split; [by rewrite E2|by rewrite (started_other x s s' H Ex)].
Qed.
Lemma shared_step x s s' :
  wf s -> step x s = Some s' ->
  (forall id, active s' = Some id -> id < length (contexts s')) /\
  (forall id, advisory_context s' = Some id -> id < length (contexts s')).
Proof.
  intros Hw H. pose proof (gains_length _ _ (step_gains x s s' H)) as Hg. pose proof (wf_active s Hw) as H1. pose proof (wf_advisory_context s Hw) as H2.
  destruct (step_others x s s' H) as (Ho & _ & Ha). split; intros id E.
  - destruct (decide (x.1 = SessionThread)) as [Ex|Ex].
    + own_step H Ex. pose proof (wf_session s Hw) as Hs.
      step_cases H; fields; try (specialize (H1 id E); lia). injection E as <-. by apply (Hs _ false).
    + destruct (Ho Ex) as (_ & E1 & _). rewrite E1 in E. specialize (H1 id E). lia.
  - destruct (decide (x.1 = AdvisoryThread)) as [Ex|Ex].
    + own_step H Ex. pose proof (wf_advisory s Hw) as Hs.
      step_cases H; fields; try discriminate E; try (specialize (H2 id E); lia). injection E as <-. by apply deadline_known, (Hs _ false).
    + destruct (Ha Ex) as (E1 & _). rewrite E1 in E. specialize (H2 id E). lia.
Qed.
Lemma wf_step x s s' : wf s -> step x s = Some s' -> wf s'.
Proof.
  intros Hw H. pose proof (step_gains x s s' H) as Hg. destruct (step_others x s s' H) as (Ho & Hv & _).
  split; [by apply (mutex_step x s)|by apply (session_fields_step x s)|by apply (advisory_fields_step x s)| | |by apply (shared_step x s s' Hw H)..|by apply (phase_step x s)|].
  - intros id E. destruct (decide (x.1 = SessionThread)) as [Ex|Ex].
    + own_step H Ex. pose proof (wf_session s Hw) as Hs.
      step_cases H; fields; try discriminate E. injection E as <-. apply set_deadline_sets. by apply (Hs _ true).
    + destruct (Ho Ex) as (E1 & _). rewrite E1 in E. by apply (gains_deadline id s s' Hg), wf_get.
  - intros id E. destruct (decide (x.1 = SessionThread)) as [Ex|Ex].
    + own_step H Ex. pose proof (wf_session s Hw) as Hs.
      step_cases H; fields; try discriminate E. injection E as <-. apply cancel_cancels. by apply (Hs _ true).
    + destruct (Ho Ex) as (E1 & _). rewrite E1 in E. by apply (gains_cancelled id s s' Hg), wf_finish.
  - intros E. destruct (decide (x.1 = WatcherThread)) as [Ex|Ex].
    + pose proof (finished_step x s s' H) as Hf. apply Hf. own_step H Ex. clear Hf.
      step_cases H; fields; try discriminate E; done.
    + apply (finished_step x s s' H), (wf_watcher s Hw). by destruct (Hv Ex) as [<- _].
Qed.
Lemma exec_wf l s s' : wf s -> exec l s = Some s' -> wf s'.
Proof.
  revert s. induction l as [|x l IH]; intros s Hw; cbn [exec]; [by intros [= <-]|].
  intros (s1 & H1 & H)%bind_Some. apply (IH s1); [by apply (wf_step x s)|done].
Qed.
Lemma reachable_wf s : reachable s -> wf s.
Proof. intros (l & H). by apply (exec_wf l first_state), H; apply wf_initial. Qed.

(** ** An invalid session's calls *)

(** The stored contexts are cancelled, or their thread is about to look at [invalid]. *)
Definition active_covered (s : State) : Prop :=
  forall id, active s = Some id -> is_cancelled id s = true \/ exists p, session_at s = SCheck p id.
Definition advisory_covered (s : State) : Prop :=
  forall id, advisory_context s = Some id -> is_cancelled id s = true \/ exists u, advisory_at s = ACheck u id.
Definition settled (s : State) : Prop := invalid s = true /\ active_covered s /\ advisory_covered s.
Lemma invalid_step x s s' : step x s = Some s' -> invalid s = true -> invalid s' = true.
Proof.
  intros H E. destruct (decide (x.1 = WatcherThread)) as [Ex|Ex].
  - own_step H Ex. by step_cases H; fields.
  - destruct (step_others x s s' H) as (_ & Hx & _). by destruct (Hx Ex) as [_ ->].
Qed.
Lemma active_covered_step x s s' : wf s -> step x s = Some s' -> invalid s = true -> active_covered s -> active_covered s'.
Proof.
  intros Hw H Hi Hc id E. pose proof (step_gains x s s' H) as Hg. destruct (step_others x s s' H) as (Ho & _).
  destruct (decide (x.1 = SessionThread)) as [Ex|Ex].
  - pose proof (wf_session s Hw) as Hs. own_step H Ex.
    step_cases H; fields; try (destruct (Hc id E) as [X|[? X]]; [left; by apply (gains_cancelled id s _ Hg)|congruence]).
    + injection E as <-. right. by eexists.
    + left. destruct (Hs _ _ eq_refl) as [Hl Ha]. specialize (Ha eq_refl).
      replace id0 with id in * by (cbn in E; congruence). by apply cancel_cancels.
  - destruct (Ho Ex) as (E1 & E2 & _). rewrite E2 in E. rewrite E1.
    destruct (Hc id E) as [X|X]; [left; by apply (gains_cancelled id s _ Hg)|by right].
Qed.
Lemma advisory_covered_step x s s' : wf s -> step x s = Some s' -> invalid s = true -> advisory_covered s -> advisory_covered s'.
Proof.
  intros Hw H Hi Hc id E. pose proof (step_gains x s s' H) as Hg. destruct (step_others x s s' H) as (_ & _ & Ha).
  destruct (decide (x.1 = AdvisoryThread)) as [Ex|Ex].
  - pose proof (wf_advisory s Hw) as Hs. own_step H Ex.
    step_cases H; fields; try discriminate E; try (destruct (Hc id E) as [X|[? X]]; [left; by apply (gains_cancelled id s _ Hg)|congruence]).
    + injection E as <-. right. by eexists.
    + left. destruct (Hs _ _ eq_refl) as [Hl Hx]. specialize (Hx eq_refl).
      replace id0 with id in * by (cbn in E; congruence). by apply cancel_cancels, deadline_known.
  - destruct (Ha Ex) as (E1 & E2). rewrite E1 in E.
    destruct (Hc id E) as [X|[u X]]; [left; by apply (gains_cancelled id s _ Hg)|].
    right. exists u. destruct E2 as [->|[[_ X'] _]]; [done|]. pose proof (wf_phase s Hw) as Hp. unfold phase, started in Hp.
    rewrite X', X in Hp. by destruct Hp.
Qed.
Lemma settled_step x s s' : wf s -> step x s = Some s' -> settled s -> settled s'.
Proof.
  intros Hw H (H1 & H2 & H3). split; [by apply (invalid_step x s)|]. split; [by apply (active_covered_step x s)|by apply (advisory_covered_step x s)].
Qed.
(** Once the session is invalid its calls are covered, but for what the watcher has still to do. *)
Definition window (s : State) : Prop :=
  (in_window s = true -> invalid s = true) /\
  (invalid s = true ->
    match watcher_at s with WLock _ | WCancelActive _ => True | _ => active_covered s end /\
    (in_window s = false -> advisory_covered s)).
Lemma window_settled s : window s -> invalid s = true -> in_window s = false -> settled s.
Proof.
  intros [_ H] Hi Hw. destruct (H Hi) as [H1 H2]. split; [done|]. split; [|auto].
  unfold in_window in Hw. by destruct (watcher_at s).
Qed.
Lemma settled_window s : settled s -> window s.
Proof. intros (H1 & H2 & H3). split; [done|]. intros _. split; [by destruct (watcher_at s)|done]. Qed.
Lemma window_step x s s' : wf s -> step x s = Some s' -> window s -> window s'.
Proof.
  intros Hw H Hs. destruct (invalid s) eqn:Hi.
  - assert (Ha := active_covered_step x s s' Hw H Hi). assert (Hv := advisory_covered_step x s s' Hw H Hi).
    split; [intros _; by apply (invalid_step x s)|]. intros _. destruct Hs as [_ Hs]. destruct (Hs Hi) as [H1 H2]. clear Hs.
    destruct (decide (x.1 = WatcherThread)) as [Ex|Ex].
    + pose proof (wf_active s Hw) as Hra. pose proof (wf_advisory_context s Hw) as Hrv.
      own_step H Ex. unfold in_window in *.
      step_cases H; fields; split; auto; try (intros [=]).
      * intros id E. left. cbn in E. replace n with id in * by congruence. apply cancel_cancels; auto.
      * intros id E. cbn in E. congruence.
      * intros id E. left. cbn in E. replace n with id in * by congruence. apply cancel_cancels; auto.
      * intros id E. cbn in E. congruence.
    + destruct (step_others x s s' H) as (_ & Hx & _). destruct (Hx Ex) as [E _]. unfold in_window in *. rewrite E in *.
      split; [by destruct (watcher_at s); auto|auto].
  - assert (Hn : in_window s = false). { destruct (in_window s) eqn:E; [|done]. destruct Hs as [Hs _]. specialize (Hs E). congruence. }
    destruct (decide (x.1 = WatcherThread)) as [Ex|Ex].
    + own_step H Ex. unfold window, in_window in *. clear Hs. step_cases H; fields; try discriminate Hn;
        try (split; [done|congruence]). by split.
    + destruct (step_others x s s' H) as (_ & Hx & _). destruct (Hx Ex) as [E1 E2]. unfold window, in_window in *. rewrite E1, E2.
      split; congruence.
Qed.
Lemma exec_keeps (P : State -> Prop) l s s' :
  (forall x s s', wf s -> step x s = Some s' -> P s -> P s') -> wf s -> P s -> exec l s = Some s' -> P s'.
Proof.
  intros HP. revert s. induction l as [|x l IH]; intros s Hw Hs; cbn [exec]; [by intros [= <-]|].
  intros (s1 & H1 & H)%bind_Some. by apply (IH s1); [apply (wf_step x s)|apply (HP x s)|].
Qed.
Lemma reachable_window s : reachable s -> window s.
Proof. intros (l & H). apply (exec_keeps window l first_state s); [apply window_step|apply wf_initial|by split|done]. Qed.
Lemma settled_cancelled t id s : wf s -> settled s -> in_flight t s = Some id -> is_cancelled id s = true.
Proof.
  intros Hw (_ & H1 & H2) H. pose proof (wf_session s Hw) as Hs. pose proof (wf_advisory s Hw) as Ha.
  destruct t; cbn [in_flight] in H; [|done|].
  - assert (E : session_id (session_at s) = Some (id, true)) by (by destruct (session_at s); simplify_eq).
    destruct (Hs _ _ E) as [_ X]. destruct (H1 id (X eq_refl)) as [|[p Ep]]; [done|]. by rewrite Ep in H.
  - assert (E : advisory_id (advisory_at s) = Some (id, true)) by (by destruct (advisory_at s); simplify_eq).
    destruct (Ha _ _ E) as [_ X]. destruct (H2 id (X eq_refl)) as [|[p Ep]]; [done|]. by rewrite Ep in H.
Qed.

(** ** From an interruption to the calls' cancellation *)

Lemma cause_step x s s' : step x s = Some s' -> cancelled (cause s) = true -> cancelled (cause s') = true.
Proof.
  assert (Ho : forall a b, cancelled a = true -> cancelled (interruption_observe a b) = true) by (by intros [] []).
  destruct x as [[] c]; intros [_ H]%step_inv E; cbn [fst snd] in H; step_cases H;
    solve [exact E|exact (Ho _ _ E)|assumption|discriminate E].
Qed.
(** How many steps the watcher is from having cancelled the calls of a session whose cause is
    known. *)
Definition distance (pc : WatcherAt) : nat :=
  match pc with
  | WEnded => 0 | WCancelAdvisory _ => 1 | WCancelActive _ => 2 | WLock _ => 3 | WInvalidate _ => 4 | WObserve => 5
  | WCancelled => 5 | WInspect => 6 | WStopping => 7 | WFinished => 8 | WSleep => 9 | WExpire => 10
  | WUnlock caught => if caught then 10 else 11
  end.
Lemma watcher_closer c s s' :
  wf s -> window s -> cancelled (cause s) = true -> step (WatcherThread, c) s = Some s' ->
  settled s' \/ distance (watcher_at s') < distance (watcher_at s).
Proof.
  intros Hw Hd Hc H. pose proof (window_step _ _ _ Hw H Hd) as Hd'. pose proof (invalid_step _ _ _ H) as Hi.
  destruct Hd as [Hd _]. unfold in_window in Hd.
  apply step_inv in H as [_ H]. cbn [fst snd] in H. step_cases H; fields; cbn [distance]; try (right; cbn; lia); try congruence.
  all: left; apply window_settled; auto.
Qed.
Lemma interrupted_settles l s s' :
  wf s -> window s -> cancelled (cause s) = true -> exec l s = Some s' -> distance (watcher_at s) <= steps_of WatcherThread l ->
  settled s' \/ watcher_at s' = WEnded.
Proof.
  assert (Hset : forall l s, wf s -> settled s -> exec l s = Some s' -> settled s').
  { intros. eapply (exec_keeps settled); [apply settled_step|done..]. }
  revert s. induction l as [|[t c] l IH]; intros s Hw Hd Hc; cbn [exec]; intros H Hn.
  - injection H as <-. right. unfold steps_of in Hn. cbn in Hn. by destruct (watcher_at s) as [| | | | | | | |[]| | | |]; cbn in Hn; try lia.
  - apply bind_Some in H as (s1 & H1 & H). pose proof (wf_step _ _ _ Hw H1) as Hw1. pose proof (window_step _ _ _ Hw H1 Hd) as Hd1.
    pose proof (cause_step _ _ _ H1 Hc) as Hc1. unfold steps_of in *. rewrite filter_cons in Hn. cbn [fst] in Hn.
    destruct (decide (t = WatcherThread)) as [->|Ht].
    + cbn [length] in Hn. destruct (watcher_closer c s s1 Hw Hd Hc H1) as [Hs|Hlt]; [left; by apply (Hset l s1)|].
      apply (IH s1); [done..|lia].
    + destruct (step_others _ _ _ H1) as (_ & Hx & _). destruct (Hx Ht) as [E _]. apply (IH s1); [done..|by rewrite E].
Qed.
(** After the watcher's end only the advisory thread may be in a call, one with a deadline. *)
Lemma ended_calls t id s : wf s -> watcher_at s = WEnded -> in_flight t s = Some id -> t = AdvisoryThread /\ finished s = true /\ has_deadline id s = true.
Proof.
  intros Hw E H. pose proof (wf_watcher s Hw E) as Hf. destruct t; cbn [in_flight] in H; [exfalso|done|].
  - pose proof (wf_phase s Hw) as Hp. unfold phase in Hp. rewrite Hf in Hp. by destruct (session_at s); destruct Hp.
  - split; [done|]. split; [done|]. apply (wf_advisory s Hw id true). by destruct (advisory_at s); simplify_eq.
Qed.

(** C5: an interrupted session's calls are cancelled, wherever its threads stand.  From a reachable
    state in which the watcher, or the session's thread itself, has observed that the token was
    replaced, that an input is missing or that the process stops, take any interleaving of the
    threads' steps in which the watcher makes eleven of its own: then every call that is in flight
    has a cancelled context, also one whose context was made after the watcher had looked.  Should
    the watcher have ended before, only the advisory thread's call remains, which has a deadline. *)
Theorem interruption_cancels l s s' t id :
  reachable s -> cancelled (cause s) = true -> exec l s = Some s' ->
  11 <= steps_of WatcherThread l \/ watcher_at s' = WEnded ->
  in_flight t s' = Some id ->
  is_cancelled id s' = true \/ (t = AdvisoryThread /\ finished s' = true /\ has_deadline id s' = true).
Proof.
  intros Hr Hc H Hn Hf. pose proof (reachable_wf s Hr) as Hw. pose proof (exec_wf l s s' Hw H) as Hw'.
  assert (X : settled s' \/ watcher_at s' = WEnded).
  { destruct Hn as [Hn|Hn]; [|by right]. apply (interrupted_settles l s); [done|by apply reachable_window|done|done|].
    assert (distance (watcher_at s) <= 11) by (destruct (watcher_at s) as [| | | | | | | |[]| | | |]; cbn; lia). lia. }
  destruct X as [X|X]; [left; by apply (settled_cancelled t)|right; by apply (ended_calls t)].
Qed.

(** ** What a session may be renewed for *)

Lemma renewing_step x s s' : step x s = Some s' -> renewing s = false -> renewing s' = true -> cause s = TokenReplaced.
Proof.
  assert (Ht : forall c s, renews c s = true -> cause s = TokenReplaced).
  { intros c a [[_ H]%andb_true_iff _]%andb_true_iff. by apply bool_decide_eq_true in H. }
  destruct x as [[] c]; intros [_ H]%step_inv E E'; cbn [fst snd] in H; step_cases H; fields; try congruence; try (by apply (Ht c)); cbn in E'; congruence.
Qed.
Lemma unavailable_step x s s' : step x s = Some s' -> cause s = Unavailable -> cause s' = Unavailable.
Proof.
  destruct x as [[] c]; intros [_ H]%step_inv E; cbn [fst snd] in H; step_cases H; cbn; rewrite ?E; first [reflexivity|assumption|by destruct (change c)|idtac].
Qed.
(** An unavailability that any thread has observed is not forgotten: whatever is found later, in
    whatever interleaving, the session does not ask to authenticate again. *)
Theorem unavailable_sticky l s s' :
  cause s = Unavailable -> renewing s = false -> exec l s = Some s' -> renewing s' = false.
Proof.
  revert s. induction l as [|x l IH]; intros s Hc Hr; cbn [exec]; [by intros [= <-]|].
  intros (s1 & H1 & H)%bind_Some. apply (IH s1); [by apply (unavailable_step x s)| |done].
  destruct (renewing s1) eqn:E; [|done]. pose proof (renewing_step x s s1 H1 Hr E). congruence.
Qed.

(** ** Progress *)

Lemma unblocked_steps t c s : terminated s = false -> blocked t s = false -> is_Some (step (t, c) s).
Proof.
  unfold step, blocked. intros ->. cbn [fst snd]. intros [_ H]%orb_false_iff.
  assert (Hl : waits_mutex s = false -> forall t', is_Some (lock t' s)).
  { unfold waits_mutex, lock. intros Hb%bool_decide_eq_false t'. destruct (context_mutex s); [|by eexists]. by destruct Hb. }
  destruct t; [unfold session_step|unfold watcher_step|unfold advisory_step];
    repeat match goal with |- context [match ?x with _ => _ end] => destruct x eqn:? end;
    try discriminate H; try (by eexists); try (apply fmap_is_Some; auto).
  all: unfold destruct_step; destruct d; cbn in H; rewrite ?negb_false_iff in H; rewrite ?H; by eexists.
Qed.
(** The holder of the mutex does not wait. *)
Lemma holder_unblocked t s : wf s -> context_mutex s = Some t -> blocked t s = false.
Proof.
  intros Hw E%(wf_mutex s Hw). unfold blocked, waits_call. destruct t; cbn in *;
    [by destruct (session_at s)|by destruct (watcher_at s)|by destruct (advisory_at s)].
Qed.
Lemma mutex_progress s : wf s -> waits_mutex s = true -> exists t, context_mutex s = Some t /\ blocked t s = false.
Proof.
  intros Hw Hm%bool_decide_eq_true. destruct (context_mutex s) as [t|] eqn:E; [|done]. exists t. split; [done|by apply holder_unblocked].
Qed.
(** The advisory thread waits for nothing but the mutex: its calls have deadlines. *)
Lemma advisory_progress s : wf s -> quiet s = false -> exists t, blocked t s = false /\ (t = AdvisoryThread \/ context_mutex s = Some t).
Proof.
  intros Hw Hq. destruct (blocked AdvisoryThread s) eqn:E; [|by exists AdvisoryThread; auto].
  assert (Hc : waits_call AdvisoryThread s = false).
  { unfold waits_call, in_flight. destruct (advisory_at s) eqn:Ea; try done. apply negb_false_iff, orb_true_iff. right.
    apply (wf_advisory s Hw id true). by rewrite Ea. }
  assert (Hm : waits_mutex s = true).
  { unfold blocked in E. rewrite Hc in E. unfold quiet, started, advisory_over in Hq. by destruct (advisory_at s). }
  destruct (mutex_progress s Hw Hm) as (t & Ht & Hb). exists t. auto.
Qed.
Lemma watcher_progress s : wf s -> watcher_at s <> WEnded -> exists t, blocked t s = false /\ (t = WatcherThread \/ context_mutex s = Some t).
Proof.
  intros Hw Hn. destruct (blocked WatcherThread s) eqn:E; [|by exists WatcherThread; auto].
  assert (Hm : waits_mutex s = true) by (unfold blocked in E; cbn in E; by destruct (watcher_at s)).
  destruct (mutex_progress s Hw Hm) as (t & Ht & Hb). exists t. auto.
Qed.
(** In a session whose calls are covered, or that is unwinding, some thread goes on until all have
    ended; before the unwinding it is not only the watcher. *)
Lemma session_progress s :
  wf s -> settled s \/ finished s = true ->
  session_at s = SEnded \/
  exists t, blocked t s = false /\ (t <> WatcherThread \/ context_mutex s = Some WatcherThread \/ finished s = true).
Proof.
  intros Hw Hs. destruct (blocked SessionThread s) eqn:E; [|by right; exists SessionThread; auto].
  assert (Hc : waits_call SessionThread s = false).
  { unfold waits_call. destruct (in_flight SessionThread s) as [id|] eqn:Ef; [|done]. apply negb_false_iff, orb_true_iff. left.
    destruct Hs as [Hs|Hf]; [by apply (settled_cancelled SessionThread)|].
    pose proof (wf_phase s Hw) as Hp. unfold phase in Hp. cbn in Ef. rewrite Hf in Hp. by destruct (session_at s); destruct Hp. }
  assert (Hrest : forall t, blocked t s = false -> context_mutex s = Some t ->
    t <> WatcherThread \/ context_mutex s = Some WatcherThread \/ finished s = true) by (intros []; auto).
  pose proof (wf_phase s Hw) as Hp. unfold blocked in E. rewrite Hc in E. cbn [orb] in E. unfold phase in Hp.
  destruct (session_at s) as [|p id| | | | | | | | | | | | | | | | | | |l|] eqn:Es; try discriminate E; [|right|by left].
  - right. destruct (mutex_progress s Hw E) as (t & Ht & Hb). exists t. auto.
  - destruct l as [|[| | |] l]; try discriminate E; apply negb_true_iff in E; inversion Hp; subst.
    + destruct (advisory_progress s Hw) as (t & Ht & X); [unfold quiet; by rewrite E; match goal with Y : started s = true |- _ => rewrite Y end|].
      exists t. auto.
    + destruct (watcher_progress s Hw) as (t & Ht & X); [unfold watcher_over in E; intros Y; by rewrite Y in E|]. exists t. auto.
Qed.

(** ** Termination *)

(** How many steps a thread has before it, where [invalid] is set. *)
Definition session_rank (pc : SessionAt) : nat :=
  match pc with
  | SMake ForGet => 28 | SLock ForGet _ => 27 | SStore ForGet _ => 26 | SCheck ForGet _ => 25 | SUnlock ForGet _ => 24
  | SDeadline _ => 23 | SGet _ => 22 | SGetFailed => 21 | SGetOutcome => 20 | SVerify => 21 | SStart => 20
  | SMake ForStream => 19 | SLock ForStream _ => 18 | SStore ForStream _ => 17 | SCheck ForStream _ => 16 | SUnlock ForStream _ => 15
  | SSubscribe _ => 14 | SHandle _ => 14 | SRead _ => 13 | SStopping _ => 12 | SInvalid _ => 11 | SCancel _ => 10 | SFinish _ => 9 | SObserve _ => 8 | SOutcome _ => 7
  | SUnwind l => S (length l) | SEnded => 0
  end.
(** [over] and [other] are the ranks of the two tests of the loop's condition. *)
Definition advisory_rank (over other : nat) (pc : AdvisoryAt) : nat :=
  match pc with
  | ANone => over | AFinished => over | AInvalid => other | AEnded => 0 | ASleep => 3 | ACaught => 4
  | APublished => 5 | AResetUnlock ReadinessUpdate => 6 | AReset ReadinessUpdate => 7 | AResetLock ReadinessUpdate => 8
  | ASet ReadinessUpdate _ => 9 | AUnlock ReadinessUpdate _ => 10 | ACheck ReadinessUpdate _ => 11 | AStore ReadinessUpdate _ => 12
  | ALock ReadinessUpdate _ => 13 | AMake ReadinessUpdate => 14 | AReadiness => 15
  | AResetUnlock RequestUpdate => 16 | AReset RequestUpdate => 17 | AResetLock RequestUpdate => 18 | ARequested => 19
  | ASet RequestUpdate _ => 20 | AUnlock RequestUpdate _ => 21 | ACheck RequestUpdate _ => 22 | AStore RequestUpdate _ => 23
  | ALock RequestUpdate _ => 24 | AMake RequestUpdate => 25 | ANext => 26
  end.
(** The same for the watcher, where [finished] is set. *)
Definition watcher_rank (pc : WatcherAt) : nat :=
  match pc with
  | WEnded => 0 | WFinished => 1 | WSleep => 2
  | WUnlock true => 3 | WCancelAdvisory true => 4 | WCancelActive true => 5 | WLock true => 6 | WInvalidate true => 7 | WObserve => 8 | WExpire => 9
  | WUnlock false => 10 | WCancelAdvisory false => 11 | WCancelActive false => 12 | WLock false => 13 | WInvalidate false => 14
  | WCancelled => 15 | WInspect => 16 | WStopping => 17
  end.
Definition invalid_rank (s : State) : nat :=
  if terminated s then 0 else session_rank (session_at s) + advisory_rank 2 1 (advisory_at s).
Definition finished_rank (s : State) : nat :=
  if terminated s then 0 else session_rank (session_at s) + advisory_rank 1 27 (advisory_at s) + watcher_rank (watcher_at s).

(** The counters of an updated state, rewritten with what is known of them. *)
Ltac ranks := repeat match goal with E : ?p ?s = _ |- context [?p ?s] => rewrite E end.
(** Compares the ranks before and after a step with cases [H], the state's [terminated] being [Ht]. *)
Ltac compare_ranks Ht :=
  repeat match goal with p : Purpose |- _ => destruct p | u : Update |- _ => destruct u | b : bool |- _ => destruct b end;
  cbn -[Nat.add advisory_rank session_rank watcher_rank]; rewrite ?Ht; ranks; cbn -[Nat.add]; try lia; congruence.
Lemma starts_once s : wf s -> session_at s = SStart -> advisory_at s = ANone.
Proof.
  intros Hw E. pose proof (wf_phase s Hw) as Hp. unfold phase, started in Hp. rewrite E in Hp. by destruct Hp as [_ Hp]; destruct (advisory_at s).
Qed.
Lemma invalid_descends x s s' :
  wf s -> step x s = Some s' -> invalid s = true -> x.1 <> WatcherThread -> invalid_rank s' < invalid_rank s.
Proof.
  intros Hw H Hi Hx. pose proof (starts_once s Hw) as Ha. unfold invalid_rank.
  destruct x as [[] c]; apply step_inv in H as [Ht H]; cbn [fst snd] in *; [|done|]; rewrite Ht; step_cases H;
    try (specialize (Ha eq_refl)); compare_ranks Ht.
Qed.
Lemma finished_descends x s s' : wf s -> step x s = Some s' -> finished s = true -> finished_rank s' < finished_rank s.
Proof.
  intros Hw H Hf. pose proof (wf_phase s Hw) as Hp. unfold phase in Hp. rewrite Hf in Hp. unfold finished_rank.
  destruct x as [[] c]; apply step_inv in H as [Ht H]; cbn [fst snd] in *; rewrite Ht; step_cases H; try (by destruct Hp);
    try match goal with X : finished s || _ = false |- _ => by rewrite Hf in X end; compare_ranks Ht.
Qed.
Lemma watcher_keeps x s s' : step x s = Some s' -> x.1 = WatcherThread -> invalid_rank s' <= invalid_rank s.
Proof.
  intros H Ex. destruct (step_others x s s' H) as (Ho & _ & Ha). rewrite Ex in *. destruct (Ho ltac:(done)) as (E1 & _).
  destruct (Ha ltac:(done)) as (_ & [E2|[[? _] _]]); [|done]. apply step_inv in H as [Ht _].
  unfold invalid_rank. rewrite Ht, E1, E2. destruct (terminated s'); lia.
Qed.
(** The steps an execution makes of the kind [f], against a rank that these lower and no step raises. *)
Lemma exec_bounded (P : State -> Prop) (rank : State -> nat) (f : Thread * Choice -> Prop) {Hdec : forall x, Decision (f x)} l s s' :
  (forall x s s', wf s -> P s -> step x s = Some s' -> P s' /\ rank s' <= rank s /\ (f x -> rank s' < rank s)) ->
  wf s -> P s -> exec l s = Some s' -> length (filter f l) <= rank s.
Proof.
  intros HP. revert s. induction l as [|x l IH]; intros s Hw Hs; cbn [exec]; [intros _; cbn; lia|].
  intros (s1 & H1 & H)%bind_Some. destruct (HP x s s1 Hw Hs H1) as (Hs1 & Hle & Hlt).
  specialize (IH s1 (wf_step x s s1 Hw H1) Hs1 H). rewrite filter_cons. destruct (decide (f x)) as [Hf|Hf]; cbn [length]; [|lia].
  specialize (Hlt Hf). lia.
Qed.
Lemma not_watcher l : steps_of SessionThread l + steps_of AdvisoryThread l = length (filter (fun x : Thread * Choice => x.1 <> WatcherThread) l).
Proof.
  unfold steps_of. induction l as [|[[] c] l IH]; [done|..]; rewrite !filter_cons; cbn [fst];
    repeat case_decide; try congruence; cbn [length]; lia.
Qed.

(** The session's thread ends last. *)
Lemma ended_last s : wf s -> session_at s = SEnded -> all_ended s = true.
Proof.
  intros Hw E. pose proof (wf_phase s Hw) as Hp. unfold phase in Hp. rewrite E in Hp. destruct Hp as [Hq Hwa].
  unfold all_ended. rewrite E, Hwa. unfold quiet, started, advisory_over in Hq. by destruct (advisory_at s).
Qed.

(** C6: an invalid session ends.  From a reachable state in which the session is invalid and the
    watcher has made its round of cancellations, its two working threads together make at most 54
    steps, whatever the broker, the runtime and the watcher do meanwhile; and as long as the
    session's thread has not ended and the process is not terminated nothing is stuck: one of the two goes on, or the watcher does
    while it holds the mutex or once [finished] is set.  No wait here is for a call that nothing
    will end. *)
Theorem session_ends l s s' :
  reachable s -> invalid s = true -> in_window s = false -> exec l s = Some s' ->
  steps_of SessionThread l + steps_of AdvisoryThread l <= 54 /\
  (terminated s' = true \/ session_at s' = SEnded \/
   exists t, blocked t s' = false /\ (forall c, is_Some (step (t, c) s')) /\ (t <> WatcherThread \/ context_mutex s' = Some WatcherThread \/ finished s' = true)).
Proof.
  intros Hr Hi Hn H. pose proof (reachable_wf s Hr) as Hw. pose proof (window_settled s (reachable_window s Hr) Hi Hn) as Hs. split.
  - rewrite not_watcher. transitivity (invalid_rank s).
    + apply (exec_bounded (fun s => invalid s = true) invalid_rank _ l s s'); [|done..]. intros x a b Ha Hia Hx.
      split; [by apply (invalid_step x a)|]. destruct (decide (x.1 = WatcherThread)) as [E|E]; [split; [by apply (watcher_keeps x)|done]|].
      pose proof (invalid_descends x a b Ha Hx Hia E). split; [lia|done].
    + pose proof (wf_phase s Hw) as Hp. unfold phase in Hp. unfold invalid_rank. destruct (terminated s); [lia|].
      assert (advisory_rank 2 1 (advisory_at s) <= 26) by (destruct (advisory_at s) as [| | | |[]|[]|[]|[]|[]|[]| |[]|[]|[]| | | | |]; cbn; lia).
      assert (session_rank (session_at s) <= 28); [|lia].
      destruct (session_at s) as [[]|[]|[]|[]|[]| | | | | | | | | | | | | | | |l0|]; cbn; try lia. inversion Hp; cbn; lia.
  - destruct (terminated s') eqn:Et; [by left|right].
    destruct (session_progress s') as [E|(t & Hb & X)];
      [by apply (exec_wf l s)|left; by apply (exec_keeps settled l s s' settled_step)|by left|].
    right. exists t. split; [done|]. split; [|done]. intros c. by apply unblocked_steps.
Qed.

(** C7: once a session unwinds, all its threads end, in whatever order they run and whether or not
    the session is invalid.  From a reachable state in which [finished] is set no interleaving has
    more than 50 steps, and at its end all three threads have ended, or some thread does not wait
    and has a step to make; the session's thread ends only when the others have.  So both joins
    return, and no thread outlives [subscribe].  (The advisory thread's last handler may throw, and
    the process is then terminated.) *)
Theorem unwinding_ends l s s' :
  reachable s -> finished s = true -> exec l s = Some s' ->
  length l <= 50 /\ (session_at s' = SEnded -> all_ended s' = true) /\
  (terminated s' = true \/ all_ended s' = true \/ exists t, blocked t s' = false /\ forall c, is_Some (step (t, c) s')).
Proof.
  intros Hr Hf H. pose proof (reachable_wf s Hr) as Hw. pose proof (exec_wf l s s' Hw H) as Hw'. split.
  - transitivity (finished_rank s).
    + replace (length l) with (length (filter (fun _ : Thread * Choice => True) l)).
      * apply (exec_bounded (fun s => finished s = true) finished_rank _ l s s'); [|done..]. intros x a b Ha Hfa Hx.
        pose proof (finished_descends x a b Ha Hx Hfa). split; [by apply (finished_step x a)|]. split; [lia|done].
      * f_equal. clear. induction l as [|x l IH]; [done|]. rewrite filter_cons, decide_True by done. by f_equal.
    + pose proof (wf_phase s Hw) as Hp. unfold phase in Hp. rewrite Hf in Hp. unfold finished_rank. destruct (terminated s); [lia|].
      assert (advisory_rank 1 27 (advisory_at s) <= 27) by (destruct (advisory_at s) as [| | | |[]|[]|[]|[]|[]|[]| |[]|[]|[]| | | | |]; cbn; lia).
      assert (watcher_rank (watcher_at s) <= 17) by (destruct (watcher_at s) as [| | | |[]|[]|[]|[]|[]| | | |]; cbn; lia).
      assert (session_rank (session_at s) <= 6); [|lia].
      destruct (session_at s) as [| | | | | | | | | | | | | | | | | | | |l0|]; try by destruct Hp. all: cbn; try lia. inversion Hp; cbn; lia.
  - split; [by apply ended_last|]. destruct (terminated s') eqn:Et; [by left|right].
    assert (Hf' : finished s' = true).
    { by apply (exec_keeps (fun s => finished s = true) l s s' (fun x a b _ => finished_step x a b)). }
    destruct (session_progress s' Hw' (or_intror Hf')) as [E|(t & Hb & _)].
    + left. by apply ended_last.
    + right. exists t. split; [done|]. intros c. by apply unblocked_steps.
Qed.

(** ** A session *)

Definition smooth : Choice := MkChoice true true false NoChange.
Definition replaced : Choice := MkChoice true true false TokenReplaced.
Definition stream_ends : Choice := MkChoice true false false NoChange.
Definition times (n : nat) (t : Thread) (c : Choice) : list (Thread * Choice) := repeat (t, c) n.
(** The session reads its stream, the advisory thread is in its first call, and the watcher has
    found another token. *)
Definition to_replacement : list (Thread * Choice) :=
  times 15 SessionThread smooth ++ times 8 AdvisoryThread smooth ++ times 2 WatcherThread smooth ++ [(WatcherThread, replaced)].
Definition at_replacement : State := default first_state (exec to_replacement first_state).
Lemma at_replacement_reachable : reachable at_replacement.
Proof. exists to_replacement. vm_compute. reflexivity. Qed.
(** The watcher goes on; then the stream ends and the threads unwind. *)
Definition cancelling : list (Thread * Choice) := times 11 WatcherThread smooth.
Definition ending : list (Thread * Choice) :=
  times 7 SessionThread stream_ends ++ times 6 AdvisoryThread stream_ends.
Definition at_end : State := default first_state (exec (cancelling ++ ending) at_replacement).
Definition joining : list (Thread * Choice) :=
  times 2 AdvisoryThread stream_ends ++ times 2 SessionThread smooth ++ times 9 WatcherThread smooth ++ times 2 SessionThread smooth.
Lemma at_cancelled_reachable : reachable (default first_state (exec cancelling at_replacement)).
Proof. exists (to_replacement ++ cancelling). vm_compute. reflexivity. Qed.
Lemma at_end_reachable : reachable at_end.
Proof. exists (to_replacement ++ cancelling ++ ending). vm_compute. reflexivity. Qed.
Lemma interruption_cancels_witness :
  let s := default first_state (exec cancelling at_replacement) in
  (in_flight SessionThread s, in_flight AdvisoryThread s) = (Some 1, Some 2) /\
  is_cancelled 1 at_replacement = false /\
  (is_cancelled 1 s = true \/ (SessionThread = AdvisoryThread /\ finished s = true /\ has_deadline 1 s = true)).
Proof.
  split; [vm_compute; reflexivity|]. split; [vm_compute; reflexivity|].
  apply (interruption_cancels cancelling at_replacement _ SessionThread 1 at_replacement_reachable); [vm_compute; reflexivity..| |vm_compute; reflexivity].
  left. vm_compute. lia.
Defined.
Lemma session_ends_witness :
  let s := default first_state (exec cancelling at_replacement) in
  invalid s = true /\ exec ending s = Some at_end /\
  steps_of SessionThread ending + steps_of AdvisoryThread ending <= 54 /\
  (terminated at_end = true \/ session_at at_end = SEnded \/
   exists t, blocked t at_end = false /\ (forall c, is_Some (step (t, c) at_end)) /\ (t <> WatcherThread \/ context_mutex at_end = Some WatcherThread \/ finished at_end = true)).
Proof.
  split; [vm_compute; reflexivity|]. split; [vm_compute; reflexivity|].
  apply (session_ends ending (default first_state (exec cancelling at_replacement)) at_end at_cancelled_reachable); vm_compute; reflexivity.
Defined.
Lemma unwinding_ends_witness :
  let s := default first_state (exec joining at_end) in
  exec joining at_end = Some s /\ all_ended s = true /\
  length joining <= 50 /\ (session_at s = SEnded -> all_ended s = true) /\
  (terminated s = true \/ all_ended s = true \/ exists t, blocked t s = false /\ forall c, is_Some (step (t, c) s)).
Proof.
  split; [vm_compute; reflexivity|]. split; [vm_compute; reflexivity|].
  apply (unwinding_ends joining at_end _ at_end_reachable); vm_compute; reflexivity.
Defined.
