(* ===== verification/Demo.v ===== *)
(** * The demonstrations (include/tire_health/runtime/demo_mock.hpp, demo_no_telemetry.hpp)

    The two runs of the service without a vehicle: which units may have them, the synthetic
    exercise, the loop that delivers its messages marked as a demonstration, and the run from the
    start of its own runtime to its end. *)
From Stdlib Require Import ZArith Lia Bool Ascii String.
From stdpp Require Import gmap strings list relations.
From S2P Require Import Prelude Chars Float64 Sha256 Json JsonFacts Time Protocol Http Identity Model Messages Store StoreFacts OutboxFacts StoreSpec Observation Service ServiceFacts ServiceSpec Ledger QueueSpec Analytics Delivery Subscription MainLoop.
Local Open Scope Z_scope.

(** [require_test], and the check at the start of [run_demo_no_telemetry]. *)
Definition require_test (m : Metadata) : res unit :=
  throw_if (negb (String.eqb (unit_role m) "VALIDATION") || negb (is_some (service_instance m)))
    (RuntimeError "DEMO_MOCK_NATIVE_TEST_ONLY").
Definition require_no_telemetry (m : Metadata) : res unit :=
  throw_if (negb (String.eqb (unit_role m) "VALIDATION")) (RuntimeError "DEMO_NO_TELEMETRY_TEST_ONLY").
Definition mock_features : Features := MkFeatures 7000 6000 5000 5500.
Definition mock_config : string := sha256_hex "DEMO_MOCK:tire-normalized-features:7000,6000,5000,5500:v1".
(** Thirty samples of nothing. *)
Definition mock_episode (uuid : string) (now : Z) : Episode :=
  MkEpisode uuid (now - 3000) now (repeat (MkFrame (repeat zero 15) 0) 30) "COMPLETE".
Definition generate (uuid : res string) (now : Z) : RT unit :=
  id ← eval uuid;
  accepted ← apply_episode mock_features (mock_episode id now) mock_config;
  _ ← raise_if (negb accepted) (RuntimeError "DEMO_MOCK_FIXTURE_INVALID");
  function_status "SERVICE_ACCESS_DENIED" now [].

(** The variables of the loop. *)
Record Mock := MkMock { next_episode : Z; next_attempt : Z; failures : Z }.
Definition mock_turn (w : World) : AM Mock unit :=
  boot ← boot_milliseconds w; d ← local;
  pending ← serve w next_message;
  match pending with
  | Some p =>
    if next_attempt d <=? boot then
      response ← attempt (posted w "demo-mock" (pending_bytes p) (fun net => post_backend net (pending_bytes p) true)) (mret no_response);
      accepted ← serve w (accept p response);
      if (accepted : bool) then set_local (fun d => MkMock (next_episode d) 0 0)
      else
        t ← boot_milliseconds w; d ← local;
        _ ← set_local (fun d => MkMock (next_episode d) (next_attempt d) (increment (failures d)));
        delay ← compute (retry_delay (failures d) zero (retry_after response));
        set_local (fun d => MkMock (next_episode d) (t + delay * 1000) (failures d))
    else mret tt
  | None =>
    if next_episode d <=? boot then
      uuid ← ask (uuid_at w); wall ← wall_milliseconds w;
      _ ← serve w (generate uuid wall);
      set_local (fun d => MkMock (boot + 30000) (next_attempt d) (failures d))
    else mret tt
  end.

(** The iterations until [stopped], and the whole run: the runtime of its own directories is
    started on the store [d] and stopped at the end. *)
Fixpoint mock_loop (w : World) (n : nat) : AM Mock unit :=
  match n with O => mret tt | S n' => _ ← mock_turn w; mock_loop w n' end.
Definition mock_run (w : World) (n : nat) : AM Mock Z := _ ← mock_loop w n; _ ← serve w stop; mret 0.
Definition run_demo_mock (w : World) (n : nat) (m : Metadata) (epoch : string) (d : machine) : machine * outcome Z :=
  match require_test m with
  | Err e => (d, Thrown e)
  | Ok _ =>
    match start m epoch d with
    | (s, Stopped) => (disk s, Stopped)
    | (s, Thrown e) => (disk s, Thrown e)
    | (s, Done _) =>
      if negb (store_ok s) then (disk s, Thrown (RuntimeError "DEMO_MOCK_STATE_INVALID"))
      else let '(a, r) := mock_run w n (MkApp s initial_log (MkMock 0 0 0) 0 []) in (disk (service a), r)
    end
  end.
(** Nothing is done until it is stopped. *)
Definition run_demo_no_telemetry (m : Metadata) : res Z := _ ← require_no_telemetry m; Ok 0.

(** ** What the demonstrations do *)

Section MockHistory.
Context (w : World) (uid : string) (Hp : polite w).
#[local] Definition Hw : lawful w := polite_lawful w Hp.
Abbreviation mock_told := (told uid mock_config).
(** An assessment of the synthetic exercise, unless its keys collide, and the status after it. *)
Lemma told_generate uuid now : mock_told (serve w (generate uuid now) : AM Mock unit).
Proof.
  intros s. unfold told_at, serve. pose proof (others_run uid _ _ (Hw (asked s) (service s))) as Ho.
  destruct (run_others _ _) as [q [u|x|]]; [..|left; exact Ho].
  all: destruct (generate uuid now q) as [q' out] eqn:Eg; cbn [fst snd]; revert Eg; unfold generate, mbind, RT_mbind, eval;
    destruct uuid as [id|e]; [|by intros [= <- <-]; left; exact Ho].
  all: destruct (decide (planned_distinct q mock_features (mock_episode id now) mock_config)) as [Hd|Hd];
    [|by right; exists q, mock_features, (mock_episode id now)].
  all: destruct (apply_episode mock_features (mock_episode id now) mock_config q) as [q1 o] eqn:Ea.
  all: pose proof (event_step uid _ (ApplyEpisode mock_features (mock_episode id now) mock_config) q q1 o (event_discard (ApplyEpisode mock_features (mock_episode id now) mock_config) _ eq_refl) Hd Ea) as H1.
  all: destruct o as [a|e|]; [|intros [= <- <-]; left; (eapply rtc_r; [exact Ho|exact H1])..].
  all: destruct (negb a); unfold raise_if, eval; cbn [throw_if]; [intros [= <- <-]; left; (eapply rtc_r; [exact Ho|exact H1])|].
  all: destruct (function_status "SERVICE_ACCESS_DENIED" now [] q1) as [q2 o2] eqn:Ef; intros [= <- <-]; left.
  all: pose proof (event_step uid _ (FunctionStatus "SERVICE_ACCESS_DENIED" now []) q1 q2 o2 (event_same (FunctionStatus "SERVICE_ACCESS_DENIED" now []) _ eq_refl) I Ef) as H2.
  all: unfold History; cbn [fst snd service set_service]; destruct o2; (eapply rtc_r; [eapply rtc_r; [exact Ho|exact H1]|exact H2]).
Qed.
(** The message a turn sends is not blocked when it is accepted: nothing else runs meanwhile. *)
Lemma told_mock_turn st (s : App Mock) : sound uid st (Up (service s)) -> told_at uid mock_config (mock_turn w) s.
Proof.
  intros Hs. unfold mock_turn. apply told_at_bind; [left; apply rtc_refl|intros boot s1 [= <- _] _].
  apply told_at_bind; [left; apply rtc_refl|intros d s2 [= <- _] _].
  apply told_at_bind; [left; by apply (runs_serve w uid Hw _ NextMessage); [apply event_discard|]|intros o s3 E3 _].
  pose proof (serve_next w uid Hp st (asked_once s) _ _ Hs E3) as Hoff. destruct o as [p|].
  - destruct (_ <=? _); [|left; apply rtc_refl].
    apply told_at_bind; [left; apply runs_attempt; [apply runs_posted|by apply runs_aside]|intros response s4 E4 _].
    assert (Es : service s4 = service s3).
    { unfold attempt, posted, compute in E4. destruct (post_backend _ _ _); by injection E4 as <- _. }
    apply told_at_bind; [left; apply (serve_accept w uid Hp); by rewrite Es|intros accepted s5 _ _].
    match goal with |- told_at _ _ ?m _ => enough (G : mock_told m) by exact (G s5) end. told_tac Hw.
  - match goal with |- told_at _ _ ?m _ => enough (G : mock_told m) by exact (G s3) end. told_tac Hw. apply told_generate.
Qed.
Lemma told_mock_loop st n (s : App Mock) : sound uid st (Up (service s)) -> told_at uid mock_config (mock_loop w n) s.
Proof.
  revert s. induction n as [|n IH]; intros s Hs; cbn [mock_loop]; [left; apply rtc_refl|].
  apply told_at_bind; [by apply (told_mock_turn st)|]. intros [] s' _ H. apply IH. exact (steps_sound _ _ _ _ H Hs).
Qed.
Lemma told_mock_run st n (s : App Mock) : sound uid st (Up (service s)) -> told_at uid mock_config (mock_run w n) s.
Proof.
  intros Hs. unfold mock_run. apply told_at_bind; [by apply (told_mock_loop st)|]. intros [] s' _ _.
  match goal with |- told_at _ _ ?m _ => enough (G : mock_told m) by exact (G s') end. told_tac Hw.
Qed.
End MockHistory.
(** C34: the demonstration keeps the runtime's contract.  On a unit that may not have it nothing is
    touched; on one that may, from a store at rest or left by a stopped process, however many
    turns there are and whatever the backend answers, the whole run is a history of the service
    from its start to its end and leaves the store sound, unless the digests of the synthetic
    assessment and its event collide. *)
Theorem demo_history w n uid st m epoch k t d :
  polite w -> unit_system_uid m = uid -> index_nonneg m -> halted uid st d ->
  let '(d', r) := run_demo_mock w n m epoch (restart k t d) in
  match require_test m with
  | Err e => d' = restart k t d /\ r = Thrown e
  | Ok _ => (rtc (step uid) (Down d) (Down d') /\ halted uid st d') \/ collision uid mock_config (Down d)
  end.
Proof.
  intros Hp Hu Hi Hd. unfold run_demo_mock. destruct (require_test m) as [[]|e]; [|done].
  assert (Hend : forall x, rtc (step uid) (Down d) (Down x) -> rtc (step uid) (Down d) (Down x) /\ halted uid st x)
    by (intros x Hx; split; [done|exact (steps_sound _ st _ _ Hx Hd)]).
  destruct (start m epoch (restart k t d)) as [s r] eqn:Es. destruct r as [[]|e|].
  - assert (Hup : step uid (Down d) (Up s)) by (by eapply step_start).
    destruct (store_ok s); cbn [negb]; [|left; apply Hend; eapply rtc_l; [exact Hup|apply rtc_once, step_exit]].
    pose proof (step_sound uid st _ _ Hup Hd) as Hs.
    pose proof (told_mock_run w uid Hp st n (MkApp s initial_log (MkMock 0 0 0) 0 []) Hs) as H. unfold told_at in H.
    destruct (mock_run w n _) as [a o]. cbn [fst snd service] in H. destruct H as [H|(q & f & ep & Hq & Hn)].
    + left. apply Hend. eapply rtc_l; [exact Hup|]. destruct o; [eapply rtc_r; [exact H|apply step_exit]..|exact H].
    + right. exists q, f, ep. split; [eapply rtc_l; [exact Hup|exact Hq]|done].
  - left. apply Hend, rtc_once. by eapply step_start_stopped.
  - left. apply Hend, rtc_once. by eapply step_start_stopped.
Qed.

(** Only a validation unit may have them, and the mock one needs a native identity. *)
Lemma demo_roles m :
  (require_no_telemetry m = Ok tt <-> unit_role m = "VALIDATION"%string) /\
  (require_test m = Ok tt <-> unit_role m = "VALIDATION"%string /\ is_some (service_instance m) = true).
Proof.
  unfold require_no_telemetry, require_test. rewrite !throw_if_Ok, orb_false_iff, !negb_false_iff, String.eqb_eq. tauto.
Qed.
(** The synthetic exercise gives an assessment, a change of the band and a status, once. *)
Example generate_once :
  match generate (Ok sample_source) sample_now sample_runtime with
  | (s, Done tt) => queued (outbox (disk s)) = 3 /\ (generate (Ok sample_source) (sample_now + 30000) s).2 = Thrown (RuntimeError "DEMO_MOCK_FIXTURE_INVALID")
  | _ => False
  end.
Proof. vm_compute. by split. Qed.
(** A turn that finds an empty outbox generates, and the next one delivers. *)
Definition mock_app : App Mock := MkApp sample_runtime initial_log (MkMock 0 0 0) 0 [].
Example mock_turns :
  let w := sample_world unreachable in
  let '(s, r) := mock_turn w mock_app in
  let '(s', r') := mock_turn w s in
  r = Done tt /\ r' = Done tt /\ map fst (sent s) = [] /\ map fst (sent s') = ["demo-mock"%string] /\
  queued (outbox (disk (service s'))) = 3 /\ failures (locals s') = 1.
Proof. vm_compute. by split_and!. Qed.
(** The demonstration started on the store the service has left. *)
Lemma demo_history_witness :
  let '(d, r) := run_demo_mock quiet_world 2 sample_metadata sample_source (restart 1000 "" (disk sample_runtime)) in
  (rtc (step sample_uid) (Down (disk sample_runtime)) (Down d) /\ halted sample_uid (state sample_runtime) d) \/
  collision sample_uid mock_config (Down (disk sample_runtime)).
Proof.
  assert (Hp : polite quiet_world) by (intros n s; exact I).
  pose proof (demo_history quiet_world 2 sample_uid (state sample_runtime) sample_metadata sample_source 1000 ""
    (disk sample_runtime) Hp eq_refl) as H.
  destruct (run_demo_mock _ _ _ _ _) as [d r]. apply H; [vm_compute; discriminate|exact sample_halted].
Defined.
