(* ===== verification/Transport.v ===== *)
(** * The socket exchange (src/runtime/posix.cpp: wait, exchange, exchange_credential)

    The operating system's answers are a script: one [turn] per iteration of a [wait], with what
    the stop flag, the clock and poll answer then and what the send or recv after it answers.
    The loops consume the script; a script that is used up while a loop still runs leaves it
    running ([None]).  So a run is executable, every division of the bytes into calls is covered,
    and termination is a statement about scripts: the loops have ended once a turn's reading of
    the clock is at the deadline. *)
From Stdlib Require Import ZArith Lia Bool Ascii String.
From stdpp Require Import gmap strings list.
From S2P Require Import Prelude Chars Float64 Json Protocol Http.
Local Open Scope Z_scope.

(** ** What the operating system answers *)

(** [revents] of poll; its events are the bits of Linux. *)
Definition POLLIN : Z := 1.
Definition POLLOUT : Z := 4.
Definition POLLERR : Z := 8.
Definition POLLHUP : Z := 16.
Definition POLLNVAL : Z := 32.
(** A call that moves bytes: [EAGAIN] or [EINTR], another error, or what it moved. *)
Inductive moved (A : Type) := Again | Broken | Moved (a : A).
Arguments Again {A}.
Arguments Broken {A}.
Arguments Moved {A} _.
(** One iteration of [wait]: the stop flag, the clock in milliseconds, the result of poll (and
    whether its error is [EINTR]) and [revents]; then the answer of the send (the number of bytes
    it takes) or of the recv (the bytes it yields) made when this turn ends the wait. *)
Record turn := MkTurn {
  turn_stop : bool; turn_now : Z; poll_result : Z; poll_interrupted : bool; revents : Z;
  send_answer : moved nat; recv_answer : moved (list ascii) }.
(** The calls before the loops: whether socket and both fcntl succeed, the clock when the
    deadline is computed, whether connect succeeds or is in progress, and what getsockopt says:
    nothing when it fails. *)
Record connection := MkConnection {
  socket_opened : bool; started : Z; connect_begun : bool; so_error : option Z; script : list turn }.

(** ** wait *)

Definition has_bits (v mask : Z) : bool := negb (Z.land v mask =? 0).
Inductive waiting := Waits | Ready | Lost.
(** One iteration of the loop of [wait]. *)
Definition wait_turn (events deadline : Z) (t : turn) : waiting :=
  if turn_stop t || (deadline <=? turn_now t) then Lost
  else if (poll_result t <? 0) && negb (poll_interrupted t) then Lost
  else if (0 <? poll_result t) && has_bits (revents t) (Z.lor events POLLHUP) then Ready
  else if (0 <? poll_result t) && has_bits (revents t) (Z.lor POLLERR POLLNVAL) then Lost
  else Waits.
(** The turn that ended the wait, and the script after it. *)
Fixpoint wait (events deadline : Z) (l : list turn) : option (res turn * list turn) :=
  match l with
  | [] => None
  | t :: l' =>
    match wait_turn events deadline t with
    | Ready => Some (Ok t, l')
    | Lost => Some (fail, l')
    | Waits => wait events deadline l'
    end
  end.

(** ** exchange *)

(** The sending loop: [offset] is what the peer has of the request.  An iteration waits, so a
    turn that does not end its wait is the next turn's; [continue] waits again. *)
Fixpoint send_loop (deadline : Z) (request : list ascii) (l : list turn) (offset : nat)
    : nat * option (res (list turn)) :=
  if (length request <=? offset)%nat then (offset, Some (Ok l))
  else match l with
  | [] => (offset, None)
  | t :: l' =>
    match wait_turn POLLOUT deadline t with
    | Waits => send_loop deadline request l' offset
    | Lost => (offset, Some fail)
    | Ready =>
      match send_answer t with
      | Again => send_loop deadline request l' offset
      | Broken => (offset, Some fail)
      | Moved O => (offset, Some fail)
      | Moved n => send_loop deadline request l' (offset + n)
      end
    end
  end.
Fixpoint recv_loop (deadline maximum : Z) (l : list turn) (result : list ascii) : option (res (list ascii)) :=
  match l with
  | [] => None
  | t :: l' =>
    match wait_turn POLLIN deadline t with
    | Waits => recv_loop deadline maximum l' result
    | Lost => Some fail
    | Ready =>
      match recv_answer t with
      | Again => recv_loop deadline maximum l' result
      | Broken => Some fail
      | Moved [] => Some (Ok result)
      | Moved buffer =>
        if maximum <? Z.of_nat (length result + length buffer) then Some fail
        else recv_loop deadline maximum l' (result ++ buffer)
      end
    end
  end.
(** What the peer was sent and how the exchange ended, if it has. *)
Definition exchange (c : connection) (request : list ascii) (maximum seconds : Z)
    : list ascii * option (res (list ascii)) :=
  if negb (socket_opened c) then ([], Some fail) else
  let deadline := started c + seconds * 1000 in
  if negb (connect_begun c) then ([], Some fail) else
  match wait POLLOUT deadline (script c) with
  | None => ([], None)
  | Some (Err e, _) => ([], Some (Err e))
  | Some (Ok _, l) =>
    if negb (bool_decide (so_error c = Some 0)) then ([], Some fail) else
    match send_loop deadline request l 0 with
    | (n, None) => (take n request, None)
    | (n, Some (Err e)) => (take n request, Some (Err e))
    | (n, Some (Ok l)) => (take n request, recv_loop deadline maximum l [])
    end
  end.
(** The exchange [post_backend] and [post_demo_control] use; each has a connection of its own. *)
Definition exchange_with (c : connection) (address : string) (port : Z) (request : string) (maximum seconds : Z)
    : res string :=
  match (exchange c (chars request) maximum seconds).2 with
  | Some r => str <$> r
  | None => Err FuelExhausted
  end.
Definition exchange_credential (c : connection) (request : string) : list ascii * option (res (list ascii)) :=
  exchange c (chars request) 32768 8.

(** ** What a successful exchange is *)

Section Runs.
Context (deadline : Z).
(** The turns in which the peer takes [n] bytes, in any portions and after any pauses. *)
Inductive sending : nat -> list turn -> Prop :=
  | SendDone : sending 0 []
  | SendWaits n t l : wait_turn POLLOUT deadline t = Waits -> sending (S n) l -> sending (S n) (t :: l)
  | SendAgain n t l :
      wait_turn POLLOUT deadline t = Ready -> send_answer t = Again -> sending (S n) l -> sending (S n) (t :: l)
  | SendSome n k t l :
      wait_turn POLLOUT deadline t = Ready -> send_answer t = Moved (S k) -> sending (n - k) l ->
      sending (S n) (t :: l).
(** The turns in which the peer's bytes arrive, in any portions, up to its end of stream. *)
Inductive receiving : list ascii -> list turn -> Prop :=
  | ReceiveEnd t : wait_turn POLLIN deadline t = Ready -> recv_answer t = Moved [] -> receiving [] [t]
  | ReceiveWaits r t l : wait_turn POLLIN deadline t = Waits -> receiving r l -> receiving r (t :: l)
  | ReceiveAgain r t l :
      wait_turn POLLIN deadline t = Ready -> recv_answer t = Again -> receiving r l -> receiving r (t :: l)
  | ReceiveSome b r t l :
      wait_turn POLLIN deadline t = Ready -> recv_answer t = Moved b -> b <> [] -> receiving r l ->
      receiving (b ++ r) (t :: l).

Lemma wait_Ready events l t l' :
  wait events deadline l = Some (Ok t, l') <->
  exists w, l = w ++ t :: l' /\ Forall (fun u => wait_turn events deadline u = Waits) w /\
    wait_turn events deadline t = Ready.
Proof.
  split.
  - induction l as [|u l IH]; cbn [wait]; [done|]. destruct (wait_turn events deadline u) eqn:E; intros H; [|by simplify_eq; exists []|done].
    apply IH in H as (w & -> & Hw & Ht). exists (u :: w). split_and!; [done|by constructor|done].
  - intros (w & -> & Hw & Ht). induction Hw as [|u w Hu _ IH]; cbn [wait app]; [by rewrite Ht|by rewrite Hu].
Qed.
Lemma send_loop_all request l offset l' :
  (send_loop deadline request l offset).2 = Some (Ok l') <->
  exists l1, l = l1 ++ l' /\ sending (length request - offset) l1.
Proof.
  split.
  - revert offset. induction l as [|t l IH]; intros offset; cbn [send_loop]; destruct (_ <=? _)%nat eqn:E; try done.
    + apply Nat.leb_le in E. intros [= <-]. exists []. split; [done|]. replace (_ - _)%nat with O by lia. constructor.
    + apply Nat.leb_le in E. intros [= <-]. exists []. split; [done|]. replace (_ - _)%nat with O by lia. constructor.
    + apply Nat.leb_gt in E. destruct (length request - offset)%nat as [|n] eqn:En; [lia|].
      destruct (wait_turn POLLOUT deadline t) eqn:Ew; [|destruct (send_answer t) as [| |[|k]] eqn:Es|]; try done;
        intros (l1 & -> & H)%IH; exists (t :: l1); (split; [done|]).
      * rewrite En in H. by constructor.
      * rewrite En in H. by constructor.
      * apply (SendSome n k); [done..|]. by replace (n - k)%nat with (length request - (offset + S k))%nat by lia.
  - intros (l1 & -> & H). remember (length request - offset)%nat as m eqn:Em. revert offset Em.
    induction H as [|n t l Hw _ IH|n t l Hw Ha _ IH|n k t l Hw Ha _ IH]; intros offset Em.
    + cbn [app]. destruct l'; cbn [send_loop]; by replace (_ <=? _)%nat with true by (symmetry; apply Nat.leb_le; lia).
    + cbn [app send_loop]. replace (_ <=? _)%nat with false by (symmetry; apply Nat.leb_gt; lia). rewrite Hw. by apply IH.
    + cbn [app send_loop]. replace (_ <=? _)%nat with false by (symmetry; apply Nat.leb_gt; lia). rewrite Hw, Ha. by apply IH.
    + cbn [app send_loop]. replace (_ <=? _)%nat with false by (symmetry; apply Nat.leb_gt; lia). rewrite Hw, Ha.
      apply IH. lia.
Qed.
Lemma send_loop_offset request l offset l' :
  (send_loop deadline request l offset).2 = Some (Ok l') ->
  (length request <= (send_loop deadline request l offset).1)%nat.
Proof.
  revert offset. induction l as [|t l IH]; intros offset; cbn [send_loop]; destruct (_ <=? _)%nat eqn:E;
    try (intros _; by apply Nat.leb_le); [done|].
  destruct (wait_turn POLLOUT deadline t); [by apply IH|destruct (send_answer t) as [| |[|k]]|]; try done; by apply IH.
Qed.
Lemma recv_loop_Ok maximum l result reply :
  Z.of_nat (length result) <= maximum ->
  recv_loop deadline maximum l result = Some (Ok reply) <->
  exists r l1 l2, reply = result ++ r /\ l = l1 ++ l2 /\ receiving r l1 /\ Z.of_nat (length reply) <= maximum.
Proof.
  intros Hm. split.
  - revert result Hm. induction l as [|t l IH]; intros result Hm; cbn [recv_loop]; [done|].
    destruct (wait_turn POLLIN deadline t) eqn:Ew; [|destruct (recv_answer t) as [| |[|a b]] eqn:Ea|]; try done.
    + intros (r & l1 & l2 & -> & -> & H & Hl)%IH; [|done]. exists r, (t :: l1), l2. split_and!; try done. by constructor.
    + intros (r & l1 & l2 & -> & -> & H & Hl)%IH; [|done]. exists r, (t :: l1), l2. split_and!; try done. by constructor.
    + intros [= <-]. exists [], [t], l. split_and!; [by rewrite app_nil_r|done|by constructor|done].
    + destruct (maximum <? _) eqn:Em; [done|]. b2p.
      intros (r & l1 & l2 & -> & -> & H & Hl)%IH; [|rewrite length_app; lia].
      exists ((a :: b) ++ r), (t :: l1), l2. split_and!; [by rewrite (assoc_L app)|done| |done].
      by apply (ReceiveSome (a :: b)).
  - intros (r & l1 & l2 & -> & -> & H & Hl). revert result Hm Hl.
    induction H as [t Hw Ha|r t l Hw _ IH|r t l Hw Ha _ IH|b r t l Hw Ha Hb _ IH]; intros result Hm Hl; cbn [app recv_loop].
    + rewrite Hw, Ha. by rewrite app_nil_r.
    + rewrite Hw. by apply IH.
    + rewrite Hw, Ha. by apply IH.
    + rewrite Hw, Ha. destruct b as [|a b]; [done|]. rewrite !length_app in Hl.
      replace (maximum <? _) with false by (symmetry; apply Z.ltb_ge; lia). rewrite (assoc_L app).
      apply IH; rewrite !length_app; lia.
Qed.

(** ** Ends of the loops *)

(** A turn no wait outlives. *)
Definition final (t : turn) : Prop := turn_stop t = true \/ deadline <= turn_now t.
Lemma final_lost events t : final t -> wait_turn events deadline t = Lost.
Proof.
  unfold final, wait_turn. intros H. replace (turn_stop t || _) with true; [done|]. symmetry.
  apply orb_true_iff. destruct H as [H|H]; [by left|right; by apply Z.leb_le].
Qed.
(** An end of a loop that may still go on with the rest of the script. *)
Definition ended {A} (P : A -> Prop) (o : option (res A)) : Prop :=
  match o with Some (Ok a) => P a | Some (Err e) => e = RuntimeError "TRANSPORT_UNAVAILABLE" | None => False end.
Lemma wait_ends events l :
  Exists final l ->
  match wait events deadline l with
  | Some (Ok _, l') => Exists final l'
  | Some (Err e, _) => e = RuntimeError "TRANSPORT_UNAVAILABLE"
  | None => False
  end.
Proof.
  induction l as [|t l IH]; [by intros H%Exists_nil|]. intros [H|H]%Exists_cons; cbn [wait].
  - by rewrite final_lost.
  - destruct (wait_turn events deadline t); [by apply IH|done|done].
Qed.
Lemma send_loop_ends request l offset :
  Exists final l -> ended (Exists final) (send_loop deadline request l offset).2.
Proof.
  revert offset. induction l as [|t l IH]; intros offset; [by intros H%Exists_nil|]. intros H. cbn [send_loop].
  destruct (_ <=? _)%nat; [done|]. apply Exists_cons in H as [H|H]; [by rewrite final_lost|].
  destruct (wait_turn POLLOUT deadline t); [by apply IH|destruct (send_answer t) as [| |[|k]]|]; try done; by apply IH.
Qed.
Lemma recv_loop_ends maximum l result :
  Exists final l -> ended (fun _ => True) (recv_loop deadline maximum l result).
Proof.
  revert result. induction l as [|t l IH]; intros result; [by intros H%Exists_nil|]. intros H. cbn [recv_loop].
  apply Exists_cons in H as [H|H]; [by rewrite final_lost|].
  destruct (wait_turn POLLIN deadline t); [by apply IH|destruct (recv_answer t) as [| |[|a b]]|]; try done; [by apply IH|].
  destruct (_ <? _); [done|by apply IH].
Qed.
End Runs.

(** ** The exchange *)

Lemma exchange_Ok c request maximum seconds reply :
  let deadline := started c + seconds * 1000 in
  (exchange c request maximum seconds).2 = Some (Ok reply) <->
  socket_opened c = true /\ connect_begun c = true /\ so_error c = Some 0 /\
  exists t l l', wait POLLOUT deadline (script c) = Some (Ok t, l) /\
    (send_loop deadline request l 0).2 = Some (Ok l') /\ recv_loop deadline maximum l' [] = Some (Ok reply).
Proof.
  intros deadline. unfold exchange. fold deadline. destruct (socket_opened c), (connect_begun c); cbn [negb]; try (by split; naive_solver).
  destruct (wait POLLOUT deadline (script c)) as [[[t|e] l]|] eqn:Ew; try (by split; naive_solver).
  destruct (bool_decide_reflect (so_error c = Some 0)) as [He|He]; cbn [negb]; [|by split; naive_solver].
  destruct (send_loop deadline request l 0) as [n [[l'|e]|]] eqn:Es; cbn [snd]; split; try done.
  - intros H. split_and!; try done. exists t, l, l'. by rewrite Es.
  - intros (_ & _ & _ & t' & k & k' & [= <- <-] & H1 & H2). rewrite Es in H1. cbn [snd] in H1.
    apply (inj Some), Ok_inj in H1. by rewrite H1.
  - intros (_ & _ & _ & t' & k & k' & [= <- <-] & H1 & H2). by rewrite Es in H1.
  - intros (_ & _ & _ & t' & k & k' & [= <- <-] & H1 & H2). by rewrite Es in H1.
Qed.
Lemma exchange_sent c request maximum seconds reply :
  (exchange c request maximum seconds).2 = Some (Ok reply) -> (exchange c request maximum seconds).1 = request.
Proof.
  intros H. destruct (proj1 (exchange_Ok c request maximum seconds reply) H) as (H1 & H2 & H3 & t & l & l' & Hw & Hs & _).
  clear H. pose proof (send_loop_offset _ request l 0 l' Hs) as Ho. unfold exchange. rewrite H1, H2, Hw.
  rewrite bool_decide_true by done. cbn [negb]. destruct (send_loop _ request l 0) as [n [[k|e]|]]; try done.
  by apply firstn_all2.
Qed.
(** C37: an exchange returns exactly what the peer was sent and answered.  It returns a reply just
    when the connection is made without an error, the peer takes the whole request in any portions
    and its answer, in any portions, ends after exactly the reply's bytes, at most [maximum], with
    every wait of the way before the deadline; and then the peer was sent the request, neither
    more nor less. *)
Theorem exchange_exact c request maximum seconds reply :
  0 <= maximum ->
  let deadline := started c + seconds * 1000 in
  ((exchange c request maximum seconds).2 = Some (Ok reply) <->
   socket_opened c = true /\ connect_begun c = true /\ so_error c = Some 0 /\ Z.of_nat (length reply) <= maximum /\
   exists w t l1 l2 rest, script c = w ++ t :: l1 ++ l2 ++ rest /\
     Forall (fun u => wait_turn POLLOUT deadline u = Waits) w /\ wait_turn POLLOUT deadline t = Ready /\
     sending deadline (length request) l1 /\ receiving deadline reply l2) /\
  ((exchange c request maximum seconds).2 = Some (Ok reply) -> (exchange c request maximum seconds).1 = request).
Proof.
  intros Hm deadline. split; [|apply exchange_sent]. rewrite exchange_Ok. fold deadline. split.
  - intros (H1 & H2 & H3 & t & l & l' & (w & Hs & Hw & Ht)%wait_Ready & (l1 & -> & Hl1)%send_loop_all & Hr).
    rewrite Nat.sub_0_r in Hl1. apply recv_loop_Ok in Hr as (r & l2 & rest & -> & -> & Hl2 & Hl); [|done].
    split_and!; try done. by exists w, t, l1, l2, rest.
  - intros (H1 & H2 & H3 & Hl & w & t & l1 & l2 & rest & Hs & Hw & Ht & Hl1 & Hl2). split_and!; try done.
    exists t, (l1 ++ l2 ++ rest), (l2 ++ rest). split_and!.
    + apply wait_Ready. by exists w.
    + apply send_loop_all. exists l1. by rewrite Nat.sub_0_r.
    + apply recv_loop_Ok; [done|]. by exists reply, l2, rest.
Qed.
(** An exchange ends.  Whatever the peer and the operating system answer, once the script
    holds a turn at which the service is stopping or the deadline is reached, the exchange has
    returned a reply of at most [maximum] bytes or thrown the transport's one error; and at any
    moment what the peer has been sent is the beginning of the request. *)
Lemma exchange_ends c request maximum seconds :
  0 <= maximum ->
  let deadline := started c + seconds * 1000 in
  (Exists (final deadline) (script c) ->
   ended (fun reply => Z.of_nat (length reply) <= maximum) (exchange c request maximum seconds).2) /\
  (exists rest, request = (exchange c request maximum seconds).1 ++ rest).
Proof.
  intros Hm deadline. split.
  - intros H. pose proof (wait_ends deadline POLLOUT _ H) as Hw. unfold exchange. fold deadline.
    destruct (socket_opened c), (connect_begun c); cbn [negb]; try done.
    destruct (wait POLLOUT deadline (script c)) as [[[t|e] l]|]; try done.
    destruct (bool_decide _); cbn [negb]; [|done]. pose proof (send_loop_ends deadline request l 0 Hw) as Hs.
    destruct (send_loop deadline request l 0) as [n [[l'|e]|]]; try done. cbn [snd] in *.
    pose proof (recv_loop_ends deadline maximum l' [] Hs) as Hr.
    destruct (recv_loop deadline maximum l' []) as [[r|e]|] eqn:Er; try done.
    apply recv_loop_Ok in Er as (r' & _ & _ & _ & _ & _ & Hl); done.
  - assert (X : forall n, exists rest, request = take n request ++ rest) by (intros n; exists (drop n request); by rewrite take_drop).
    unfold exchange. repeat case_match; cbn [fst]; try done; by exists request.
Qed.
(** Posting to the backend ends.  Whatever answers at the address and however the bytes are
    cut, once the ten seconds are over [post_backend] has returned a response of bounded size and
    delay or thrown one of its two errors, the size error just for an empty or oversized message. *)
Theorem post_backend_total c bytes demo_mock :
  Exists (final (started c + 10000)) (script c) ->
  match post_backend (exchange_with c) bytes demo_mock with
  | Ok r => 0 <= status r <= 999 /\ ssize (body r) <= 8192 /\ 0 <= retry_after r <= 86400
  | Err e => if (ssize bytes =? 0) || (16384 <? ssize bytes) then e = InvalidArgument "MESSAGE_SIZE_INVALID"
             else e = RuntimeError "TRANSPORT_UNAVAILABLE"
  end.
Proof.
  intros H. unfold post_backend. destruct (_ || _) eqn:Es; [done|]. unfold exchange_with.
  match goal with |- context [exchange c ?r 24576 10] => pose proof (proj1 (exchange_ends c r 24576 10 ltac:(lia)) H) as He end.
  destruct (exchange c _ 24576 10).2 as [[reply|e]|]; cbn [fmap res_fmap mbind res_mbind ended] in *; [|done..].
  destruct (parse_http_response_total (str reply)) as [[r E]|E]; rewrite E; [|done].
  by apply parse_http_response_bounds in E.
Qed.

(** ** A slow peer *)

Definition turn_at (now : Z) (poll events : Z) (s : moved nat) (r : moved (list ascii)) : turn :=
  MkTurn false now poll false events s r.
(** The peer takes the request byte by byte at first and answers in two pieces after a pause. *)
Definition slow_reply : list (list ascii) := [chars "HTTP/1.1 201 Created"; crlf ++ crlf ++ chars "{}"].
Definition slow_peer (request : nat) (end_ : Z) : connection :=
  MkConnection true 1000 true (Some 0)
    ([turn_at 1001 0 0 Again Again; turn_at 1002 1 POLLOUT Again Again; turn_at 1003 1 POLLOUT (Moved 1%nat) Again;
      turn_at 1004 1 POLLOUT Again Again; turn_at 1005 1 POLLOUT (Moved request) Again; turn_at 1105 0 0 Again Again] ++
     map (fun b => turn_at 1106 1 POLLIN Again (Moved b)) slow_reply ++
     [turn_at end_ 1 (POLLIN + POLLHUP) Again (Moved [])]).
Example slow_peer_answers :
  exchange (slow_peer 30 1200) (chars "POST / HTTP/1.1") 24576 10 =
    (chars "POST / HTTP/1.1", Some (Ok (concat slow_reply))) /\
  post_backend (exchange_with (slow_peer 400 1200)) "{}" false = Ok (MkHttpResponse 201 "{}" 0) /\
  (exchange (slow_peer 30 11000) (chars "POST / HTTP/1.1") 24576 10).2 = Some (Err (RuntimeError "TRANSPORT_UNAVAILABLE")).
Proof. by vm_compute. Qed.
Lemma exchange_exact_witness :
  0 <= 24576 /\
  (exchange (slow_peer 30 1200) (chars "POST / HTTP/1.1") 24576 10).2 = Some (Ok (concat slow_reply)) /\
  (exchange (slow_peer 30 1200) (chars "POST / HTTP/1.1") 24576 10).1 = chars "POST / HTTP/1.1".
Proof.
  assert (E : (exchange (slow_peer 30 1200) (chars "POST / HTTP/1.1") 24576 10).2 = Some (Ok (concat slow_reply)))
    by (vm_compute; reflexivity).
  split; [lia|split; [exact E|]].
  exact (proj2 (exchange_exact (slow_peer 30 1200) (chars "POST / HTTP/1.1") 24576 10 (concat slow_reply) ltac:(lia)) E).
Defined.
Lemma post_backend_total_witness :
  Exists (final (1000 + 10000)) (script (slow_peer 400 11000)) /\
  post_backend (exchange_with (slow_peer 400 11000)) "{}" false = Err (RuntimeError "TRANSPORT_UNAVAILABLE").
Proof.
  assert (H : Exists (final (1000 + 10000)) (script (slow_peer 400 11000))).
  { unfold slow_peer, script. cbn [app slow_reply map]. do 8 apply Exists_cons_tl. apply Exists_cons_hd. right. vm_compute. discriminate. }
  split; [exact H|]. pose proof (post_backend_total (slow_peer 400 11000) "{}" false H) as X.
  assert (E : is_ok (post_backend (exchange_with (slow_peer 400 11000)) "{}" false) = false) by (vm_compute; reflexivity).
  destruct (post_backend (exchange_with (slow_peer 400 11000)) "{}" false) as [r|e]; [discriminate E|]. cbn in X. by rewrite X.
Defined.
