(* ===== verification/Files.v ===== *)
(** * Reading and writing files (src/runtime/posix.cpp: read_file, read_optional_public_file,
    atomic_private_file, random_uuid; the reading loops of src/runtime/application.cpp and
    include/aosedge/function_observation.hpp; the writing loop of src/state.cpp)

    read and write move as many bytes as the operating system likes and may be interrupted; the
    loops around them go on until all is moved.  What the calls answer is a list, so every
    division of the bytes is covered, and a list that is used up while a loop still runs leaves
    the call unfinished: for a writer, that is a stop of the process at any point of the loop. *)
From Stdlib Require Import ZArith Lia Bool Ascii String.
From stdpp Require Import gmap strings list.
From S2P Require Import Prelude Chars Float64 Sha256 Uuid Json JsonFacts Protocol Identity Store Observation Ledger.
Local Open Scope Z_scope.

(** ** Reading *)

Inductive read_answer := ReadInterrupted | ReadFailed | ReadBytes (data : list ascii).
(** The loop every reader has; its exceptions differ in their text only. *)
Fixpoint read_loop (error : exn) (limit : Z) (answers : list read_answer) (result : list ascii)
    : option (res (list ascii)) :=
  match answers with
  | [] => None
  | ReadInterrupted :: answers' => read_loop error limit answers' result
  | ReadFailed :: _ => Some (Err error)
  | ReadBytes [] :: _ => Some (Ok result)
  | ReadBytes data :: answers' =>
    let result := result ++ data in
    if limit <? Z.of_nat (length result) then Some (Err error) else read_loop error limit answers' result
  end.

(** The reader's code after its loop. *)
Definition after_reading {A} (k : list ascii -> res A) (o : option (res (list ascii))) : option (res A) :=
  match o with None => None | Some (Err e) => Some (Err e) | Some (Ok result) => Some (k result) end.

(** What fstat reports, with [owned] for [st_uid == geteuid()]. *)
Record Status := MkStatus { is_regular : bool; owned : bool; mode : Z; links : Z; size_of : Z }.
(** How an open ends: [ENOENT], another error, or a descriptor and what fstat says of it. *)
Inductive opening := Missing | Refused | Opened (info : option Status).

Definition file_unavailable : exn := RuntimeError "INPUT_FILE_UNAVAILABLE".
(** [S_ISREG(st_mode) && st_size > 0 && st_size <= limit] *)
Definition readable (limit : Z) (s : Status) : bool :=
  is_regular s && (0 <? size_of s) && (size_of s <=? limit).
Definition posix_read_file (o : opening) (limit : Z) (answers : list read_answer) : option (res string) :=
  match o with
  | Opened (Some info) =>
    if readable limit info
    then after_reading (fun result => Ok (str result)) (read_loop file_unavailable limit answers [])
    else Some (Err file_unavailable)
  | _ => Some (Err file_unavailable)
  end.
Definition read_optional_public_file (o : opening) (limit : Z) (answers : list read_answer)
    : option (res (option string)) :=
  match o with
  | Missing => Some (Ok None)
  | Opened (Some info) =>
    if readable limit info
    then after_reading (fun result => match result with [] => Err file_unavailable | _ => Ok (Some (str result)) end)
           (read_loop file_unavailable limit answers [])
    else Some (Err file_unavailable)
  | _ => Some (Err file_unavailable)
  end.
(** The reader of the ledger. *)
Definition read_ledger_file (o : opening) (answers : list read_answer) : option (res (option string)) :=
  match o with
  | Missing => Some (Ok None)
  | Opened (Some info) =>
    if readable maximum_ledger info && owned info && (Z.land (mode info) 511 =? 384)
    then after_reading (fun result => Ok (Some (str result))) (read_loop unavailable maximum_ledger answers [])
    else Some (Err unavailable)
  | _ => Some (Err unavailable)
  end.
Definition auth_unavailable : exn := RuntimeError "KUKSA_AUTH_UNAVAILABLE".
(** [read_private_token] from the openat in the checked directory on. *)
Definition read_token (o : opening) (answers : list read_answer) : option (res string) :=
  match o with
  | Missing => Some (Err (RuntimeError "KUKSA_AUTH_PENDING"))
  | Opened (Some info) =>
    if readable 16384 info && owned info && (links info =? 1) && (Z.land (mode info) 4095 =? 256)
    then after_reading (fun token => private_token_text (str token)) (read_loop auth_unavailable 16384 answers [])
    else Some (Err auth_unavailable)
  | _ => Some (Err auth_unavailable)
  end.

(** ** Writing *)

Inductive write_answer := WriteInterrupted | WriteFailed | Wrote (n : nat).
(** How much of [bytes] is written and whether the loop has ended. *)
Fixpoint write_loop (error : exn) (bytes : list ascii) (answers : list write_answer) (offset : nat)
    : nat * option (res unit) :=
  if (length bytes <=? offset)%nat then (offset, Some (Ok tt))
  else match answers with
  | [] => (offset, None)
  | WriteInterrupted :: answers' => write_loop error bytes answers' offset
  | WriteFailed :: _ => (offset, Some (Err error))
  | Wrote O :: _ => (offset, Some (Err error))
  | Wrote n :: answers' => write_loop error bytes answers' (offset + n)
  end.

(** A private file: its bytes and the permission bits of its mode. *)
Record leaf := MkLeaf { leaf_bytes : list ascii; leaf_mode : Z }.
Abbreviation leaves := (gmap string leaf).
(** The calls after the writing loop, each with [Some] of whether it succeeds, or [None] when
    the process is stopped before it; [unlinked] is the unlink of the catch clause, whose result
    the code ignores. *)
Record finish := MkFinish {
  mode_set : option bool; synced : option bool; renamed : option bool; unlinked : option bool }.
Definition temporary_name (path : string) (pid : Z) : string := path +:+ ".next-" +:+ to_string pid.
Definition token_write_failed : exn := RuntimeError "TOKEN_WRITE_FAILED".
(** [atomic_private_file] on the files of the target's directory; [parent] is what lstat reports of
    the directory ([is_regular] is then that it is a directory), [created] whether the exclusive
    open of a temporary that is not there succeeds. *)
Definition atomic_private_file (parent : option Status) (path : string) (pid : Z) (bytes : list ascii)
    (created : bool) (answers : list write_answer) (f : finish) (d : leaves) : leaves * outcome unit :=
  match parent with
  | Some p =>
    if negb (is_regular p && owned p && (Z.land (mode p) 511 =? 448))
    then (d, Thrown (RuntimeError "TOKEN_DIRECTORY_INVALID"))
    else
      let temporary := temporary_name path pid in
      if bool_decide (is_Some (d !! temporary)) || negb created then (d, Thrown token_write_failed)
      else
        let holding n m := <[temporary := MkLeaf (take n bytes) m]> d in
        let failed n m :=
          match unlinked f with
          | None => (holding n m, Stopped)
          | Some false => (holding n m, Thrown token_write_failed)
          | Some true => (delete temporary (holding n m), Thrown token_write_failed)
          end in
        match write_loop token_write_failed bytes answers 0 with
        | (n, None) => (holding n 384, Stopped)
        | (n, Some (Err _)) => failed n 384
        | (n, Some (Ok tt)) =>
          match mode_set f with
          | None => (holding n 384, Stopped)
          | Some false => failed n 384
          | Some true =>
            match synced f with
            | None => (holding n 256, Stopped)
            | Some false => failed n 256
            | Some true =>
              match renamed f with
              | None => (holding n 256, Stopped)
              | Some false => failed n 256
              | Some true => (<[path := MkLeaf (take n bytes) 256]> (delete temporary d), Done tt)
              end
            end
          end
        end
  | None => (d, Thrown (RuntimeError "TOKEN_DIRECTORY_INVALID"))
  end.

(** The sixteen bytes of [random_uuid]: the loop reads what is still missing, so an answer
    holds at most that. *)
Fixpoint random_bytes (answers : list read_answer) (bytes : list ascii) : option (res (list ascii)) :=
  if (16 <=? length bytes)%nat then Some (Ok bytes)
  else match answers with
  | [] => None
  | ReadInterrupted :: answers' => random_bytes answers' bytes
  | ReadFailed :: _ => Some (Err (RuntimeError "RANDOM_UNAVAILABLE"))
  | ReadBytes [] :: _ => Some (Err (RuntimeError "RANDOM_UNAVAILABLE"))
  | ReadBytes data :: answers' => random_bytes answers' (bytes ++ take (16 - length bytes) data)
  end.

(** ** The reading loop *)

(** The answers that yield a content, in pieces of any size, up to the end of the file. *)
Inductive reading : list ascii -> list read_answer -> Prop :=
  | ReadEnd l : reading [] (ReadBytes [] :: l)
  | ReadAgain c l : reading c l -> reading c (ReadInterrupted :: l)
  | ReadSome b c l : b <> [] -> reading c l -> reading (b ++ c) (ReadBytes b :: l).
Lemma read_loop_Ok error limit answers result content :
  Z.of_nat (length result) <= limit ->
  read_loop error limit answers result = Some (Ok content) <->
  exists c, content = result ++ c /\ reading c answers /\ Z.of_nat (length content) <= limit.
Proof.
  intros Hl. split.
  - revert result Hl. induction answers as [|a answers IH]; intros result Hl; cbn [read_loop]; [done|].
    destruct a as [| |[|b bs]]; [|done|..].
    + intros (c & -> & H & Hc)%IH; [|done]. exists c. split_and!; [done|by constructor|done].
    + intros [= <-]. exists []. split_and!; [by rewrite app_nil_r|constructor|done].
    + destruct (limit <? _) eqn:E; [done|]. b2p. intros (c & -> & H & Hc)%IH; [|done].
      exists ((b :: bs) ++ c). split_and!; [by rewrite (assoc_L app)|by apply (ReadSome (b :: bs))|done].
  - intros (c & -> & H & Hc). revert result Hl Hc. induction H as [l|c l _ IH|b c l Hb _ IH]; intros result Hl Hc; cbn [read_loop].
    + by rewrite app_nil_r.
    + by apply IH.
    + destruct b as [|x b]; [done|]. rewrite !length_app in Hc.
      replace (limit <? _) with false by (symmetry; apply Z.ltb_ge; rewrite length_app; lia).
      rewrite (assoc_L app). apply IH; rewrite !length_app; lia.
Qed.
(** A file of at most [limit] bytes is read whole, however it is divided. *)
Lemma read_loop_reading error limit answers content :
  reading content answers -> Z.of_nat (length content) <= limit ->
  read_loop error limit answers [] = Some (Ok content).
Proof. intros H Hl. apply read_loop_Ok; [cbn; lia|]. by exists content. Qed.

(** ** Reading is atomic *)

(** fstat's report of an entry of a directory. *)
Record describes (s : Status) (e : entry) : Prop := {
  describes_regular : is_regular s = regular e;
  describes_size : size_of s = ssize (content e) }.
Lemma readable_entry s e limit :
  describes s e -> readable limit s = regular e && (0 <? ssize (content e)) && (ssize (content e) <=? limit).
Proof. intros [H1 H2]. unfold readable. by rewrite H1, H2. Qed.
(** C38: every reader's loop reads a file at once.  For a file that does not change while it is
    read, the results of [read_file], [read_optional_public_file], the ledger's reader and
    [read_private_token] are those of the one-step reads the rest of the development uses, however
    the calls divide the file and as often as they are interrupted. *)
Theorem reading_atomic s e limit answers :
  describes s e -> reading (chars (content e)) answers ->
  posix_read_file (Opened (Some s)) limit answers = Some (read_entry (Some e) limit) /\
  read_optional_public_file (Opened (Some s)) limit answers =
    Some (b ← read_entry (Some e) limit; Ok (Some b)) /\
  (private e = owned s && (Z.land (mode s) 511 =? 384) ->
   read_ledger_file (Opened (Some s)) answers = Some (read_ledger (Some e))) /\
  read_token (Opened (Some s)) answers =
    Some (match read_entry (Some e) 16384 with
          | Ok t => if owned s && (links s =? 1) && (Z.land (mode s) 4095 =? 256)
                    then private_token_text t else Err auth_unavailable
          | Err _ => Err auth_unavailable
          end).
Proof.
  intros Hd Hr. unfold posix_read_file, read_optional_public_file, read_ledger_file, read_token, read_ledger, read_entry.
  rewrite !(readable_entry s e) by done.
  assert (X : forall error limit, (ssize (content e) <=? limit) = true ->
            read_loop error limit answers [] = Some (Ok (chars (content e)))).
  { intros error m Hm. b2p. apply read_loop_reading; [done|]. by rewrite <- ssize_chars. }
  split_and!.
  - destruct (regular e); [|done]. destruct (0 <? _), (ssize (content e) <=? limit) eqn:E; try done. cbn [andb].
    rewrite X by done. cbn [after_reading]. by rewrite str_chars.
  - destruct (regular e); [|done]. destruct (0 <? _) eqn:E0, (ssize (content e) <=? limit) eqn:E; try done. cbn [andb].
    rewrite X by done. cbn [after_reading mbind res_mbind]. rewrite ssize_chars in E0. b2p.
    rewrite <- (str_chars (content e)) at 2. by destruct (chars (content e)).
  - intros Hp. unfold private_entry. rewrite Hp. destruct (regular e); [|done]. cbn [andb].
    destruct (owned s), (_ =? 384), (0 <? _), (ssize (content e) <=? maximum_ledger) eqn:E; try done. cbn [andb].
    rewrite X by done. cbn [after_reading]. by rewrite str_chars.
  - destruct (regular e); [|done]. cbn [andb]. destruct (0 <? _), (ssize (content e) <=? 16384) eqn:E; try done. cbn [andb].
    destruct (owned s); [|done]. destruct (links s =? 1); [|done]. destruct (_ =? 256); [|done]. cbn [andb].
    rewrite X by done. cbn [after_reading]. by rewrite str_chars.
Qed.

(** ** Writing is atomic *)

Lemma write_loop_Ok error bytes answers offset u :
  (write_loop error bytes answers offset).2 = Some (Ok u) ->
  take (write_loop error bytes answers offset).1 bytes = bytes.
Proof.
  revert offset. induction answers as [|a answers IH]; intros offset; cbn [write_loop]; destruct (_ <=? _)%nat eqn:E; try done;
    try (intros _; apply firstn_all2; by apply Nat.leb_le in E).
  destruct a as [| |[|n]]; try done; by apply IH.
Qed.
Lemma write_loop_Err error bytes answers offset e :
  (write_loop error bytes answers offset).2 = Some (Err e) -> e = error.
Proof.
  revert offset. induction answers as [|a answers IH]; intros offset; cbn [write_loop]; destruct (_ <=? _)%nat; try done.
  destruct a as [| |[|n]]; cbn [snd]; try congruence; by apply IH.
Qed.
(** The loop goes on only while the calls are interrupted or write: it has ended when as many calls
    as there are bytes were not interrupted. *)
Definition uninterrupted (a : write_answer) : bool := match a with WriteInterrupted => false | _ => true end.
Lemma write_loop_ends error bytes answers offset :
  (length bytes <= offset + length (List.filter uninterrupted answers))%nat ->
  (write_loop error bytes answers offset).2 <> None.
Proof.
  revert offset. induction answers as [|a answers IH]; intros offset H; cbn [write_loop]; destruct (_ <=? _)%nat eqn:E; try done.
  - cbn in H. apply Nat.leb_gt in E. lia.
  - destruct a as [| |[|n]]; try done; apply IH; cbn in H; lia.
Qed.

Lemma app_cancel_size x y z : x +:+ y = x +:+ z -> y = z.
Proof. intros H. apply chars_inj. apply (app_inv_head (chars x)). by rewrite <- !chars_app, H. Qed.
Lemma temporary_ne path pid : temporary_name path pid <> path.
Proof.
  unfold temporary_name. intros H. apply (f_equal ssize) in H. rewrite !ssize_app in H.
  pose proof (ssize_nonneg (to_string pid)). change (ssize ".next-") with 6 in H. lia.
Qed.
(** The directory with the temporary that holds a part of the bytes, and nothing else changed. *)
Definition left_temporary (path : string) (pid : Z) (bytes : list ascii) (d d' : leaves) : Prop :=
  d !! temporary_name path pid = None /\
  exists n m, (m = 384 \/ m = 256) /\ d' = <[temporary_name path pid := MkLeaf (take n bytes) m]> d.
(** What each end of [atomic_private_file] leaves. *)
Definition whole (path : string) (pid : Z) (bytes : list ascii) (f : finish) (d : leaves) (r : leaves * outcome unit) : Prop :=
  match r with
  | (d', Done _) => d' = <[path := MkLeaf bytes 256]> d
  | (d', Thrown e) =>
      (d' = d /\ (e = RuntimeError "TOKEN_DIRECTORY_INVALID" \/ e = token_write_failed)) \/
      (unlinked f = Some false /\ e = token_write_failed /\ left_temporary path pid bytes d d')
  | (d', Stopped) => left_temporary path pid bytes d d'
  end.
Lemma atomic_private_file_whole parent path pid bytes created answers f d :
  whole path pid bytes f d (atomic_private_file parent path pid bytes created answers f d).
Proof.
  unfold whole, atomic_private_file. destruct parent as [p|]; [|by auto]. destruct (negb _); [by auto|].
  cbv zeta. set (t := temporary_name path pid).
  destruct (bool_decide_reflect (is_Some (d !! t))) as [Hs|Hs]; cbn [orb]; [by auto|].
  apply eq_None_not_Some in Hs. destruct created; cbn [negb]; [|by auto].
  assert (Hleft : forall n m, m = 384 \/ m = 256 -> left_temporary path pid bytes d (<[t := MkLeaf (take n bytes) m]> d)).
  { intros n m Hm. split; [done|]. by exists n, m. }
  assert (Hf : forall n m, delete t (<[t := MkLeaf (take n bytes) m]> d) = d) by (intros; by rewrite delete_insert_id).
  pose proof (write_loop_Ok token_write_failed bytes answers 0) as Hw.
  destruct (write_loop token_write_failed bytes answers 0) as [n [[[]|e]|]]; [| |by auto].
  2: destruct (unlinked f) as [[]|]; [left; by auto|right; by auto|by auto].
  destruct (mode_set f) as [[]|]; [| |by auto].
  2: destruct (unlinked f) as [[]|]; [left; by auto|right; by auto|by auto].
  destruct (synced f) as [[]|]; [| |by auto].
  2: destruct (unlinked f) as [[]|]; [left; by auto|right; by auto|by auto].
  destruct (renamed f) as [[]|]; [| |by auto].
  2: destruct (unlinked f) as [[]|]; [left; by auto|right; by auto|by auto].
  specialize (Hw tt eq_refl). cbn [fst] in Hw. by rewrite Hw, delete_id.
Qed.

(** C39: the token file is written entirely or not at all.  Whatever the calls answer, when
    [atomic_private_file] returns the target holds all the bytes with mode 0400 and no other file
    changed; otherwise the target is untouched, so every reader finds the old or the new bytes.
    When it throws nothing at all changed, unless the unlink of the catch clause failed; then, and
    when the process is stopped on the way, the one change is the private temporary of this
    process with a part of the bytes. *)
Theorem atomic_private_file_atomic parent path pid bytes created answers f d :
  let '(d', o) := atomic_private_file parent path pid bytes created answers f d in
  match o with
  | Done _ => d' = <[path := MkLeaf bytes 256]> d
  | Thrown e => d' !! path = d !! path /\
      ((d' = d /\ (e = RuntimeError "TOKEN_DIRECTORY_INVALID" \/ e = RuntimeError "TOKEN_WRITE_FAILED")) \/
       (unlinked f = Some false /\ e = RuntimeError "TOKEN_WRITE_FAILED" /\ left_temporary path pid bytes d d'))
  | Stopped => d' !! path = d !! path /\ left_temporary path pid bytes d d'
  end.
Proof.
  pose proof (atomic_private_file_whole parent path pid bytes created answers f d) as H. unfold whole in H.
  assert (Hp : forall d', left_temporary path pid bytes d d' -> d' !! path = d !! path).
  { intros d' (_ & n & m & _ & ->). apply lookup_insert_ne, temporary_ne. }
  destruct (atomic_private_file _ _ _ _ _ _ _ _) as [d' []]; [done| |by auto].
  split; [|done]. destruct H as [[-> _]|(_ & _ & H)]; [done|by apply Hp].
Qed.

(** ** Random bytes *)

Lemma random_bytes_Ok answers bytes b :
  (length bytes <= 16)%nat -> random_bytes answers bytes = Some (Ok b) -> length b = 16%nat.
Proof.
  revert bytes. induction answers as [|a answers IH]; intros bytes Hl; cbn [random_bytes].
  - destruct (16 <=? _)%nat eqn:E; [|done]. apply Nat.leb_le in E. intros [= <-]. lia.
  - destruct (16 <=? _)%nat eqn:E; [apply Nat.leb_le in E; intros [= <-]; lia|].
    destruct a as [| |[|x data]]; [by apply IH|done..|]. apply IH.
    rewrite length_app, length_take. lia.
Qed.
Lemma random_identifier answers b :
  random_bytes answers [] = Some (Ok b) -> is_uuid (random_uuid (map code b)) = true.
Proof.
  intros H%random_bytes_Ok; [|cbn; lia]. apply random_uuid_is_uuid; [by rewrite length_map|].
  apply List.Forall_forall. intros x (c & <- & _)%in_map_iff. apply code_range.
Qed.

(** ** A file in pieces *)

Definition sample_status : Status := MkStatus true true 384 1 5.
Definition sample_pieces : list read_answer :=
  [ReadInterrupted; ReadBytes (chars "he"); ReadInterrupted; ReadBytes (chars "llo"); ReadBytes []].
Lemma reading_atomic_witness :
  describes sample_status (own_file "hello") /\ reading (chars "hello") sample_pieces /\
  posix_read_file (Opened (Some sample_status)) 8192 sample_pieces = Some (Ok "hello"%string).
Proof.
  assert (Hd : describes sample_status (own_file "hello")) by (constructor; reflexivity).
  assert (Hr : reading (chars "hello") sample_pieces).
  { apply ReadAgain. apply (ReadSome (chars "he")); [discriminate|]. apply ReadAgain.
    apply (ReadSome (chars "llo") []); [discriminate|]. apply ReadEnd. }
  split; [exact Hd|]. split; [exact Hr|].
  exact (proj1 (reading_atomic sample_status (own_file "hello") 8192 sample_pieces Hd Hr)).
Defined.
Example token_file_written :
  let parent := Some (MkStatus true true 448 2 0) in
  let written answers unlinked :=
    let '(d, o) := atomic_private_file parent "token.jwt" 7 (chars "a.b.c") true answers (MkFinish (Some true) (Some true) (Some true) unlinked) ∅ in
    (map_to_list d, o) in
  written [Wrote 2; WriteInterrupted; Wrote 3] None = ([("token.jwt"%string, MkLeaf (chars "a.b.c") 256)], Done tt) /\
  written [Wrote 2; WriteFailed] (Some true) = ([], Thrown token_write_failed) /\
  written [Wrote 2; WriteFailed] (Some false) =
    ([("token.jwt.next-7"%string, MkLeaf (chars "a.") 384)], Thrown token_write_failed).
Proof. cbv zeta. split_and!; vm_compute; reflexivity. Qed.
