(* ===== verification/Tokens.v ===== *)
(** * Token sessions (src/runtime/token_session.cpp, read_private_token of
    src/runtime/application.cpp)

    The directories of tokens as a finite map from absolute paths, given by their components, to
    nodes.  A descriptor is the path that was walked: nobody else moves these directories while
    they are open.  User and group are arguments.  The calls that may fail for reasons outside the
    map (locking, scanning, making a directory) have their answers in [Calls]. *)
From Stdlib Require Import ZArith Lia Bool Ascii String.
From stdpp Require Import gmap strings list.
From S2P Require Import Prelude Chars Float64 Json Protocol Identity Store StoreFacts Session Files.
Local Open Scope Z_scope.

(** ** Paths *)

Record path := MkPath { absolute : bool; elements : list string }.
#[export] Instance path_eq_dec : EqDecision path.
Proof. solve_decision. Defined.
(** The names between the slashes; a slash at the end adds an empty one. *)
Definition names_of (text : string) : list string :=
  let pieces := map str (split_on "/" (chars text)) in
  let names := List.filter (fun n => negb (String.eqb n "")) pieces in
  if negb (bool_decide (names = [])) && bool_decide (last pieces = Some ""%string) then names ++ [""%string] else names.
Definition path_of (text : string) : path := MkPath (is_absolute text) (names_of text).
Definition parent_path (p : path) : path := MkPath (absolute p) (removelast (elements p)).
Definition filename (p : path) : string := default ""%string (last (elements p)).
Definition append (p : path) (name : string) : path := MkPath (absolute p) (elements p ++ [name]).
(** [lexically_normal] of an absolute path: [done] is what is kept so far, in reverse. *)
Definition trailing (done : list string) : list string :=
  match done with [] => [] | _ => rev (""%string :: done) end.
Fixpoint normal_elements (done l : list string) : list string :=
  match l with
  | [] => rev done
  | [name] =>
    if String.eqb name "" || String.eqb name "." then trailing done
    else if String.eqb name ".." then trailing (tail done) else rev (name :: done)
  | name :: l' =>
    if String.eqb name "." then normal_elements done l'
    else if String.eqb name ".." then normal_elements (tail done) l' else normal_elements (name :: done) l'
  end.
Definition lexically_normal (p : path) : path := MkPath (absolute p) (normal_elements [] (elements p)).

(** ** Nodes *)

Inductive kind := Directory | Regular | Symlink | Special.
#[export] Instance kind_eq_dec : EqDecision kind.
Proof. solve_decision. Defined.
(** [may_open]: the permissions let this process open it. *)
Record node := MkNode {
  node_kind : kind; node_owner : Z; node_group : Z; node_mode : Z; node_links : Z; may_open : bool; node_bytes : string }.
#[export] Instance node_eq_dec : EqDecision node.
Proof. solve_decision. Defined.
Abbreviation tree := (gmap (list string) node).
Record User := MkUser { euid : Z; egid : Z }.
Definition directory_invalid : exn := RuntimeError "TOKEN_DIRECTORY_INVALID".
Definition is_directory (n : node) : bool := bool_decide (node_kind n = Directory).

(** openat with [O_DIRECTORY | O_NOFOLLOW]. *)
Definition open_at (t : tree) (at_ : list string) : bool :=
  match t !! at_ with Some n => is_directory n && may_open n | None => false end.
(** The loop of [open_directory]; [current] is the directory that is open. *)
Fixpoint walk (t : tree) (current : list string) (components : list string) : res (list string) :=
  match components with
  | [] => Ok current
  | component :: components' =>
    if String.eqb component "" || String.eqb component "." || String.eqb component ".." then Err directory_invalid
    else if open_at t (current ++ [component]) then walk t (current ++ [component]) components'
    else Err directory_invalid
  end.
Definition open_directory (t : tree) (p : path) : res (list string) :=
  if negb (absolute p) || negb (bool_decide (p = lexically_normal p)) then Err directory_invalid
  else if open_at t [] then walk t [] (elements p) else Err directory_invalid.
Definition private_directory (u : User) (n : node) : bool :=
  (node_owner n =? euid u) && (node_group n =? egid u) && (Z.land (node_mode n) 4095 =? 448).
Definition open_private_token_directory (u : User) (t : tree) (p : path) : res (list string) :=
  d ← open_directory t p;
  match t !! d with
  | Some n => if private_directory u n then Ok d else Err directory_invalid
  | None => Err directory_invalid
  end.

(** ** Sessions *)

Definition token_root : path := path_of "/run/aosedge/secrets/kuksa".
Definition token_name : string := "token.jwt".
Record TokenSession := MkSession { root_fd : list string; session_fd : list string; token_file : path }.
(** Whether flock succeeds, whether dup, fdopendir and the scan do, and the six characters of the
    directory mkdtemp makes: nothing when it fails. *)
Record Calls := MkCalls { locked : bool; scanned : bool; made : option string }.
(** An entry of the root whose name starts like a session's. *)
Definition session_entry (root : list string) (p : list string) : bool :=
  bool_decide (p <> []) && bool_decide (removelast p = root)
  && String.eqb (substr 0 8 (default ""%string (last p))) session_prefix.
Definition sessions (root : list string) (t : tree) : Z :=
  Z.of_nat (length (List.filter (fun pn => session_entry root pn.1) (map_to_list t))).
Definition new_directory (u : User) : node := MkNode Directory (euid u) (egid u) 448 2 true "".
(** [unlinkat(fd, name, AT_REMOVEDIR)]: only an empty directory goes. *)
Definition has_entries (t : tree) (p : list string) : bool :=
  existsb (fun qn => bool_decide (qn.1 <> []) && bool_decide (removelast qn.1 = p)) (map_to_list t).
Definition remove_directory (t : tree) (p : list string) : tree :=
  match t !! p with
  | Some n => if is_directory n && negb (has_entries t p) then delete p t else t
  | None => t
  end.
(** [unlinkat(fd, name, 0)]: whether it succeeds or finds nothing. *)
Definition unlink (t : tree) (p : list string) : tree * bool :=
  match t !! p with
  | Some n => if is_directory n then (t, false) else (delete p t, true)
  | None => (t, true)
  end.
Definition root_owner (u : User) (root : path) : Z := if bool_decide (root = token_root) then 0 else euid u.
(** mkdtemp: a new private directory; a name that is taken is never the one it makes. *)
Definition make_directory (u : User) (t : tree) (p : list string) : res tree :=
  match t !! p with Some _ => Err directory_invalid | None => Ok (<[p := new_directory u]> t) end.
(** The end of the constructor: the new directory is opened again and its name checked; when that
    fails the directory is removed. *)
Definition adopt (u : User) (t : tree) (root_fd : list string) (token_file : path) : tree * res TokenSession :=
  let name := filename (parent_path token_file) in
  match (d ← open_private_token_directory u t (parent_path token_file);
         _ ← throw_if (negb (session_name name)) directory_invalid;
         Ok (MkSession root_fd d token_file)) with
  | Ok s => (t, Ok s)
  | Err e => (remove_directory t (root_fd ++ [name]), Err e)
  end.
Definition construct (u : User) (root : path) (k : Calls) (t : tree) : tree * res TokenSession :=
  match open_directory t root with
  | Err e => (t, Err e)
  | Ok root_fd =>
    match t !! root_fd with
    | None => (t, Err directory_invalid)
    | Some st =>
      if negb (Z.land (node_mode st) 4095 =? 1023) || negb (node_owner st =? root_owner u root)
      then (t, Err directory_invalid)
      else if negb (locked k) || negb (scanned k) then (t, Err directory_invalid)
      else if 8 <=? sessions root_fd t then (t, Err capacity_exceeded)
      else match made k with
      | None => (t, Err directory_invalid)
      | Some suffix =>
        let directory := append root (session_prefix +:+ suffix) in
        match make_directory u t (elements directory) with
        | Err e => (t, Err e)
        | Ok t' => adopt u t' root_fd (append directory token_name)
        end
      end
    end
  end.
(** The destructor ignores what its two calls answer; [unlinked] and [removed] are whether each is
    carried out where the tree allows it. *)
Definition destroy_calls (unlinked removed : bool) (s : TokenSession) (t : tree) : tree :=
  let t := if unlinked then (unlink t (session_fd s ++ [token_name])).1 else t in
  if removed then remove_directory t (root_fd s ++ [filename (parent_path (token_file s))]) else t.
Definition destroy : TokenSession -> tree -> tree := destroy_calls true true.
Definition remove_token (s : TokenSession) (t : tree) : tree * res unit :=
  let '(t', ok) := unlink t (session_fd s ++ [token_name]) in
  (t', if ok then Ok tt else Err (RuntimeError "TOKEN_REMOVE_FAILED")).

(** ** The token's reader *)

Definition environment_invalid : exn := RuntimeError "CREDENTIAL_ENVIRONMENT_INVALID".
(** [value] is the variable [KUKSA_TOKEN_FILE]. *)
Definition token_file_from_environment (u : User) (t : tree) (value : option string) : res path :=
  match value with
  | None => Err environment_invalid
  | Some text =>
    let p := path_of text in
    if negb (String.eqb (filename p) token_name) || negb (bool_decide (parent_path (parent_path p) = token_root))
       || negb (session_name (filename (parent_path p)))
    then Err environment_invalid
    else _ ← open_private_token_directory u t (parent_path p); Ok p
  end.
(** openat with [O_NOFOLLOW] and fstat. *)
Definition status_of (u : User) (n : node) : Status :=
  MkStatus (bool_decide (node_kind n = Regular)) (node_owner n =? euid u) (node_mode n) (node_links n) (ssize (node_bytes n)).
Definition open_file (u : User) (t : tree) (p : list string) : opening :=
  match t !! p with
  | None => Missing
  | Some n => if bool_decide (node_kind n = Symlink) || negb (may_open n) then Refused else Opened (Some (status_of u n))
  end.
Definition read_private_token (u : User) (t : tree) (p : path) (answers : list read_answer) : option (res string) :=
  match open_private_token_directory u t (parent_path p) with
  | Err e => Some (Err e)
  | Ok directory => read_token (open_file u t (directory ++ [filename p])) answers
  end.

(** ** Walking a path *)

(** A component [open_directory] walks. *)
Definition real_name (name : string) : Prop := name <> "" /\ name <> "." /\ name <> "..".
Lemma real_name_bool name :
  String.eqb name "" || String.eqb name "." || String.eqb name ".." = false <-> real_name name.
Proof. unfold real_name. rewrite !orb_false_iff, !String.eqb_neq. tauto. Qed.
Lemma normal_real done l : Forall real_name l -> normal_elements done l = rev done ++ l.
Proof.
  intros H. revert done. induction H as [|name l Hn Hl IH]; intros done; cbn [normal_elements]; [by rewrite app_nil_r|].
  apply real_name_bool in Hn. apply orb_false_iff in Hn as [[H1 H2]%orb_false_iff H3]. destruct l as [|x l].
  - rewrite H1, H2, H3. cbn [orb]. reflexivity.
  - rewrite H2, H3. rewrite IH. cbn [rev]. by rewrite <- (assoc_L app).
Qed.
Lemma walk_Ok t current l d :
  walk t current l = Ok d <->
  d = current ++ l /\ Forall real_name l /\
  forall q, q <> [] -> q `prefix_of` l -> open_at t (current ++ q) = true.
Proof.
  revert current. induction l as [|c l IH]; intros current; cbn [walk].
  - split.
    + intros [= <-]. split_and!; [by rewrite app_nil_r|constructor|]. by intros q Hq ->%prefix_nil_inv.
    + intros (-> & _). by rewrite app_nil_r.
  - destruct (_ || _) eqn:Ec.
    + split; [done|]. intros (_ & H & _). apply Forall_cons in H as [H _]. apply real_name_bool in H. congruence.
    + apply real_name_bool in Ec. destruct (open_at t (current ++ [c])) eqn:Eo.
      * rewrite IH, <- (assoc_L app). cbn [app]. split.
        -- intros (-> & Hl & Hq). split_and!; [done|by constructor|]. intros q Hn [k Hk].
           destruct q as [|x q]; [done|]. cbn [app] in Hk. injection Hk as -> Hk. destruct q as [|y q]; [done|].
           replace (current ++ x :: y :: q) with ((current ++ [x]) ++ y :: q) by (by rewrite <- (assoc_L app)).
           apply Hq; [done|by exists k].
        -- intros (-> & Hl & Hq). apply Forall_cons in Hl as [_ Hl]. split_and!; [done|done|].
           intros q Hn [k Hk]. rewrite <- (assoc_L app). apply Hq; [done|]. exists k. cbn [app]. by rewrite Hk.
      * split; [done|]. intros (_ & _ & Hq). rewrite (Hq [c]) in Eo; [done..|by exists l].
Qed.
(** A directory is opened just when it and everything above it are real directories. *)
Lemma open_directory_Ok t p d :
  open_directory t p = Ok d <->
  absolute p = true /\ d = elements p /\ Forall real_name (elements p) /\
  forall q, q `prefix_of` elements p -> open_at t q = true.
Proof.
  unfold open_directory. destruct p as [a l]. cbn [absolute elements]. destruct a; cbn [negb orb]; [|by split; [|intros []]].
  destruct (bool_decide_reflect (MkPath true l = lexically_normal (MkPath true l))) as [E|E]; cbn [negb].
  - destruct (open_at t []) eqn:Eo.
    + rewrite walk_Ok. cbn [app]. split.
      * intros (-> & Hl & Hq). split_and!; try done. intros q Hp. destruct q; [done|]. by apply Hq.
      * intros (_ & -> & Hl & Hq). split_and!; try done. intros q _. apply Hq.
    + split; [done|]. intros (_ & _ & _ & Hq). rewrite Hq in Eo; [done|apply prefix_nil].
  - split; [done|]. intros (_ & _ & Hl & _). destruct E. unfold lexically_normal. cbn [absolute elements].
    by rewrite normal_real.
Qed.
Lemma open_private_Ok u t p d :
  open_private_token_directory u t p = Ok d <->
  open_directory t p = Ok d /\ exists n, t !! d = Some n /\ private_directory u n = true.
Proof.
  unfold open_private_token_directory. rewrite bind_Ok. split.
  - intros (d' & Hd & H). destruct (t !! d') as [n|] eqn:En; [|done]. destruct (private_directory u n) eqn:Ep; [|done].
    apply Ok_inj in H as <-. split; [done|]. by exists n.
  - intros (Hd & n & Hn & Hp). exists d. by rewrite Hn, Hp.
Qed.

(** ** Entries *)

(** Every node is in a directory. *)
Definition well_formed (t : tree) : Prop :=
  forall p c, is_Some (t !! (p ++ [c])) -> exists n, t !! p = Some n /\ is_directory n = true.
Lemma well_formed_below t p q : well_formed t -> t !! p = None -> t !! (p ++ q) = None.
Proof.
  intros Hw Hp. induction q as [|c q IH] using rev_ind; [by rewrite app_nil_r|]. rewrite (assoc_L app).
  destruct (t !! ((p ++ q) ++ [c])) as [m|] eqn:E; [|done]. destruct (Hw (p ++ q) c) as (n & Hn & _); [by eexists|]. congruence.
Qed.
Lemma below_cons (t : tree) p : (forall q, q <> [] -> t !! (p ++ q) = None) -> has_entries t p = false.
Proof.
  intros H. unfold has_entries. apply not_true_is_false. intros ([q n] & Hin & E)%existsb_exists.
  apply list_elem_of_In, elem_of_map_to_list in Hin. cbn [fst] in E. apply andb_true_iff in E as [E1 E2].
  apply bool_decide_eq_true in E1, E2. destruct (exists_last E1) as (q' & c & ->). rewrite removelast_last in E2. subst q'.
  by rewrite H in Hin.
Qed.
Lemma remove_empty (t : tree) p n :
  t !! p = Some n -> is_directory n = true -> (forall q, q <> [] -> t !! (p ++ q) = None) -> remove_directory t p = delete p t.
Proof. intros Hn Hd H. unfold remove_directory. by rewrite Hn, Hd, (below_cons t p H). Qed.

Lemma sessions_new root t p n : t !! p = None ->
  sessions root (<[p := n]> t) = sessions root t + (if session_entry root p then 1 else 0).
Proof.
  intros H. unfold sessions. rewrite (filter_permutation _ _ _ (map_to_list_insert t p n H)). cbn [List.filter fst].
  destruct (session_entry root p); cbn [length]; lia.
Qed.
Lemma sessions_delete root t p : sessions root (delete p t) <= sessions root t.
Proof.
  destruct (t !! p) as [n|] eqn:E; [|by rewrite delete_id].
  rewrite <- (insert_delete_id t p n E) at 2. rewrite sessions_new by apply lookup_delete_eq. case_match; lia.
Qed.
Lemma sessions_other root t p n : session_entry root p = false -> sessions root (<[p := n]> t) = sessions root t.
Proof.
  intros H. destruct (t !! p) as [m|] eqn:E.
  - rewrite <- (insert_delete_id t p m E) at 2. rewrite <- insert_delete_eq, !sessions_new, H by apply lookup_delete_eq. done.
  - rewrite sessions_new, H by done. lia.
Qed.

(** ** One session *)

Lemma session_real_name name : session_name name = true -> real_name name.
Proof.
  unfold session_name. intros H. b2p. split_and!; intros ->; discriminate H.
Qed.
Lemma filename_append p name : filename (append p name) = name.
Proof. unfold filename, append. cbn [elements]. by rewrite last_snoc. Qed.
Lemma parent_append p name : parent_path (append p name) = p.
Proof. unfold parent_path, append. cbn [absolute elements]. rewrite removelast_last. by destruct p. Qed.
(** A session's names, as the constructor leaves them. *)
Record session_of (root : path) (name : string) (s : TokenSession) : Prop := {
  of_root : root_fd s = elements root;
  of_directory : session_fd s = elements root ++ [name];
  of_file : token_file s = append (append root name) token_name;
  of_name : session_name name = true }.
Lemma adopt_cases u t root name t' r :
  t !! (elements root ++ [name]) = None -> well_formed t ->
  adopt u (<[elements root ++ [name] := new_directory u]> t) (elements root) (append (append root name) token_name) = (t', r) ->
  match r with
  | Ok s => t' = <[elements root ++ [name] := new_directory u]> t /\ session_of root name s
  | Err e => t' = t /\ e = directory_invalid
  end.
Proof.
  intros Hn Hw. unfold adopt. rewrite parent_append, filename_append. set (p := elements root ++ [name]) in *.
  assert (Hr : remove_directory (<[p := new_directory u]> t) p = t).
  { rewrite (remove_empty _ p (new_directory u)); [by rewrite delete_insert_id|by rewrite lookup_insert_eq|done|].
    intros q Hq. rewrite lookup_insert_ne; [by apply well_formed_below|]. intros E. apply (f_equal length) in E.
    rewrite length_app in E. destruct q; [done|cbn in E; lia]. }
  destruct (open_private_token_directory u _ _) as [d|e] eqn:Ed; cbn [mbind res_mbind].
  - destruct (session_name name) eqn:Es; cbn [negb throw_if mbind res_mbind]; intros [= <- <-]; [|by rewrite Hr].
    split; [done|]. apply open_private_Ok in Ed as [(_ & -> & _)%open_directory_Ok _]. by constructor.
  - intros [= <- <-]. rewrite Hr. split; [done|]. revert Ed. unfold open_private_token_directory, open_directory.
    destruct (_ || _); [by intros [= <-]|]. destruct (open_at _ []); [|by intros [= <-]].
    destruct (walk _ _ _) as [d'|e'] eqn:Ew; cbn [mbind res_mbind].
    + destruct (_ !! d'); [|by intros [= <-]]. destruct (private_directory _ _); [done|by intros [= <-]].
    + intros [= <-]. revert Ew. generalize (elements (append root name)) as l, (@nil string) as c.
      induction l as [|x l IH]; intros c; cbn [walk]; [done|]. destruct (_ || _); [by intros [= <-]|].
      destruct (open_at _ _); [by apply IH|by intros [= <-]].
Qed.
(** What a constructor does: a new private directory of the root, or nothing. *)
Lemma construct_cases u root k t t' r :
  well_formed t -> construct u root k t = (t', r) ->
  match r with
  | Ok s => exists name, session_of root name s /\ open_directory t root = Ok (elements root) /\
      sessions (elements root) t < 8 /\ t !! (elements root ++ [name]) = None /\
      t' = <[elements root ++ [name] := new_directory u]> t
  | Err e => t' = t
  end.
Proof.
  intros Hw. unfold construct. destruct (open_directory t root) as [d|e] eqn:Ed; [|by intros [= <- <-]].
  assert (Hd : d = elements root) by (by apply open_directory_Ok in Ed as (_ & -> & _)). subst d.
  destruct (t !! elements root) as [st|]; [|by intros [= <- <-]].
  destruct (_ || _); [by intros [= <- <-]|]. destruct (_ || _); [by intros [= <- <-]|].
  destruct (8 <=? _) eqn:E8; [by intros [= <- <-]|]. b2p. destruct (made k) as [suffix|]; [|by intros [= <- <-]].
  unfold make_directory. change (elements (append root (session_prefix +:+ suffix))) with (elements root ++ [session_prefix +:+ suffix]).
  destruct (t !! (elements root ++ _)) as [m|] eqn:En; [by intros [= <- <-]|]. intros H.
  apply adopt_cases in H; [|done..]. destruct r as [s|e]; [|by destruct H].
  destruct H as [-> H]. by exists (session_prefix +:+ suffix).
Qed.
(** It does succeed below the capacity, when the calls do. *)
Lemma construct_succeeds u root suffix t st :
  open_directory t root = Ok (elements root) -> t !! elements root = Some st ->
  Z.land (node_mode st) 4095 = 1023 -> node_owner st = root_owner u root -> sessions (elements root) t < 8 ->
  session_name (session_prefix +:+ suffix) = true -> t !! (elements root ++ [session_prefix +:+ suffix]) = None ->
  exists s, construct u root (MkCalls true true (Some suffix)) t =
    (<[elements root ++ [session_prefix +:+ suffix] := new_directory u]> t, Ok s).
Proof.
  intros Ho Hs Hm Hown H8 Hname Hn. unfold construct. rewrite Ho, Hs, Hm, Hown, !Z.eqb_refl. cbn [negb orb locked scanned made].
  replace (8 <=? _) with false by (symmetry; apply Z.leb_gt; lia). unfold make_directory.
  change (elements (append root (session_prefix +:+ suffix))) with (elements root ++ [session_prefix +:+ suffix]).
  rewrite Hn. unfold adopt. rewrite parent_append, filename_append. set (p := elements root ++ [session_prefix +:+ suffix]) in *.
  assert (Hp : open_private_token_directory u (<[p := new_directory u]> t) (append root (session_prefix +:+ suffix)) = Ok p).
  { apply open_private_Ok. split.
    - apply open_directory_Ok in Ho as (Ha & _ & Hl & Hq). apply open_directory_Ok. split_and!; [done|done| |].
      + apply Forall_app. split; [done|]. constructor; [by apply session_real_name|constructor].
      + intros q Hqp. cbn [append elements] in Hqp. unfold open_at.
        destruct (decide (q = p)) as [->|Hne]; [by rewrite lookup_insert_eq|]. rewrite lookup_insert_ne by done.
        apply (Hq q). destruct Hqp as [r Hr]. destruct (decide (r = [])) as [->|Hr0].
        * by rewrite app_nil_r in Hr.
        * destruct (exists_last Hr0) as (r' & x & ->). rewrite (assoc_L app) in Hr.
          apply app_inj_tail in Hr as [-> _]. by exists r'.
    - exists (new_directory u). rewrite lookup_insert_eq. split; [done|]. unfold private_directory, new_directory. cbn.
      by rewrite !Z.eqb_refl. }
  rewrite Hp. cbn [mbind res_mbind]. rewrite Hname. cbn [negb throw_if mbind res_mbind]. by eexists.
Qed.

(** ** Many sessions at one root *)

Section Sessions.
Context (root : path).
Abbreviation base := (elements root).
(** The moves of the processes that share the root: a constructor, a token that is written into a
    session, [remove_token], a destructor, and one whose calls fail so that the directory stays. *)
Inductive move : tree * list TokenSession -> tree * list TokenSession -> Prop :=
  | MoveConstruct u k t live t' s : construct u root k t = (t', Ok s) -> move (t, live) (t', s :: live)
  | MoveRefused u k t live t' e : construct u root k t = (t', Err e) -> move (t, live) (t', live)
  | MoveToken t live s n :
      In s live -> is_directory n = false -> move (t, live) (<[session_fd s ++ [token_name] := n]> t, live)
  | MoveRemove t live s t' r : In s live -> remove_token s t = (t', r) -> move (t, live) (t', live)
  | MoveDestroy t l1 s l2 : move (t, l1 ++ s :: l2) (destroy s t, l1 ++ l2)
  | MoveLeave t live s unlinked removed :
      In s live -> is_Some (destroy_calls unlinked removed s t !! session_fd s) ->
      move (t, live) (destroy_calls unlinked removed s t, live).
Inductive moves (x : tree * list TokenSession) : tree * list TokenSession -> Prop :=
  | NoMoves : moves x x
  | Moves y z : moves x y -> move y z -> moves x z.

(** The tree a reader of [p] sees under the live sessions is their own; the rest is [t0]'s. *)
Record shared (t0 t : tree) (live : list TokenSession) : Prop := {
  shared_distinct : NoDup (session_fd <$> live);
  shared_named s : In s live -> exists name, session_of root name s;
  shared_directory s : In s live -> exists u, t !! session_fd s = Some (new_directory u);
  shared_token s q : In s live -> q <> [] -> is_Some (t !! (session_fd s ++ q)) ->
    q = [token_name] /\ exists n, t !! (session_fd s ++ q) = Some n /\ is_directory n = false;
  shared_fresh s q : In s live -> t0 !! (session_fd s ++ q) = None;
  shared_rest p : (forall s, In s live -> ~ session_fd s `prefix_of` p) -> t !! p = t0 !! p;
  shared_bound : sessions base t <= Z.max 8 (sessions base t0);
  shared_well_formed : well_formed t }.

Lemma sibling_prefix (a b : string) q : base ++ [a] `prefix_of` (base ++ [b]) ++ q -> a = b.
Proof.
  intros [k H]. rewrite <- !(assoc_L app) in H. apply (app_inv_head base) in H. by injection H.
Qed.
Lemma siblings s s' q n n' :
  session_of root n s -> session_of root n' s' -> session_fd s `prefix_of` session_fd s' ++ q -> session_fd s = session_fd s'.
Proof.
  intros Hs Hs' H. rewrite (of_directory _ _ _ Hs), (of_directory _ _ _ Hs') in *.
  by apply sibling_prefix in H as ->.
Qed.
Lemma insert_well_formed t p c n m :
  well_formed t -> t !! p = Some m -> is_directory m = true ->
  (is_directory n = true \/ forall q, q <> [] -> t !! ((p ++ [c]) ++ q) = None) -> well_formed (<[p ++ [c] := n]> t).
Proof.
  intros Hw Hp Hm Hn p' c' H. destruct (decide (p' ++ [c'] = p ++ [c])) as [E|E].
  - apply app_inj_tail in E as [-> ->]. exists m. split; [|done]. rewrite lookup_insert_ne; [done|].
    intros E. apply (f_equal length) in E. rewrite length_app in E. cbn in E. lia.
  - rewrite lookup_insert_ne in H by done. destruct (decide (p' = p ++ [c])) as [->|Hne].
    + rewrite lookup_insert_eq. exists n. split; [done|]. destruct Hn as [Hn|Hn]; [done|].
      rewrite (Hn [c']) in H by done. by destruct H.
    + rewrite lookup_insert_ne by done. by apply Hw in H.
Qed.
Lemma delete_well_formed t p :
  well_formed t -> (forall q, q <> [] -> t !! (p ++ q) = None) -> well_formed (delete p t).
Proof.
  intros Hw Hp p' c' H. destruct (decide (p' ++ [c'] = p)) as [<-|E]; [by rewrite lookup_delete_eq in H; destruct H|].
  rewrite lookup_delete_ne in H by done. destruct (decide (p' = p)) as [->|E'].
  - rewrite (Hp [c']) in H by done. by destruct H.
  - rewrite lookup_delete_ne by done. by apply Hw in H.
Qed.
Lemma named_length s name : session_of root name s -> length (session_fd s) = S (length base).
Proof. intros H. rewrite (of_directory _ _ _ H), length_app. cbn. lia. Qed.
Lemma below_ne s s' name name' q :
  session_of root name s -> session_of root name' s' -> q <> [] -> session_fd s' ++ q <> session_fd s.
Proof.
  intros H H' Hq E. apply (f_equal length) in E. rewrite length_app, (named_length _ _ H), (named_length _ _ H') in E.
  destruct q; [done|]. cbn in E. lia.
Qed.
Lemma token_entry s name : session_of root name s -> session_entry base (session_fd s ++ [token_name]) = false.
Proof.
  intros H. unfold session_entry. rewrite removelast_last, (bool_decide_false (session_fd s = base)); [by rewrite andb_false_r|].
  intros E. apply (f_equal length) in E. rewrite (named_length _ _ H) in E. lia.
Qed.
Lemma shared_initial t0 : well_formed t0 -> shared t0 t0 [].
Proof. intros H. constructor; try done; [constructor|lia]. Qed.
Lemma shared_construct t0 t live u k t' s :
  shared t0 t live -> construct u root k t = (t', Ok s) -> shared t0 t' (s :: live).
Proof.
  intros [H1 H2 H3 H4 H5 H6 H7 H8] (name & Hs & Ho & Hc & Hn & ->)%construct_cases; [|done].
  rewrite <- (of_directory _ _ _ Hs) in *. set (p := session_fd s) in *.
  assert (Hnew : forall s', In s' live -> session_fd s' <> p).
  { intros s' Hin E. destruct (H3 s' Hin) as (u' & Hu). rewrite E in Hu. congruence. }
  assert (Hbelow : forall q, t !! (p ++ q) = None) by (intros q; by apply well_formed_below).
  constructor.
  - rewrite fmap_cons. constructor; [|done]. intros (s' & E & Hin)%list_elem_of_fmap. apply list_elem_of_In in Hin.
    by apply (Hnew s').
  - intros s' [->|Hin]; [by exists name|by apply H2].
  - intros s' [->|Hin]; [exists u; apply lookup_insert_eq|]. rewrite lookup_insert_ne by (intros E; by apply (Hnew s')). by apply H3.
  - intros s' q Hin Hq. destruct Hin as [->|Hin].
    + rewrite lookup_insert_ne by (by apply not_eq_sym, (below_ne s' s' name name)). rewrite Hbelow. by intros [].
    + destruct (H2 s' Hin) as (name' & Hs'). rewrite lookup_insert_ne by (by apply not_eq_sym, (below_ne s s' name name')).
      by apply H4.
  - intros s' q [->|Hin]; [|by apply H5]. rewrite <- (Hbelow q). symmetry. apply H6. intros s'' Hin Hp.
    destruct (H2 s'' Hin) as (name'' & Hs''). by apply (Hnew s''); [|by apply (siblings s'' s' q name'' name)].
  - intros p' Hp'. rewrite lookup_insert_ne; [apply H6; intros s' Hin; apply Hp'; by right|].
    intros <-. by apply (Hp' s); [left|].
  - rewrite sessions_new by done. case_match; lia.
  - subst p. rewrite (of_directory _ _ _ Hs). apply open_directory_Ok in Ho as (_ & _ & _ & Ho). specialize (Ho base (reflexivity _)).
    unfold open_at in Ho. destruct (t !! base) as [m|] eqn:Em; [|done]. apply andb_true_iff in Ho as [Hd _].
    apply (insert_well_formed t base name _ m); try done. by left.
Qed.
(** A change of a live session's token. *)
Lemma shared_at_token t0 t live s t' :
  shared t0 t live -> In s live ->
  (t' = delete (session_fd s ++ [token_name]) t \/
   exists n, is_directory n = false /\ t' = <[session_fd s ++ [token_name] := n]> t) ->
  shared t0 t' live.
Proof.
  intros [H1 H2 H3 H4 H5 H6 H7 H8] Hin Ht. destruct (H2 s Hin) as (name & Hs). set (p := session_fd s ++ [token_name]) in *.
  assert (Hother : forall p', p' <> p -> t' !! p' = t !! p').
  { intros p' Hne. destruct Ht as [->|(n & _ & ->)]; [by apply lookup_delete_ne|by apply lookup_insert_ne]. }
  assert (Hat : forall q, q <> [] -> t !! (p ++ q) = None).
  { intros q Hq. apply eq_None_not_Some. intros Hx. unfold p in Hx. rewrite <- (assoc_L app) in Hx. apply H4 in Hx as [E _]; [|done..].
    cbn [app] in E. by injection E. }
  constructor; try done.
  - intros s' Hin'. destruct (H2 s' Hin') as (name' & Hs'). rewrite Hother; [by apply H3|]. apply not_eq_sym. by apply (below_ne s' s name' name).
  - intros s' q Hin' Hq Hx. destruct (decide (session_fd s' ++ q = p)) as [E|E].
    + destruct (H2 s' Hin') as (name' & Hs').
      assert (Ep : session_fd s' = session_fd s) by (apply (siblings s' s [token_name] name' name); [done..|fold p; rewrite <- E; by exists q]).
      rewrite Ep in *. apply (app_inv_head (session_fd s)) in E. split; [done|]. rewrite E in *. fold p in Hx |- *.
      destruct Ht as [->|(n & Hn & ->)]; [rewrite lookup_delete_eq in Hx; by destruct Hx|exists n; by rewrite lookup_insert_eq].
    + rewrite Hother in * by done. by apply H4.
  - intros p' Hp'. rewrite Hother; [by apply H6|]. intros ->. by apply (Hp' s); [|by exists [token_name]].
  - pose proof (sessions_delete base t p). destruct Ht as [->|(n & _ & ->)]; [lia|].
    unfold p. by rewrite sessions_other by (by apply (token_entry s name)).
  - destruct (H3 s Hin) as (u & Hu). destruct Ht as [->|(n & Hn & ->)]; [by apply delete_well_formed|].
    apply (insert_well_formed t (session_fd s) token_name n (new_directory u)); try done. by right.
Qed.
Lemma shared_unlink t0 t live s : shared t0 t live -> In s live ->
  let t' := (unlink t (session_fd s ++ [token_name])).1 in shared t0 t' live /\ t' !! (session_fd s ++ [token_name]) = None.
Proof.
  intros Hsh Hin. unfold unlink. destruct (t !! _) as [n|] eqn:E; [|by cbn].
  destruct (is_directory n) eqn:Ed.
  - destruct (shared_token _ _ _ Hsh s [token_name] Hin) as (_ & n' & E' & Ed'); [done|by eexists|congruence].
  - cbn. split; [|apply lookup_delete_eq]. apply (shared_at_token t0 t live s); [done..|by left].
Qed.
Lemma shared_destroy t0 t l1 s l2 : shared t0 t (l1 ++ s :: l2) -> shared t0 (destroy s t) (l1 ++ l2).
Proof.
  intros Hsh. assert (Hin : In s (l1 ++ s :: l2)) by (apply in_or_app; right; by left).
  destruct (shared_unlink t0 t _ s Hsh Hin) as [[H1 H2 H3 H4 H5 H6 H7 H8] Hnone]. clear Hsh. unfold destroy, destroy_calls.
  set (t' := (unlink t (session_fd s ++ [token_name])).1) in *. destruct (H2 s Hin) as (name & Hs).
  rewrite (of_root _ _ _ Hs), (of_file _ _ _ Hs), parent_append, filename_append, <- (of_directory _ _ _ Hs).
  destruct (H3 s Hin) as (u & Hu).
  assert (Hempty : forall q, q <> [] -> t' !! (session_fd s ++ q) = None).
  { intros q Hq. apply eq_None_not_Some. intros Hx. destruct (H4 s q Hin Hq Hx) as [-> _]. rewrite Hnone in Hx. by destruct Hx. }
  rewrite (remove_empty t' _ (new_directory u)) by done.
  assert (Hsub : forall s', In s' (l1 ++ l2) -> In s' (l1 ++ s :: l2)).
  { intros s' H. apply in_app_or in H as [H|H]; apply in_or_app; [by left|right; by right]. }
  rewrite fmap_app, fmap_cons in H1. apply NoDup_app in H1 as (Hd1 & Hd2 & Hd3). apply NoDup_cons in Hd3 as [Hd3 Hd4].
  assert (Hne : forall s', In s' (l1 ++ l2) -> session_fd s' <> session_fd s).
  { intros s' H E. apply in_app_or in H as [H|H]; apply list_elem_of_In, (list_elem_of_fmap_2 session_fd) in H; rewrite E in H.
    - apply (Hd2 _ H). by left.
    - by apply Hd3. }
  constructor.
  - rewrite fmap_app. apply NoDup_app. split_and!; [done| |done]. intros x Hx Hx'. apply (Hd2 x Hx). by right.
  - intros s' H. by apply H2, Hsub.
  - intros s' H. rewrite lookup_delete_ne by (by apply not_eq_sym, Hne). by apply H3, Hsub.
  - intros s' q H Hq Hx. destruct (H2 s' (Hsub s' H)) as (name' & Hs').
    rewrite lookup_delete_ne in * by (by apply not_eq_sym, (below_ne s s' name name')). apply H4; [by apply Hsub|done..].
  - intros s' q H. by apply H5, Hsub.
  - intros p Hp. destruct (decide (session_fd s `prefix_of` p)) as [[q ->]|Hpre].
    + rewrite H5 by done. destruct (decide (q = [])) as [->|Hq]; [by rewrite app_nil_r, lookup_delete_eq|].
      rewrite lookup_delete_ne; [by apply Hempty|]. by apply not_eq_sym, (below_ne s s name name).
    + rewrite lookup_delete_ne by (intros <-; by apply Hpre). apply H6. intros s' H.
      apply in_app_or in H as [H|[->|H]]; [apply Hp, in_or_app; by left|done|apply Hp, in_or_app; by right].
  - pose proof (sessions_delete base t' (session_fd s)). lia.
  - by apply delete_well_formed.
Qed.
Lemma shared_leave t0 t live s unlinked removed :
  shared t0 t live -> In s live -> is_Some (destroy_calls unlinked removed s t !! session_fd s) ->
  shared t0 (destroy_calls unlinked removed s t) live.
Proof.
  intros Hsh Hin. unfold destroy_calls. cbv zeta. set (t1 := if unlinked then _ else t).
  assert (H1 : shared t0 t1 live) by (unfold t1; destruct unlinked; [by apply shared_unlink|done]).
  destruct removed; [|done]. destruct (shared_named _ _ _ Hsh s Hin) as (name & Hs).
  rewrite (of_root _ _ _ Hs), (of_file _ _ _ Hs), parent_append, filename_append, <- (of_directory _ _ _ Hs).
  unfold remove_directory. destruct (t1 !! session_fd s) as [n|]; [|done]. destruct (_ && _); [|done].
  rewrite lookup_delete_eq. by intros [].
Qed.
Lemma moves_shared t0 x : well_formed t0 -> moves (t0, []) x -> shared t0 x.1 x.2.
Proof.
  intros Hw H. induction H as [|y z _ IH Hm]; [by apply shared_initial|].
  destruct Hm as [u k t live t' s Hc|u k t live t' e Hc|t live s n Hin Hn|t live s t' r Hin Hr|t l1 s l2|t live s u1 u2 Hin Hl]; cbn [fst snd] in *.
  - by apply (shared_construct t0 t live u k).
  - by apply construct_cases in Hc as ->; [|by destruct IH].
  - apply (shared_at_token t0 t live s); [done..|right; by exists n].
  - unfold remove_token in Hr. destruct (shared_unlink t0 t live s IH Hin) as [Hu _].
    destruct (unlink t _) as [t1 ok]. by injection Hr as <- <-.
  - by apply shared_destroy.
  - by apply shared_leave.
Qed.
End Sessions.

(** C10: token sessions are bounded, private, apart and leave nothing behind.  From any tree (with
    sessions killed processes may have left), through any constructors, tokens written, removals
    and destructors of the processes that share the root: there are at most eight sessions unless
    there were more to begin with; the live ones, those of failed destructors among them, are
    distinct private directories; everything outside of them is as it was; and when all have ended,
    with a destructor whose calls did not fail, the tree is the one before. *)
Theorem token_sessions root t0 t live :
  well_formed t0 -> moves root (t0, []) (t, live) ->
  sessions (elements root) t <= Z.max 8 (sessions (elements root) t0) /\
  NoDup (session_fd <$> live) /\
  (forall s, In s live -> exists name u, session_of root name s /\ t !! session_fd s = Some (new_directory u)) /\
  (forall p, (forall s, In s live -> ~ session_fd s `prefix_of` p) -> t !! p = t0 !! p) /\
  (live = [] -> t = t0).
Proof.
  intros Hw H. destruct (moves_shared root t0 _ Hw H) as [H1 H2 H3 _ _ H6 H7 _]. cbn [fst snd] in *. split_and!; try done.
  - intros s Hin. destruct (H2 s Hin) as (name & Hs). destruct (H3 s Hin) as (u & Hu). by exists name, u.
  - intros ->. apply map_eq. intros p. apply H6. by intros s [].
Qed.
Lemma open_at_iff t q :
  open_at t q = true <-> exists n, t !! q = Some n /\ node_kind n = Directory /\ may_open n = true.
Proof.
  unfold open_at, is_directory. destruct (t !! q) as [n|]; [|by split; [|intros (n & ? & _)]].
  rewrite andb_true_iff, bool_decide_eq_true. split; [intros [H1 H2]; by exists n|]. by intros (m & [= <-] & H1 & H2).
Qed.
Lemma private_directory_iff u n :
  private_directory u n = true <-> node_owner n = euid u /\ node_group n = egid u /\ Z.land (node_mode n) 4095 = 448.
Proof. unfold private_directory. rewrite !andb_true_iff, !Z.eqb_eq. tauto. Qed.
Lemma append_filename p : filename p <> "" -> p = append (parent_path p) (filename p).
Proof.
  destruct p as [a l]. unfold append, parent_path, filename. cbn [absolute elements]. intros Hq.
  destruct (decide (l = [])) as [->|Hl]; [done|]. destruct (exists_last Hl) as (l' & x & ->).
  by rewrite removelast_last, last_snoc.
Qed.
(** The checks of the names in the environment. *)
Lemma session_token_names p :
  String.eqb (filename p) token_name = true /\ parent_path (parent_path p) = token_root /\
    session_name (filename (parent_path p)) = true <->
  exists name, session_name name = true /\ p = append (append token_root name) token_name.
Proof.
  split.
  - intros (E1 & E2 & E3). apply String.eqb_eq in E1. exists (filename (parent_path p)). split; [done|].
    rewrite <- E2, <- (append_filename (parent_path p)) by (intros E; rewrite E in E3; done). rewrite <- E1.
    apply append_filename. by rewrite E1.
  - intros (name & Hn & ->). by rewrite !filename_append, !parent_append, filename_append.
Qed.
(** C40: the directory of a token is opened just when it and every directory above it are real
    directories, no link among them, and it is the user's own and private; and the analytics
    process takes a token file from its environment just when it names a session's token below
    the root of tokens in such a directory. *)
Theorem token_directory_exact u t p d value :
  (open_private_token_directory u t p = Ok d <->
   absolute p = true /\ d = elements p /\ Forall real_name (elements p) /\
   (forall q, q `prefix_of` elements p -> exists n, t !! q = Some n /\ node_kind n = Directory /\ may_open n = true) /\
   exists n, t !! d = Some n /\ node_owner n = euid u /\ node_group n = egid u /\ Z.land (node_mode n) 4095 = 448) /\
  (token_file_from_environment u t value = Ok p <->
   exists text name, value = Some text /\ p = path_of text /\ session_name name = true /\
     p = append (append token_root name) token_name /\
     exists d, open_private_token_directory u t (append token_root name) = Ok d).
Proof.
  split.
  - rewrite open_private_Ok, open_directory_Ok. setoid_rewrite open_at_iff. setoid_rewrite private_directory_iff. tauto.
  - unfold token_file_from_environment. destruct value as [text|]; [|by split; [|intros (text & name & ? & _)]].
    cbv zeta. pose proof (session_token_names (path_of text)) as Hnames. split.
    + destruct (_ || _) eqn:E; [done|]. apply orb_false_iff in E as [[E1 E2]%orb_false_iff E3].
      apply negb_false_iff in E1, E2, E3. apply bool_decide_eq_true in E2.
      destruct (proj1 Hnames (conj E1 (conj E2 E3))) as (name & Hname & Ep).
      intros (d' & Hd & [= <-])%bind_Ok. exists text, name. split_and!; try done. exists d'.
      by rewrite Ep, parent_append in Hd.
    + intros (text' & name & [= <-] & -> & Hname & Ep & d' & Hd).
      destruct (proj2 Hnames (ex_intro _ name (conj Hname Ep))) as (E1 & E2 & E3).
      rewrite E1, E3, bool_decide_true by done. cbn [negb orb]. by rewrite Ep, parent_append, Hd.
Qed.

(** ** From the exchange to the reader *)

Lemma issued_text c now : issued_ok c now -> private_token_text (token c) = Ok (token c).
Proof.
  intros (Hs & Ha & Hc & Hf & Hb & Hd & _). unfold private_token_text.
  rewrite !bool_decide_false by (done || by rewrite Hd; intros []).
  replace (ssize (token c) =? 0) with false by (symmetry; apply Z.eqb_neq; lia).
  by rewrite Hc, Ha.
Qed.
(** The node [atomic_private_file] leaves for its owner. *)
Definition node_of_leaf (u : User) (l : leaf) : node :=
  MkNode Regular (euid u) (egid u) (leaf_mode l) 1 true (str (leaf_bytes l)).
(** C11: the token that was issued is the token that is used.  When the bootstrap has written the
    token of a credential it parsed, in however many calls, the analytics process's reader of the
    session's directory, in however many calls, returns that token: what one process accepts from
    the exchange the other accepts from the file. *)
Theorem token_handover response now c parent path pid wa f d d' l u t dir answers :
  parse_credential response now = Ok c -> token c <> "" ->
  atomic_private_file parent path pid (chars (token c)) true wa f d = (d', Done tt) -> d' !! path = Some l ->
  open_private_token_directory u t dir = Ok (elements dir) ->
  t !! (elements dir ++ [token_name]) = Some (node_of_leaf u l) ->
  reading (chars (token c)) answers ->
  read_private_token u t (append dir token_name) answers = Some (Ok (token c)).
Proof.
  intros Hc Ht Hw Hl Hd Hn Hr.
  assert (El : l = MkLeaf (chars (token c)) 256).
  { pose proof (atomic_private_file_whole parent path pid (chars (token c)) true wa f d) as H. rewrite Hw in H. cbn [whole] in H. subst d'.
    rewrite lookup_insert_eq in Hl. congruence. }
  subst l. apply parse_credential_ok in Hc as [Hc|[Hc _]]; [|done]. pose proof (issued_text _ _ Hc) as Htext.
  destruct Hc as (Hs & _). unfold read_private_token. rewrite parent_append, filename_append, Hd.
  unfold open_file. rewrite Hn. cbn [node_of_leaf node_kind may_open]. rewrite bool_decide_false by done. cbn [negb orb].
  unfold read_token, status_of, readable. cbn [is_regular owned mode links size_of node_of_leaf node_kind node_owner node_mode node_links node_bytes leaf_mode leaf_bytes].
  rewrite Z.eqb_refl, str_chars, bool_decide_true by done.
  replace (0 <? ssize (token c)) with true by (symmetry; apply Z.ltb_lt; lia).
  replace (ssize (token c) <=? 16384) with true by (symmetry; apply Z.leb_le; lia).
  change (Z.land 256 4095 =? 256) with true. cbn [andb].
  rewrite (read_loop_reading _ _ _ _ Hr) by (rewrite <- ssize_chars; lia). cbn [after_reading]. by rewrite str_chars, Htext.
Qed.

(** ** A session at the root of tokens *)

Definition service_user : User := MkUser 1001 1001.
Definition system_directory (mode : Z) : node := MkNode Directory 0 0 mode 2 true "".
Definition sample_tree : tree :=
  list_to_map [([], system_directory 493); (["run"%string], system_directory 493);
    (["run"; "aosedge"]%string, system_directory 493); (["run"; "aosedge"; "secrets"]%string, system_directory 493);
    (elements token_root, system_directory 1023);
    (elements token_root ++ ["session-old000"%string], new_directory (MkUser 1000 1000))].
Definition sample_calls : Calls := MkCalls true true (Some "Ab12Cd"%string).
Definition sample_session : TokenSession :=
  MkSession (elements token_root) (elements token_root ++ ["session-Ab12Cd"%string])
    (path_of "/run/aosedge/secrets/kuksa/session-Ab12Cd/token.jwt").
Definition sample_directory : path := path_of "/run/aosedge/secrets/kuksa/session-Ab12Cd".
Definition session_tree : tree := (construct service_user token_root sample_calls sample_tree).1.
Definition sample_leaf : leaf := MkLeaf (chars "a.b.c") 256.
Definition token_tree : tree :=
  <[elements sample_directory ++ [token_name] := node_of_leaf service_user sample_leaf]> session_tree.
Example session_runs :
  (construct service_user token_root sample_calls sample_tree).2 = Ok sample_session /\
  sessions (elements token_root) session_tree = 2 /\
  token_file_from_environment service_user session_tree (Some "/run/aosedge/secrets/kuksa/session-Ab12Cd/token.jwt"%string) =
    Ok (token_file sample_session) /\
  token_file_from_environment service_user session_tree (Some "/run/aosedge/secrets/kuksa/../kuksa/session-Ab12Cd/token.jwt"%string) =
    Err environment_invalid /\
  read_private_token service_user session_tree (token_file sample_session) [] = Some (Err (RuntimeError "KUKSA_AUTH_PENDING")) /\
  read_private_token service_user token_tree (token_file sample_session)
    [ReadBytes (chars "a."); ReadInterrupted; ReadBytes (chars "b.c"); ReadBytes []] = Some (Ok "a.b.c"%string) /\
  bool_decide (destroy sample_session token_tree = sample_tree) = true.
Proof. split_and!; vm_compute; reflexivity. Qed.
Definition well_formed_check (t : tree) : bool :=
  forallb (fun qn : list string * node => bool_decide (qn.1 = []) ||
    match t !! removelast qn.1 with Some m => is_directory m | None => false end) (map_to_list t).
Lemma well_formed_checked t : well_formed_check t = true -> well_formed t.
Proof.
  unfold well_formed_check. rewrite forallb_forall. intros H p c [n Hn]. apply elem_of_map_to_list in Hn.
  specialize (H _ (proj1 (list_elem_of_In _ _) Hn)). cbn [fst] in H. rewrite removelast_last in H.
  rewrite bool_decide_false in H by (by destruct p). cbn [orb] in H. destruct (t !! p) as [m|]; [|done]. by exists m.
Qed.
Lemma sample_well_formed : well_formed sample_tree.
Proof. apply well_formed_checked. vm_compute. reflexivity. Qed.
Lemma pair_second {A B} (x : A * B) b : x.2 = b -> x = (x.1, b).
Proof. destruct x. by intros <-. Qed.
Lemma sample_constructed : (construct service_user token_root sample_calls sample_tree).2 = Ok sample_session.
Proof. vm_compute. reflexivity. Qed.
Lemma token_sessions_witness :
  let t := destroy sample_session token_tree in
  moves token_root (sample_tree, []) (t, []) /\ t = sample_tree.
Proof.
  assert (H : moves token_root (sample_tree, []) (destroy sample_session token_tree, [])).
  { apply (Moves _ _ (token_tree, [sample_session])); [|exact (MoveDestroy token_root token_tree [] sample_session [])].
    apply (Moves _ _ (session_tree, [sample_session])).
    - apply (Moves _ _ (sample_tree, [])); [apply NoMoves|]. apply (MoveConstruct token_root service_user sample_calls).
      exact (pair_second _ _ sample_constructed).
    - apply (MoveToken token_root session_tree [sample_session] sample_session (node_of_leaf service_user sample_leaf)).
      + left. reflexivity.
      + vm_compute. reflexivity. }
  split; [exact H|].
  exact (proj2 (proj2 (proj2 (proj2 (token_sessions token_root sample_tree _ [] sample_well_formed H)))) eq_refl).
Defined.
Lemma token_handover_witness :
  let answers := [ReadBytes (chars "a."); ReadInterrupted; ReadBytes (chars "b.c"); ReadBytes []] in
  is_ok (parse_credential sample_issued 1000) = true /\
  read_private_token service_user token_tree (append sample_directory token_name) answers = Some (Ok "a.b.c"%string).
Proof.
  intros answers. split; [vm_compute; reflexivity|].
  set (parent := Some (MkStatus true true 448 2 0)). set (wa := [Wrote 2; WriteInterrupted; Wrote 3]).
  set (f := MkFinish (Some true) (Some true) (Some true) (Some true)).
  refine (token_handover sample_issued 1000 (MkCredential "a.b.c" 1300 1180 "" false) parent "token.jwt" 7 wa f ∅
            {[ "token.jwt"%string := sample_leaf ]} sample_leaf service_user token_tree sample_directory answers _ _ _ _ _ _ _).
  - vm_compute. reflexivity.
  - discriminate.
  - vm_compute. reflexivity.
  - vm_compute. reflexivity.
  - vm_compute. reflexivity.
  - vm_compute. reflexivity.
  - apply (ReadSome (chars "a.")); [discriminate|]. apply ReadAgain. apply (ReadSome (chars "b.c") []); [discriminate|]. apply ReadEnd.
Defined.
