(* ===== verification/Faults.v ===== *)
(** * Failing system calls of the store (src/state.cpp: write_durable_file, remove_durable, replay, commit)

    The store's machine stops between steps; here every call has an answer of its own instead: it
    succeeds, it fails and the process goes on, or the process is stopped before it.  First the
    durable write call by call, with its catch clause, whose unlink may fail as well; then a whole
    commit made of such writes and the removal of the journal.  Each refines the store's machine
    ([tracks]): what the calls leave is what the machine leaves at a stop, at most without the
    temporary of the write that failed. *)
From Stdlib Require Import ZArith Lia Bool Ascii String.
From stdpp Require Import gmap strings list sorting.
From S2P Require Import Prelude Chars Sha256 Uuid Json JsonFacts Time Protocol Identity Model Messages StateCheck Store StoreFacts OutboxFacts StoreSpec Observation Ledger Files.
Local Open Scope Z_scope.

(** ** The calls of a durable write *)

(** What the calls answer: whether the parent is a private directory, the opening of the temporary
    (in a replay, where there is one, its checks and its truncation too), the writes, and the rest,
    each with [Some] of whether it succeeds or [None] when the process is stopped before it.
    [directory_synced] is opening and syncing the directory; [temporary_unlinked] is the unlink of
    the catch clause, whose result the code ignores. *)
Record durable_calls := MkDurable {
  parent_private : bool; temporary_opened : option bool; write_answers : list write_answer;
  file_synced : option bool; file_renamed : option bool; directory_synced : option bool;
  temporary_unlinked : option bool }.
Definition write_failed : exn := RuntimeError "STATE_WRITE_FAILED".
(** The file after [n] bytes of the temporary are written. *)
Definition prefix_file (n : nat) (bytes : string) : entry := own_file (str (take n (chars bytes))).
Definition stopped : IO unit := fun s => (s, Stopped).
(** A call, what follows when it fails and when it succeeds. *)
Definition called (answer : option bool) (failure next : IO unit) : IO unit :=
  match answer with None => stopped | Some false => failure | Some true => next end.
(** The catch clause. *)
Definition unlink_temporary (k : durable_calls) (p : place) (name : string) : IO unit :=
  called (temporary_unlinked k) (fail write_failed) (_ ← change_dir p (delete (next_name name)); fail write_failed).
(** [fd]: the temporary is created, or, in a replay, a private one is opened and truncated. *)
Definition open_calls (k : durable_calls) (p : place) (name : string) (replay : bool) : IO unit :=
  if negb (parent_private k) then fail (RuntimeError "STATE_DIRECTORY_INVALID") else
  d ← read_dir p;
  match d !! next_name name with
  | None => called (temporary_opened k) (fail write_failed) (mret tt)
  | Some e =>
    if negb replay then fail write_failed
    else if private_entry e then called (temporary_opened k) (fail (RuntimeError "STATE_TEMPORARY_INVALID")) (mret tt)
    else fail (RuntimeError "STATE_TEMPORARY_INVALID")
  end.
Definition durable_write (k : durable_calls) (p : place) (name bytes : string) (replay : bool) : IO unit :=
  _ ← open_calls k p name replay;
  let '(n, ended) := write_loop write_failed (chars bytes) (write_answers k) 0 in
  _ ← change_dir p (fun d => <[next_name name := prefix_file n bytes]> d);
  match ended with
  | None => stopped
  | Some (Err _) => unlink_temporary k p name
  | Some (Ok _) =>
    called (file_synced k) (unlink_temporary k p name) (
    called (file_renamed k) (unlink_temporary k p name) (
      _ ← change_dir p (fun d => <[name := prefix_file n bytes]> (delete (next_name name) d));
      called (directory_synced k) (unlink_temporary k p name) (mret tt)))
  end.

(** The same disk. *)
Definition same_disk (s s' : machine) : Prop := root s = root s' /\ outbox s = outbox s'.
Definition with_ticks (n : nat) (t : string) (s : machine) : machine :=
  MkMachine (root s) (outbox s) n t (memory s).
(** The runs of the machine's write: whole, stopped, or stopped and without its temporary. *)
Definition whole_write (p : place) (name bytes : string) (replay : bool) (s s' : machine) : Prop :=
  exists s'', write_durable_file p name bytes replay (with_ticks 3 "" s) = (s'', Done tt) /\ same_disk s'' s'.
Definition stopped_write (p : place) (name bytes : string) (replay : bool) (s s' : machine) : Prop :=
  exists n t s'', write_durable_file p name bytes replay (with_ticks n t s) = (s'', Stopped) /\ same_disk s'' s'.
Definition cleaned_write (p : place) (name bytes : string) (replay : bool) (s s' : machine) : Prop :=
  exists n t s'', write_durable_file p name bytes replay (with_ticks n t s) = (s'', Stopped) /\
    same_disk (change_dir p (delete (next_name name)) s'').1 s'.

Lemma next_name_ne name : next_name name <> name.
Proof. intros H. apply (f_equal ssize) in H. rewrite next_name_size in H. lia. Qed.
Lemma same_disk_dir p d n t s : same_disk (set_dir p d (with_ticks n t s)) (set_dir p d s).
Proof. by destruct p. Qed.
Lemma set_dir_twice p d d' s : set_dir p d' (set_dir p d s) = set_dir p d' s.
Proof. by destruct p. Qed.
Lemma dir_of_set p d s : dir_of p (set_dir p d s) = d.
Proof. by destruct p. Qed.
Lemma set_dir_same p s : set_dir p (dir_of p s) s = s.
Proof. by destruct p, s. Qed.
Lemma set_dir_ticks p d n t s : set_dir p d (with_ticks n t s) = with_ticks n t (set_dir p d s).
Proof. by destruct p. Qed.
Lemma dir_of_ticks p n t s : dir_of p (with_ticks n t s) = dir_of p s.
Proof. by destruct p. Qed.
Create Rewrite HintDb places.
#[export] Hint Rewrite set_dir_twice dir_of_set set_dir_ticks dir_of_ticks : places.
Lemma write_runs p name bytes replay d s :
  dir_of p s = d -> writable name replay d ->
  (forall t, write_durable_file p name bytes replay (with_ticks 0 t s) = (with_ticks 0 t s, Stopped)) /\
  (forall t, write_durable_file p name bytes replay (with_ticks 1 t s) =
     (set_dir p (<[next_name name := own_file t]> d) (with_ticks 0 t s), Stopped)) /\
  (forall t, write_durable_file p name bytes replay (with_ticks 2 t s) =
     (set_dir p (written name bytes d) (with_ticks 0 t s), Stopped)) /\
  (forall n t, write_durable_file p name bytes replay (with_ticks (3 + n) t s) =
     (set_dir p (written name bytes d) (with_ticks n t s), Done tt)).
Proof.
  intros Hd Hw. unfold write_durable_file, open_temporary, writable in *.
  assert (X : forall n t, (d0 ← read_dir p; match d0 !! next_name name with None => mret tt | Some e =>
      if negb replay then fail (RuntimeError "STATE_WRITE_FAILED") else if private_entry e then mret tt
      else fail (RuntimeError "STATE_TEMPORARY_INVALID") end) (with_ticks n t s) = (with_ticks n t s, Done tt)).
  { intros n t. unfold mbind, IO_mbind, read_dir. assert (dir_of p (with_ticks n t s) = d) as -> by (by destruct p).
    destruct (d !! next_name name) as [e|]; [|done]. destruct Hw as [-> ->]. done. }
  assert (Y : forall t, <[name:=own_file bytes]> (delete (next_name name) (<[next_name name:=own_file t]> d)) = written name bytes d)
    by (intros t; unfold written; by rewrite delete_insert_eq).
  split_and!; [intros t..|intros n t]; unfold mbind, IO_mbind in *; rewrite X; destruct p; cbn; cbn in Hd; subst d; rewrite ?Y; done.
Qed.
Lemma write_refuses p name bytes replay s :
  ~ writable name replay (dir_of p s) ->
  exists e, forall n t, write_durable_file p name bytes replay (with_ticks n t s) = (with_ticks n t s, Thrown e).
Proof.
  unfold writable, write_durable_file, open_temporary, mbind, IO_mbind, read_dir. intros H.
  destruct (dir_of p s !! next_name name) as [e|] eqn:E; [|done].
  destruct replay; [destruct (private_entry e) eqn:Ep; [by destruct H|]|]; eexists; intros n t; rewrite dir_of_ticks, E; cbn; rewrite ?Ep; done.
Qed.

(** The courses of a durable write: it is refused or stopped before it changes anything; it ends
    with a temporary that holds a part of the bytes, or with that removed; or the file was renamed. *)
Inductive course (k : durable_calls) (p : place) (name bytes : string) (replay : bool) (s : machine) : machine * outcome unit -> Prop :=
  | course_refused r : (forall u, r <> Done u) -> (r = Stopped -> writable name replay (dir_of p s)) -> course k p name bytes replay s (s, r)
  | course_part x r :
      writable name replay (dir_of p s) -> r = Stopped \/ (r = Thrown write_failed /\ temporary_unlinked k = Some false) ->
      course k p name bytes replay s (set_dir p (<[next_name name := own_file x]> (dir_of p s)) s, r)
  | course_cleaned :
      writable name replay (dir_of p s) -> temporary_unlinked k = Some true ->
      course k p name bytes replay s (set_dir p (delete (next_name name) (dir_of p s)) s, Thrown write_failed)
  | course_renamed r :
      writable name replay (dir_of p s) -> r = Done tt \/ r = Stopped \/ (r = Thrown write_failed /\ is_Some (temporary_unlinked k)) ->
      course k p name bytes replay s (set_dir p (written name bytes (dir_of p s)) s, r).
Lemma open_calls_cases k p name replay s :
  (open_calls k p name replay s = (s, Done tt) /\ writable name replay (dir_of p s)) \/
  exists r, open_calls k p name replay s = (s, r) /\ (forall u, r <> Done u) /\ (r = Stopped -> writable name replay (dir_of p s)).
Proof.
  unfold open_calls, writable, called, stopped. destruct (negb _); [right; by eexists|]. unfold mbind, IO_mbind, read_dir.
  destruct (dir_of p s !! next_name name) as [e|].
  - destruct replay; cbn [negb]; [|right; by eexists]. destruct (private_entry e); [|right; by eexists].
    destruct (temporary_opened k) as [[]|]; [by left|right; by eexists..].
  - destruct (temporary_opened k) as [[]|]; [by left|right; by eexists..].
Qed.
Lemma unlink_course k p name bytes replay x s :
  writable name replay (dir_of p s) ->
  course k p name bytes replay s (unlink_temporary k p name (set_dir p (<[next_name name := own_file x]> (dir_of p s)) s)).
Proof.
  intros Hw. unfold unlink_temporary, called, stopped. destruct (temporary_unlinked k) as [[]|] eqn:E.
  - unfold mbind, IO_mbind, change_dir, fail. autorewrite with places. rewrite delete_insert_eq. by apply course_cleaned.
  - apply course_part; [done|by right].
  - apply course_part; [done|by left].
Qed.
Lemma durable_write_course k p name bytes replay s : course k p name bytes replay s (durable_write k p name bytes replay s).
Proof.
  unfold durable_write, mbind at 1, IO_mbind at 1.
  destruct (open_calls_cases k p name replay s) as [[-> Hw]|(r & -> & Hr & Hs)]; [|destruct r; [by destruct (Hr a)|by apply course_refused..]].
  pose proof (write_loop_Ok write_failed (chars bytes) (write_answers k) 0) as Hloop.
  destruct (write_loop write_failed (chars bytes) (write_answers k) 0) as [n ended]. cbn [fst snd] in Hloop.
  unfold mbind at 1, IO_mbind at 1, change_dir at 1. cbn beta iota.
  pose proof (unlink_course k p name bytes replay (str (take n (chars bytes))) s Hw) as Hu.
  assert (Hp : course k p name bytes replay s (set_dir p (<[next_name name := prefix_file n bytes]> (dir_of p s)) s, Stopped))
    by (apply course_part; [done|by left]).
  destruct ended as [[[]|e]|]; [|exact Hu|exact Hp].
  unfold called at 1. destruct (file_synced k) as [[]|]; [|exact Hu|exact Hp].
  unfold called at 1. destruct (file_renamed k) as [[]|]; [|exact Hu|exact Hp].
  unfold mbind, IO_mbind, change_dir. autorewrite with places. rewrite delete_insert_eq. unfold prefix_file.
  rewrite (Hloop tt eq_refl), str_chars. fold (written name bytes (dir_of p s)).
  unfold called. destruct (directory_synced k) as [[]|]; [by apply course_renamed; auto| |by apply course_renamed; auto].
  unfold unlink_temporary, called. destruct (temporary_unlinked k) as [[]|] eqn:E.
  - unfold mbind, IO_mbind, change_dir, fail. autorewrite with places.
    replace (delete (next_name name) (written name bytes (dir_of p s))) with (written name bytes (dir_of p s)).
    + apply course_renamed; [done|]. right; right. split; [done|by eexists].
    + unfold written. rewrite delete_insert_ne by (intros X; by apply (next_name_ne name)). by rewrite delete_delete_eq.
  - apply course_renamed; [done|]. right; right. split; [done|by eexists].
  - apply course_renamed; [done|]. auto.
Qed.

(** What a durable write may leave, and how it may end. *)
Definition write_outcome (k : durable_calls) (p : place) (name bytes : string) (replay : bool) (s : machine) (r : machine * outcome unit) : Prop :=
  match r.2 with
  | Done _ => whole_write p name bytes replay s r.1
  | Stopped => stopped_write p name bytes replay s r.1
  | Thrown e => r.1 = s \/ (e = write_failed /\
      match temporary_unlinked k with
      | Some true => cleaned_write p name bytes replay s r.1
      | Some false => stopped_write p name bytes replay s r.1
      | None => False
      end)
  end /\
  (dir_of p r.1 !! name = dir_of p s !! name \/ dir_of p r.1 !! name = Some (own_file bytes)).
(** C26: the calls of a durable write refine the write of the store's machine.  Whatever they answer,
    in however many calls the bytes are written: when the function returns, the disk is as the
    machine's whole write makes it; when the process is stopped, as one of the machine's stops; and
    when it throws, nothing changed, or the disk is one of the machine's stops, without the
    temporary if the catch clause could unlink it and with whatever there is if not.  So the file
    of that name is never anything but the old or the new bytes. *)
Theorem durable_write_refines k p name bytes replay s :
  write_outcome k p name bytes replay s (durable_write k p name bytes replay s).
Proof.
  assert (Hne : next_name name <> name) by apply next_name_ne.
  destruct (durable_write_course k p name bytes replay s) as [r Hr Hs|x r Hw Hr|Hw Hu|r Hw Hr]; unfold write_outcome; cbn [fst snd]; autorewrite with places.
  - split; [|by left]. destruct r; [by destruct (Hr a)|by left|].
    exists 0%nat, ""%string. eexists. split; [by apply (write_runs p name bytes replay _ s eq_refl (Hs eq_refl))|done].
  - destruct (write_runs p name bytes replay _ s eq_refl Hw) as (_ & R1 & _). rewrite lookup_insert_ne by done. split; [|by left].
    assert (Hst : stopped_write p name bytes replay s (set_dir p (<[next_name name := own_file x]> (dir_of p s)) s)).
    { exists 1%nat, x. eexists. split; [apply R1|]. apply same_disk_dir. }
    destruct Hr as [->|[-> ->]]; [done|by right].
  - destruct (write_runs p name bytes replay _ s eq_refl Hw) as (_ & R1 & _). rewrite lookup_delete_ne by done. split; [|by left].
    right. split; [done|]. rewrite Hu. exists 1%nat, ""%string. eexists. split; [apply R1|].
    unfold change_dir. cbn [fst]. autorewrite with places. rewrite delete_insert_eq. by destruct p.
  - destruct (write_runs p name bytes replay _ s eq_refl Hw) as (_ & _ & R2 & R3).
    split; [|right; unfold written; apply lookup_insert_eq].
    assert (Hst : stopped_write p name bytes replay s (set_dir p (written name bytes (dir_of p s)) s)).
    { exists 2%nat, ""%string. eexists. split; [apply R2|]. apply same_disk_dir. }
    destruct Hr as [->|[->|[-> [[] ->]]]]; [|done|right; split; [done|]|by right].
    + eexists. split; [apply (R3 0%nat)|]. apply same_disk_dir.
    + exists 2%nat, ""%string. eexists. split; [apply R2|]. unfold change_dir. cbn [fst]. autorewrite with places.
      replace (delete (next_name name) (written name bytes (dir_of p s))) with (written name bytes (dir_of p s)); [by destruct p|].
      unfold written. rewrite delete_insert_ne by (intros X; by apply Hne). by rewrite delete_delete_eq.
Qed.

(** ** The calls of a commit *)

(** What the calls of [remove_durable] answer: the unlink, which fails for another reason than that
    there is no such file, and opening and syncing the directory. *)
Record removal_calls := MkRemoval { file_unlinked : option bool; removal_synced : option bool }.
Definition remove_failed : exn := RuntimeError "STATE_REMOVE_FAILED".
Definition remove_calls (k : removal_calls) (p : place) (name : string) : IO unit :=
  called (file_unlinked k) (fail remove_failed) (
    _ ← change_dir p (delete name);
    called (removal_synced k) (fail remove_failed) (mret tt)).
(** [replay] and [commit] with the answers of the calls of each of their writes: [ks] by its
    position, the journal's first, then the state, its digest, the messages and the commit's digest. *)
Definition replay_message_calls (k : durable_calls) (msg : Json) : IO unit :=
  key ← pure (message_key msg);
  bytes ← pure (canonical msg);
  d ← read_dir Outbox;
  match d !! message_name key with
  | Some e =>
    if negb (private_entry e) then fail (RuntimeError "STATE_FILE_INVALID") else
    old ← read_file Outbox (message_name key) 16384;
    if String.eqb old bytes then mret tt else fail not_ready
  | None => durable_write k Outbox (message_name key) bytes true
  end.
Fixpoint replay_messages_calls (ks : nat -> durable_calls) (i : nat) (messages : list Json) : IO unit :=
  match messages with
  | [] => mret tt
  | msg :: messages' => _ ← replay_message_calls (ks i) msg; replay_messages_calls ks (S i) messages'
  end.
Definition replay_calls (ks : nat -> durable_calls) (uid : string) (txn : Json) : IO unit :=
  '(next, messages) ← pure (replay_checks uid txn);
  c ← pure (canonical next);
  _ ← durable_write (ks 1%nat) Root "state.json" c true;
  _ ← durable_write (ks 2%nat) Root "state.sha256" (sha256_hex c) true;
  _ ← replay_messages_calls ks 3 messages;
  t ← pure (canonical txn);
  _ ← durable_write (ks (3 + length messages)%nat) Root "commit.sha256" (sha256_hex t) true;
  remember_state next.
Definition commit_calls (ks : nat -> durable_calls) (rk : removal_calls) (uid : string) (next : Json) (messages : list Json) : IO bool :=
  d ← read_dir Outbox;
  _ ← pure (validate_state uid next);
  _ ← pure (validate_queue uid d);
  '(accepted, full) ← pure (accept_messages d messages (queued d) (queue_bytes d) false);
  let txn := txn_json next accepted in
  c ← pure (canonical txn);
  _ ← durable_write (ks 0%nat) Root "transaction.json" c false;
  _ ← replay_calls ks uid txn;
  _ ← remove_calls rk Root "transaction.json";
  mret (negb full).

(** *** Following the machine *)

(** The disk where the machine stopped, at most without one temporary. *)
Definition aborts (s2 s1 : machine) : Prop :=
  memory s1 = memory s2 /\
  (same_disk s2 s1 \/ exists p name, same_disk (change_dir p (delete (next_name name)) s2).1 s1).
(** The calls [m'] follow the machine's [m]: what they finish, it finishes in some number of steps;
    when they do not, it throws as well or may be stopped on the disk they leave. *)
Definition tracks {A} (m' m : IO A) : Prop := forall s,
  match m' s with
  | (s1, Done a) => exists j, forall n t, m (with_ticks (j + n) t s) = (with_ticks n t s1, Done a)
  | (s1, _) => exists n t, match m (with_ticks n t s) with
                           | (_, Done _) => False
                           | (_, Thrown _) => True
                           | (s2, Stopped) => aborts s2 s1
                           end
  end.
Lemma tracks_bind {A B} (m' m : IO A) (k' k : A -> IO B) :
  tracks m' m -> (forall a, tracks (k' a) (k a)) -> tracks (m' ≫= k') (m ≫= k).
Proof.
  intros Hm Hk s. specialize (Hm s). unfold mbind, IO_mbind. destruct (m' s) as [s1 [a|e|]].
  - destruct Hm as [j Hj]. specialize (Hk a s1). destruct (k' a s1) as [s2 [b|e|]].
    + destruct Hk as [j' Hj']. exists (j + j')%nat. intros n t. by rewrite <- Nat.add_assoc, Hj.
    + destruct Hk as (n & t & Hk). exists (j + n)%nat, t. by rewrite Hj.
    + destruct Hk as (n & t & Hk). exists (j + n)%nat, t. by rewrite Hj.
  - destruct Hm as (n & t & Hm). exists n, t. by destruct (m _) as [s2 [a|e'|]].
  - destruct Hm as (n & t & Hm). exists n, t. by destruct (m _) as [s2 [a|e'|]].
Qed.
(** A computation without steps follows itself. *)
Lemma tracks_same {A} (m : IO A) :
  (forall n t s, m (with_ticks n t s) = (with_ticks n t (m s).1, (m s).2)) -> tracks m m.
Proof.
  intros H s. destruct (m s) as [s1 [a|e|]] eqn:E.
  - exists 0%nat. intros n t. by rewrite H, E.
  - exists 0%nat, ""%string. by rewrite H, E.
  - exists 0%nat, ""%string. rewrite H, E. cbn. split; [done|by left].
Qed.
Lemma tracks_pure {A} (r : res A) : tracks (pure r) (pure r).
Proof. apply tracks_same. by destruct r. Qed.
Lemma tracks_ret {A} (a : A) : tracks (mret a) (mret a).
Proof. by apply tracks_same. Qed.
Lemma tracks_fail {A} e : tracks (A:=A) (fail e) (fail e).
Proof. by apply tracks_same. Qed.
Lemma tracks_read_dir p : tracks (read_dir p) (read_dir p).
Proof. apply tracks_same. by destruct p. Qed.
Lemma tracks_read_file p name limit : tracks (read_file p name limit) (read_file p name limit).
Proof. apply tracks_same. intros n t s. unfold read_file. rewrite dir_of_ticks. by destruct (read_entry _ _). Qed.
#[local] Instance writable_decision name replay d : Decision (writable name replay d).
Proof. unfold writable. destruct (d !! next_name name); apply _. Defined.
Lemma tracks_write k p name bytes replay : tracks (durable_write k p name bytes replay) (write_durable_file p name bytes replay).
Proof.
  intros s. pose proof (write_runs p name bytes replay _ s eq_refl) as Hruns.
  assert (Hstop : forall n t s2 s1, write_durable_file p name bytes replay (with_ticks n t s) = (s2, Stopped) -> aborts s2 s1 ->
    exists n t, match write_durable_file p name bytes replay (with_ticks n t s) with
                | (_, Done _) => False | (_, Thrown _) => True | (s2, Stopped) => aborts s2 s1 end).
  { intros n t s2 s1 E Ha. exists n, t. by rewrite E. }
  destruct (durable_write_course k p name bytes replay s) as [r Hr Hs|x r Hw Hr|Hw Hu|r Hw Hr].
  - destruct (decide (writable name replay (dir_of p s))) as [Hw|Hw].
    + destruct (Hruns Hw) as (R0 & _). destruct r; [by destruct (Hr a)|eapply (Hstop 0%nat ""%string), conj; [apply R0|done|by left]..].
    + destruct (write_refuses p name bytes replay s Hw) as [e He].
      destruct r; [by destruct (Hr a)|exists 0%nat, ""%string; by rewrite He..].
  - destruct (Hruns Hw) as (_ & R1 & _).
    destruct Hr as [->|[-> _]]; eapply (Hstop 1%nat x), conj; [apply R1|by destruct p|left; apply same_disk_dir|apply R1|by destruct p|left; apply same_disk_dir].
  - destruct (Hruns Hw) as (_ & R1 & _). eapply (Hstop 1%nat ""%string), conj; [apply R1|by destruct p|].
    right. exists p, name. unfold change_dir. cbn [fst]. autorewrite with places. rewrite delete_insert_eq. by destruct p.
  - destruct (Hruns Hw) as (_ & _ & R2 & R3). destruct Hr as [->|[->|[-> _]]].
    + exists 3%nat. intros n t. by rewrite R3, set_dir_ticks.
    + eapply (Hstop 2%nat ""%string), conj; [apply R2|by destruct p|left; apply same_disk_dir].
    + eapply (Hstop 2%nat ""%string), conj; [apply R2|by destruct p|left; apply same_disk_dir].
Qed.
Lemma tracks_remove k p name : tracks (remove_calls k p name) (remove_durable p name).
Proof.
  intros s. unfold remove_calls, called, stopped.
  destruct (file_unlinked k) as [[]|]; [|exists 0%nat, ""%string; split; [done|by left]..].
  unfold mbind, IO_mbind, change_dir. cbn beta iota.
  destruct (removal_synced k) as [[]|]; [exists 2%nat; intros n t; by destruct p|exists 1%nat, ""%string; destruct p; (split; [done|by left])..].
Qed.
Create HintDb follows.
#[export] Hint Resolve tracks_pure tracks_ret tracks_fail tracks_read_dir tracks_read_file tracks_write tracks_remove : follows.
Lemma tracks_message k msg : tracks (replay_message_calls k msg) (replay_message msg).
Proof.
  unfold replay_message_calls, replay_message. repeat (apply tracks_bind; [auto with follows|]; intros ?).
  destruct (_ !! _) as [e|]; [|auto with follows]. destruct (negb _); [auto with follows|].
  apply tracks_bind; [auto with follows|]. intros old. destruct (String.eqb _ _); auto with follows.
Qed.
Lemma tracks_messages ks i l : tracks (replay_messages_calls ks i l) (replay_messages l).
Proof.
  revert i. induction l as [|msg l IH]; intros i; [apply tracks_ret|]. apply tracks_bind; [apply tracks_message|done].
Qed.
Lemma tracks_replay ks uid txn : tracks (replay_calls ks uid txn) (replay uid txn).
Proof.
  unfold replay_calls, replay. apply tracks_bind; [auto with follows|]. intros [next messages].
  repeat (apply tracks_bind; [auto using tracks_messages with follows|]; intros ?). by apply tracks_same.
Qed.
(** What the machine's triple says of the calls. *)
Lemma tracks_triple {A} (m' m : IO A) P Q C s :
  tracks m' m -> triple P m Q C -> (forall n t, P (with_ticks n t s)) ->
  match m' s with
  | (s1, Done a) => Q a (with_ticks 0 "" s1)
  | (s1, _) => exists n t, let '(s2, r) := m (with_ticks n t s) in r = Stopped /\ C s2 /\ aborts s2 s1
  end.
Proof.
  intros Hm Ht HP. specialize (Hm s). destruct (m' s) as [s1 [a|e|]].
  - destruct Hm as [j Hj]. specialize (Ht _ (HP (j + 0)%nat ""%string)). by rewrite Hj in Ht.
  - destruct Hm as (n & t & Hm). exists n, t. specialize (Ht _ (HP n t)). by destruct (m _) as [s2 []].
  - destruct Hm as (n & t & Hm). exists n, t. specialize (Ht _ (HP n t)). by destruct (m _) as [s2 []].
Qed.

(** *** Without a temporary *)

(** A name of a temporary. *)
Definition is_next (name : string) : bool := has_suffix ".next" name.
Lemma suffix_app (a b suffix : string) : String.length b = String.length suffix -> has_suffix suffix (a +:+ b) = String.eqb b suffix.
Proof.
  intros Hl. unfold has_suffix. rewrite <- !length_chars in *. rewrite chars_app, length_app.
  replace (length (chars a) + length (chars b) - length (chars suffix))%nat with (length (chars a)) by lia.
  rewrite drop_app_length. destruct (String.eqb_spec b suffix) as [->|Hn]; [by apply bool_decide_eq_true|].
  apply bool_decide_eq_false. intros E. apply Hn. by apply chars_inj.
Qed.
Lemma next_is_next name : is_next (next_name name) = true.
Proof. unfold is_next, next_name. by rewrite suffix_app. Qed.
Lemma message_not_next k : is_next (message_name k) = false.
Proof. unfold is_next, message_name. by rewrite suffix_app. Qed.
Lemma blocked_not_next k : is_next (blocked_name k) = false.
Proof.
  unfold is_next, blocked_name. assert (E : k +:+ ".blocked" = (k +:+ ".bl"%string) +:+ "ocked"%string).
  { apply chars_inj. rewrite !chars_app. by rewrite <- (assoc_L app). }
  by rewrite E, suffix_app.
Qed.
Lemma delete_next (d : dir) name : (forall n e, d !! n = Some e -> is_next n = false) -> delete (next_name name) d = d.
Proof.
  intros H. apply delete_id. destruct (d !! next_name name) as [e|] eqn:E; [|done].
  pose proof (next_is_next name). by rewrite (H _ _ E) in *.
Qed.
Lemma rest_root_delete c d name : rest_root c d -> delete (next_name name) d = d.
Proof.
  intros (_ & _ & _ & Ha). apply delete_next. intros n e Hn. destruct (Ha n e Hn) as [H _]. unfold root_name_ok in H.
  cbn [andb] in H. rewrite orb_false_r in H. apply find_string_In, list_elem_of_In in H.
  repeat destruct H as [<-|H]; [..|by destruct H]; reflexivity.
Qed.
Lemma queue_names uid (d : dir) n e : queue_ok uid d -> d !! n = Some e -> is_next n = false.
Proof.
  intros Hq Hn. destruct (queue_entries _ _ _ _ Hq Hn) as [_ [k _ -> _ _|k _ -> _]]; [apply message_not_next|apply blocked_not_next].
Qed.
Lemma txn_root_delete t d name : txn_root t d -> txn_root t (delete (next_name name) d).
Proof.
  intros [Ht Ha]. split; [|by apply all_entries_delete]. rewrite lookup_delete_ne; [done|].
  intros E. pose proof (next_is_next name) as H. by rewrite E in H.
Qed.
Lemma add_messages_mono old p rest n : is_Some (add_messages old p !! n) -> is_Some (add_messages old (p ++ rest) !! n).
Proof.
  induction rest as [|kb rest IH] using rev_ind; [by rewrite app_nil_r|]. intros H. rewrite (assoc_L app), add_messages_snoc.
  apply lookup_insert_is_Some'. right. by apply IH.
Qed.
Lemma partly_delete uid old ms (d : dir) name : queue_ok uid (add_messages old ms) -> partly old ms d -> partly old ms (delete (next_name name) d).
Proof.
  intros Hq (p & rest & E & H). assert (Hp : delete (next_name name) (add_messages old p) = add_messages old p).
  { apply delete_next. intros n e Hn. assert (Hs : is_Some (add_messages old ms !! n)) by (rewrite E; apply add_messages_mono; by eexists).
    destruct Hs as [e' He']. by eapply queue_names. }
  exists p, rest. split; [done|]. destruct H as [->|(k & b & rest' & t & Er & ->)]; [by left|].
  destruct (decide (next_name name = next_name (message_name k))) as [Heq|Hne].
  - left. by rewrite <- Heq, delete_insert_eq.
  - right. exists k, b, rest', t. split; [done|]. by rewrite delete_insert_ne, Hp.
Qed.
(** What a commit that goes on after its journal may leave is not lost with a temporary. *)
Lemma journalled_aborts uid next o' s2 s1 :
  unfinished uid next o' s2 \/ at_rest uid next o' s2 -> aborts s2 s1 -> unfinished uid next o' s1 \/ at_rest uid next o' s1.
Proof.
  intros H [_ [[Er Eo]|(p & name & Er & Eo)]]; (destruct H as [(accepted & ms & c & t & old & Htx & Hf & [Hr Ho] & -> & Hh & Hq)|[(c & Hh & Hr) [Ho Hq]]]; [left|right]).
  - exists accepted, ms, c, t, old. split_and!; try done. split; [by rewrite <- Er|by rewrite <- Eo].
  - split; [exists c; by rewrite <- Er|by rewrite <- Eo].
  - exists accepted, ms, c, t, old. apply validate_queue_Ok in Hq as Hqok.
    split_and!; try done. destruct p; (split; [rewrite <- Er|rewrite <- Eo]); cbn [change_dir fst set_dir root outbox dir_of]; try done.
    + by apply txn_root_delete.
    + by apply (partly_delete uid).
  - apply validate_queue_Ok in Hq as Hqok. destruct p; cbn [change_dir fst set_dir root outbox dir_of] in Er, Eo.
    + rewrite (rest_root_delete c) in Er by done. split; [exists c; by rewrite <- Er|by rewrite <- Eo].
    + rewrite delete_next in Eo by (intros n e Hn; rewrite Ho in Hn; by eapply queue_names).
      split; [exists c; by rewrite <- Er|by rewrite <- Eo].
Qed.

(** *** The memory of the process *)

(** Operations that leave in memory what was there or [next]. *)
Section Memory.
Context (st next : Json).
Definition remembers {A} (m : IO A) : Prop :=
  forall s, memory s = st \/ memory s = next -> memory (m s).1 = st \/ memory (m s).1 = next.
Lemma remembers_bind {A B} (m : IO A) (k : A -> IO B) : remembers m -> (forall a, remembers (k a)) -> remembers (m ≫= k).
Proof.
  intros Hm Hk s Hs. specialize (Hm s Hs). unfold mbind, IO_mbind. destruct (m s) as [s' [a|e|]]; cbn [fst] in *; [by apply Hk|done..].
Qed.
Lemma remembers_pure {A} (r : res A) : remembers (pure r).
Proof. intros s Hs. by destruct r. Qed.
Lemma remembers_dir p f : remembers (change_dir p f).
Proof. intros s Hs. by destruct p. Qed.
Lemma remembers_tick : remembers tick.
Proof. intros s Hs. unfold tick. by destruct (ticks s). Qed.
Lemma remembers_same {A} (m : IO A) : (forall s, (m s).1 = s) -> remembers m.
Proof. intros H s Hs. by rewrite H. Qed.
Lemma remembers_write p name bytes replay : remembers (write_durable_file p name bytes replay).
Proof.
  unfold write_durable_file, open_temporary. apply remembers_bind.
  { apply remembers_bind; [by apply remembers_same|]. intros d. apply remembers_same. intros s. by repeat case_match. }
  intros _. apply remembers_bind; [apply remembers_tick|]. intros _. apply remembers_bind; [by apply remembers_same|]. intros t.
  apply remembers_bind; [apply remembers_dir|]. intros _. apply remembers_bind; [apply remembers_tick|]. intros _.
  apply remembers_bind; [apply remembers_dir|]. intros _. apply remembers_tick.
Qed.
Lemma remembers_messages l : remembers (replay_messages l).
Proof.
  induction l as [|m l IH]; cbn [replay_messages]; [by apply remembers_same|]. apply remembers_bind; [|done].
  unfold replay_message. apply remembers_bind; [apply remembers_pure|]. intros key.
  apply remembers_bind; [apply remembers_pure|]. intros bytes. apply remembers_bind; [by apply remembers_same|]. intros d.
  destruct (d !! _) as [e|]; [|apply remembers_write]. apply remembers_same. intros s. destruct (negb _); [done|].
  unfold mbind, IO_mbind, read_file, pure. destruct (read_entry _ _); [|done]. by destruct (String.eqb _ _).
Qed.
Lemma txn_state uid accepted n ms : replay_checks uid (txn_json next accepted) = Ok (n, ms) -> n = next.
Proof.
  unfold replay_checks. rewrite txn_json_object. intros (o & _ & H)%bind_Ok. apply bind_Ok in H as (x & _ & H).
  apply bind_Ok in H as (v & _ & H). apply bind_Ok in H as (y & _ & H). apply bind_Ok in H as (n' & Hn & H).
  apply bind_Ok in H as (z & _ & H). apply bind_Ok in H as (mj & _ & H). apply bind_Ok in H as (ms' & _ & H).
  apply bind_Ok in H as (w & _ & H). apply bind_Ok in H as (w' & _ & H). apply Ok_inj in H. injection H as <- _.
  apply Ok_inj in Hn. by rewrite <- Hn.
Qed.
Lemma remembers_replay uid accepted : remembers (replay uid (txn_json next accepted)).
Proof.
  unfold replay. destruct (replay_checks uid (txn_json next accepted)) as [[n ms]|e] eqn:E; [|by apply remembers_same].
  apply txn_state in E as ->. rewrite (pure_bind _ (next, ms)) by done. cbn beta iota.
  apply remembers_bind; [apply remembers_pure|]. intros c. apply remembers_bind; [apply remembers_write|]. intros _.
  apply remembers_bind; [apply remembers_write|]. intros _. apply remembers_bind; [apply remembers_messages|]. intros _.
  apply remembers_bind; [apply remembers_pure|]. intros t. apply remembers_bind; [apply remembers_write|]. intros _ s Hs.
  by right.
Qed.
Lemma remembers_journalled uid accepted (room : bool) :
  remembers (_ ← replay uid (txn_json next accepted); _ ← remove_durable Root "transaction.json"; mret room).
Proof.
  apply remembers_bind; [apply remembers_replay|]. intros _. apply remembers_bind; [|intros _; by apply remembers_same].
  unfold remove_durable. apply remembers_bind; [apply remembers_tick|]. intros _. apply remembers_bind; [apply remembers_dir|].
  intros _. apply remembers_tick.
Qed.
End Memory.

(** ** A commit whose calls fail *)

(** What a commit that did not return may have left, and why there may be a torn journal: the
    process was stopped before the journal was renamed, or the unlink of the catch clause failed. *)
Definition commit_left (ks : nat -> durable_calls) (uid : string) (next st : Json) (messages : list Json) (o : dir) (r : outcome bool) (s : machine) : Prop :=
  at_rest uid st o s \/
  (torn_journal uid st o s /\ (r = Stopped \/ temporary_unlinked (ks 0%nat) = Some false)) \/
  exists full o', commits_to o messages full o' /\ (unfinished uid next o' s \/ at_rest uid next o' s).
(** The rest of a commit whose journal is durable. *)
Lemma journalled_calls ks rk uid next st o accepted ms c t c0 r s room :
  transaction uid next accepted ms c t -> fresh_messages o ms -> rest_root c0 r ->
  holdable uid next c -> validate_queue uid (add_messages o ms) = Ok tt ->
  disk_is (written "transaction.json" t r) o st s ->
  match ((_ ← replay_calls ks uid (txn_json next accepted); _ ← remove_calls rk Root "transaction.json"; mret room) : IO bool) s with
  | (s', Done b) => at_rest uid next (add_messages o ms) s' /\ memory s' = next /\ b = room
  | (s', _) => (memory s' = st \/ memory s' = next) /\
      (unfinished uid next (add_messages o ms) s' \/ at_rest uid next (add_messages o ms) s')
  end.
Proof.
  intros Htx Hf Hr Hh Hq Hs.
  pose proof (journalled_triple uid next o accepted ms c t c0 r st room Htx Hf Hr Hh Hq) as T.
  match goal with |- match ?m' s with _ => _ end => match type of T with triple _ ?m _ _ =>
    assert (Hm : tracks m' m) by (apply tracks_bind; [apply tracks_replay|intros _; apply tracks_bind; [auto with follows|intros _; apply tracks_ret]]);
    pose proof (tracks_triple m' m _ _ _ s Hm T (fun _ _ => Hs)) as H end end.
  pose proof (fun n x => remembers_journalled st next uid accepted room (with_ticks n x s) (or_introl (proj2 (proj2 Hs)))) as Hmem.
  destruct (@mbind IO _ _ _ _ _ s) as [s1 [b|e|]]; [exact H|..];
    destruct H as (n & x & H); specialize (Hmem n x); destruct (@mbind IO _ _ _ _ _ (with_ticks n x s)) as [s2 y];
    destruct H as (-> & HC & Ha); (split; [destruct Ha as [-> _]; exact Hmem|by eapply journalled_aborts]).
Qed.
Lemma commit_calls_run ks rk uid next messages s st o :
  at_rest uid st o s -> memory s = st -> good_commit uid next messages ->
  match commit_calls ks rk uid next messages s with
  | (s', Done room) => exists o', commits_to o messages (negb room) o' /\ at_rest uid next o' s' /\ memory s' = next
  | (s', r) => (memory s' = st \/ memory s' = next) /\ commit_left ks uid next st messages o r s'
  end.
Proof.
  intros [(c0 & Hh & Hr) [Ho Hq]] Hmem Hg. unfold commit_calls, commit_left.
  assert (Hrest : at_rest uid st o s) by (split; [by exists c0|done]).
  rewrite (bind_done _ _ s s o) by (unfold read_dir; cbn [dir_of]; by rewrite Ho).
  destruct (validate_state uid next) as [[]|e] eqn:Hv; [|by split; left]. rewrite (pure_bind _ tt) by done.
  rewrite (pure_bind _ tt) by done.
  destruct (accept_messages o messages (queued o) (queue_bytes o) false) as [[accepted full]|e] eqn:Hacc; [|by split; left].
  rewrite (pure_bind _ (accepted, full)) by done. cbn beta iota zeta.
  destruct (canonical (txn_json next accepted)) as [t|e] eqn:Ht; [|by split; left]. rewrite (pure_bind _ t) by done.
  destruct (commit_planned uid next messages o accepted full t Hq Hg Hv Hacc Ht) as (ms & c & [_ _ _ Htx Hf Hq' Hnext Hto]).
  unfold mbind at 1, IO_mbind at 1.
  destruct (durable_write_course (ks 0%nat) Root "transaction.json" t false s) as [r Hr' _|x r _ Hr'|_ _|r _ Hr'].
  - destruct r; [by destruct (Hr' a)|by split; left..].
  - assert (Htorn : torn_journal uid st o (set_dir Root (<["transaction.json.next"%string := own_file x]> (root s)) s)) by (by exists c0, (root s), x).
    destruct Hr' as [->|[-> Hu]]; (split; [by left|]; right; left; auto).
  - split; [by left|]. left. cbn [dir_of]. rewrite (rest_root_delete c0) by done. by destruct s.
  - set (s1 := set_dir Root _ s). assert (Hs1 : disk_is (written "transaction.json" t (root s)) o st s1) by done.
    assert (Hunf : unfinished uid next (add_messages o ms) s1).
    { exists accepted, ms, c, t, o. split_and!; try done. split; [by eapply rest_root_txn|]. exists [], ms. split; [done|by left]. }
    destruct Hr' as [->|[->|[-> _]]]; [|split; [by left|]; right; right; exists full, (add_messages o ms); (split; [exact Hto|by left])..].
    pose proof (journalled_calls ks rk uid next st o accepted ms c t c0 (root s) s1 (negb full) Htx Hf Hr Hnext Hq' Hs1) as H.
    destruct (@mbind IO _ _ _ _ _ s1) as [s' [room|e|]].
    + destruct H as (H1 & H2 & ->). exists (add_messages o ms). by rewrite negb_involutive.
    + destruct H as [H1 H2]. split; [done|]. right. right. by exists full, (add_messages o ms).
    + destruct H as [H1 H2]. split; [done|]. right. right. by exists full, (add_messages o ms).
Qed.

(** C27: failing system calls never damage the store, but for one window, though the process may
    lose step with it.  Whatever the calls of a commit's writes and of its removal of the journal
    answer, the unlinks of the catch clauses included: a commit that returns has stored the new state
    and exactly the accepted messages.  When it throws or is stopped, the process keeps the old or the
    new state in memory, and every later opening that is not stopped finds the old state and queue
    or the new ones; only where the temporary of the journal was left, since the process was stopped
    before its rename or the cleanup's unlink failed, openings refuse. *)
Theorem failed_commit ks rk uid epoch st o s m t next messages :
  at_rest uid st o s -> memory s = st -> good_commit uid next messages -> (open_steps <= m)%nat ->
  match commit_calls ks rk uid next messages s with
  | (s', Done room) => exists o', commits_to o messages (negb room) o' /\ at_rest uid next o' s' /\ memory s' = next
  | (s', r) => (memory s' = st \/ memory s' = next) /\
      ((torn_journal uid st o s' /\ (r = Stopped \/ temporary_unlinked (ks 0%nat) = Some false)) \/
       exists s'', open_store uid epoch (restart m t s') = (s'', Done tt) /\
         ((at_rest uid st o s'' /\ memory s'' = st) \/
          exists full o', commits_to o messages full o' /\ at_rest uid next o' s'' /\ memory s'' = next))
  end.
Proof.
  intros Hrest Hmem Hg Hm. pose proof (commit_calls_run ks rk uid next messages s st o Hrest Hmem Hg) as H.
  assert (Hleft : forall r s', commit_left ks uid next st messages o r s' ->
    (torn_journal uid st o s' /\ (r = Stopped \/ temporary_unlinked (ks 0%nat) = Some false)) \/
    exists s'', open_store uid epoch (restart m t s') = (s'', Done tt) /\
      ((at_rest uid st o s'' /\ memory s'' = st) \/
       exists full o', commits_to o messages full o' /\ at_rest uid next o' s'' /\ memory s'' = next)).
  { intros r s' [L|[L|(full & o' & Hto & L)]]; [|by left|].
    - destruct (open_completes uid epoch st o (restart m t s')) as (s'' & E & L1 & L2); [by right|exact Hm|].
      right. exists s''. split; [done|by left].
    - destruct (open_completes uid epoch next o' (restart m t s')) as (s'' & E & L1 & L2); [exact L|exact Hm|].
      right. exists s''. split; [done|]. right. by exists full, o'. }
  destruct (commit_calls _ _ _ _ _ s) as [s' [room|e|]]; [exact H|..];
    destruct H as [H1 H2]; (split; [exact H1|by apply Hleft]).
Qed.
(** In a process that goes on with the journal's temporary left, no commit succeeds again. *)
Lemma torn_commit_refused ks rk uid st o s next messages room :
  torn_journal uid st o s -> (commit_calls ks rk uid next messages s).2 <> Done room.
Proof.
  intros (c & r & t & _ & _ & Hroot & _). unfold commit_calls, mbind, IO_mbind, read_dir, pure.
  destruct (validate_state _ _); [|done]. destruct (validate_queue _ _); [|done]. destruct (accept_messages _ _ _ _ _) as [[accepted full]|]; [|done].
  cbn beta iota zeta. destruct (canonical _); [|done]. unfold durable_write, open_calls, mbind, IO_mbind, read_dir.
  destruct (negb (parent_private _)); [done|]. cbn [dir_of]. rewrite Hroot.
  change (next_name "transaction.json") with "transaction.json.next"%string. by rewrite lookup_insert_eq.
Qed.

(** *** A process that goes on after a failure *)

(** The state of another transaction the process computes from what it has in memory. *)
Definition other_next (j : Json) : Json :=
  JObject (obj_set "lastPublishedAt" (JInt 9) (match j with JObject o => o | _ => [] end)).
(** Calls that all succeed; those of a write whose file cannot be synced, its temporary unlinked or not. *)
Definition calls_succeed : durable_calls :=
  MkDurable true (Some true) (replicate 9 (Wrote 512)) (Some true) (Some true) (Some true) (Some true).
Definition sync_fails (unlinked : bool) : durable_calls :=
  MkDurable true (Some true) (replicate 9 (Wrote 512)) (Some false) (Some true) (Some true) (Some unlinked).
Definition calls_at (i : nat) (k : durable_calls) (j : nat) : durable_calls := if Nat.eqb j i then k else calls_succeed.
Definition removal_succeeds : removal_calls := MkRemoval (Some true) (Some true).
Abbreviation sample_commit ks := (commit_calls ks removal_succeeds sample_uid sample_next [sample_message]) (only parsing).
(** Syncing the last file of a commit fails: the message is queued and the journal durable, but the
    caller gets an exception and the memory is the old state.  The next commit replaces the journal:
    the queue keeps the message of a transaction whose state is never stored. *)
Example failed_commit_splits :
  (let '(s1, r1) := sample_commit (calls_at 4 (sync_fails true)) opened_machine in
   let '(s2, r2) := commit_calls (fun _ => calls_succeed) removal_succeeds sample_uid (other_next (memory s1)) [] s1 in
   let '(s3, r3) := open_store sample_uid sample_source (restart 29 "" s2) in
   (r1, memory s1, queued (outbox s1), r2, memory s2, queued (outbox s2), r3, memory s3)) =
  (Thrown write_failed, sample_initial, 1, Done true, other_next sample_initial, 1, Done tt, other_next sample_initial).
Proof. vm_compute. reflexivity. Qed.
(** The journal cannot be synced and its temporary not be unlinked: the store refuses to be opened. *)
Example failed_cleanup_refused :
  (let '(s1, r1) := sample_commit (calls_at 0 (sync_fails false)) opened_machine in
   let '(s2, r2) := sample_commit (fun _ => calls_succeed) s1 in
   (r1, r2, (open_store sample_uid sample_source (restart 29 "" s2)).2)) =
  (Thrown write_failed, Thrown write_failed, Thrown not_ready).
Proof. vm_compute. reflexivity. Qed.
Lemma failed_commit_witness :
  at_rest sample_uid sample_initial ∅ opened_machine /\
  exists s', sample_commit (calls_at 4 (sync_fails true)) opened_machine = (s', Thrown write_failed) /\
    exists s'', open_store sample_uid sample_source (restart 29 "" s') = (s'', Done tt).
Proof.
  split; [exact opened_at_rest|].
  assert (Em : memory opened_machine = sample_initial) by (vm_compute; reflexivity).
  assert (E2 : (sample_commit (calls_at 4 (sync_fails true)) opened_machine).2 = Thrown write_failed) by (vm_compute; reflexivity).
  pose proof (failed_commit (calls_at 4 (sync_fails true)) removal_succeeds sample_uid sample_source sample_initial ∅ opened_machine 29 "" sample_next [sample_message]
    opened_at_rest Em sample_good (le_n _)) as H.
  destruct (sample_commit (calls_at 4 (sync_fails true)) opened_machine) as [s' [x|e|]]; cbn [snd] in E2.
  - discriminate E2.
  - injection E2 as ->. exists s'. split; [reflexivity|]. destruct H as (_ & [[_ [H|H]]|(s'' & H & _)]).
    + discriminate H.
    + discriminate H.
    + exists s''. exact H.
  - discriminate E2.
Defined.
