(* ===== verification/Directories.v ===== *)
(** * The stream's directory (the constructor's first lines in include/aosedge/function_observation.hpp)

    Before it reads its ledger the stream makes its directory: no link may stand for it or any
    directory above it, missing ones are created, and it has to be the user's own, is made private
    and is locked.  Here on the tree of Tokens; what the calls answer is [Preparation]. *)
From Stdlib Require Import ZArith Lia Bool Ascii String.
From stdpp Require Import gmap strings list.
From S2P Require Import Prelude Chars Protocol Identity Store StoreFacts Observation Session Files Tokens.
Local Open Scope Z_scope.

(** [umask]; whether mkdir succeeds below a directory; whether chmod, opening and locking do. *)
Record Preparation := MkPreparation {
  umask : Z; may_create : list string -> bool; mode_changed : bool; directory_opened : bool; directory_locked : bool }.
Definition filesystem_error : exn := RuntimeError "filesystem error".
(** The paths the loop over the elements visits below the root directory. *)
Fixpoint parts (part elements : list string) : list (list string) :=
  match elements with
  | [] => [part]
  | element :: elements' => part :: parts (part ++ [element]) elements'
  end.
Definition is_link (t : tree) (p : list string) : bool :=
  match t !! p with Some n => bool_decide (node_kind n = Symlink) | None => false end.
(** [std::filesystem::create_directories] where no link is on the way; [current] is there. *)
Fixpoint create_directories (u : User) (k : Preparation) (t : tree) (current names : list string) : tree * res unit :=
  match names with
  | [] => (t, Ok tt)
  | name :: names' =>
    let next := current ++ [name] in
    match t !! next with
    | Some n => if is_directory n then create_directories u k t next names' else (t, Err filesystem_error)
    | None =>
      if may_create k current
      then create_directories u k (<[next := MkNode Directory (euid u) (egid u) (Z.ldiff 511 (umask k)) 2 true ""]> t) next names'
      else (t, Err filesystem_error)
    end
  end.
Definition make_private (n : node) : node :=
  MkNode (node_kind n) (node_owner n) (node_group n) 448 (node_links n) (may_open n) (node_bytes n).
Definition prepare_directory (u : User) (k : Preparation) (root : list string) (t : tree) : tree * res unit :=
  if existsb (is_link t) (parts [] root) then (t, Err unavailable)
  else match create_directories u k t [] root with
  | (t, Err e) => (t, Err e)
  | (t, Ok _) =>
    match t !! root with
    | None => (t, Err unavailable)
    | Some n =>
      if negb (is_directory n) || negb (node_owner n =? euid u) then (t, Err unavailable)
      else if negb (mode_changed k) then (t, Err unavailable)
      else
        let t := <[root := make_private n]> t in
        if negb (directory_opened k) || negb (directory_locked k) then (t, Err unavailable) else (t, Ok tt)
    end
  end.

(** ** What is made *)

(** A directory of the user's that was not there. *)
Definition made_directory (u : User) (k : Preparation) (t : tree) (p : list string) (n : node) : Prop :=
  t !! p = None /\ n = MkNode Directory (euid u) (egid u) (Z.ldiff 511 (umask k)) 2 true "".
Lemma parts_prefix part l q : In q (parts part l) <-> part `prefix_of` q /\ q `prefix_of` part ++ l.
Proof.
  revert part. induction l as [|x l IH]; intros part; cbn [parts In].
  - rewrite app_nil_r. split; [intros [->|[]]; done|]. intros [H1 H2]. left. by apply (anti_symm prefix).
  - rewrite IH. replace (part ++ x :: l) with ((part ++ [x]) ++ l) by (by rewrite <- (assoc_L app)). split.
    + intros [->|[H1 H2]]; (split; [|try done]); [done|by do 2 apply prefix_app_r|by eapply prefix_app_l].
    + intros [[r ->] H]. destruct r as [|y r]; [left; by rewrite app_nil_r|]. right. assert (E : y = x).
      { rewrite <- (assoc_L app) in H. apply prefix_app_inv in H. by apply prefix_cons_inv_1 in H. }
      subst y. split; [exists r; by rewrite <- (assoc_L app)|done].
Qed.
Lemma not_linked t root :
  existsb (is_link t) (parts [] root) = false <-> forall q, q `prefix_of` root -> is_link t q = false.
Proof.
  rewrite <- not_true_iff_false, existsb_exists. split.
  - intros H q Hq. apply not_true_iff_false. intros Hl. apply H. exists q. split; [|done]. apply parts_prefix. split; [apply prefix_nil|done].
  - intros H (q & [_ Hq]%parts_prefix & Hl). by rewrite H in Hl.
Qed.
Lemma create_directories_run u k t current names :
  (forall q, q `prefix_of` current -> exists n, t !! q = Some n /\ is_directory n = true) ->
  let '(t', r) := create_directories u k t current names in
  (forall p n, t !! p = Some n -> t' !! p = Some n) /\
  (forall p n, t' !! p = Some n -> t !! p = Some n \/ (p `prefix_of` current ++ names /\ made_directory u k t p n)) /\
  (r = Ok tt -> forall q, q `prefix_of` current ++ names -> exists n, t' !! q = Some n /\ is_directory n = true).
Proof.
  revert t current. induction names as [|name names IH]; intros t current Hc; cbn [create_directories].
  { split_and!; [done|by left|]. rewrite app_nil_r. intros _. exact Hc. }
  assert (Hstep : forall t1 : tree, (forall q, q `prefix_of` current -> exists n, t1 !! q = Some n /\ is_directory n = true) ->
    (exists n, t1 !! (current ++ [name]) = Some n /\ is_directory n = true) ->
    forall q, q `prefix_of` current ++ [name] -> exists n, t1 !! q = Some n /\ is_directory n = true).
  { intros t1 H1 H2 q [r Hr]. destruct (decide (r = [])) as [->|Hr0]; [by rewrite app_nil_r in Hr; subst q|].
    destruct (exists_last Hr0) as (r' & x & ->). rewrite (assoc_L app) in Hr. apply app_inj_tail in Hr as [-> _].
    apply H1. by exists r'. }
  replace (current ++ name :: names) with ((current ++ [name]) ++ names) by (by rewrite <- (assoc_L app)).
  destruct (t !! (current ++ [name])) as [n|] eqn:En.
  - destruct (is_directory n) eqn:Ed; [|split_and!; [done|by left|done]]. apply IH. apply Hstep; [done|by exists n].
  - destruct (may_create k current); [|split_and!; [done|by left|done]].
    set (d := MkNode _ _ _ _ _ _ _). specialize (IH (<[current ++ [name] := d]> t) (current ++ [name])).
    destruct (create_directories _ _ _ _ _) as [t' r]. destruct IH as (H1 & H2 & H3).
    { apply Hstep; [|exists d; by rewrite lookup_insert_eq]. intros q Hq. destruct (Hc q Hq) as (n & Hn & Hd). exists n.
      rewrite lookup_insert_ne; [done|]. intros E. by rewrite <- E, En in Hn. }
    split_and!; [|intros p n Hp|done].
    + intros p n Hp. apply H1. rewrite lookup_insert_ne; [done|]. intros E. by rewrite <- E, En in Hp.
    + destruct (H2 p n Hp) as [H|(Hpre & Hnone & ->)].
      * destruct (decide (p = current ++ [name])) as [->|Hne]; [|rewrite lookup_insert_ne in H by done; by left].
        rewrite lookup_insert_eq in H. right. split; [by apply prefix_app_r|]. split; [done|by injection H as <-].
      * right. split; [done|]. split; [|done]. destruct (decide (p = current ++ [name])) as [->|Hne].
        -- by rewrite lookup_insert_eq in Hnone.
        -- by rewrite lookup_insert_ne in Hnone.
Qed.
(** What the creation needs: every name on the way is a directory or can be made one. *)
Definition can_create (k : Preparation) (t : tree) (current names : list string) : Prop :=
  forall q x r, names = q ++ x :: r ->
    match t !! (current ++ q ++ [x]) with Some n => is_directory n = true | None => may_create k (current ++ q) = true end.
Lemma can_create_cons k t current name names :
  can_create k t current (name :: names) <->
  match t !! (current ++ [name]) with Some n => is_directory n = true | None => may_create k current = true end /\
  can_create k t (current ++ [name]) names.
Proof.
  unfold can_create. split.
  - intros H. split; [specialize (H [] name names eq_refl); by rewrite app_nil_r in H|].
    intros q x r ->. specialize (H (name :: q) x r eq_refl). by rewrite <- !(assoc_L app).
  - intros [H1 H2] [|y q] x r; intros [= -> ->]; [by rewrite app_nil_r|]. specialize (H2 q x r eq_refl).
    by rewrite <- !(assoc_L app) in H2.
Qed.
Lemma create_directories_Ok u k t current names :
  (create_directories u k t current names).2 = Ok tt <-> can_create k t current names.
Proof.
  revert t current. induction names as [|name names IH]; intros t current; [split; [intros _ [] ? ? [=]|done]|].
  rewrite can_create_cons. cbn [create_directories]. destruct (t !! (current ++ [name])) as [n|] eqn:En.
  - destruct (is_directory n); [rewrite IH; tauto|]. cbn. split; [done|]. by intros [[=] _].
  - destruct (may_create k current); [|cbn; split; [done|]; by intros [[=] _]]. rewrite IH.
    assert (E : forall d, can_create k (<[current ++ [name] := d]> t) (current ++ [name]) names <-> can_create k t (current ++ [name]) names).
    { intros d. unfold can_create. split; intros H q x r Hr; specialize (H q x r Hr);
        (rewrite lookup_insert_ne in * ; [done|]); intros E; apply (f_equal length) in E; rewrite !length_app in E; cbn in E; lia. }
    rewrite E. tauto.
Qed.
(** The stream's directory is made safely.  Whatever the calls answer, nothing that was there is
    removed or changed but the mode of the user's own directory, and nothing is made but missing
    directories on its path.  It succeeds just when no link is on the path, everything on it is a
    directory or can be made one, the directory is the user's own and the calls succeed; and then
    every part of the path is a real directory and the last one is the user's and private. *)
Theorem directory_prepared u k root t :
  (exists n, t !! [] = Some n /\ is_directory n = true) ->
  let '(t', r) := prepare_directory u k root t in
  (forall p n, t !! p = Some n ->
    t' !! p = Some n \/ (p = root /\ node_owner n = euid u /\ t' !! p = Some (make_private n))) /\
  (forall p n, p <> root -> t' !! p = Some n -> t !! p = Some n \/ (p `prefix_of` root /\ made_directory u k t p n)) /\
  (r = Ok tt <-> (forall q, q `prefix_of` root -> is_link t q = false) /\ can_create k t [] root /\
     (forall n, t !! root = Some n -> node_owner n = euid u) /\
     mode_changed k = true /\ directory_opened k = true /\ directory_locked k = true) /\
  (r = Ok tt -> (forall q, q `prefix_of` root -> exists n, t' !! q = Some n /\ node_kind n = Directory) /\
     exists n, t' !! root = Some n /\ node_owner n = euid u /\ node_mode n = 448).
Proof.
  intros Htop. unfold prepare_directory. pose proof (not_linked t root) as Hlink. destruct (existsb _ _).
  { split_and!; [by left|by left| |done]. split; [done|]. intros (H & _). by apply Hlink in H. }
  assert (Hl : forall q, q `prefix_of` root -> is_link t q = false) by (by apply Hlink). clear Hlink.
  pose proof (create_directories_Ok u k t [] root) as Hcan. pose proof (create_directories_run u k t [] root) as Hrun.
  destruct (create_directories u k t [] root) as [t1 r1]. cbn [snd app] in *.
  destruct Hrun as (Hold & Hnew & Hdir). { intros q ->%prefix_nil_inv. exact Htop. }
  destruct r1 as [[]|e].
  2: { split_and!; [intros p n Hp; left; by apply Hold|intros p n _; apply Hnew| |done]. split; [done|].
       intros (_ & H & _). apply Hcan in H. done. }
  specialize (Hdir eq_refl). destruct (Hdir root) as (n & Hn & Hd); [done|]. rewrite Hn, Hd. cbn [negb orb].
  assert (Hroot : node_owner n = euid u <-> forall m, t !! root = Some m -> node_owner m = euid u).
  { split; [intros Ho m Hm; apply Hold in Hm; congruence|]. intros H.
    destruct (Hnew root n Hn) as [Hm|(_ & _ & ->)]; [by apply H|done]. }
  assert (Hfail : forall Q R : Prop, (Q -> False) ->
    (forall p m, t !! p = Some m -> t1 !! p = Some m \/ (p = root /\ node_owner m = euid u /\ t1 !! p = Some (make_private m))) /\
    (forall p m, p <> root -> t1 !! p = Some m -> t !! p = Some m \/ (p `prefix_of` root /\ made_directory u k t p m)) /\
    (Err unavailable = Ok tt <-> Q) /\ (Err unavailable = Ok tt -> R)).
  { intros Q R HQ. split_and!; [intros p m Hp; left; by apply Hold|intros p m _; apply Hnew|by split|done]. }
  destruct (Z.eqb_spec (node_owner n) (euid u)) as [Ho|Ho]; cbn [negb]; [|apply Hfail; rewrite <- Hroot; tauto].
  destruct (mode_changed k); cbn [negb]; [|apply Hfail; by intros (_ & _ & _ & ? & _)].
  set (t2 := <[root := make_private n]> t1).
  assert (Hkept : (forall p m, t !! p = Some m -> t2 !! p = Some m \/ (p = root /\ node_owner m = euid u /\ t2 !! p = Some (make_private m))) /\
    (forall p m, p <> root -> t2 !! p = Some m -> t !! p = Some m \/ (p `prefix_of` root /\ made_directory u k t p m))).
  { split; intros p m; unfold t2.
    - intros Hp. apply Hold in Hp. destruct (decide (p = root)) as [->|Hne]; [|left; by rewrite lookup_insert_ne].
      right. assert (m = n) as -> by congruence. by rewrite lookup_insert_eq.
    - intros Hne. rewrite lookup_insert_ne by done. apply Hnew. }
  destruct Hkept as [Hk1 Hk2].
  destruct (directory_opened k); cbn [negb orb]; [|split_and!; try done; split; [done|by intros (_ & _ & _ & _ & ? & _)]].
  destruct (directory_locked k); cbn [negb]; [|split_and!; try done; split; [done|by intros (_ & _ & _ & _ & _ & ?)]].
  split_and!; [done|done|tauto|]. intros _. split.
  - intros q Hq. destruct (decide (q = root)) as [->|Hne].
    + exists (make_private n). unfold t2. rewrite lookup_insert_eq. split; [done|]. by apply bool_decide_eq_true in Hd.
    + destruct (Hdir q Hq) as (m & Hm & Hmd). exists m. unfold t2. rewrite lookup_insert_ne by done. split; [done|].
      by apply bool_decide_eq_true in Hmd.
  - exists (make_private n). unfold t2. by rewrite lookup_insert_eq.
Qed.

(** ** The directory of a new unit *)

Definition function_root : list string := elements (path_of "/storage/tire-health/function-observations/v3").
Definition storage_tree : tree := list_to_map [([], system_directory 493); (["storage"%string], new_directory service_user)].
Definition sample_preparation : Preparation := MkPreparation 63 (fun p => negb (bool_decide (p = []))) true true true.
Example directory_made :
  let '(t, r) := prepare_directory service_user sample_preparation function_root storage_tree in
  r = Ok tt /\ bool_decide (t !! function_root = Some (new_directory service_user)) = true /\ size t = 5%nat /\
  (prepare_directory service_user sample_preparation function_root
     (<[["storage"; "tire-health"]%string := MkNode Symlink 1001 1001 511 1 true ""]> storage_tree)).2 = Err unavailable.
Proof. vm_compute. by split_and!. Qed.
Lemma directory_prepared_witness :
  let t' := (prepare_directory service_user sample_preparation function_root storage_tree).1 in
  exists n, t' !! function_root = Some n /\ node_owner n = 1001 /\ node_mode n = 448.
Proof.
  assert (H0 : exists n, storage_tree !! [] = Some n /\ is_directory n = true).
  { exists (system_directory 493). split; vm_compute; reflexivity. }
  pose proof (directory_prepared service_user sample_preparation function_root storage_tree H0) as H.
  assert (E : (prepare_directory service_user sample_preparation function_root storage_tree).2 = Ok tt) by (vm_compute; reflexivity).
  destruct (prepare_directory service_user sample_preparation function_root storage_tree) as [t' r]. cbn [fst snd] in *. subst r.
  destruct H as (_ & _ & _ & H). exact (proj2 (H eq_refl)).
Defined.
