(* ===== verification/Process.v ===== *)
(** * The processes (main and stop_child of src/runtime/bootstrap_main.cpp)

    The bootstrap process from its arguments to its exit code: the checks of its inputs, the wait
    for the public inputs, the token session, the child it starts and how it ends it.  The
    credential loop is Bootstrap's, the session's directory Tokens', the child's start-up checks
    MainLoop's, the demonstrations Demo's; what the operating system answers is [Host].  That the child is started with what
    its own checks ask for, and that nothing is left behind, are theorems about all of them. *)
From Stdlib Require Import ZArith Lia Bool Ascii String.
From stdpp Require Import gmap strings list.
From S2P Require Import Prelude Chars Float64 Json Time Protocol Http Identity Model Store StoreFacts StoreSpec Service ServiceFacts ServiceSpec Session Bootstrap Subscription MainLoop Demo Files Tokens.
Local Open Scope Z_scope.

(** ** Ending the child *)

Inductive signal := SIGTERM | SIGKILL.
(** What waitpid with [WNOHANG] answers: the child, [ECHILD], or anything else. *)
Inductive waited := Reaped | NoChild | Otherwise.
(** The polls after SIGTERM, a tenth of a second apart: whether one finds the child gone. *)
Fixpoint child_gone (n : nat) (answers : nat -> waited) : bool :=
  match n with
  | O => false
  | S n' => match answers O with Reaped | NoChild => true | Otherwise => child_gone n' (fun i => answers (S i)) end
  end.
(** The signals sent and how many tenths of a second were waited; the blocking waitpid follows a
    SIGKILL, which no process outlives. *)
Definition stop_child (answers : nat -> waited) : list signal :=
  if child_gone 50 answers then [SIGTERM] else [SIGTERM; SIGKILL].

(** ** The bootstrap process *)

(** The answers of the operating system.  [arguments] are without the program's name; [read] reads
    required files; [waits] are the checks of the waiting loop, each with [interrupted] and the
    reader of public files it meets; [interrupted_then] is [interrupted] after that loop; [ticks]
    are the iterations of the credential loop until the process is interrupted, [last_removed]
    whether the token can be removed then; [mock], [epoch],
    [store] and [turns] are what the mock demonstration meets. *)
Record Host := MkHost {
  arguments : list string; environment : gmap string string; read : string -> Z -> res string;
  waits : list (bool * (string -> Z -> res (option string))); interrupted_then : bool;
  unset_secret : bool; set_token_file : bool; set_resolver : bool; forked : bool;
  user : User; session_calls : Calls; files : tree; ticks : list Tick; last_removed : bool; polls : nat -> waited;
  mock : Analytics.World; epoch : string; store : machine; turns : nat }.
(** The child as it is started: its arguments, its environment and the files then. *)
Record Child := MkChild { child_arguments : list string; child_environment : gmap string string; child_files : tree }.
Record Ended := MkEnded { exit_code : Z; child : option Child; signals : list signal; files_left : tree }.

Definition path_text (p : path) : string := str (flat_map (fun name => "/"%char :: chars name) (elements p)).
(** The arguments of execl after the program's name. *)
Definition child_argv (inputs : ApplicationInputs) : list string :=
  ["--metadata-file"; metadata_file inputs; "--ca-file"; ca_file inputs]%string.
(** The loop before the session: nothing while it still waits. *)
Fixpoint wait_for_inputs (inputs : ApplicationInputs) (l : list (bool * (string -> Z -> res (option string)))) : option (res bool) :=
  match l with
  | [] => None
  | (interrupted, reader) :: l' =>
    if interrupted : bool then Some (Ok false)
    else match initial_runtime_metadata reader inputs with
         | Err e => Some (Err e)
         | Ok (Some _) => Some (Ok true)
         | Ok None => wait_for_inputs inputs l'
         end
  end.
(** The session's token as the loop has left it. *)
Definition place_token (u : User) (s : TokenSession) (token : option string) (t : tree) : tree :=
  match token with
  | None => t
  | Some text => <[session_fd s ++ [token_name] := node_of_leaf u (MkLeaf (chars text) 256)]> t
  end.

Section Main.
Context (w : Host).
(** The session's destructor after the loop has ended with [token] in its file: a token that is
    still there cannot be removed, and its directory stays with it. *)
Definition leave (s : TokenSession) (token : option string) (t : tree) : tree :=
  match token with None => destroy s t | Some _ => place_token (user w) s token t end.
(** The catch clause with no child. *)
Definition refused (t : tree) : Ended := MkEnded 2 None [] t.
(** From the running child on. *)
Definition supervise (s : TokenSession) (c : Child) (t : tree) : Ended :=
  let '(l, e) := run_loop (ticks w) initial_loop in
  let token := Bootstrap.token_file l in
  match e with
  | Exits status => MkEnded status (Some c) [] (leave s token t)
  | Fails _ running => MkEnded 2 (Some c) (if (running : bool) then stop_child (polls w) else []) (leave s token t)
  | Continues =>
    if last_removed w then MkEnded 0 (Some c) (stop_child (polls w)) (destroy s (place_token (user w) s token t))
    else MkEnded 2 (Some c) (stop_child (polls w)) (leave s token t)
  end.
(** From the public inputs on. *)
Definition start_session (inputs : ApplicationInputs) (env : gmap string string) : Ended :=
  match construct (user w) token_root (session_calls w) (files w) with
  | (t, Err _) => refused t
  | (t, Ok s) =>
    if negb (set_token_file w) || negb (set_resolver w) || negb (forked w) then refused (destroy s t)
    else
      let env := <["GRPC_DNS_RESOLVER"%string := "native"%string]>
                   (<["KUKSA_TOKEN_FILE"%string := path_text (token_file s)]> env) in
      supervise s (MkChild (child_argv inputs) env t) t
  end.
(** A demonstration: its exit code, or the catch clause. *)
Definition demonstrated (r : outcome Z) : option Ended :=
  match r with
  | Done code => Some (MkEnded code None [] (files w))
  | Thrown _ => Some (refused (files w))
  | Stopped => None
  end.
(** [main]; nothing while it has not ended: it still waits, or it was killed. *)
Definition bootstrap_main : option Ended :=
  let flag := default ""%string (last (arguments w)) in
  let demo_no_telemetry := String.eqb flag "--demo-no-telemetry" in
  let demo_mock := String.eqb flag "--demo-mocked-data" in
  let arguments := if demo_no_telemetry || demo_mock then removelast (arguments w) else arguments w in
  match (inputs ← parse_arguments arguments;
         initialize_service_inputs (fun key => environment w !! key)
           (read w "/usr/share/aosedge/service-release.json"%string 1024) inputs) with
  | Err _ => Some (refused (files w))
  | Ok inputs =>
    if demo_no_telemetry || demo_mock then
      match (bytes ← read w (metadata_file inputs) 8192; runtime_metadata inputs bytes) with
      | Err _ => Some (refused (files w))
      | Ok m =>
        if demo_no_telemetry then demonstrated (match run_demo_no_telemetry m with Ok code => Done code | Err e => Thrown e end)
        else demonstrated (run_demo_mock (mock w) (turns w) m (epoch w) (store w)).2
      end
    else
      match environment w !! "AOS_SECRET"%string with
      | None => Some (refused (files w))
      | Some secret =>
        if (ssize secret =? 0) || negb (is_ok (credential_request secret)) || negb (unset_secret w) then Some (refused (files w))
        else match wait_for_inputs inputs (waits w) with
        | None => None
        | Some (Err _) => Some (refused (files w))
        | Some (Ok false) => Some (MkEnded 0 None [] (files w))
        | Some (Ok true) =>
          if interrupted_then w then Some (MkEnded 0 None [] (files w))
          else Some (start_session inputs (delete "AOS_SECRET"%string (environment w)))
        end
      end
  end.
End Main.

(** ** The child's arguments and environment *)

Definition plain (c : ascii) (l : list ascii) : Prop := Forall (fun a => Ascii.eqb a c = false) l.
Lemma split_plain c l : plain c l -> split_on c l = [l].
Proof. induction 1 as [|a l Ha _ IH]; [done|]. cbn [split_on]. by rewrite IH, Ha. Qed.
Lemma split_cons c l : split_on c (c :: l) = [] :: split_on c l.
Proof.
  cbn [split_on]. rewrite Ascii.eqb_refl. destruct (split_on c l) eqn:E; [|done]. exfalso. revert E.
  destruct l as [|a l]; cbn [split_on]; [done|]. destruct (split_on c l); [done|by destruct (Ascii.eqb a c)].
Qed.
Lemma split_app c l k : plain c l -> split_on c (l ++ c :: k) = l :: split_on c k.
Proof.
  induction 1 as [|a l Ha _ IH]; [by apply split_cons|]. cbn [app split_on]. by rewrite IH, Ha.
Qed.
(** The names of a path are read back from its text. *)
Definition path_name (name : string) : Prop := name <> ""%string /\ plain "/" (chars name).
Lemma split_names name names :
  Forall path_name (name :: names) ->
  split_on "/" (flat_map (fun name => "/"%char :: chars name) (name :: names)) = [] :: map chars (name :: names).
Proof.
  revert name. induction names as [|name' names IH]; intros name [[_ Hp] Hl]%Forall_cons; cbn [flat_map]; cbn [app].
  - by rewrite app_nil_r, split_cons, split_plain.
  - rewrite split_cons. specialize (IH name' Hl). cbn [flat_map app] in IH |- *.
    rewrite (split_app _ _ _ Hp). rewrite split_cons in IH. injection IH as ->. done.
Qed.
Lemma filter_names l : Forall path_name l -> List.filter (fun n => negb (String.eqb n "")) l = l.
Proof.
  induction 1 as [|n l [Hn _] _ IH]; [done|]. cbn [List.filter]. apply String.eqb_neq in Hn. by rewrite Hn, IH.
Qed.
Lemma path_text_names p :
  absolute p = true -> elements p <> [] -> Forall path_name (elements p) -> path_of (path_text p) = p.
Proof.
  destruct p as [a [|name names]]; [done|]. cbn [absolute elements]. intros -> _ Hl. unfold path_of, path_text, names_of.
  cbn [elements]. rewrite chars_str, (split_names _ _ Hl). change (map str ([] :: ?l)) with (""%string :: map str l).
  rewrite map_map, (map_ext _ id), map_id by (intros n; apply str_chars).
  set (l := name :: names) in *. cbn [List.filter]. change (String.eqb "" "") with true. cbn [negb]. rewrite (filter_names _ Hl).
  rewrite (bool_decide_false (last _ = _)); [by rewrite andb_false_r|]. subst l. rewrite last_cons_cons. intros E.
  apply last_Some in E as (l' & E). rewrite E in Hl. apply Forall_app in Hl as [_ Hl]. inversion Hl as [|x y [Hx _]]. by subst.
Qed.
Lemma session_path_name name : session_name name = true -> path_name name.
Proof.
  intros H. split; [by apply session_real_name|]. unfold session_name in H. apply andb_true_iff in H as [[_ Hp]%andb_true_iff Ha].
  unfold plain. rewrite <- (take_drop 8 (chars name)). apply Forall_app. split.
  - apply String.eqb_eq, (f_equal chars) in Hp. unfold substr in Hp. rewrite chars_str in Hp.
    change (drop 0 (chars name)) with (chars name) in Hp. rewrite Hp. repeat constructor.
  - rewrite forallb_forall in Ha. apply Forall_forall. intros a Hin. apply list_elem_of_In, Ha in Hin.
    destruct (Ascii.eqb_spec a "/"); [|done]. by subst.
Qed.
(** The session's token is named to the child as it is. *)
Lemma session_text name s : session_of token_root name s -> path_of (path_text (token_file s)) = token_file s.
Proof.
  intros [_ _ -> Hn]. apply path_text_names; [done|by destruct (elements token_root)|].
  unfold append. cbn [elements]. repeat (apply Forall_app; split).
  - repeat constructor; done.
  - constructor; [by apply session_path_name|constructor].
  - repeat constructor; done.
Qed.
Lemma collect_same getenv getenv' keys e :
  (forall key, In key keys -> getenv key = getenv' key) -> collect_environment getenv keys e = collect_environment getenv' keys e.
Proof.
  revert e. induction keys as [|key keys IH]; intros e H; cbn [collect_environment]; [done|].
  rewrite (H key) by by left. destruct (getenv' key); [|done]. destruct (_ =? _); [done|]. apply IH. intros k Hk. apply H. by right.
Qed.
Lemma initialize_same getenv getenv' release inputs :
  (forall key, In key identity_keys -> getenv key = getenv' key) ->
  initialize_service_inputs getenv release inputs = initialize_service_inputs getenv' release inputs.
Proof. intros H. unfold initialize_service_inputs. by rewrite (collect_same getenv getenv' identity_keys ∅ H). Qed.
(** What is accepted from the command line. *)
Definition path_argument (text : string) : Prop := text = ""%string \/ is_absolute text = true.
Lemma argument_pairs_paths argv i i' :
  argument_pairs argv i = Ok i' -> path_argument (metadata_file i) -> path_argument (ca_file i) ->
  path_argument (metadata_file i') /\ path_argument (ca_file i') /\ native i' = native i.
Proof.
  revert i. induction argv as [argv IH] using (induction_ltof1 _ (@length string)). intros i.
  destruct argv as [|o [|v argv]]; cbn [argument_pairs]; [by intros [= <-]|done|].
  assert (Hlt : ltof _ (@length string) argv (o :: v :: argv)) by (unfold ltof; cbn [length]; lia).
  destruct (String.eqb o _).
  - destruct (negb (_ =? 0)); [done|]. destruct (is_absolute v) eqn:Ev; cbn [negb]; [|done]. intros H _ Hc.
    apply (IH argv Hlt _ H); [by right|done].
  - destruct (String.eqb o _); [|done]. destruct (negb (_ =? 0)); [done|]. destruct (is_absolute v) eqn:Ev; cbn [negb]; [|done].
    intros H Hm _. apply (IH argv Hlt _ H); [done|by right].
Qed.
(** The child is given what the bootstrap accepted. *)
Lemma parse_again argv i : parse_arguments argv = Ok i -> parse_arguments (child_argv i) = Ok i.
Proof.
  unfold parse_arguments at 1. intros (i' & H & Hi)%bind_Ok. destruct (_ || _) eqn:E; [done|]. apply Ok_inj in Hi as ->.
  apply argument_pairs_paths in H as (Hm & Hc & Hn); [|by left..]. apply orb_false_iff in E as [Em Ec].
  assert (X : forall text, (ssize text =? 0) = false -> path_argument text -> is_absolute text = true) by (intros text Ht [->|Ha]; done).
  apply X in Hm, Hc; [|done..]. destruct i as [m c n]. cbn [native metadata_file ca_file] in *. subst n.
  unfold parse_arguments, child_argv. cbn [argument_pairs metadata_file ca_file native].
  change (String.eqb "--metadata-file" "--metadata-file") with true. change (String.eqb "--ca-file" "--metadata-file") with false.
  change (String.eqb "--ca-file" "--ca-file") with true. change (ssize "" =? 0) with true. cbn [negb]. rewrite Hm, Hc.
  cbn [negb mbind res_mbind metadata_file ca_file]. by rewrite Em, Ec.
Qed.

(** ** Sessions of the process *)

Lemma construct_opened u root k t t' s :
  construct u root k t = (t', Ok s) -> exists d, open_private_token_directory u t' (parent_path (token_file s)) = Ok d.
Proof.
  unfold construct. destruct (open_directory t root) as [d|]; [|done]. destruct (t !! d); [|done].
  destruct (_ || _); [done|]. destruct (_ || _); [done|]. destruct (8 <=? _); [done|]. destruct (made k); [|done].
  destruct (make_directory _ _ _) as [t1|]; [|done]. unfold adopt.
  destruct (open_private_token_directory u t1 _) as [d'|] eqn:Ed; cbn [mbind res_mbind]; [|done].
  destruct (session_name _); cbn [negb throw_if mbind res_mbind]; [|done]. intros [= <- <-]. cbn [token_file]. by exists d'.
Qed.
(** Its directory and whatever token the loop left in it are gone with it. *)
Lemma session_removed u k t t' s token :
  well_formed t -> construct u token_root k t = (t', Ok s) -> destroy s (place_token u s token t') = t.
Proof.
  intros Hw Hc. assert (H : shared token_root t (destroy s (place_token u s token t')) []).
  { apply (shared_destroy token_root t _ [] s []). destruct token as [text|]; cbn [place_token app].
    - apply (shared_at_token token_root t t' [s] s); [|by left|right; by exists (node_of_leaf u (MkLeaf (chars text) 256))].
      by apply (shared_construct token_root t t [] u k); [apply shared_initial|].
    - by apply (shared_construct token_root t t [] u k); [apply shared_initial|]. }
  apply map_eq. intros p. apply (shared_rest _ _ _ _ H). by intros s' [].
Qed.
Lemma session_named u k t t' s :
  well_formed t -> construct u token_root k t = (t', Ok s) ->
  token_file_from_environment u t' (Some (path_text (token_file s))) = Ok (token_file s).
Proof.
  intros Hw Hc. destruct (construct_opened _ _ _ _ _ _ Hc) as (d & Hd).
  apply construct_cases in Hc as (name & Hs & _); [|done]. unfold token_file_from_environment. cbv zeta.
  rewrite (session_text name s Hs).
  destruct (proj2 (session_token_names (token_file s)) (ex_intro _ name (conj (of_name _ _ _ Hs) (of_file _ _ _ Hs)))) as (E1 & E2 & E3).
  rewrite E1, E3, bool_decide_true by done. cbn [negb orb]. by rewrite Hd.
Qed.
Lemma child_gone_false n answers : child_gone n answers = false <-> forall i, (i < n)%nat -> answers i = Otherwise.
Proof.
  revert answers. induction n as [|n IH]; intros answers; cbn [child_gone]; [split; [intros _ i H; lia|done]|].
  split.
  - destruct (answers O) eqn:E; [done..|]. rewrite IH. intros H [|i] Hi; [done|]. apply H. lia.
  - intros H. rewrite (H O) by lia. apply IH. intros i Hi. apply H. lia.
Qed.

(** ** From the bootstrap process to the analytics process *)

(** How the process ends once the child runs: with the child's exit, or ending it. *)
Definition child_ended (w : Host) (r : Ended) : Prop :=
  match (run_loop (ticks w) initial_loop).2 with
  | Exits status => exit_code r = status /\ signals r = []
  | Fails _ false => exit_code r = 2 /\ signals r = []
  | Fails _ true => exit_code r = 2 /\ signals r = stop_child (polls w)
  | Continues => exit_code r = (if last_removed w then 0 else 2) /\ signals r = stop_child (polls w)
  end.
(** Whenever it has to, the process can remove the token. *)
Definition removable (w : Host) : Prop := can_remove (ticks w) /\ last_removed w = true.
(** No child was started. *)
Definition childless (w : Host) (r : Ended) : Prop := child r = None /\ signals r = [] /\ files_left r = files w.
(** The environment the session adds to. *)
Definition session_environment (s : TokenSession) (env : gmap string string) : gmap string string :=
  <["GRPC_DNS_RESOLVER"%string := "native"%string]> (<["KUKSA_TOKEN_FILE"%string := path_text (token_file s)]> env).
Lemma start_cases w inputs env :
  well_formed (files w) -> let r := start_session w inputs env in
  childless w r \/
  exists s t, construct (user w) token_root (session_calls w) (files w) = (t, Ok s) /\
    child r = Some (MkChild (child_argv inputs) (session_environment s env) t) /\ (removable w -> files_left r = files w) /\ child_ended w r.
Proof.
  intros Hw r. subst r. unfold start_session. destruct (construct _ _ _ _) as [t [s|e]] eqn:Ec.
  - destruct (_ || _); [left; split_and!; try done; exact (session_removed _ _ _ _ _ None Hw Ec)|].
    right. exists s, t. split; [done|]. unfold supervise, child_ended. cbv zeta.
    pose proof (fun token => session_removed _ _ _ _ _ token Hw Ec) as Hd.
    pose proof (fun H => run_loop_ended (ticks w) initial_loop H) as Hend.
    destruct (run_loop _ _) as [l e]. cbn [fst snd] in *. unfold removable.
    destruct e as [|status|e []]; [destruct (last_removed w)|..]; (split; [done|split; [|by split]]); intros [Hr Hlast]; try done.
    + apply Hd.
    + cbn [files_left]. rewrite (Hend Hr). exact (Hd None).
    + cbn [files_left]. rewrite (Hend Hr). exact (Hd None).
    + cbn [files_left]. rewrite (Hend Hr). exact (Hd None).
  - left. apply construct_cases in Ec as ->; [|done]. by split_and!.
Qed.
(** What the bootstrap has checked when it starts its session. *)
Record checked (w : Host) (inputs : ApplicationInputs) : Prop := {
  checked_arguments : exists i, parse_arguments (arguments w) = Ok i /\
    initialize_service_inputs (fun key => environment w !! key)
      (read w "/usr/share/aosedge/service-release.json"%string 1024) i = Ok inputs;
  checked_inputs : exists reader m, In (false, reader) (waits w) /\ initial_runtime_metadata reader inputs = Ok (Some m) }.
Lemma wait_for_inputs_Ok inputs l :
  wait_for_inputs inputs l = Some (Ok true) ->
  exists reader m, In (false, reader) l /\ initial_runtime_metadata reader inputs = Ok (Some m).
Proof.
  induction l as [|[[] reader] l IH]; cbn [wait_for_inputs]; [done..|].
  destruct (initial_runtime_metadata reader inputs) as [[m|]|] eqn:E; [|intros H|done].
  - intros _. exists reader, m. split; [by left|done].
  - apply IH in H as (reader' & m & Hin & Hm). exists reader', m. split; [by right|done].
Qed.
Lemma main_cases w r :
  bootstrap_main w = Some r ->
  childless w r \/
  exists inputs, checked w inputs /\ r = start_session w inputs (delete "AOS_SECRET"%string (environment w)).
Proof.
  unfold bootstrap_main. cbv zeta. set (demo := _ || _).
  destruct (mbind _ (parse_arguments _)) as [inputs|e] eqn:Ei; [|by intros [= <-]; left].
  assert (Hdemo : forall o, demonstrated w o = Some r -> childless w r) by (intros [c|e|]; cbn; [intros [= <-]..|]; done).
  apply bind_Ok in Ei as (i & Hi & Hn). destruct demo.
  { destruct (mbind _ _) as [m|e]; [|by intros [= <-]; left]. destruct (String.eqb _ _); intros H; left; by eapply Hdemo. }
  destruct (environment w !! "AOS_SECRET"%string) as [secret|]; [|by intros [= <-]; left].
  destruct (_ || _); [by intros [= <-]; left|]. destruct (wait_for_inputs inputs (waits w)) as [[[]|e]|] eqn:Ew; [|by intros [= <-]; left..|done].
  destruct (interrupted_then w); [by intros [= <-]; left|]. intros [= <-]. right. exists inputs. split; [|done].
  split; [by exists i|by apply wait_for_inputs_Ok].
Qed.
(** C8: the bootstrap process leaves nothing behind.  However it ends, by refusing its inputs,
    interrupted, with its child or by a failure, the directories of tokens are as they were before
    it ran, as long as its token can be removed.  A child never inherits the secret, is told where
    the token will be and resolves names locally; and unless it has exited by itself, when its code
    is passed on, it is told to end, and killed just when fifty polls have not found it gone. *)
Theorem bootstrap_leaves_nothing w r :
  well_formed (files w) -> bootstrap_main w = Some r ->
  (removable w -> files_left r = files w) /\
  match child r with
  | None => signals r = []
  | Some c =>
    child_environment c !! "AOS_SECRET"%string = None /\
    child_environment c !! "GRPC_DNS_RESOLVER"%string = Some "native"%string /\
    (exists s, session_of token_root (filename (parent_path (token_file s))) s /\
      child_environment c !! "KUKSA_TOKEN_FILE"%string = Some (path_text (token_file s)) /\
      child_files c = <[session_fd s := new_directory (user w)]> (files w)) /\
    ((exists status, (run_loop (ticks w) initial_loop).2 = Exits status /\ exit_code r = status /\ signals r = []) \/
     (exists e, (run_loop (ticks w) initial_loop).2 = Fails e false /\ exit_code r = 2 /\ signals r = []) \/
     In SIGTERM (signals r) /\ (In SIGKILL (signals r) <-> forall i, (i < 50)%nat -> polls w i = Otherwise))
  end.
Proof.
  intros Hw [(Hc & Hs & Hf)|(inputs & _ & ->)]%main_cases; [by rewrite Hc|].
  destruct (start_cases w inputs (delete "AOS_SECRET"%string (environment w)) Hw) as [(Hc & Hs & Hf)|(s & t & Ht & Hc & Hf & He)];
    [by rewrite Hc|]. rewrite Hc. cbn [child_environment child_files]. split; [exact Hf|].
  unfold session_environment. split_and!.
  - by rewrite !lookup_insert_ne, lookup_delete_eq.
  - by rewrite lookup_insert_eq.
  - apply construct_cases in Ht as (name & Hs & _ & _ & _ & ->); [|done]. exists s.
    rewrite (of_file _ _ _ Hs) at 1. rewrite parent_append, filename_append, (of_directory _ _ _ Hs).
    split_and!; [done| |done]. by rewrite lookup_insert_ne, lookup_insert_eq.
  - unfold child_ended in He. pose proof (child_gone_false 50 (polls w)) as Hg. unfold stop_child in He.
    destruct (run_loop _ _).2 as [|status|e []]; [right; right|left; by exists status|right; right|right; left; by exists e].
    all: destruct He as [_ ->]; destruct (child_gone 50 (polls w)); (split; [by left|]); rewrite <- Hg; cbn; naive_solver.
Qed.
(** C9: the analytics process accepts what the bootstrap process hands it.  The child's own checks
    of its arguments, environment, token file and metadata pass and give the bootstrap's inputs,
    as long as the package's release and the metadata read as they did for the bootstrap. *)
Theorem child_accepts w r c :
  well_formed (files w) -> bootstrap_main w = Some r -> child r = Some c ->
  let getenv key := child_environment c !! key in
  let named := token_file_from_environment (user w) (child_files c) (getenv "KUKSA_TOKEN_FILE"%string) in
  exists inputs reader m,
    (i ← parse_arguments (arguments w);
     initialize_service_inputs (fun key => environment w !! key) (read w "/usr/share/aosedge/service-release.json"%string 1024) i) = Ok inputs /\
    In (false, reader) (waits w) /\ initial_runtime_metadata reader inputs = Ok (Some m) /\ is_ok named = true /\
    forall read',
      read' "/usr/share/aosedge/service-release.json"%string 1024 = read w "/usr/share/aosedge/service-release.json"%string 1024 ->
      (forall bytes, reader (metadata_file inputs) 8192 = Ok (Some bytes) -> read' (metadata_file inputs) 8192 = Ok bytes) ->
      analytics_start (child_arguments c) getenv (_ ← named; Ok tt) read' = Ok (inputs, m).
Proof.
  intros Hw [(Hc & _)|(inputs & [(i & Hi & Hn) (reader & m & Hin & Hm)] & ->)]%main_cases Hchild; [congruence|].
  destruct (start_cases w inputs (delete "AOS_SECRET"%string (environment w)) Hw) as [(Hc & _)|(s & t & Ht & Hc & _)]; [congruence|].
  assert (Ec : c = MkChild (child_argv inputs) (session_environment s (delete "AOS_SECRET"%string (environment w))) t) by congruence.
  subst c. cbn [child_environment child_files child_arguments]. cbv zeta. exists inputs, reader, m.
  assert (Hnamed : token_file_from_environment (user w) t
    (session_environment s (delete "AOS_SECRET"%string (environment w)) !! "KUKSA_TOKEN_FILE"%string) = Ok (token_file s)).
  { unfold session_environment. rewrite lookup_insert_ne, lookup_insert_eq by done. by eapply session_named. }
  rewrite Hnamed, Hi. split_and!; try done. intros read' Hrelease Hmetadata.
  assert (Hfiles : metadata_file inputs = metadata_file i /\ ca_file inputs = ca_file i).
  { unfold initialize_service_inputs in Hn. apply bind_Ok in Hn as (e & _ & Hn). apply bind_Ok in Hn as (b & _ & Hn).
    apply bind_Ok in Hn as (n & _ & Hn). by apply Ok_inj in Hn as <-. }
  assert (Hargv : child_argv inputs = child_argv i) by (unfold child_argv; by destruct Hfiles as [-> ->]).
  unfold analytics_start. rewrite Hargv, (parse_again _ _ Hi). cbn [mbind res_mbind]. rewrite Hrelease.
  rewrite (initialize_same _ (fun key => environment w !! key)), Hn.
  2: { intros key Hkey. unfold session_environment. cbn in Hkey.
       destruct Hkey as [<-|[<-|[<-|[<-|[]]]]]; by rewrite !lookup_insert_ne, lookup_delete_ne. }
  cbn [mbind res_mbind]. unfold session_environment. rewrite !lookup_insert_ne, lookup_delete_eq by done.
  cbn [is_some throw_if mbind res_mbind]. unfold initial_runtime_metadata in Hm. destruct (native inputs); [|done].
  apply bind_Ok in Hm as (b & Hb & Hm). destruct b as [bytes|]; [|done]. rewrite (Hmetadata _ Hb). cbn [mbind res_mbind].
  apply bind_Ok in Hm as (m' & Hm' & Hm). rewrite Hm'. apply bind_Ok in Hm as (ca & _ & Hm).
  destruct ca; [|done]. apply Ok_inj in Hm. injection Hm as ->. done.
Qed.

(** ** A run *)

(** The metadata is missing at first; a token is issued; the process is interrupted and the child
    takes four polls to end. *)
Definition process_read (file : string) (limit : Z) : res string :=
  if String.eqb file "/data/ca.pem" then Ok "ca"%string else sample_read file limit.
Definition sample_reader (file : string) (limit : Z) : res (option string) :=
  match process_read file limit with Ok bytes => Ok (Some bytes) | Err _ => Ok None end.
Definition sample_host : Host :=
  MkHost sample_argv
    (list_to_map [("AOS_SECRET", "s"); ("AOS_ITEM_ID", "tire"); ("AOS_SUBJECT_ID", "subject-1"); ("AOS_INSTANCE_INDEX", "0"); ("AOS_INSTANCE_ID", "i:7")]%string)
    process_read [(false, fun _ _ => Ok None); (false, sample_reader)] false true true true true service_user sample_calls sample_tree
    [tick 1000 None; tick 2000 (Some (Ok (sample_credential 2))); tick 2100 None] true
    (fun i => if (i =? 3)%nat then Reaped else Otherwise) quiet_world sample_source (disk sample_runtime) 0.
Lemma sample_checked :
  match (i ← parse_arguments sample_argv; initialize_service_inputs (fun key => environment sample_host !! key) (Ok release_text) i) with
  | Ok inputs => inputs = sample_inputs
  | Err _ => False
  end.
Proof. vm_compute. reflexivity. Qed.
Definition sample_ended : Ended := start_session sample_host sample_inputs (delete "AOS_SECRET"%string (environment sample_host)).
Lemma sample_bootstrap : bootstrap_main sample_host = Some sample_ended.
Proof.
  pose proof sample_checked as H. unfold bootstrap_main. cbv zeta.
  change (String.eqb (default ""%string (last (arguments sample_host))) "--demo-no-telemetry") with false.
  change (String.eqb (default ""%string (last (arguments sample_host))) "--demo-mocked-data") with false. cbn [orb].
  change (arguments sample_host) with sample_argv.
  change (read sample_host "/usr/share/aosedge/service-release.json"%string 1024) with (Ok release_text).
  destruct (mbind _ (parse_arguments sample_argv)) as [inputs|]; [|destruct H]. subst inputs.
  change (environment sample_host !! "AOS_SECRET"%string) with (Some "s"%string).
  change ((ssize "s" =? 0) || negb (is_ok (credential_request "s")) || negb (unset_secret sample_host)) with false.
  replace (wait_for_inputs sample_inputs (waits sample_host)) with (Some (Ok true)) by (vm_compute; reflexivity). reflexivity.
Qed.
Example sample_end :
  let r := sample_ended in
  (exit_code r, signals r, child_arguments <$> child r) = (0, [SIGTERM], Some sample_argv) /\
  bool_decide (files_left r = sample_tree) = true /\
  (c ← child r; child_environment c !! "KUKSA_TOKEN_FILE"%string) = Some "/run/aosedge/secrets/kuksa/session-Ab12Cd/token.jwt"%string.
Proof. split_and!; vm_compute; reflexivity. Qed.
Lemma bootstrap_leaves_nothing_witness : exists r, bootstrap_main sample_host = Some r /\ files_left r = sample_tree.
Proof.
  exists sample_ended. split; [exact sample_bootstrap|].
  assert (H : removable sample_host) by (split; [repeat constructor|reflexivity]).
  exact (proj1 (bootstrap_leaves_nothing sample_host sample_ended sample_well_formed sample_bootstrap) H).
Defined.
Lemma sample_child : exists c, child sample_ended = Some c.
Proof.
  assert (X : is_some (child sample_ended) = true) by (vm_compute; reflexivity).
  destruct (child sample_ended) as [c|]; [by exists c|discriminate X].
Qed.
Lemma child_accepts_witness :
  exists c inputs m, child sample_ended = Some c /\
    let getenv key := child_environment c !! key in
    analytics_start (child_arguments c) getenv
      (_ ← token_file_from_environment service_user (child_files c) (getenv "KUKSA_TOKEN_FILE"%string); Ok tt) process_read = Ok (inputs, m).
Proof.
  destruct sample_child as [c Hc].
  destruct (child_accepts sample_host sample_ended c sample_well_formed sample_bootstrap Hc) as (inputs & reader & m & _ & Hin & Hm & _ & H).
  exists c, inputs, m. split; [exact Hc|]. apply H; [reflexivity|]. intros bytes Hb.
  destruct Hin as [E|[E|[]]]; injection E as <-; [discriminate Hb|]. unfold sample_reader in Hb.
  destruct (process_read (metadata_file inputs) 8192); congruence.
Defined.
